(* ===== verification/_CoqProject ===== *)
-Q . S2P
Prelude.v
InodeStore.v
Treedisk.v
TreediskSpec.v
TreediskRead.v
TreediskAlloc.v
TreediskGrow.v
TreediskWalk.v
TreediskWrite.v
TreediskCreate.v
TreediskProps.v
Mydisk.v
Earth.v
Timer.v
Mmu.v
SoftTlb.v
MmuProps.v
PageTable.v
PageTableProps.v
Process.v
Kernel.v
KernelInv.v
KernelIpc.v
KernelSched.v
KernelTrace.v
KernelFair.v
KernelProps.v
KernelWitness.v
Syscall.v
CString.v
Shell.v
Disk.v
DiskSpec.v
SdSim.v
DiskProps.v
Tty.v
Terminal.v
Print.v
DiskInit.v
Dir.v
FileServer.v
Net.v
NetProps.v
Elf.v
Devices.v
ElfSpec.v
ElfProps.v
TrapEntry.v
SysProc.v
SysProcProps.v
Startup.v
Heap.v
UserApps.v
ShellMain.v
Cd.v
Mkfs.v
MkfsProps.v
AppWorld.v
Boot.v
BootProps.v
Multicore.v
BootImage.v
