(* ===== verification/Prelude.v ===== *)
(** * A verification of egos-2000

    egos-2000 is a small operating system in three layers: the _earth_ layer
    drives the hardware ([src/earth]), the _grass_ layer is the kernel
    ([src/grass]), and system servers and applications run as processes on top
    ([src/apps]) with the libraries of [src/library].  This library models the
    code of these layers as functions in an error and state monad and proves what
    the parts promise to one another.

    ** The parts and their interaction

    - The earth layer gives the kernel [struct earth], a table of operations for
      memory, timer, terminal and disk.  The kernel is proved against the class
      [EarthSpec] of what it relies on; the software TLB is an instance.
    - The kernel keeps 16 processes, schedules them round robin on timer
      interrupts, and passes messages between them.  All other services are
      processes that exchange messages.
    - The file server reads blocks through a file system, which is a stack of
      _inode stores_, tables of operations with the class [StoreSpec] as
      contract: the disk below, treedisk (or mydisk) above.
    - The ELF loader makes an address space from an executable, for the kernel
      (from the disk) and for the process server (from the disk and from the file
      server).  It runs on any state that contains a machine (the class
      [HasMachine]) and prints with the [term_write] it is given; the process server
      runs on a machine with its terminal and disk (the class [Devices]), of which the
      board of [Boot] is an instance.
    - The shell parses command lines into requests to the process server; the
      client library turns calls such as [file_read] and [dir_lookup] into
      messages to the servers.  Applications print and read files through it;
      they are proved against the class [AppEnv], which the two servers over their
      drivers satisfy ([AppWorld]).
    - All cores enter [boot_loader] and compete for a lock; [boot], on the first
      one, initialises the devices and enters GPID_PROCESS, which starts the other
      servers; [mkfs] makes the disk they run from.
    - Programs enter the kernel through [trap_entry], which saves and reloads their
      registers around [kernel_entry], and start in [app_entry].

    ** Files and sources

    - [Prelude]: outcomes, the monad [M S A] (a result, [Fatal] with a message,
      [Stuck] for undefined behaviour, [NoFuel]), weakest preconditions [wp],
      32-bit words, bytes, tactics and the hint database [egos].
    - [InodeStore]: [library/file/disk.h], [inode.h], and the ramdisk of
      [tools/mkfs.c].  [Mkfs], [MkfsProps]: the rest of [tools/mkfs.c].
    - [Treedisk] (definitions), [TreediskSpec] (the abstract files and the
      invariant), [TreediskRead], [TreediskAlloc], [TreediskGrow],
      [TreediskWalk], [TreediskWrite], [TreediskCreate], [TreediskProps]:
      [library/file/file1.c] and [file1.h].
    - [Mydisk]: [library/file/file0.c].
    - [Boot], [BootProps]: [earth/boot.c], and the parts of [mmu_init],
      [intr_init] and [grass_entry] that run once.  [Multicore]: [earth/boot.s] on
      all cores.  [BootImage]: the boot and the start of the servers from the image
      of [mkfs].
    - [TrapEntry]: [grass/kernel.s] and [apps/app.s], as sequences of instructions,
      composed with the kernel.
    - [Earth]: [library/egos.h].  [Timer]: [earth/cpu_intr.c].
      [Mmu], [SoftTlb], [MmuProps]: allocator and software TLB of
      [earth/cpu_mmu.c]; [PageTable], [PageTableProps]: its page tables.
    - [Process]: [grass/process.h], [library/syscall/syscall.h] and the ids of
      [servers.h].  [Kernel]: [grass/kernel.c], [process.c] and [init.c].
      [KernelInv], [KernelIpc], [KernelSched], [KernelTrace], [KernelFair],
      [KernelProps], [KernelWitness]: its invariant, message passing,
      scheduling, reachable states, fairness, theorems, and concrete runs.
    - [CString]: the functions of the C library on strings that the code uses.
    - [Shell]: [parse_request] and the decisions of [apps/system/sys_shell.c];
      [ShellMain]: its [main], over the class [ShellEnv] of what it relies on.
    - [Disk]: reading and writing of [earth/dev_disk.c]; [DiskInit]: its [sd_init] and
      [disk_init], with what they print.  [DiskSpec]: what the SPI controllers and an SD
      card guarantee (the classes [SpiSpec] and [SdCard]); [SdSim]: a card and
      controllers that satisfy them; [DiskProps]: the theorems.
    - [Dir]: [dir_lookup] of [library/syscall/servers.c] and the directory format
      of [tools/mkfs.c].
    - [FileServer]: [apps/system/sys_file.c] and [file_read] of [servers.c].
    - [Net], [NetProps]: [apps/user/udp_demo.c].
    - [Elf], [ElfProps]: [library/elf/elf.h] and [elf.c].  [ElfSpec]: what an executable
      describes, byte by byte of its segments.  [Devices]: a machine with its devices.
    - [Tty]: [earth/dev_tty.c] with the contracts of the UARTs ([UartSpec]) and of
      the driver ([TtySpec]).  [Terminal]: [apps/system/sys_terminal.c] and
      [term_read] and [term_write] of [servers.c].
    - [Syscall]: [library/syscall/syscall.c], composed with the kernel's message
      passing.
    - [SysProc], [SysProcProps]: [apps/system/sys_proc.c]; [Startup]: its start-up,
      that of the other servers, and [exit] of [servers.c].
    - [Print]: [library/libc/print.c].  [Heap]: [library/libc/malloc.c] and
      [apps/user/crash2.c].
    - [UserApps]: [apps/user/echo.c], [ls.c], [cat.c], [loop.c] and [vga_demo.c].
      [Cd]: [apps/user/cd.c] with the working directory of [apps/app.h].
      [AppWorld]: the applications on the servers, on the image of [mkfs].

    Definitions keep the names of the source.  The state of a component is a
    record (the process table, the frame table with memory and clock, the disk as
    a list of blocks); shared objects, such as the buffer that holds both the
    request and the reply of a server, are one value that both views read and
    write.  Function pointers are records of operations.  Messages and on-disk
    structures are bytes with their layout.

    ** What the theorems show

    - _File system_: every operation of treedisk, on a well-formed disk, refines
      an abstract map from inode numbers to sequences of blocks, in single calls
      and in histories; creation establishes the invariant; the failures are
      exactly the full disk and inode numbers out of range.
    - _Kernel_: an invariant of all states reachable from boot; the effect of
      timer interrupts and of system calls, with every way to fail; a program finds
      its registers as they were when it is resumed, through the assembly and the
      kernel, and a new one its arguments; a trap writes user memory only to
      deliver messages, with their true sender; no process starves.
    - _Memory_: the allocator, mapping, switching and freeing keep address spaces
      private; the identity page tables translate exactly RAM and the devices.
    - _Devices_: the clock and timer are read and set consistently in two halves;
      the SD driver reads and writes the blocks of any card that follows the
      protocol, over both controllers, and falls back to the flash without one
      ([DiskInit.disk_init_correct]).
    - _Processes_: for an executable with aligned segments the loader builds the
      address space that the executable describes and no other, and logs the segments of
      kernel processes.
    - _Services_: the file server, over driver and file system together, answers
      with the block of the abstract file; directory lookup finds the entries
      that mkfs prints; command lines become their words; the UDP frame passes
      the checks of a receiver.
      Reading a line is a line editor whose echo shows the line on the screen; a
      message sent by one process arrives at the other unchanged; spawning a
      command composes directory lookup, process allocation and the loader, and
      the shell and the process server agree on who waits for whom, and the shell
      is a reader and evaluator of lines over them.
    - _From image to application_: [mkfs] builds a well-formed file system with the
      directories and programs; however the cores interleave, one of them boots;
      [boot] reaches GPID_PROCESS in the state from which the servers get the process
      ids that [servers.h] promises, and on the image of a build it enters, and
      starts, exactly the servers of the build; on the image, [cd]
      keeps path and inode of the working directory together and [ls] lists it;
      the log functions print exactly their text and fit in their buffer only when
      it does; [_sbrk] hands out adjacent regions of the heap.
    - Some theorems and lemmas record behaviour that the code does not intend
      (for example [KernelWitness.killall_can_halt],
      [Mydisk.mydisk_windows_overlap], [Dir.dir_lookup_wraps],
      [Shell.blank_line_reads_before_argv], [ShellMain.long_line_overruns],
      [ElfProps.bss_page_missing]).

    ** Integers, bounds and fuel

    The target is RV32 with unsigned [char]: words are [Z] with [u32] and [i32]
    written where the code wraps.  Loops that are not structural have fuel, and
    the theorems show that it is enough: 33 for the level loop of treedisk (there
    are at most 33 shifts of a 32-bit number), the number of blocks for
    [setup_freelist], 32 for the loop of [treedisk_init], 2 for [mtime_get] (the
    high half changes at most once), 4 for the RAM regions, one round per byte
    for [dir_lookup], 2 for the carries of [checksum], one round per block and
    page in [elf_load].  Loops that poll a device take their fuel as a parameter:
    it must exceed the patience after which the hardware is guaranteed to answer.

    ** What is not modelled

    Cache fences, which no modelled state depends on.  Exercises that are empty in
    the source: as distributed, the cores compete for the boot lock ([Multicore]), but
    only the one that boots goes on to run the kernel.  The C library's [malloc] (and
    with it [apps/user/crash1.c], a call of it; [Heap.crash1_faults] is what [_sbrk]
    answers) and the host's files and terminal, which [mkfs] uses.  The lines that
    treedisk prints next to its results (the [TDERR] lines, which come with a result of
    -1, and those of [treedisk_create], which run on the host), and the numbers in the
    texts of [FATAL], whose text is part of the outcome.  What compiled C
    code leaves in the registers is an arbitrary function that respects the calling
    convention.  The stack of the kernel is modelled as far as the assembly and
    [kernel_entry] share it.  The messages between the servers at start-up are a
    parameter of [start_servers] with the contract [recv_ok]; that a message arrives is
    [Syscall.message_delivered], and what the servers send are [terminal_start_sends]
    and [file_start_sends] of [Startup].  In the same way the [file_read] that
    [app_spawn] calls is a parameter which acts on the machine and its devices; what the
    exchange with the file server does to the process table in between is not part of
    [SysProc].  The instance of
    [ShellEnv] joins the terminal server with a small process server of two
    commands; that [sys_proc.c] follows the same protocol is the theorem
    [SysProcProps.spawn_protocol].
    The order in which the servers' loops interleave is that of the kernel: a
    server is modelled as what it does between receiving a message and sending
    the answer. *)

From stdpp Require Export base list gmap numbers strings.
From stdpp Require Import options.
From coqutil Require Import Byte.

#[global] Open Scope Z_scope.

(** ** Outcomes of C code

    A C function either returns ([Ok]), calls [FATAL]/[panic] and never comes
    back ([Fatal], with the message), performs an access the C standard leaves
    undefined ([Stuck]: an array index out of range), or exhausts the fuel of a
    loop the model bounds ([NoFuel]). *)
Inductive outcome (A : Type) : Type :=
| Ok (a : A)
| Fatal (msg : string)
| Stuck
| NoFuel.
Arguments Ok {A} a.
Arguments Fatal {A} msg.
Arguments Stuck {A}.
Arguments NoFuel {A}.

(** Stateful C code: explicit state passing over outcomes. *)
Definition M (S A : Type) : Type := S -> outcome (A * S).

#[global] Instance M_ret S : MRet (M S) := fun A a s => Ok (a, s).
#[global] Instance M_bind S : MBind (M S) := fun A B k m s =>
  match m s with
  | Ok (a, s') => k a s'
  | Fatal e => Fatal e
  | Stuck => Stuck
  | NoFuel => NoFuel
  end.
#[global] Arguments M_ret : simpl never.
#[global] Arguments M_bind : simpl never.
Definition mfatal {S A} (msg : string) : M S A := fun _ => Fatal msg.
Definition mstuck {S A} : M S A := fun _ => Stuck.
Definition mnofuel {S A} : M S A := fun _ => NoFuel.
Definition mget {S} : M S S := fun s => Ok (s, s).
Definition mput {S} (s : S) : M S unit := fun _ => Ok (tt, s).
Definition mmodify {S} (f : S -> S) : M S unit := fun s => Ok (tt, f s).
Definition mgets {S A} (f : S -> A) : M S A := fun s => Ok (f s, s).
(** Lift a pure, possibly failing computation. *)
Definition mlift {S A} (o : outcome A) : M S A :=
  fun s => match o with
           | Ok a => Ok (a, s)
           | Fatal e => Fatal e
           | Stuck => Stuck
           | NoFuel => NoFuel
           end.
(** [if (c) panic(msg);] *)
Definition panic_if {S} (c : bool) (msg : string) : M S unit :=
  if c then mfatal msg else mret tt.
(** An array access: out of range is undefined. *)
Definition mopt {S A} (o : option A) : M S A :=
  match o with Some a => mret a | None => mstuck end.

Create HintDb egos discriminated.

(** *** Weakest preconditions

    [wp E m s Q]: run from [s], [m] either returns a result satisfying [Q] or
    stops with a message allowed by [E]; it is never undefined and never out
    of fuel. *)
Definition wp {S A} (E : string -> Prop) (m : M S A) (s : S)
    (Q : A -> S -> Prop) : Prop :=
  match m s with
  | Ok (a, s') => Q a s'
  | Fatal e => E e
  | Stuck | NoFuel => False
  end.

Section wp_rules.
Context {S A B : Type} (E : string -> Prop).

Lemma wp_ret (a : A) (s : S) Q : Q a s -> wp E (mret (M:=M S) a) s Q.
Proof. done. Qed.

Lemma wp_bind (m : M S A) (k : A -> M S B) s Q :
  wp E m s (fun a s' => wp E (k a) s' Q) -> wp E (m ≫= k) s Q.
Proof. unfold wp, mbind, M_bind. by destruct (m s) as [[a s']| | |]. Qed.

Lemma wp_bind_inv (m : M S A) (k : A -> M S B) s Q :
  wp E (m ≫= k) s Q -> wp E m s (fun a s' => wp E (k a) s' Q).
Proof. unfold wp, mbind, M_bind. by destruct (m s) as [[a s']| | |]. Qed.

Lemma wp_conseq (E' : string -> Prop) (m : M S A) s Q Q' :
  wp E' m s Q' -> (forall e, E' e -> E e) ->
  (forall a s', Q' a s' -> Q a s') -> wp E m s Q.
Proof. unfold wp. destruct (m s) as [[a s']| | |]; auto. Qed.

Lemma wp_mono (m : M S A) s Q Q' :
  wp E m s Q' -> (forall a s', Q' a s' -> Q a s') -> wp E m s Q.
Proof. eauto using wp_conseq. Qed.

Lemma wp_ok (m : M S A) s a s' Q : m s = Ok (a, s') -> Q a s' -> wp E m s Q.
Proof. unfold wp. by intros ->. Qed.

Lemma wp_panic_if c msg (s : S) Q :
  (c = true -> E msg) -> (c = false -> Q tt s) -> wp E (panic_if c msg) s Q.
Proof. unfold wp, panic_if. destruct c; simpl; auto. Qed.

Lemma wp_fatal msg (s : S) Q : E msg -> wp E (@mfatal S A msg) s Q.
Proof. done. Qed.
End wp_rules.

(** A computation that cannot stop returns. *)
Lemma wp_returns {S A} (m : M S A) s Q : wp (fun _ => False) m s Q ->
  exists a s', m s = Ok (a, s') /\ Q a s'.
Proof. unfold wp. destruct (m s) as [[a s']| | |]; [eauto|done|done|done]. Qed.

(** The state after a computation that returns. *)
Definition run_state {S A} (m : M S A) (s dflt : S) : S :=
  match m s with Ok (_, s') => s' | _ => dflt end.

Lemma run_state_ok {S A} (m : M S A) s dflt a s' : m s = Ok (a, s') -> run_state m s dflt = s'.
Proof. unfold run_state. by intros ->. Qed.

(** Whether a computation returns, as a test. *)
Definition is_ok {A} (o : outcome A) : bool := match o with Ok _ => true | _ => false end.

Lemma run_state_unit {S} (m : M S unit) s dflt : is_ok (m s) = true ->
  m s = Ok (tt, run_state m s dflt).
Proof. unfold run_state. by destruct (m s) as [[[] s']| | |]. Qed.

(** The equation for [mbind] after a step that returns. *)
Lemma mbind_ok {S A B} (m : M S A) (k : A -> M S B) s a s' :
  m s = Ok (a, s') -> (m ≫= k) s = k a s'.
Proof. unfold mbind, M_bind. by intros ->. Qed.

(** ** 32-bit integers *)

(** [unsigned int] arithmetic wraps modulo [2^32]. *)
Definition u32 (z : Z) : Z := z mod 2 ^ 32.
(** Conversion to [int] (two's complement). *)
Definition i32 (z : Z) : Z := (z + 2 ^ 31) mod 2 ^ 32 - 2 ^ 31.

Lemma u32_range z : 0 <= u32 z < 2 ^ 32.
Proof. apply Z.mod_pos_bound. lia. Qed.

Lemma u32_id z : 0 <= z < 2 ^ 32 -> u32 z = z.
Proof. apply Z.mod_small. Qed.

Lemma i32_id z : - 2 ^ 31 <= z < 2 ^ 31 -> i32 z = z.
Proof. intros ?. unfold i32. rewrite Z.mod_small; lia. Qed.

Lemma i32_range z : - 2 ^ 31 <= i32 z < 2 ^ 31.
Proof. unfold i32. pose proof (Z.mod_pos_bound (z + 2 ^ 31) (2 ^ 32)). lia. Qed.

Lemma u32_i32 z : u32 (i32 z) = u32 z.
Proof.
  unfold u32, i32. rewrite Zminus_mod_idemp_l. f_equal. lia.
Qed.

Lemma i32_u32 z : i32 (u32 z) = i32 z.
Proof. unfold u32, i32. by rewrite Zplus_mod_idemp_l. Qed.

(** Or-ing a number into the low bits of a shifted one adds it. *)
Lemma land_shiftl_low h l n : 0 <= n -> 0 <= l < 2 ^ n -> Z.land (Z.shiftl h n) l = 0.
Proof.
  intros Hn Hl. apply Z.bits_inj'. intros i Hi. rewrite Z.land_spec, Z.bits_0.
  destruct (Z.lt_ge_cases i n) as [Hlt|Hge].
  - by rewrite Z.shiftl_spec_low.
  - rewrite <- (Z.mod_small l (2 ^ n)) by done. rewrite Z.mod_pow2_bits_high by lia.
    apply andb_false_r.
Qed.

Lemma lor_shiftl_low h l n : 0 <= n -> 0 <= l < 2 ^ n ->
  Z.lor (Z.shiftl h n) l = h * 2 ^ n + l.
Proof.
  intros Hn Hl. pose proof (Z.add_lor_land (Z.shiftl h n) l) as Heq.
  rewrite land_shiftl_low in Heq by done. rewrite Z.shiftl_mul_pow2 in * by done. lia.
Qed.

(** ** Byte blocks and the 32-bit words stored in them *)

Abbreviation byte := Init.Byte.byte.
#[global] Instance byte_eq_dec : EqDecision byte := Byte.byte_eq_dec.

(** Little-endian decoding and encoding of byte sequences. *)
Definition le_combine (bs : list byte) : Z :=
  little_endian_to_Z 8 (byte.unsigned <$> bs).
Definition le_split (n : nat) (z : Z) : list byte :=
  byte.of_Z <$> Z_to_little_endian (Z.of_nat n) 8 z.
(** [((uint * )b)[i]] on a little-endian machine. *)
Definition get32 (b : list byte) (i : nat) : Z := le_combine (take 4 (drop (4 * i) b)).
(** [((uint * )b)[i] = v]. *)
Definition put32 (b : list byte) (i : nat) (v : Z) : list byte :=
  take (4 * i) b ++ le_split 4 v ++ drop (4 * i + 4) b.
(** [memset(b, 0, n)] on an [n]-byte object. *)
Definition zeros (n : nat) : list byte := replicate n Byte.x00.

Section le_bytes.
Lemma bytes_bounded (bs : list byte) :
  Forall (fun z => 0 <= z < 2 ^ 8) (byte.unsigned <$> bs).
Proof.
  rewrite Forall_fmap. apply Forall_true. intros x. apply byte.unsigned_range.
Qed.

Lemma unsigned_of_Z_id (l : list Z) :
  Forall (fun z => 0 <= z < 2 ^ 8) l -> byte.unsigned <$> (byte.of_Z <$> l) = l.
Proof.
  induction 1 as [|x l Hx Hl IH]; [done|]. cbn. f_equal; [|exact IH].
  rewrite byte.unsigned_of_Z. by apply Z.mod_small.
Qed.

Lemma of_Z_unsigned_id (bs : list byte) : byte.of_Z <$> (byte.unsigned <$> bs) = bs.
Proof.
  induction bs as [|x l IH]; [done|]. cbn. f_equal; [|exact IH].
  apply byte.of_Z_unsigned.
Qed.

Lemma le_combine_split n z : le_combine (le_split n z) = z mod 2 ^ (Z.of_nat n * 8).
Proof.
  unfold le_combine, le_split.
  rewrite unsigned_of_Z_id by (apply Z_to_little_endian_bound; lia).
  apply little_endian_to_Z_to_little_endian; lia.
Qed.

Lemma length_le_split n z : length (le_split n z) = n.
Proof.
  unfold le_split. rewrite length_fmap. apply Nat2Z.inj.
  apply length_Z_to_little_endian. lia.
Qed.

Lemma split_le_combine bs n : length bs = n -> le_split n (le_combine bs) = bs.
Proof.
  intros <-. unfold le_split, le_combine.
  rewrite Z_to_little_endian_to_Z;
    [apply of_Z_unsigned_id|by rewrite length_fmap|lia|apply bytes_bounded].
Qed.

Lemma le_combine_bound bs : 0 <= le_combine bs < 2 ^ (Z.of_nat (length bs) * 8).
Proof.
  unfold le_combine. erewrite <- length_fmap.
  apply little_endian_to_Z_bound; [lia|apply bytes_bounded].
Qed.

Lemma le_combine_zeros n : le_combine (zeros n) = 0.
Proof.
  unfold le_combine, zeros. induction n as [|n IH]; [done|].
  cbn. by rewrite IH.
Qed.
End le_bytes.

Section words.
Implicit Types (b : list byte) (i j : nat).

Lemma get32_range b i : 0 <= get32 b i < 2 ^ 32.
Proof.
  unfold get32. pose proof (le_combine_bound (take 4 (drop (4 * i) b))) as H.
  set (l := take 4 (drop (4 * i) b)) in *.
  assert (length l <= 4)%nat by (subst l; rewrite length_take; lia).
  assert (2 ^ (Z.of_nat (length l) * 8) <= 2 ^ 32)
    by (apply Z.pow_le_mono_r; lia).
  lia.
Qed.

Lemma length_put32 b i v :
  (4 * i + 4 <= length b)%nat -> length (put32 b i v) = length b.
Proof.
  intros ?. unfold put32.
  rewrite !length_app, length_take, length_drop, length_le_split. lia.
Qed.

Lemma get32_put32_eq b i v :
  (4 * i + 4 <= length b)%nat -> get32 (put32 b i v) i = u32 v.
Proof.
  intros ?. unfold get32, put32.
  rewrite drop_app_length' by (rewrite length_take; lia).
  rewrite take_app_length' by (rewrite length_le_split; lia).
  by rewrite le_combine_split.
Qed.

Lemma get32_put32_ne b i j v :
  i <> j -> (4 * i + 4 <= length b)%nat ->
  get32 (put32 b i v) j = get32 b j.
Proof.
  intros Hne ?. unfold get32. f_equal. apply list_eq. intros k.
  destruct (decide (k < 4)%nat) as [Hk|Hk].
  2: { rewrite !lookup_take_ge by lia. done. }
  rewrite !lookup_take_lt, !lookup_drop by lia. unfold put32.
  destruct (decide (j < i)%nat).
  - rewrite lookup_app_l by (rewrite length_take; lia).
    rewrite lookup_take_lt by lia. done.
  - rewrite lookup_app_r by (rewrite length_take; lia).
    rewrite lookup_app_r by (rewrite length_le_split, length_take; lia).
    rewrite lookup_drop, length_le_split, length_take. f_equal. lia.
Qed.

Lemma put32_put32 b i v v' :
  (4 * i + 4 <= length b)%nat -> put32 (put32 b i v) i v' = put32 b i v'.
Proof.
  intros ?. unfold put32.
  rewrite take_app_length' by (rewrite length_take; lia). do 2 f_equal.
  rewrite drop_app_ge by (rewrite length_take; lia).
  rewrite drop_app_ge by (rewrite length_take, length_le_split; lia).
  rewrite drop_drop, length_take, length_le_split. f_equal. lia.
Qed.

Lemma get32_zeros n i : get32 (zeros n) i = 0.
Proof.
  unfold get32, zeros. rewrite drop_replicate, take_replicate.
  apply le_combine_zeros.
Qed.

Lemma length_zeros n : length (zeros n) = n.
Proof. apply length_replicate. Qed.

Lemma put32_get32 b i :
  (4 * i + 4 <= length b)%nat -> put32 b i (get32 b i) = b.
Proof.
  intros ?. unfold put32, get32.
  rewrite split_le_combine by (rewrite length_take, length_drop; lia).
  rewrite <- (take_drop (4 * i) b) at 4. f_equal.
  rewrite <- (take_drop 4 (drop (4 * i) b)) at 2. f_equal.
  rewrite drop_drop. f_equal.
Qed.
(** The words of a structure laid out field by field. *)
Lemma get32_app a v r i : length a = (4 * i)%nat -> get32 (a ++ le_split 4 v ++ r) i = u32 v.
Proof.
  intros Ha. unfold get32. rewrite drop_app_length' by lia.
  rewrite take_app_length' by (by rewrite length_le_split). by rewrite le_combine_split.
Qed.

Lemma get32_head v r : get32 (le_split 4 v ++ r) 0 = u32 v.
Proof. exact (get32_app [] v r 0 eq_refl). Qed.

Lemma put32_head a r v : length a = 4%nat -> put32 (a ++ r) 0 v = le_split 4 v ++ r.
Proof.
  intros Ha. unfold put32. change (4 * 0)%nat with 0%nat. change (0 + 4)%nat with 4%nat.
  rewrite take_0, <- Ha, drop_app_length. done.
Qed.

Lemma le_split_u32 v : le_split 4 (u32 v) = le_split 4 v.
Proof.
  rewrite <- (split_le_combine (le_split 4 v) 4) by apply length_le_split.
  by rewrite le_combine_split.
Qed.

Lemma le_split_get32 b i : (4 * i + 4 <= length b)%nat ->
  le_split 4 (get32 b i) = take 4 (drop (4 * i) b).
Proof. intros ?. apply split_le_combine. rewrite length_take, length_drop. lia. Qed.
End words.
Global Opaque get32 put32 le_split le_combine.

(** ** Lists *)

Lemma length_bind_const {A B} (f : A -> list B) l n :
  (forall x, x ∈ l -> length (f x) = n) -> length (l ≫= f) = (length l * n)%nat.
Proof.
  induction l as [|x l IH]; intros Hf; [done|].
  cbn. rewrite length_app, IH, Hf; [lia|left|].
  intros y Hy. apply Hf. by right.
Qed.

Lemma filter_all {A} (P : A -> Prop) `{!forall x, Decision (P x)} (l : list A) :
  Forall P l -> filter P l = l.
Proof. induction 1; [done|]. rewrite filter_cons_True by done. by f_equal. Qed.

Lemma filter_none {A} (P : A -> Prop) `{!forall x, Decision (P x)} (l : list A) :
  Forall (fun x => ~ P x) l -> filter P l = [].
Proof. induction 1; [done|]. by rewrite filter_cons_False. Qed.

Lemma app_swap_r {A} (a r f : list A) : (a ++ r) ++ f ≡ₚ (a ++ f) ++ r.
Proof. rewrite <- !(assoc_L (++)). by rewrite (Permutation_app_comm r). Qed.

(** Pointwise equal functions give the same concatenation. *)
Lemma list_bind_ext_in {A B} (f g : A -> list B) l :
  (forall x, x ∈ l -> f x = g x) -> l ≫= f = l ≫= g.
Proof.
  induction l as [|x l IH]; intros Hfg; [done|]. cbn.
  rewrite Hfg by left. f_equal. apply IH. intros y Hy. apply Hfg. by right.
Qed.

(** Changing a function at one element of a duplicate-free list. *)
Lemma list_bind_split_in `{EqDecision A} {B} (f : A -> list B) l x :
  NoDup l -> x ∈ l ->
  exists rest, (l ≫= f ≡ₚ f x ++ rest) /\
    (forall y, y ∈ rest <-> exists z, z ∈ l /\ z <> x /\ y ∈ f z) /\
    (forall g, (forall z, z ∈ l -> z <> x -> g z = f z) -> l ≫= g ≡ₚ g x ++ rest).
Proof.
  induction l as [|z l IH]; intros Hnd Hx; [by apply not_elem_of_nil in Hx|].
  apply NoDup_cons in Hnd as [Hz Hnd].
  destruct (decide (x = z)) as [->|Hne].
  - exists (l ≫= f). split; [done|]. split.
    + intros y. rewrite list_elem_of_bind. split.
      * intros (w & Hw & Hin). exists w. repeat split; [by right| |done].
        intros ->. done.
      * intros (w & Hw & Hwz & Hin). exists w. split; [done|].
        apply elem_of_cons in Hw as [->|?]; [done|done].
    + intros g Hg. cbn. f_equiv. rewrite (list_bind_ext_in g f); [done|].
      intros w Hw. apply Hg; [by right|]. intros ->. done.
  - apply elem_of_cons in Hx as [->|Hx]; [done|].
    destruct (IH Hnd Hx) as (rest & Hp & Hel & Hg).
    exists (f z ++ rest). split; [|split].
    + cbn. rewrite Hp. rewrite !(assoc_L (++)).
      by rewrite (Permutation_app_comm (f z) (f x)).
    + intros y. rewrite elem_of_app, Hel. split.
      * intros [Hy|(w & Hw & Hwx & Hy)].
        -- exists z. repeat split; [left|congruence|done].
        -- exists w. repeat split; [by right|done|done].
      * intros (w & Hw & Hwx & Hy). apply elem_of_cons in Hw as [->|Hw].
        -- by left.
        -- right. eauto.
    + intros g Hgf. cbn. rewrite (Hg g) by (intros w Hw; apply Hgf; by right).
      rewrite (Hgf z) by (left || congruence).
      rewrite !(assoc_L (++)). by rewrite (Permutation_app_comm (f z) (g x)).
Qed.

(** ** Tactics *)

(** Split conjunctions and existentials in the context. *)
Ltac dd := repeat match goal with
  | H : _ /\ _ |- _ => destruct H
  | H : exists _, _ |- _ => destruct H
  end.
(** Case on the boolean test of a Z comparison, turning it into a fact. *)
Ltac zcases :=
  repeat match goal with
  | |- context [?a =? ?b] => destruct (Z.eqb_spec a b)
  | |- context [?a <? ?b] => destruct (Z.ltb_spec a b)
  | |- context [?a <=? ?b] => destruct (Z.leb_spec a b)
  end.
(** One symbolic-execution step through a sequence of statements. *)
Ltac wp_step := lazymatch goal with
  | |- wp _ (_ ≫= _) _ _ => apply wp_bind
  | |- wp _ (M_bind _ _ _ _ _) _ _ => apply wp_bind
  | |- wp _ (panic_if _ _) _ _ => apply wp_panic_if
  | |- _ => apply wp_ret
  end.
