(* ===== verification/InodeStore.v ===== *)
(** * Inode stores

    The block-device interface of [library/file/inode.h], the constants of
    [library/file/disk.h], and the promise one inode store makes to the layer
    stacked on top of it: the class [StoreSpec].  The file systems are proved
    against [StoreSpec]; the ramdisk of [tools/mkfs.c] discharges it here. *)

From stdpp Require Import options.
From S2P Require Import Prelude.

(** ** disk.h *)
Definition BLOCK_SIZE : Z := 512.
(** [block_t]: an array of [BLOCK_SIZE] bytes. *)
Definition block : Type := list byte.
Definition SIZE_2MB : Z := 2 * 1024 * 1024.
Definition EGOS_BIN_DISK_SIZE : Z := SIZE_2MB.
Definition FILE_SYS_DISK_SIZE : Z := SIZE_2MB.
Definition FILE_SYS_DISK_START : Z := EGOS_BIN_DISK_SIZE / BLOCK_SIZE.
Definition EGOS_BIN_MAX_NBYTE : Z := 128 * 1024.

(** A block filled with null bytes. *)
Definition null_block : block := zeros (Z.to_nat BLOCK_SIZE).
(** The C type of a block: exactly [BLOCK_SIZE] bytes. *)
Definition is_block (b : block) : Prop := length b = Z.to_nat BLOCK_SIZE.

#[global] Instance is_block_dec b : Decision (is_block b).
Proof. unfold is_block. apply _. Defined.

Lemma null_block_is_block : is_block null_block.
Proof. apply length_zeros. Qed.

Lemma put32_is_block b i v : (i < 128)%nat -> is_block b -> is_block (put32 b i v).
Proof.
  unfold is_block, BLOCK_SIZE. intros ? Hb.
  rewrite length_put32; rewrite Hb; [done|lia].
Qed.

Lemma get32_block_eq b i v : (i < 128)%nat -> is_block b -> 0 <= v < 2 ^ 32 ->
  get32 (put32 b i v) i = v.
Proof.
  unfold is_block, BLOCK_SIZE. intros ? Hb ?.
  rewrite get32_put32_eq, u32_id; [done|done|rewrite Hb; lia].
Qed.

Lemma get32_block_ne b i j v : (i < 128)%nat -> is_block b -> i <> j ->
  get32 (put32 b i v) j = get32 b j.
Proof.
  unfold is_block, BLOCK_SIZE. intros ? Hb ?.
  apply get32_put32_ne; [done|rewrite Hb; lia].
Qed.
Lemma put32_block_twice b i v v' : (i < 128)%nat -> is_block b ->
  put32 (put32 b i v) i v' = put32 b i v'.
Proof.
  unfold is_block, BLOCK_SIZE. intros ? Hb. apply put32_put32. rewrite Hb. lia.
Qed.

Lemma put32_block_id b i : (i < 128)%nat -> is_block b -> put32 b i (get32 b i) = b.
Proof.
  unfold is_block, BLOCK_SIZE. intros ? Hb. apply put32_get32. rewrite Hb. lia.
Qed.
#[export] Hint Resolve null_block_is_block put32_is_block : egos.

(** ** inode.h

    The four methods.  A negative result is an error; [read] takes the
    caller's buffer and returns its new contents, because C code may leave it
    modified even when it reports an error. *)
Definition NINODES : Z := 128.

Record inode_store (S : Type) : Type := {
  getsize : Z -> M S Z;
  setsize : Z -> Z -> M S Z;
  read : Z -> Z -> block -> M S (Z * block);
  write : Z -> Z -> block -> M S Z;
}.
Arguments getsize {S} _ ino.
Arguments setsize {S} _ ino newsize.
Arguments read {S} _ ino offset block.
Arguments write {S} _ ino offset block.

(** What the inode [ino] of a store promises: it is an array of blocks of a
    fixed size, [read] returns the block at an offset in range, [write]
    replaces it, and neither reports an error. *)
Class StoreSpec {S} (st : inode_store S) (ino : Z) : Type := {
  st_inv : S -> Prop;
  st_view : S -> list block;
  st_blocks : forall s, st_inv s -> Forall is_block (st_view s);
  st_size : forall s, st_inv s -> Z.of_nat (length (st_view s)) < 2 ^ 31;
  st_getsize : forall s, st_inv s -> exists s',
    getsize st ino s = Ok (Z.of_nat (length (st_view s)), s') /\
    st_inv s' /\ st_view s' = st_view s;
  st_read : forall s off buf b, st_inv s -> 0 <= off ->
    st_view s !! Z.to_nat off = Some b -> exists s',
    read st ino off buf s = Ok ((0, b), s') /\ st_inv s' /\ st_view s' = st_view s;
  st_write : forall s off b, st_inv s ->
    0 <= off < Z.of_nat (length (st_view s)) -> is_block b -> exists s',
    write st ino off b s = Ok (0, s') /\ st_inv s' /\
    st_view s' = <[Z.to_nat off := b]> (st_view s);
}.

(** [holds st ino d s]: the inode [ino] of the store [st], in state [s], is
    the disk [d]. *)
Definition holds {S} (st : inode_store S) (ino : Z) `{!StoreSpec st ino}
    (d : list block) (s : S) : Prop :=
  st_inv s /\ st_view s = d.

(** The block at number [b] of a disk. *)
Definition blk (d : list block) (b : Z) : block := default null_block (d !! Z.to_nat b).
(** Replace the block at number [b]. *)
Definition upd (d : list block) (b : Z) (x : block) : list block := <[Z.to_nat b := x]> d.
Definition dlen (d : list block) : Z := Z.of_nat (length d).

Lemma blk_upd d b b' x : 0 <= b < dlen d -> 0 <= b' ->
  blk (upd d b x) b' = if decide (b = b') then x else blk d b'.
Proof.
  unfold blk, upd, dlen. intros ??. case_decide; subst.
  - rewrite list_lookup_insert_eq by lia. done.
  - rewrite list_lookup_insert_ne by lia. done.
Qed.

Lemma blk_upd_eq d b x : 0 <= b < dlen d -> blk (upd d b x) b = x.
Proof. intros ?. rewrite blk_upd by lia. by case_decide. Qed.

Lemma blk_upd_ne d b b' x : b <> b' -> 0 <= b -> 0 <= b' ->
  blk (upd d b x) b' = blk d b'.
Proof.
  intros ???. unfold blk, upd. rewrite list_lookup_insert_ne by lia. done.
Qed.

Lemma dlen_upd d b x : dlen (upd d b x) = dlen d.
Proof. unfold dlen, upd. by rewrite length_insert. Qed.

Lemma upd_blk d b : 0 <= b < dlen d -> upd d b (blk d b) = d.
Proof.
  unfold dlen, upd, blk. intros ?. apply list_insert_id.
  destruct (lookup_lt_is_Some_2 d (Z.to_nat b)) as [x Hx]; [lia|].
  by rewrite Hx.
Qed.

Lemma upd_upd d b x y : upd (upd d b x) b y = upd d b y.
Proof. apply list_insert_insert_eq. Qed.

Lemma upd_comm d b c x y : b <> c -> 0 <= b -> 0 <= c ->
  upd (upd d b x) c y = upd (upd d c y) b x.
Proof. intros ???. apply list_insert_insert_ne. lia. Qed.

Lemma blk_is_block d b : Forall is_block d -> is_block (blk d b).
Proof.
  intros Hd. unfold blk. destruct (d !! Z.to_nat b) eqn:Hb; cbn.
  - by eapply Forall_lookup_1.
  - apply null_block_is_block.
Qed.

Lemma upd_blocks d b x : Forall is_block d -> is_block x -> Forall is_block (upd d b x).
Proof. intros. by apply Forall_insert. Qed.
#[export] Hint Resolve blk_is_block upd_blocks : egos.

Section store_wp.
Context {S} (st : inode_store S) (ino : Z) `{!StoreSpec st ino} (E : string -> Prop).
Implicit Types (d : list block) (Q : Z -> S -> Prop).

Lemma holds_blocks d s : holds st ino d s -> Forall is_block d.
Proof. intros [? <-]. by apply st_blocks. Qed.

Lemma holds_size d s : holds st ino d s -> dlen d < 2 ^ 31.
Proof. intros [? <-]. by apply st_size. Qed.

Lemma wp_read d s off buf (Q : Z * block -> S -> Prop) :
  holds st ino d s -> 0 <= off < dlen d ->
  (forall s', holds st ino d s' -> Q (0, blk d off) s') ->
  wp E (read st ino off buf) s Q.
Proof.
  intros [Hi Hv] [Ho Hl] HQ. unfold dlen in Hl.
  destruct (lookup_lt_is_Some_2 d (Z.to_nat off)) as [b Hb]; [lia|].
  destruct (st_read s off buf b Hi Ho) as (s' & Hr & ? & ?); [congruence|].
  eapply wp_ok; [exact Hr|]. replace b with (blk d off).
  - apply HQ. split; [done|congruence].
  - unfold blk. by rewrite Hb.
Qed.

Lemma wp_write d s off b Q :
  holds st ino d s -> 0 <= off < dlen d -> is_block b ->
  (forall s', holds st ino (upd d off b) s' -> Q 0 s') ->
  wp E (write st ino off b) s Q.
Proof.
  intros [Hi Hv] Ho Hb HQ. unfold dlen in Ho.
  destruct (st_write s off b Hi) as (s' & Hr & ? & Hs'); [by rewrite Hv|done|].
  eapply wp_ok; [exact Hr|]. apply HQ. split; [done|by rewrite Hs', Hv].
Qed.

Lemma wp_getsize d s Q :
  holds st ino d s -> (forall s', holds st ino d s' -> Q (dlen d) s') ->
  wp E (getsize st ino) s Q.
Proof.
  intros [Hi Hv] HQ. destruct (st_getsize s Hi) as (s' & Hr & ? & ?).
  eapply wp_ok; [exact Hr|]. rewrite Hv. apply HQ. split; [done|congruence].
Qed.
End store_wp.

(** ** The ramdisk of tools/mkfs.c

    The state is the array [fs], seen as its [FILE_SYS_DISK_SIZE / BLOCK_SIZE]
    blocks: every access of [mkfs.c] to it is block-aligned.  An offset
    outside the array is an out-of-bounds [memcpy]. *)
Module Ramdisk.
Abbreviation ram := (list block).

Definition getsize (ino : Z) : M ram Z := mret (FILE_SYS_DISK_SIZE / BLOCK_SIZE).

Definition setsize (ino newsize : Z) : M ram Z := mfatal "assert(0)".

Definition ramread (ino offset : Z) (block : block) : M ram (Z * InodeStore.block) :=
  fs ← mget;
  b ← mopt (if 0 <=? offset then fs !! Z.to_nat offset else None);
  mret (0, b).

Definition ramwrite (ino offset : Z) (block : block) : M ram Z :=
  fs ← mget;
  if (0 <=? offset) && (offset <? Z.of_nat (length fs))
  then mput (<[Z.to_nat offset := block]> fs);; mret 0
  else mstuck.

Definition ramdisk : inode_store ram := {|
  InodeStore.getsize := getsize;
  InodeStore.setsize := setsize;
  read := ramread;
  write := ramwrite;
|}.

Definition ram_ok (fs : ram) : Prop :=
  length fs = Z.to_nat (FILE_SYS_DISK_SIZE / BLOCK_SIZE) /\ Forall is_block fs.

#[global, program] Instance ramdisk_spec ino : StoreSpec ramdisk ino := {|
  st_inv := ram_ok;
  st_view := fun fs => fs;
|}.
Next Obligation. by intros ? fs []. Qed.
Next Obligation. intros ? fs [-> _]. done. Qed.
Next Obligation. intros ino fs Hok. exists fs. destruct Hok as [Hl ?].
  split; [|done]. rewrite Hl. done. Qed.
Next Obligation.
  intros ? fs off buf b Hok Hoff Hb. exists fs. split; [|done].
  cbn. unfold ramread, mbind, M_bind, mget. apply Z.leb_le in Hoff.
  by rewrite Hoff, Hb.
Qed.
Next Obligation.
  intros ? fs off b [Hl Hf] [Ho1 Ho2] Hb. eexists. split; [|split; [|done]].
  - cbn. unfold ramwrite, mbind, M_bind, mget.
    apply Z.leb_le in Ho1. apply Z.ltb_lt in Ho2. rewrite Ho1, Ho2. done.
  - split; [by rewrite length_insert|]. by apply Forall_insert.
Qed.
End Ramdisk.
