(* ===== verification/Treedisk.v ===== *)
(** * The treedisk file system: definitions

    [library/file/file1.c] and [library/file/file1.h], over any inode store
    below.  The superblock, inode blocks, free-list blocks and indirect blocks
    are views of one [block_t] (the union [treedisk_block]): their fields are
    the 32-bit words of the block.  [snapshot->inode], a pointer into the
    snapshot's inode block, is the index of the inode in that block; the
    pointer [parent_no] of the write walk is the index of a word of the block
    [parent_block].  Console output ([printf] of an error) is not modelled; a
    [panic] is the outcome [Fatal]. *)

From stdpp Require Import options.
From S2P Require Import Prelude InodeStore.

(** ** file1.h *)
Definition REFS_PER_BLOCK : Z := BLOCK_SIZE / 4.
Definition INODES_PER_BLOCK : Z := BLOCK_SIZE / 8.

(** [struct treedisk_superblock]. *)
Definition n_inodeblocks (superblock : block) : Z := get32 superblock 0.
Definition free_list (superblock : block) : Z := get32 superblock 1.
Definition set_n_inodeblocks (superblock : block) (v : Z) : block := put32 superblock 0 v.
Definition set_free_list (superblock : block) (v : Z) : block := put32 superblock 1 v.

(** [struct treedisk_inode] number [i] of [struct treedisk_inodeblock]: the
    word of [root], then the word of [nblocks]. *)
Definition root_word (i : Z) : nat := Z.to_nat (2 * i).
Definition nblocks_word (i : Z) : nat := Z.to_nat (2 * i + 1).
Definition inode_root (inodeblock : block) (i : Z) : Z := get32 inodeblock (root_word i).
Definition inode_nblocks (inodeblock : block) (i : Z) : Z := get32 inodeblock (nblocks_word i).

(** [struct treedisk_freelistblock] and [struct treedisk_indirblock]. *)
Definition refs (b : block) (i : Z) : Z := get32 b (Z.to_nat i).
Definition set_refs (b : block) (i v : Z) : block := put32 b (Z.to_nat i) v.

(** ** file1.c *)
Record treedisk_snapshot : Type := {
  superblock : block;
  inodeblock : block;
  inode_blockno : Z;
  inode : Z;  (** [snapshot->inode]: index of the inode in [inodeblock] *)
}.

(** [struct treedisk_state]; the store below is the section variable [below],
    and [ninodes] is never read. *)
Record treedisk_state : Type := {
  below_ino : Z;
}.

Definition log_shift_r (x nbits : Z) : Z :=
  if nbits >=? 32 then 0 else Z.shiftr x nbits.

(** [while (log_shift_r(x, n * log_rpb) != 0) n++;] *)
Fixpoint levels_loop (fuel : nat) (log_rpb x n : Z) : outcome Z :=
  match fuel with
  | O => NoFuel
  | S fuel =>
    if log_shift_r x (u32 (n * log_rpb)) =? 0 then Ok n
    else levels_loop fuel log_rpb x (u32 (n + 1))
  end.
(** The loop body runs at most once per bit of the shifted number, plus the
    final test. *)
Definition levels_fuel : nat := 33.

Section Treedisk.
Context {S : Type} (below : inode_store S) (log_rpb : Z).

Definition treedisk_get_snapshot (ts : treedisk_state) (inode_no : Z) :
    M S (Z * treedisk_snapshot) :=
  let snapshot := {| superblock := null_block; inodeblock := null_block;
                     inode_blockno := 0; inode := 0 |} in
  '(r, sb) ← read below (below_ino ts) 0 (superblock snapshot);
  if r <? 0 then mret (-1, snapshot) else
  if inode_no >=? u32 (n_inodeblocks sb * INODES_PER_BLOCK)
  then mret (-1, snapshot) else
  let blockno := 1 + inode_no / INODES_PER_BLOCK in
  '(r, ib) ← read below (below_ino ts) blockno (inodeblock snapshot);
  if r <? 0 then mret (-1, snapshot) else
  mret (0, {| superblock := sb; inodeblock := ib; inode_blockno := blockno;
              inode := inode_no mod INODES_PER_BLOCK |}).

(** [for (i = REFS_PER_BLOCK; --i > 0;) if (refs[i] != 0) break;] started at
    the index [i]: the largest non-zero index whose reference is not null, or 0. *)
Fixpoint scan_refs (freelistblock : block) (i : nat) : nat :=
  match i with
  | O => O
  | Datatypes.S i' =>
    if refs freelistblock (Z.of_nat i) =? 0 then scan_refs freelistblock i' else i
  end.

Definition treedisk_alloc_block (ts : treedisk_state) (snapshot : treedisk_snapshot) :
    M S (Z * treedisk_snapshot) :=
  let b := free_list (superblock snapshot) in
  panic_if (b =? 0) "treedisk_alloc_block: inode store is full
";;
  '(r, freelistblock) ← read below (below_ino ts) b null_block;
  panic_if (r <? 0) "treedisk_alloc_block";;
  let i := Z.of_nat (scan_refs freelistblock (Z.to_nat (REFS_PER_BLOCK - 1))) in
  if i =? 0 then
    let sb := set_free_list (superblock snapshot) (refs freelistblock 0) in
    let snapshot := {| superblock := sb; inodeblock := inodeblock snapshot;
                       inode_blockno := inode_blockno snapshot;
                       inode := inode snapshot |} in
    r ← write below (below_ino ts) 0 sb;
    panic_if (r <? 0) "treedisk_alloc_block: superblock";;
    mret (b, snapshot)
  else
    let free_blockno := refs freelistblock i in
    r ← write below (below_ino ts) b (set_refs freelistblock i 0);
    panic_if (r <? 0) "treedisk_alloc_block: freelistblock";;
    mret (free_blockno, snapshot).

Definition treedisk_getsize (ts : treedisk_state) (ino : Z) : M S Z :=
  '(r, snapshot) ← treedisk_get_snapshot ts ino;
  if r <? 0 then mret (-1) else
  mret (i32 (inode_nblocks (inodeblock snapshot) (inode snapshot))).

Definition treedisk_setsize (ts : treedisk_state) (ino nblocks : Z) : M S Z :=
  mfatal "treedisk_setsize not implemented".

(** The number of levels of the tree of a file of [nblocks] blocks. *)
Definition treedisk_nlevels (nblocks : Z) : outcome Z :=
  if nblocks >? 0 then levels_loop levels_fuel log_rpb (u32 (nblocks - 1)) 0 else Ok 0.

(** The [for (;;)] of [treedisk_read]: each round but the last decrements
    [nlevels]. *)
Fixpoint treedisk_read_walk (ts : treedisk_state) (offset : Z) (nlevels : nat)
    (b : Z) (block : block) : M S (Z * InodeStore.block) :=
  if b =? 0 then mret (0, null_block) else
  '(result, block) ← read below (below_ino ts) b block;
  if result <? 0 then mret (result, block) else
  match nlevels with
  | O => mret (0, block)
  | Datatypes.S nlevels =>
    let index := log_shift_r offset (u32 (Z.of_nat nlevels * log_rpb)) mod REFS_PER_BLOCK in
    treedisk_read_walk ts offset nlevels (refs block index) block
  end.

Definition treedisk_read (ts : treedisk_state) (ino offset : Z) (block : block) :
    M S (Z * InodeStore.block) :=
  '(r, snapshot) ← treedisk_get_snapshot ts ino;
  if r <? 0 then mret (-1, block) else
  let nblocks := inode_nblocks (inodeblock snapshot) (inode snapshot) in
  if offset >=? nblocks then mret (-1, block) else
  nlevels ← mlift (treedisk_nlevels nblocks);
  treedisk_read_walk ts offset (Z.to_nat nlevels)
    (inode_root (inodeblock snapshot) (inode snapshot)) block.

Definition with_inodeblock (snapshot : treedisk_snapshot) (ib : block) : treedisk_snapshot :=
  {| superblock := superblock snapshot; inodeblock := ib;
     inode_blockno := inode_blockno snapshot; inode := inode snapshot |}.

(** [while (nlevels_after > nlevels)]: one round per missing level. *)
Fixpoint treedisk_grow (ts : treedisk_state) (missing : nat)
    (snapshot : treedisk_snapshot) : M S treedisk_snapshot :=
  match missing with
  | O => mret snapshot
  | Datatypes.S missing =>
    '(indir, snapshot) ← treedisk_alloc_block ts snapshot;
    let tib := set_refs null_block 0 (inode_root (inodeblock snapshot) (inode snapshot)) in
    let snapshot := with_inodeblock snapshot
      (put32 (inodeblock snapshot) (root_word (inode snapshot)) indir) in
    r ← write below (below_ino ts) indir tib;
    panic_if (r <? 0) "treedisk_write: indirect block";;
    treedisk_grow ts missing snapshot
  end.

(** The [for (;;)] of [treedisk_write]: the data block's number.  [parent_no]
    is the word [parent_word] of [parent_block]. *)
Fixpoint treedisk_write_walk (ts : treedisk_state) (offset : Z) (nlevels : nat)
    (parent_word : nat) (parent_off : Z) (parent_block : block)
    (snapshot : treedisk_snapshot) : M S Z :=
  let b := get32 parent_block parent_word in
  if b =? 0 then
    '(b, snapshot) ← treedisk_alloc_block ts snapshot;
    r ← write below (below_ino ts) parent_off (put32 parent_block parent_word b);
    panic_if (r <? 0) "treedisk_write: parent";;
    match nlevels with
    | O => mret b
    | Datatypes.S nlevels =>
      let index := log_shift_r offset (u32 (Z.of_nat nlevels * log_rpb)) mod REFS_PER_BLOCK in
      treedisk_write_walk ts offset nlevels (Z.to_nat index) b null_block snapshot
    end
  else
    match nlevels with
    | O => mret b
    | Datatypes.S nlevels =>
      '(r, tib) ← read below (below_ino ts) b null_block;
      panic_if (r <? 0) "treedisk_write";;
      let index := log_shift_r offset (u32 (Z.of_nat nlevels * log_rpb)) mod REFS_PER_BLOCK in
      treedisk_write_walk ts offset nlevels (Z.to_nat index) b tib snapshot
    end.

Definition treedisk_write (ts : treedisk_state) (ino offset : Z) (block : block) : M S Z :=
  '(r, snapshot) ← treedisk_get_snapshot ts ino;
  if r <? 0 then mret (-1) else
  let nblocks := inode_nblocks (inodeblock snapshot) (inode snapshot) in
  nlevels ← mlift (treedisk_nlevels nblocks);
  '(snapshot, dirty_inode, nlevels_after) ←
    (if offset >=? nblocks then
       nlevels_after ← mlift (levels_loop levels_fuel log_rpb offset 0);
       mret (with_inodeblock snapshot
               (put32 (inodeblock snapshot) (nblocks_word (inode snapshot)) (u32 (offset + 1))),
             true, nlevels_after)
     else mret (snapshot, false, nlevels));
  '(snapshot, dirty_inode, nlevels) ←
    (if inode_nblocks (inodeblock snapshot) (inode snapshot) =? 0
     then mret (snapshot, dirty_inode, nlevels_after)
     else if nlevels_after >? nlevels then
       snapshot ← treedisk_grow ts (Z.to_nat (nlevels_after - nlevels)) snapshot;
       mret (snapshot, true, nlevels_after)
     else mret (snapshot, dirty_inode, nlevels));
  (if (dirty_inode : bool) then
     r ← write below (below_ino ts) (inode_blockno snapshot) (inodeblock snapshot);
     panic_if (r <? 0) "treedisk_write: inode block"
   else mret tt);;
  b ← treedisk_write_walk ts offset (Z.to_nat nlevels) (root_word (inode snapshot))
        (inode_blockno snapshot) (inodeblock snapshot) snapshot;
  r ← write below (below_ino ts) b block;
  panic_if (r <? 0) "treedisk_write: data block";;
  mret 0.

(** ** Creating a file system *)

(** [for (i = 1; i < REFS_PER_BLOCK && next_free < nblocks; i++)
       freelist_data[i] = next_free++;
     for (; i < REFS_PER_BLOCK; i++) freelist_data[i] = 0;]
    with [n] indices left. *)
Fixpoint fill_refs (n : nat) (i next_free nblocks : Z) (freelist_data : block) : Z * block :=
  match n with
  | O => (next_free, freelist_data)
  | Datatypes.S n =>
    if next_free <? nblocks
    then fill_refs n (i + 1) (u32 (next_free + 1)) nblocks (set_refs freelist_data i next_free)
    else fill_refs n (i + 1) next_free nblocks (set_refs freelist_data i 0)
  end.

(** [while (next_free < nblocks)]: every round consumes at least one block
    number. *)
Fixpoint setup_freelist_loop (fuel : nat) (ino next_free nblocks freelist_block : Z)
    (freelist_data : block) : M S Z :=
  if next_free <? nblocks then
    match fuel with
    | O => mnofuel
    | Datatypes.S fuel =>
      let freelist_data := set_refs freelist_data 0 freelist_block in
      let freelist_block := next_free in
      let next_free := u32 (next_free + 1) in
      let '(next_free, freelist_data) :=
        fill_refs (Z.to_nat (REFS_PER_BLOCK - 1)) 1 next_free nblocks freelist_data in
      r ← write below ino freelist_block freelist_data;
      panic_if (r <? 0) "treedisk_setup_freelist";;
      setup_freelist_loop fuel ino next_free nblocks freelist_block freelist_data
    end
  else mret freelist_block.

Definition setup_freelist (ino next_free nblocks : Z) : M S Z :=
  setup_freelist_loop (Z.to_nat nblocks) ino next_free nblocks 0 null_block.

(** [for (uint i = 1; i <= n_inodeblocks; i++) write(below, i, &null_block)],
    from the index [i] with [n] rounds left; -1 at the first error. *)
Fixpoint clear_inodeblocks (ino : Z) (n : nat) (i : Z) : M S Z :=
  match n with
  | O => mret 0
  | Datatypes.S n =>
    r ← write below ino i null_block;
    if r <? 0 then mret (-1) else clear_inodeblocks ino n (i + 1)
  end.

Definition treedisk_create (ino ninodes : Z) : M S Z :=
  let n_inodeblocks_ := u32 (ninodes + INODES_PER_BLOCK - 1) / INODES_PER_BLOCK in
  nblocks ← getsize below ino;
  let nblocks := u32 nblocks in
  if nblocks <? u32 (n_inodeblocks_ + 2) then mret (-1) else
  '(r, superblock) ← read below ino 0 null_block;
  if r <? 0 then mret (-1) else
  if n_inodeblocks superblock =? 0 then
    let superblock := set_n_inodeblocks null_block n_inodeblocks_ in
    free ← setup_freelist ino (u32 (n_inodeblocks_ + 1)) nblocks;
    r ← write below ino 0 (set_free_list superblock free);
    if r <? 0 then mret (-1) else
    clear_inodeblocks ino (Z.to_nat n_inodeblocks_) 1
  else mret 0.

(** The store that [treedisk_init] returns: the four methods on the state [ts]. *)
Definition treedisk_store (ts : treedisk_state) : inode_store S := {|
  getsize := treedisk_getsize ts;
  setsize := treedisk_setsize ts;
  read := treedisk_read ts;
  write := treedisk_write ts;
|}.
End Treedisk.

(** [do { log_rpb++; } while (((REFS_PER_BLOCK - 1) >> log_rpb) != 0);] *)
Fixpoint log_rpb_loop (fuel : nat) (log_rpb : Z) : outcome Z :=
  match fuel with
  | O => NoFuel
  | S fuel =>
    let log_rpb := u32 (log_rpb + 1) in
    if Z.shiftr (REFS_PER_BLOCK - 1) log_rpb =? 0 then Ok log_rpb
    else log_rpb_loop fuel log_rpb
  end.

(** [treedisk_init]: the new value of the static variable [log_rpb] and the
    state of the new store. *)
Definition treedisk_init (log_rpb ino : Z) : outcome (Z * treedisk_state) :=
  if log_rpb =? 0 then
    match log_rpb_loop 32 0 with
    | Ok log_rpb => Ok (log_rpb, {| below_ino := ino |})
    | Fatal e => Fatal e
    | Stuck => Stuck
    | NoFuel => NoFuel
    end
  else Ok (log_rpb, {| below_ino := ino |}).
