(* ===== verification/TreediskSpec.v ===== *)
(** * The treedisk file system: what the blocks on disk mean

    The abstraction from a disk to the files it stores: the tree of blocks of
    a file ([tree_blocks], [tree_get]), the free list ([freelist]), the
    invariant of a well-formed file system ([fs_inv]) and the contents of a
    file as a list of blocks ([file_of]).  The frame lemmas say that a tree or
    a free list only depends on the blocks it consists of. *)

From stdpp Require Import options.
From S2P Require Import Prelude InodeStore Treedisk.

(** ** Arithmetic of the tree levels *)

(** The index taken at level [l] (above [l] further levels) for offset [o]. *)
Definition index (l : nat) (o : Z) : Z := (o / 128 ^ Z.of_nat l) mod 128.

(** Two offsets that take the same path from a block with [l] levels below. *)
Definition same_path (l : nat) (o o' : Z) : Prop :=
  o mod 128 ^ Z.of_nat l = o' mod 128 ^ Z.of_nat l.
#[global] Instance same_path_dec l o o' : Decision (same_path l o o').
Proof. unfold same_path. apply _. Defined.

(** The number of levels of the tree of a file with [n] blocks. *)
Definition levels (n : Z) : nat :=
  if n <=? 1 then 0 else if n <=? 128 then 1 else if n <=? 128 ^ 2 then 2
  else if n <=? 128 ^ 3 then 3 else if n <=? 128 ^ 4 then 4 else 5.

Lemma pow128_pos l : 0 < 128 ^ Z.of_nat l.
Proof. lia. Qed.

Lemma pow128_S l : 128 ^ Z.of_nat (S l) = 128 ^ Z.of_nat l * 128.
Proof. rewrite Nat2Z.inj_succ, Z.pow_succ_r by lia. lia. Qed.

Lemma index_range l o : 0 <= index l o < 128.
Proof. apply Z.mod_pos_bound. lia. Qed.

Lemma same_path_S l o o' :
  same_path (S l) o o' <-> index l o = index l o' /\ same_path l o o'.
Proof.
  unfold same_path, index. rewrite pow128_S.
  pose proof (pow128_pos l). set (p := 128 ^ Z.of_nat l) in *.
  rewrite !(Z.rem_mul_r _ p 128) by lia.
  pose proof (Z.mod_pos_bound o p ltac:(lia)).
  pose proof (Z.mod_pos_bound o' p ltac:(lia)).
  split; [|intros [-> ->]; done].
  intros Heq. apply (Z.div_mod_unique p); lia.
Qed.

Lemma same_path_small l o o' : 0 <= o < 128 ^ Z.of_nat l -> 0 <= o' < 128 ^ Z.of_nat l ->
  same_path l o o' <-> o = o'.
Proof. unfold same_path. intros ??. rewrite !Z.mod_small by lia. done. Qed.

Lemma index_small l o : 0 <= o < 128 ^ Z.of_nat (S l) -> index l o = o / 128 ^ Z.of_nat l.
Proof.
  rewrite pow128_S. intros ?. pose proof (pow128_pos l).
  unfold index. apply Z.mod_small. split; [apply Z.div_pos; lia|].
  apply Z.div_lt_upper_bound; lia.
Qed.

(** The index the code computes by shifting. *)
Lemma shift_index l o : (l <= 5)%nat -> 0 <= o < 2 ^ 32 ->
  log_shift_r o (u32 (Z.of_nat l * 7)) mod REFS_PER_BLOCK = index l o.
Proof.
  intros Hl Ho. change REFS_PER_BLOCK with 128. unfold index.
  rewrite u32_id by lia. unfold log_shift_r.
  assert (128 ^ Z.of_nat l = 2 ^ (Z.of_nat l * 7)) as ->.
  { change 128 with (2 ^ 7). rewrite <- Z.pow_mul_r by lia. f_equal. lia. }
  destruct (Z.geb_spec (Z.of_nat l * 7) 32).
  - rewrite Z.div_small; [done|]. split; [lia|].
    apply Z.lt_le_trans with (2 ^ 32); [lia|]. apply Z.pow_le_mono_r; lia.
  - rewrite Z.shiftr_div_pow2 by lia. done.
Qed.

Lemma levels_le n : (levels n <= 5)%nat.
Proof. unfold levels. repeat case_match; lia. Qed.

Lemma levels_bound n : n < 2 ^ 32 -> n <= 128 ^ Z.of_nat (levels n).
Proof. intros. unfold levels. zcases; simpl Z.of_nat; lia. Qed.

Lemma levels_mono n m : n <= m -> (levels n <= levels m)%nat.
Proof. intros ?. unfold levels. zcases; lia. Qed.

(** One round of the loop that counts levels. *)
Lemma levels_loop_step fuel x n : 0 <= x < 2 ^ 32 -> 0 <= n < 32 ->
  levels_loop (S fuel) 7 x n =
    if x + 1 <=? 128 ^ n then Ok n else levels_loop fuel 7 x (n + 1).
Proof.
  intros Hx Hn. cbn [levels_loop]. rewrite !u32_id by lia.
  assert (128 ^ n = 2 ^ (n * 7)) as ->.
  { change 128 with (2 ^ 7). rewrite <- Z.pow_mul_r by lia. f_equal. lia. }
  unfold log_shift_r. assert (0 < 2 ^ (n * 7)) by (apply Z.pow_pos_nonneg; lia).
  destruct (Z.geb_spec (n * 7) 32).
  - assert (2 ^ 32 <= 2 ^ (n * 7)) by (apply Z.pow_le_mono_r; lia).
    destruct (Z.leb_spec (x + 1) (2 ^ (n * 7))); [done|lia].
  - rewrite Z.shiftr_div_pow2 by lia.
    destruct (Z.leb_spec (x + 1) (2 ^ (n * 7))).
    + by rewrite Z.div_small by lia.
    + destruct (Z.eqb_spec (x / 2 ^ (n * 7)) 0); [|done].
      assert (1 <= x / 2 ^ (n * 7)); [|lia]. apply Z.div_le_lower_bound; lia.
Qed.

(** The [while] loop that counts levels returns the number of levels. *)
Lemma levels_loop_ok x : 0 <= x < 2 ^ 32 ->
  levels_loop levels_fuel 7 x 0 = Ok (Z.of_nat (levels (x + 1))).
Proof.
  intros Hx. unfold levels_fuel, levels.
  do 6 (rewrite levels_loop_step by lia; match goal with
    |- context [x + 1 <=? ?b] => destruct (Z.leb_spec (x + 1) b) end;
    [repeat (zcases; try done; try lia)|]).
  lia.
Qed.

Lemma treedisk_nlevels_ok n : 0 <= n < 2 ^ 32 ->
  treedisk_nlevels 7 n = Ok (Z.of_nat (levels n)).
Proof.
  intros ?. unfold treedisk_nlevels. destruct (Z.gtb_spec n 0).
  - rewrite u32_id, levels_loop_ok by lia. do 3 f_equal. lia.
  - assert (n = 0) as -> by lia. done.
Qed.

(** ** Trees *)

(** The blocks of the tree rooted at block [b] with [l] levels of indirect
    blocks: the indirect blocks and the data blocks. *)
Fixpoint tree_blocks (d : list block) (l : nat) (b : Z) : list Z :=
  if b =? 0 then []
  else b :: match l with
            | O => []
            | S l => seqZ 0 128 ≫= fun i => tree_blocks d l (refs (blk d b) i)
            end.

(** The data block for offset [o], [None] in a hole. *)
Fixpoint tree_get (d : list block) (l : nat) (b : Z) (o : Z) : option block :=
  if b =? 0 then None
  else match l with
       | O => Some (blk d b)
       | S l => tree_get d l (refs (blk d b) (index l o)) o
       end.

Lemma tree_blocks_0 d l : tree_blocks d l 0 = [].
Proof. by destruct l. Qed.
Lemma tree_get_0 d l o : tree_get d l 0 o = None.
Proof. by destruct l. Qed.

Lemma tree_blocks_S d l b : b <> 0 ->
  tree_blocks d (S l) b = b :: (seqZ 0 128 ≫= fun i => tree_blocks d l (refs (blk d b) i)).
Proof. intros ?. cbn. by destruct (Z.eqb_spec b 0). Qed.
Lemma tree_blocks_O d b : b <> 0 -> tree_blocks d 0 b = [b].
Proof. intros ?. cbn. by destruct (Z.eqb_spec b 0). Qed.
Lemma tree_get_S d l b o : b <> 0 ->
  tree_get d (S l) b o = tree_get d l (refs (blk d b) (index l o)) o.
Proof. intros ?. cbn. by destruct (Z.eqb_spec b 0). Qed.
Lemma tree_get_O d b o : b <> 0 -> tree_get d 0 b o = Some (blk d b).
Proof. intros ?. cbn. by destruct (Z.eqb_spec b 0). Qed.

Lemma tree_blocks_root d l b : b <> 0 -> b ∈ tree_blocks d l b.
Proof. intros ?. destruct l; [rewrite tree_blocks_O|rewrite tree_blocks_S]; try done; left. Qed.

Lemma tree_blocks_child d l b i x : b <> 0 -> 0 <= i < 128 ->
  x ∈ tree_blocks d l (refs (blk d b) i) -> x ∈ tree_blocks d (S l) b.
Proof.
  intros Hb Hi Hx. rewrite tree_blocks_S by done. right.
  apply list_elem_of_bind. exists i. split; [done|]. apply elem_of_seqZ. lia.
Qed.

Lemma tree_blocks_nonzero d l b x : x ∈ tree_blocks d l b -> x <> 0.
Proof.
  revert b. induction l as [|l IH]; intros b Hx.
  - destruct (Z.eq_dec b 0) as [->|Hb]; [by apply not_elem_of_nil in Hx|].
    rewrite tree_blocks_O in Hx by done.
    apply elem_of_cons in Hx as [->|Hx]; [done|by apply not_elem_of_nil in Hx].
  - destruct (Z.eq_dec b 0) as [->|Hb]; [by apply not_elem_of_nil in Hx|].
    rewrite tree_blocks_S in Hx by done. apply elem_of_cons in Hx as [->|Hx]; [done|].
    apply list_elem_of_bind in Hx as (i & Hx & _). eauto.
Qed.

(** Frame: a tree only depends on its own blocks. *)
Lemma tree_frame d d' l b : (forall x, x ∈ tree_blocks d l b -> blk d' x = blk d x) ->
  tree_blocks d' l b = tree_blocks d l b /\
  (forall o, tree_get d' l b o = tree_get d l b o).
Proof.
  revert b. induction l as [|l IH]; intros b Hag.
  - destruct (Z.eq_dec b 0) as [->|Hb]; [done|].
    split; [by rewrite !tree_blocks_O|]. intros o. rewrite !tree_get_O by done.
    rewrite Hag; [done|by apply tree_blocks_root].
  - destruct (Z.eq_dec b 0) as [->|Hb]; [done|].
    assert (blk d' b = blk d b) as Hbb by (apply Hag, tree_blocks_root, Hb).
    assert (forall i, 0 <= i < 128 ->
      tree_blocks d' l (refs (blk d b) i) = tree_blocks d l (refs (blk d b) i) /\
      (forall o, tree_get d' l (refs (blk d b) i) o = tree_get d l (refs (blk d b) i) o)) as Hc.
    { intros i Hi. apply IH. intros x Hx. apply Hag. by eapply tree_blocks_child. }
    split.
    + rewrite !tree_blocks_S, Hbb by done. f_equal. apply list_bind_ext_in.
      intros i Hi%elem_of_seqZ. apply Hc. lia.
    + intros o. rewrite !tree_get_S, Hbb by done. apply Hc, index_range.
Qed.

Lemma tree_blocks_frame d d' l b : (forall x, x ∈ tree_blocks d l b -> blk d' x = blk d x) ->
  tree_blocks d' l b = tree_blocks d l b.
Proof. intros H. apply (tree_frame d d' l b H). Qed.

Lemma tree_get_frame d d' l b o : (forall x, x ∈ tree_blocks d l b -> blk d' x = blk d x) ->
  tree_get d' l b o = tree_get d l b o.
Proof. intros H. apply (tree_frame d d' l b H). Qed.

(** ** The free list *)

(** The free blocks recorded in the slots 1..127 of a free-list block. *)
Definition free_refs (fb : block) : list Z :=
  filter (fun r => r <> 0) (refs fb <$> seqZ 1 127).

(** [freelist d b F]: the list of free-list blocks that starts at block [b]
    records exactly the free blocks [F] (free-list blocks included). *)
Inductive freelist (d : list block) : Z -> list Z -> Prop :=
| freelist_nil : freelist d 0 []
| freelist_cons b rest :
    b <> 0 -> freelist d (refs (blk d b) 0) rest ->
    freelist d b (b :: free_refs (blk d b) ++ rest).

Lemma freelist_frame d d' b F : freelist d b F ->
  (forall x, x ∈ F -> blk d' x = blk d x) -> freelist d' b F.
Proof.
  induction 1 as [|b rest Hb Hfl IH]; intros Hag; [constructor|].
  rewrite <- Hag by left. constructor; [done|]. rewrite Hag by left.
  apply IH. intros x Hx. apply Hag. right. apply elem_of_app. by right.
Qed.

Lemma freelist_fun d b F F' : freelist d b F -> freelist d b F' -> F = F'.
Proof.
  intros H. revert F'. induction H as [|b rest Hb Hfl IH]; intros F' H'.
  - by inversion H'.
  - inversion H' as [|? rest' ? Hfl' ]; subst; [done|]. do 2 f_equal. by apply IH.
Qed.

(** ** Inodes and files *)

Definition nib (d : list block) : Z := n_inodeblocks (blk d 0).
Definition ninodes (d : list block) : Z := nib d * 64.
Definition ino_block (ino : Z) : Z := 1 + ino / 64.
Definition root_of (d : list block) (ino : Z) : Z := inode_root (blk d (ino_block ino)) (ino mod 64).
Definition size_of (d : list block) (ino : Z) : Z := inode_nblocks (blk d (ino_block ino)) (ino mod 64).
(** The blocks of the file [ino]. *)
Definition ino_blocks (d : list block) (ino : Z) : list Z :=
  tree_blocks d (levels (size_of d ino)) (root_of d ino).
Definition ino_get (d : list block) (ino o : Z) : option block :=
  tree_get d (levels (size_of d ino)) (root_of d ino) o.
(** All blocks owned by files. *)
Definition all_blocks (d : list block) : list Z := seqZ 0 (ninodes d) ≫= ino_blocks d.

(** The file [ino]: its blocks in order, a hole being a block of zeros. *)
Definition file_of (d : list block) (ino : Z) : list block :=
  (fun o => default null_block (ino_get d ino o)) <$> seqZ 0 (size_of d ino).

(** A well-formed file system whose free blocks are [F]: the free blocks and
    the blocks of all files partition blocks outside the superblock and the
    inode blocks, with no block used twice, and nothing is stored past the end
    of a file. *)
Record fs_inv (d : list block) (F : list Z) : Prop := {
  inv_nib : 0 < nib d;
  inv_ninodes : ninodes d < 2 ^ 32;
  inv_room : nib d < dlen d;
  inv_free : freelist d (free_list (blk d 0)) F;
  inv_nodup : NoDup (F ++ all_blocks d);
  inv_range : forall x, x ∈ F ++ all_blocks d -> nib d < x < dlen d;
  inv_end : forall ino o, 0 <= ino < ninodes d ->
    size_of d ino <= o < 128 ^ Z.of_nat (levels (size_of d ino)) -> ino_get d ino o = None;
}.

(** The specification of a file as a list of blocks. *)
Module FileSpec.
(** Writing at an offset past the end extends the file with null blocks. *)
Definition file_write (f : list block) (off : Z) (b : block) : list block :=
  <[Z.to_nat off := b]> (f ++ replicate (Z.to_nat (off + 1) - length f) null_block).

Lemma length_file_write f off b : 0 <= off ->
  Z.of_nat (length (file_write f off b)) = Z.max (Z.of_nat (length f)) (off + 1).
Proof.
  intros ?. unfold file_write. rewrite length_insert, length_app, length_replicate. lia.
Qed.

Lemma lookup_file_write f off b o : 0 <= off -> 0 <= o ->
  file_write f off b !! Z.to_nat o =
    if decide (o = off) then Some b
    else if decide (o < Z.of_nat (length f)) then f !! Z.to_nat o
    else if decide (o < off) then Some null_block else None.
Proof.
  intros ??. unfold file_write. repeat case_decide; subst.
  - apply list_lookup_insert_eq. rewrite length_app, length_replicate. lia.
  - rewrite list_lookup_insert_ne by lia. by rewrite lookup_app_l by lia.
  - rewrite list_lookup_insert_ne by lia. rewrite lookup_app_r by lia.
    apply lookup_replicate. split; [done|lia].
  - rewrite list_lookup_insert_ne by lia. rewrite lookup_app_r by lia.
    apply lookup_replicate_None. lia.
Qed.
End FileSpec.

Section inodes.
Implicit Types (d : list block) (ino : Z).

Lemma size_range d ino : 0 <= size_of d ino < 2 ^ 32.
Proof. apply get32_range. Qed.
Lemma root_range d ino : 0 <= root_of d ino < 2 ^ 32.
Proof. apply get32_range. Qed.

Lemma length_file_of d ino : Z.of_nat (length (file_of d ino)) = size_of d ino.
Proof.
  unfold file_of. rewrite length_fmap, length_seqZ.
  pose proof (size_range d ino). lia.
Qed.

Lemma lookup_file_of d ino o : 0 <= o ->
  file_of d ino !! Z.to_nat o =
    if decide (o < size_of d ino) then Some (default null_block (ino_get d ino o)) else None.
Proof.
  intros ?. unfold file_of. rewrite list_lookup_fmap. case_decide.
  - rewrite lookup_seqZ_lt by lia. cbn. do 3 f_equal. lia.
  - rewrite lookup_seqZ_ge by lia. done.
Qed.

Lemma ino_block_range d ino : 0 <= ino < ninodes d -> 1 <= ino_block ino <= nib d.
Proof.
  unfold ninodes, ino_block. intros [??]. split.
  - pose proof (Z.div_pos ino 64). lia.
  - enough (ino / 64 < nib d) by lia. apply Z.div_lt_upper_bound; lia.
Qed.

(** A file only depends on its inode and its blocks. *)
Lemma ino_frame d d' ino :
  size_of d' ino = size_of d ino -> root_of d' ino = root_of d ino ->
  (forall x, x ∈ ino_blocks d ino -> blk d' x = blk d x) ->
  ino_blocks d' ino = ino_blocks d ino /\
  (forall o, ino_get d' ino o = ino_get d ino o) /\ file_of d' ino = file_of d ino.
Proof.
  intros Hsz Hrt Hag.
  unfold ino_blocks, ino_get, file_of in *. rewrite Hsz, Hrt.
  destruct (tree_frame d d' _ _ Hag) as [Hb Hg].
  repeat split; auto. apply list_fmap_ext. intros i o Ho. unfold ino_get.
  by rewrite Hsz, Hrt, Hg.
Qed.

Lemma all_blocks_elem d ino x : 0 <= ino < ninodes d -> x ∈ ino_blocks d ino ->
  x ∈ all_blocks d.
Proof.
  intros Hi Hx. apply list_elem_of_bind. exists ino. split; [done|].
  apply elem_of_seqZ. lia.
Qed.
End inodes.
