(* ===== verification/TreediskRead.v ===== *)
(** * The treedisk file system: snapshots, sizes and reads

    [treedisk_get_snapshot], [treedisk_getsize] and [treedisk_read] on a
    well-formed file system, over any store that satisfies [StoreSpec]. *)

From stdpp Require Import options.
From S2P Require Import Prelude InodeStore Treedisk TreediskSpec.

(** The snapshot of the inode [ino] of the disk [d]. *)
Definition snap_of (d : list block) (ino : Z) : treedisk_snapshot := {|
  superblock := blk d 0;
  inodeblock := blk d (ino_block ino);
  inode_blockno := ino_block ino;
  inode := ino mod 64;
|}.

(** [treedisk_init] computes [log2(REFS_PER_BLOCK)]. *)
Lemma treedisk_init_log_rpb ino : treedisk_init 0 ino = Ok (7, {| below_ino := ino |}).
Proof. reflexivity. Qed.

Section reads.
Context {S : Type} (below : inode_store S) (ts : treedisk_state).
Context `{!StoreSpec below (below_ino ts)}.
Local Abbreviation on_disk := (holds below (below_ino ts)).

Lemma wp_get_snapshot E d F s ino (Q : Z * treedisk_snapshot -> S -> Prop) :
  on_disk d s -> fs_inv d F -> 0 <= ino ->
  (forall s', on_disk d s' -> ino < ninodes d -> Q (0, snap_of d ino) s') ->
  (forall s' sn, on_disk d s' -> ninodes d <= ino -> Q (-1, sn) s') ->
  wp E (treedisk_get_snapshot below ts ino) s Q.
Proof.
  intros Hd Hinv Hino HQ1 HQ2. pose proof (inv_nib _ _ Hinv).
  pose proof (inv_room _ _ Hinv). pose proof (inv_ninodes _ _ Hinv).
  unfold treedisk_get_snapshot. wp_step.
  eapply wp_read; [done|lia|]. intros s1 Hd1. cbn.
  change (n_inodeblocks (blk d 0)) with (nib d).
  change (nib d * INODES_PER_BLOCK) with (ninodes d).
  assert (0 <= ninodes d) by (unfold ninodes; lia). rewrite u32_id by lia.
  destruct (Z.geb_spec ino (ninodes d)); [wp_step; auto|].
  change INODES_PER_BLOCK with 64. change (1 + ino / 64) with (ino_block ino).
  pose proof (ino_block_range d ino). wp_step.
  eapply wp_read; [done|lia|]. intros s2 Hd2. cbn. wp_step. by apply HQ1.
Qed.

Lemma wp_read_walk E d s off l b buf :
  on_disk d s -> (l <= 5)%nat -> 0 <= off < 2 ^ 32 ->
  (forall x, x ∈ tree_blocks d l b -> 0 < x < dlen d) ->
  wp E (treedisk_read_walk below 7 ts off l b buf) s
    (fun r s' => on_disk d s' /\ r = (0, default null_block (tree_get d l b off))).
Proof.
  revert s b buf. induction l as [|l IH]; intros s b buf Hd Hl Hoff Hrg; cbn.
  - destruct (Z.eqb_spec b 0) as [->|Hb]; [by wp_step|]. wp_step.
    pose proof (Hrg b (tree_blocks_root d 0 b Hb)).
    eapply wp_read; [done|lia|]. intros s1 Hd1. cbn. by wp_step.
  - destruct (Z.eqb_spec b 0) as [->|Hb]; [by wp_step|]. wp_step.
    pose proof (Hrg b (tree_blocks_root d (Datatypes.S l) b Hb)).
    eapply wp_read; [done|lia|]. intros s1 Hd1. cbn.
    rewrite shift_index by lia. apply IH; [done|lia|done|].
    intros x Hx. apply Hrg. eapply tree_blocks_child; [done| |done]. apply index_range.
Qed.

Lemma fs_tree_range d F ino x : fs_inv d F -> 0 <= ino < ninodes d ->
  x ∈ ino_blocks d ino -> nib d < x < dlen d.
Proof.
  intros Hinv Hino Hx. apply (inv_range _ _ Hinv). apply elem_of_app. right.
  by eapply all_blocks_elem.
Qed.

Lemma wp_treedisk_read E d F s ino off buf :
  on_disk d s -> fs_inv d F -> 0 <= ino -> 0 <= off < 2 ^ 32 ->
  wp E (treedisk_read below 7 ts ino off buf) s (fun r s' => on_disk d s' /\
    r = if decide (ino < ninodes d) then
          match file_of d ino !! Z.to_nat off with
          | Some b => (0, b)
          | None => (-1, buf)
          end
        else (-1, buf)).
Proof.
  intros Hd Hinv Hino Hoff. unfold treedisk_read. wp_step.
  eapply wp_get_snapshot; [done|done|done| |].
  - intros s1 Hd1 Hlt. cbn. rewrite decide_True, lookup_file_of by lia.
    change (inode_nblocks _ _) with (size_of d ino).
    destruct (Z.geb_spec off (size_of d ino)).
    { rewrite decide_False by lia. by wp_step. }
    rewrite decide_True by lia. rewrite treedisk_nlevels_ok by apply size_range.
    wp_step. unfold wp at 1. cbn. rewrite Nat2Z.id.
    pose proof (inv_nib _ _ Hinv).
    apply wp_read_walk; [done|apply levels_le|done|].
    intros x Hx. destruct (fs_tree_range d F ino x Hinv); [lia|done|lia].
  - intros s1 sn Hd1 Hge. cbn. rewrite decide_False by lia. by wp_step.
Qed.

Lemma wp_treedisk_getsize E d F s ino :
  on_disk d s -> fs_inv d F -> 0 <= ino ->
  wp E (treedisk_getsize below ts ino) s (fun r s' => on_disk d s' /\
    r = if decide (ino < ninodes d) then i32 (Z.of_nat (length (file_of d ino))) else -1).
Proof.
  intros Hd Hinv Hino. unfold treedisk_getsize. wp_step.
  eapply wp_get_snapshot; [done|done|done| |].
  - intros s1 Hd1 Hlt. cbn. rewrite decide_True, length_file_of by lia. by wp_step.
  - intros s1 sn Hd1 Hge. cbn. rewrite decide_False by lia. by wp_step.
Qed.
End reads.
