(* ===== verification/TreediskAlloc.v ===== *)
(** * The treedisk file system: block allocation

    [treedisk_alloc_block] takes one block off the free list, and
    [treedisk_grow] adds levels to the tree of a file. *)

From stdpp Require Import options.
From S2P Require Import Prelude InodeStore Treedisk TreediskSpec TreediskRead.

Definition full_msg : string := "treedisk_alloc_block: inode store is full
".

(** The free blocks of a disk are [F]. *)
Record free_ok (d : list block) (F : list Z) : Prop := {
  fo_list : freelist d (free_list (blk d 0)) F;
  fo_nodup : NoDup F;
  fo_range : forall x, x ∈ F -> 0 < x < dlen d;
}.

(** Only the free-list field of the superblock and the blocks of [X] changed. *)
Definition same_except (X : list Z) (d d' : list block) : Prop :=
  dlen d' = dlen d /\ nib d' = nib d /\ (forall y, 0 < y -> y ∉ X -> blk d' y = blk d y).

Lemma same_except_refl X d : same_except X d d.
Proof. done. Qed.

Lemma same_except_trans X Y d1 d2 d3 : (forall y, y ∈ X -> y ∈ Y) ->
  same_except X d1 d2 -> same_except Y d2 d3 -> same_except Y d1 d3.
Proof.
  intros Hsub (? & ? & H1) (? & ? & H2). repeat split; [lia|lia|].
  intros y Hy HyY. rewrite H2, H1; [done|done|naive_solver|done|done].
Qed.

Lemma same_except_weaken X Y d d' : (forall y, y ∈ X -> y ∈ Y) ->
  same_except X d d' -> same_except Y d d'.
Proof. intros Hsub (? & ? & H1). repeat split; [done|done|]. intros y ??. apply H1; auto. Qed.

Lemma same_except_upd X d b x : 0 < b < dlen d -> b ∈ X -> same_except X d (upd d b x).
Proof.
  intros Hb HX. split; [apply dlen_upd|]. split.
  - unfold nib. by rewrite blk_upd_ne by lia.
  - intros y Hy HyX. rewrite blk_upd_ne; [done| |lia|lia]. intros ->. done.
Qed.

(** Frame for the free list: it survives changes elsewhere. *)
Lemma free_ok_frame d d' F : free_ok d F -> dlen d' = dlen d -> blk d' 0 = blk d 0 ->
  (forall x, x ∈ F -> blk d' x = blk d x) -> free_ok d' F.
Proof.
  intros [Hl Hn Hr] Hlen H0 Hag. split; [|done|by rewrite Hlen].
  rewrite H0. by eapply freelist_frame.
Qed.

Lemma free_ok_upd d F b x : free_ok d F -> 0 < b -> b ∉ F -> free_ok (upd d b x) F.
Proof.
  intros Hf Hb HbF. apply (free_ok_frame d); [done|apply dlen_upd|by rewrite blk_upd_ne by lia|].
  intros y Hy. pose proof (fo_range _ _ Hf y Hy).
  rewrite blk_upd_ne; [done| |lia|lia]. intros ->. done.
Qed.

(** The scan of a free-list block stops at the last reference in use. *)
Lemma scan_refs_spec fb n : (scan_refs fb n <= n)%nat /\
  (forall i, Z.of_nat (scan_refs fb n) < i <= Z.of_nat n -> refs fb i = 0) /\
  (scan_refs fb n <> 0%nat -> refs fb (Z.of_nat (scan_refs fb n)) <> 0).
Proof.
  induction n as [|n (Hle & Hz & Hnz)]; [repeat split; [done| |done]; lia|].
  cbn [scan_refs]. destruct (Z.eqb_spec (refs fb (Z.of_nat (S n))) 0).
  - repeat split; [lia| |done]. intros i Hi.
    destruct (decide (i = Z.of_nat (S n))) as [->|]; [done|]. apply Hz. lia.
  - repeat split; [done|lia|done].
Qed.

Lemma refs_range fb i : 0 <= refs fb i < 2 ^ 32.
Proof. apply get32_range. Qed.

Lemma refs_set_eq fb i v : is_block fb -> 0 <= i < 128 -> 0 <= v < 2 ^ 32 ->
  refs (set_refs fb i v) i = v.
Proof. intros. unfold refs, set_refs. apply get32_block_eq; [lia|done|done]. Qed.

Lemma refs_set_ne fb i j v : is_block fb -> 0 <= i < 128 -> 0 <= j -> i <> j ->
  refs (set_refs fb i v) j = refs fb j.
Proof. intros. unfold refs, set_refs. apply get32_block_ne; [lia|done|lia]. Qed.

Lemma set_refs_is_block fb i v : is_block fb -> 0 <= i < 128 -> is_block (set_refs fb i v).
Proof. intros. apply put32_is_block; [lia|done]. Qed.
#[export] Hint Resolve set_refs_is_block : egos.

(** Clearing a slot removes its block from the free blocks recorded. *)
Lemma free_refs_clear fb i : is_block fb -> 1 <= i <= 127 -> refs fb i <> 0 ->
  free_refs fb ≡ₚ refs fb i :: free_refs (set_refs fb i 0).
Proof.
  intros Hb Hi Hnz. unfold free_refs.
  replace 127 with ((i - 1) + (1 + (127 - i))) by lia.
  rewrite seqZ_app by lia. rewrite (seqZ_app _ 1) by lia.
  replace (1 + (i - 1)) with i by lia.
  assert (seqZ i 1 = [i]) as -> by (by rewrite seqZ_cons by lia).
  assert (forall j n, (i < j \/ j + n <= i) -> 0 <= j ->
    refs (set_refs fb i 0) <$> seqZ j n = refs fb <$> seqZ j n) as Hext.
  { intros j n Hj ?. apply list_fmap_ext. intros k x Hx.
    apply lookup_seqZ in Hx as [-> ?]. apply refs_set_ne; [done|lia|lia|lia]. }
  rewrite !fmap_app, !Hext by lia. cbn [fmap list_fmap].
  rewrite !filter_app. rewrite (refs_set_eq fb i 0) by (done || lia).
  rewrite filter_cons_True by done. rewrite filter_nil.
  rewrite (filter_cons_False _ 0) by (by intros []). rewrite filter_nil. cbn [app].
  by rewrite Permutation_middle.
Qed.

Lemma free_refs_nil fb : (forall i, 1 <= i <= 127 -> refs fb i = 0) -> free_refs fb = [].
Proof.
  intros Hz. unfold free_refs. apply elem_of_nil_inv. intros x Hx.
  apply list_elem_of_filter in Hx as [Hnz Hx].
  apply list_elem_of_fmap in Hx as (i & -> & Hi%elem_of_seqZ).
  apply Hnz, Hz. lia.
Qed.

Lemma free_refs_elem fb i : 1 <= i <= 127 -> refs fb i <> 0 -> refs fb i ∈ free_refs fb.
Proof.
  intros Hi Hnz. apply list_elem_of_filter. split; [done|].
  apply list_elem_of_fmap. exists i. split; [done|]. apply elem_of_seqZ. lia.
Qed.

Section alloc.
Context {S : Type} (below : inode_store S) (ts : treedisk_state).
Context `{!StoreSpec below (below_ino ts)}.
Local Abbreviation on_disk := (holds below (below_ino ts)).

Definition with_superblock (sn : treedisk_snapshot) (sb : block) : treedisk_snapshot := {|
  superblock := sb;
  inodeblock := inodeblock sn;
  inode_blockno := inode_blockno sn;
  inode := inode sn;
|}.

(** Taking the free-list block itself, when it records no other free block. *)
Lemma alloc_head d F b : Forall is_block d -> 0 < dlen d -> free_ok d F ->
  free_list (blk d 0) = b -> b <> 0 -> free_refs (blk d b) = [] ->
  let d' := upd d 0 (set_free_list (blk d 0) (refs (blk d b) 0)) in
  exists F', F ≡ₚ b :: F' /\ free_ok d' F' /\ same_except F d d'.
Proof.
  intros Hblk Hlen [Hl Hn Hr] Hfl Hb Hnil d'. rewrite Hfl in Hl.
  inversion Hl as [|? rest _ Hrest]; subst; [done|]. rewrite Hnil in *. cbn [app] in *.
  set (b := free_list (blk d 0)) in *.
  assert (is_block (blk d 0)) by auto with egos.
  assert (blk d' 0 = set_free_list (blk d 0) (refs (blk d b) 0)) as H0
    by (apply blk_upd_eq; lia).
  assert (forall y, 0 < y -> blk d' y = blk d y) as Hne
    by (intros y Hy; apply blk_upd_ne; lia).
  exists rest. split; [done|]. split; [split|split; [|split]].
  - rewrite H0. unfold free_list, set_free_list.
    rewrite get32_block_eq by (lia || done || apply refs_range).
    eapply freelist_frame; [exact Hrest|]. intros x Hx. apply Hne, Hr. by right.
  - by apply NoDup_cons in Hn as [_ ?].
  - intros x Hx. unfold d'. rewrite dlen_upd. apply Hr. by right.
  - apply dlen_upd.
  - unfold nib. rewrite H0. apply get32_block_ne; [lia|done|done].
  - auto.
Qed.

(** Taking a block recorded in the first free-list block. *)
Lemma alloc_slot d F b i : Forall is_block d -> free_ok d F ->
  free_list (blk d 0) = b -> b <> 0 -> 1 <= i <= 127 -> refs (blk d b) i <> 0 ->
  let d' := upd d b (set_refs (blk d b) i 0) in
  exists F', F ≡ₚ refs (blk d b) i :: F' /\ free_ok d' F' /\ same_except F d d'.
Proof.
  intros Hblk [Hl Hn Hr] Hfl Hb Hi Hnz d'. rewrite Hfl in Hl.
  inversion Hl as [|? rest _ Hrest]; subst; [done|]. set (b := free_list (blk d 0)) in *.
  assert (0 < b < dlen d) as Hbr by (apply Hr; left).
  assert (blk d' b = set_refs (blk d b) i 0) as Hb' by (apply blk_upd_eq; lia).
  assert (is_block (blk d b)) by auto with egos.
  assert (b :: free_refs (blk d b) ++ rest ≡ₚ
    refs (blk d b) i :: b :: free_refs (set_refs (blk d b) i 0) ++ rest) as HP.
  { rewrite (free_refs_clear (blk d b) i) by (done || lia). cbn [app]. by constructor. }
  exists (b :: free_refs (set_refs (blk d b) i 0) ++ rest).
  split; [exact HP|]. split; [split|].
  - unfold d'. rewrite blk_upd_ne by lia. fold b d'. rewrite <- Hb'.
    constructor; [done|]. rewrite Hb', refs_set_ne by (done || lia).
    eapply freelist_frame; [exact Hrest|].
    intros x Hx. assert (x ∈ b :: free_refs (blk d b) ++ rest) as Hx'
      by (right; apply elem_of_app; by right).
    apply blk_upd_ne; [|lia|apply Hr in Hx'; lia].
    intros ->. apply NoDup_cons in Hn as [Hn _]. apply Hn, elem_of_app. by right.
  - rewrite HP in Hn. by apply NoDup_cons in Hn as [_ ?].
  - intros x Hx. unfold d'. rewrite dlen_upd. apply Hr. rewrite HP. by right.
  - apply same_except_upd; [done|]. left.
Qed.

Lemma wp_alloc_block d F s sn :
  on_disk d s -> 0 < dlen d -> free_ok d F -> superblock sn = blk d 0 ->
  wp (fun e => e = full_msg /\ F = []) (treedisk_alloc_block below ts sn) s
    (fun r s' => exists d' F', on_disk d' s' /\ F ≡ₚ r.1 :: F' /\ free_ok d' F' /\
       same_except F d d' /\ r.2 = with_superblock sn (blk d' 0)).
Proof.
  intros Hd Hlen Hf Hsb. pose proof (holds_blocks _ _ _ _ Hd) as Hblk.
  unfold treedisk_alloc_block. rewrite Hsb.
  remember (free_list (blk d 0)) as b eqn:Hbe. symmetry in Hbe.
  wp_step. wp_step.
  { intros Hb%Z.eqb_eq. split; [done|]. destruct Hf as [Hl _ _].
    rewrite Hbe, Hb in Hl. by inversion Hl. }
  intros Hb%Z.eqb_neq. wp_step.
  assert (0 < b < dlen d) as Hbr.
  { destruct Hf as [Hl _ Hr]. apply Hr. rewrite Hbe in Hl. inversion Hl; [done|]. left. }
  eapply wp_read; [done|lia|]. intros s1 Hd1. wp_step. wp_step; [done|]. intros _.
  change (Z.to_nat (REFS_PER_BLOCK - 1)) with 127%nat.
  destruct (scan_refs_spec (blk d b) 127) as (Hle & Hz & Hnz).
  set (i := scan_refs (blk d b) 127) in *. clearbody i.
  destruct (Z.eqb_spec (Z.of_nat i) 0) as [Hi|Hi]; cbn.
  - destruct (alloc_head d F b) as (F' & HP & Hf' & Hse); try done.
    { apply free_refs_nil. intros j Hj. apply Hz. lia. }
    wp_step. eapply wp_write; [done|lia| |].
    { apply put32_is_block; [lia|]. auto with egos. }
    intros s2 Hd2. wp_step. wp_step; [done|]. intros _. wp_step.
    eexists _, F'. split; [exact Hd2|]. repeat (split; [done|]). cbn.
    unfold with_superblock. by rewrite blk_upd_eq by lia.
  - destruct (alloc_slot d F b (Z.of_nat i)) as (F' & HP & Hf' & Hse); try done; [lia|apply Hnz; lia|].
    wp_step. eapply wp_write; [done|lia| |].
    { apply set_refs_is_block; [auto with egos|lia]. }
    intros s2 Hd2. wp_step. wp_step; [done|]. intros _. wp_step.
    eexists _, F'. split; [exact Hd2|]. repeat (split; [done|]). cbn.
    unfold with_superblock. rewrite blk_upd_ne, <- Hsb by lia. by destruct sn.
Qed.
End alloc.
