(* ===== verification/TreediskGrow.v ===== *)
(** * The treedisk file system: growing the tree of a file *)

From stdpp Require Import options.
From S2P Require Import Prelude InodeStore Treedisk TreediskSpec TreediskRead TreediskAlloc.

(** A block whose only reference is in slot [i]. *)
Lemma tree_single d l b i r : b <> 0 -> 0 <= i < 128 -> refs (blk d b) i = r ->
  (forall j, 0 <= j < 128 -> j <> i -> refs (blk d b) j = 0) ->
  tree_blocks d (S l) b ≡ₚ b :: tree_blocks d l r.
Proof.
  intros Hb Hi Hr Hz. rewrite tree_blocks_S by done. f_equiv.
  destruct (list_bind_split_in (fun i => tree_blocks d l (refs (blk d b) i)) (seqZ 0 128) i)
    as (rest & HP & Hrest & _).
  - apply NoDup_seqZ.
  - apply elem_of_seqZ. lia.
  - rewrite HP, Hr. replace rest with (@nil Z); [by rewrite app_nil_r|].
    symmetry. apply elem_of_nil_inv. intros x Hx.
    apply Hrest in Hx as (j & Hj%elem_of_seqZ & Hji & Hx).
    rewrite Hz, tree_blocks_0 in Hx by lia. by apply not_elem_of_nil in Hx.
Qed.

Lemma refs_null i : refs null_block i = 0.
Proof. apply get32_zeros. Qed.

Lemma index_zero l o : 0 <= o < 128 ^ Z.of_nat (S l) ->
  index l o = 0 <-> o < 128 ^ Z.of_nat l.
Proof.
  intros Ho. rewrite index_small by done. pose proof (pow128_pos l). split; intros Hi.
  - apply Z.div_small_iff in Hi; lia.
  - apply Z.div_small. lia.
Qed.

(** A new root above the old one: same blocks, same contents. *)
Lemma tree_new_root d l x root : x <> 0 -> 0 <= root < 2 ^ 32 ->
  blk d x = set_refs null_block 0 root ->
  (tree_blocks d (S l) x ≡ₚ x :: tree_blocks d l root) /\
  (forall o, 0 <= o < 128 ^ Z.of_nat (S l) -> tree_get d (S l) x o =
    if decide (o < 128 ^ Z.of_nat l) then tree_get d l root o else None).
Proof.
  intros Hx Hroot Hblk.
  assert (refs (blk d x) 0 = root) as H0 by (rewrite Hblk; apply refs_set_eq; auto with egos; lia).
  assert (forall j, 0 <= j -> j <> 0 -> refs (blk d x) j = 0) as Hz.
  { intros j ??. rewrite Hblk, refs_set_ne; [apply refs_null|auto with egos|lia|lia|lia]. }
  split; [apply (tree_single d l x 0); [done|lia|done|intros; apply Hz; lia]|].
  intros o Ho. rewrite tree_get_S by done. pose proof (index_zero l o Ho) as Hi.
  pose proof (index_range l o). case_decide.
  - rewrite (proj2 Hi), H0 by done. done.
  - rewrite Hz, tree_get_0; [done|lia|]. intros He. by apply Hi in He.
Qed.

(** The inode of the snapshot now has the root [root]. *)
Definition with_root (sn : treedisk_snapshot) (sb : block) (root : Z) : treedisk_snapshot := {|
  superblock := sb;
  inodeblock := put32 (inodeblock sn) (root_word (inode sn)) root;
  inode_blockno := inode_blockno sn;
  inode := inode sn;
|}.

Section grow.
Context {S : Type} (below : inode_store S) (ts : treedisk_state).
Context `{!StoreSpec below (below_ino ts)}.
Local Abbreviation on_disk := (holds below (below_ino ts)).

Definition grow_post (k l : nat) (d : list block) (F : list Z) (root : Z)
    (sn sn' : treedisk_snapshot) (d' : list block) : Prop :=
  exists F' root',
    free_ok d' F' /\ same_except F d d' /\ sn' = with_root sn (blk d' 0) root' /\
    0 <= root' < 2 ^ 32 /\ length F = (k + length F')%nat /\
    (tree_blocks d' (k + l) root' ++ F' ≡ₚ tree_blocks d l root ++ F) /\
    (forall o, 0 <= o < 128 ^ Z.of_nat (k + l) -> tree_get d' (k + l) root' o =
       if decide (o < 128 ^ Z.of_nat l) then tree_get d l root o else None).

Lemma wp_grow k : forall l d F s sn,
  on_disk d s -> 0 < dlen d -> free_ok d F -> superblock sn = blk d 0 ->
  is_block (inodeblock sn) -> 0 <= inode sn < 64 ->
  let root := inode_root (inodeblock sn) (inode sn) in
  NoDup (F ++ tree_blocks d l root) ->
  (forall x, x ∈ tree_blocks d l root -> 0 < x < dlen d) ->
  wp (fun e => e = full_msg /\ (length F < k)%nat) (treedisk_grow below ts k sn) s
    (fun sn' s' => exists d', on_disk d' s' /\ grow_post k l d F root sn sn' d').
Proof.
  induction k as [|k IH]; intros l d F s sn Hd Hlen Hf Hsb Hib Hidx root Hnd Hrg.
  { cbn [treedisk_grow]. wp_step. exists d. split; [done|]. exists F, root.
    pose proof (get32_range (inodeblock sn) (root_word (inode sn))).
    split; [done|]. split; [done|]. split; [|split; [done|split; [done|split; [done|]]]].
    - unfold with_root, root, inode_root. rewrite <- Hsb, put32_block_id;
        [by destruct sn|unfold root_word; lia|done].
    - intros o Ho. cbn [Nat.add] in Ho. rewrite decide_True by lia. done. }
  cbn [treedisk_grow]. wp_step.
  eapply wp_conseq; [by apply (wp_alloc_block below ts d F)| |].
  { intros e [-> ->]. split; [done|]. cbn. lia. }
  intros [x sn1] s1 (d1 & F1 & Hd1 & HP & Hf1 & Hse1 & Hsn1). cbn in HP, Hsn1. subst sn1.
  cbn [with_superblock inodeblock inode inode_blockno superblock]. fold root.
  pose proof (holds_size _ _ _ _ Hd1).
  assert (0 < x < dlen d) as Hx by (apply (fo_range _ _ Hf); rewrite HP; left).
  destruct Hse1 as (Hlen1 & Hnib1 & Hag1).
  assert (forall y, y ∈ tree_blocks d l root -> y ∉ F) as Hdisj.
  { intros y Hy HyF. apply NoDup_app in Hnd as (_ & Hnd & _). by apply (Hnd y). }
  set (tib := set_refs null_block 0 root). set (d2 := upd d1 x tib).
  pose proof (get32_range (inodeblock sn) (root_word (inode sn))) as Hroot. fold root in Hroot.
  assert (same_except F d d2) as Hse2.
  { apply (same_except_trans F F _ d1); [done|done|].
    apply same_except_upd; [lia|]. rewrite HP. left. }
  destruct (tree_new_root d2 l x root) as [Hblocks Hget]; [lia|done|apply blk_upd_eq; lia|].
  assert (forall y, y ∈ tree_blocks d l root -> blk d2 y = blk d y) as Hag.
  { intros y Hy. apply Hse2; [apply Hrg in Hy; lia|by apply Hdisj]. }
  rewrite (tree_blocks_frame d d2 l root Hag) in Hblocks.
  wp_step. eapply wp_write; [done|lia|apply set_refs_is_block; auto with egos; lia|].
  intros s2 Hd2. fold tib d2 in Hd2. wp_step. wp_step; [done|]. intros _.
  set (sn2 := with_inodeblock _ _).
  assert (inode_root (inodeblock sn2) (inode sn2) = x) as Hroot2.
  { apply get32_block_eq; [unfold root_word; cbn; lia|done|lia]. }
  assert (NoDup F1 /\ x ∉ F1) as [HndF1 HxF1].
  { pose proof (fo_nodup _ _ Hf) as HndF. rewrite HP in HndF.
    by apply NoDup_cons in HndF as [??]. }
  eapply wp_conseq.
  - apply (IH (Datatypes.S l) d2 F1 s2 sn2); rewrite ?Hroot2; clear IH.
    + done.
    + destruct Hse2; lia.
    + apply free_ok_upd; [done|lia|done].
    + cbn. unfold d2. by rewrite blk_upd_ne by lia.
    + apply put32_is_block; [unfold root_word; lia|done].
    + done.
    + rewrite Hblocks, <- Permutation_middle.
      change (x :: F1 ++ tree_blocks d l root) with ((x :: F1) ++ tree_blocks d l root).
      by rewrite <- HP.
    + intros y Hy. rewrite Hblocks in Hy. destruct Hse2 as [-> _].
      apply elem_of_cons in Hy as [->|Hy]; [done|auto].
  - intros e [-> Hlt]. split; [done|]. rewrite HP. cbn. lia.
  - intros sn' s' (d' & Hd' & F' & root' & Hf' & Hse' & -> & Hroot' & HlF & HP' & Hget').
    rewrite Hroot2 in HP', Hget'. rewrite Nat.add_succ_r in HP', Hget'.
    exists d'. split; [done|]. exists F', root'.
    split; [done|]. split; [|split; [|split; [done|split; [|split]]]].
    + apply (same_except_trans F F _ d2); [done|done|].
      apply (same_except_weaken F1); [|done]. intros y Hy. rewrite HP. by right.
    + unfold with_root, sn2. cbn. rewrite put32_block_twice;
        [done|unfold root_word; lia|done].
    + rewrite HP. cbn. lia.
    + rewrite HP', Hblocks. rewrite HP. cbn [app]. by rewrite Permutation_middle.
    + intros o Ho. rewrite Hget' by done. pose proof (pow128_S l).
      case_decide; [rewrite Hget by lia|by rewrite decide_False by lia].
      case_decide; [by apply tree_get_frame|done].
Qed.
End grow.
