(* ===== verification/TreediskWalk.v ===== *)
(** * The treedisk file system: the walk of a write

    [treedisk_write_walk] finds the data block of an offset, allocating the
    data block and the indirect blocks that are missing on the way.  A block
    reached through the walk may exist only in memory until its parent is
    written back: the lemmas speak of the disk as if the in-memory copy of the
    parent ([upd d p pb]) were already stored. *)

From stdpp Require Import options.
From S2P Require Import Prelude InodeStore Treedisk TreediskSpec TreediskRead TreediskAlloc TreediskGrow.

(** From the tree rooted at [r] (free blocks [F]) on disk [d0] to the tree
    rooted at [r'] (free blocks [F']) on disk [d']: no block is lost or
    duplicated, and storing [data] in block [b] changes the contents of the
    tree exactly at the offset [off]. *)
Definition tree_post (l : nat) (off : Z) (d0 : list block) (r : Z) (F : list Z)
    (d' : list block) (r' : Z) (F' : list Z) (b : Z) : Prop :=
  0 < r' < 2 ^ 32 /\ b ∈ tree_blocks d' l r' /\
  (tree_blocks d' l r' ++ F' ≡ₚ tree_blocks d0 l r ++ F) /\
  (forall data, tree_blocks (upd d' b data) l r' = tree_blocks d' l r' /\
     forall o, tree_get (upd d' b data) l r' o =
       if decide (same_path l o off) then Some data else tree_get d0 l r o).

(** The walk from the word [w] of the block [p], whose in-memory copy is [pb]. *)
Definition walk_post (l : nat) (off : Z) (d0 : list block) (p : Z) (pb : block) (w : nat)
    (F : list Z) (b : Z) (d' : list block) (F' : list Z) : Prop :=
  exists r', (get32 pb w <> 0 -> r' = get32 pb w) /\
    tree_post l off d0 (get32 pb w) F d' r' F' b /\
    blk d' p = put32 pb w r' /\ free_ok d' F' /\
    same_except (p :: tree_blocks d0 l (get32 pb w) ++ F) d0 d'.

(** The root of a walk: the word, the block that holds it and the tree below. *)
Record walk_pre (l : nat) (d : list block) (p : Z) (pb : block) (w : nat) (F : list Z) : Prop := {
  wk_free : free_ok d F;
  wk_pb : is_block pb;
  wk_w : (w < 128)%nat;
  wk_p : 0 < p < dlen d;
  wk_sync : get32 pb w <> 0 -> blk d p = pb;
  wk_nodup : NoDup (F ++ tree_blocks (upd d p pb) l (get32 pb w));
  wk_range : forall x, x ∈ tree_blocks (upd d p pb) l (get32 pb w) -> 0 < x < dlen d;
  wk_fresh : p ∉ F ++ tree_blocks (upd d p pb) l (get32 pb w);
}.

Lemma same_path_0 o o' : same_path 0 o o'.
Proof. unfold same_path. by rewrite !Z.mod_1_r. Qed.

Lemma tree_post_leaf off d0 r F d' r' F' : 0 < r' < dlen d' -> r' < 2 ^ 32 ->
  (r' :: F' ≡ₚ tree_blocks d0 0 r ++ F) -> tree_post 0 off d0 r F d' r' F' r'.
Proof.
  intros Hr Hr2 HP. split; [lia|]. rewrite tree_blocks_O by lia.
  split; [left|]. split; [done|]. intros data. split.
  - by rewrite !tree_blocks_O by lia.
  - intros o. rewrite decide_True by apply same_path_0.
    rewrite tree_get_O, blk_upd_eq by lia. done.
Qed.

Lemma NoDup_app_disj {A} (l k : list A) x : NoDup (l ++ k) -> x ∈ l -> x ∈ k -> False.
Proof. intros (_ & Hd & _)%NoDup_app Hl Hk. by apply (Hd x). Qed.

(** The children of an indirect block are pairwise disjoint. *)
Lemma children_disjoint d l b i j x : b <> 0 -> NoDup (tree_blocks d (S l) b) ->
  0 <= i < 128 -> 0 <= j < 128 -> i <> j ->
  x ∈ tree_blocks d l (refs (blk d b) i) -> x ∉ tree_blocks d l (refs (blk d b) j).
Proof.
  intros Hb Hnd Hi Hj Hij Hx Hx'. rewrite tree_blocks_S in Hnd by done.
  apply NoDup_cons in Hnd as [_ Hnd].
  destruct (list_bind_split_in (fun i => tree_blocks d l (refs (blk d b) i)) (seqZ 0 128) i)
    as (rest & HP & Hrest & _); [apply NoDup_seqZ|apply elem_of_seqZ; lia|].
  rewrite HP in Hnd. eapply NoDup_app_disj; [done|done|].
  apply Hrest. exists j. split; [apply elem_of_seqZ; lia|auto].
Qed.

Section node.
Context (l : nat) (off : Z) (e0 d' : list block) (c : Z) (F F' : list Z) (b : Z).
Hypothesis (Hc : 0 < c < 2 ^ 32) (Hclen : c < dlen e0) (Hblk : Forall is_block e0).
Hypothesis Hnd : NoDup (F ++ tree_blocks e0 (S l) c).
Hypothesis Hrg : forall x, x ∈ F ++ tree_blocks e0 (S l) c -> 0 < x.
Hypothesis Hpost : walk_post l off e0 c (blk e0 c) (Z.to_nat (index l off)) F b d' F'.
Local Abbreviation idx := (index l off).
Local Abbreviation child := (refs (blk e0 c)).

Lemma node_sub i x : 0 <= i < 128 -> x ∈ tree_blocks e0 l (child i) ->
  0 < x /\ (x ∉ F) /\ x <> c /\ (i <> idx -> x ∉ tree_blocks e0 l (child idx)).
Proof using Hnd Hrg Hc.
  intros Hi Hx. assert (x ∈ tree_blocks e0 (S l) c) as HxT
    by (eapply tree_blocks_child; [lia|exact Hi|done]).
  split; [apply Hrg; apply elem_of_app; by right|].
  split; [intros HxF; by eapply (NoDup_app_disj F)|].
  apply NoDup_app in Hnd as (_ & _ & HndT). split.
  - intros ->. rewrite tree_blocks_S in HndT by lia. apply NoDup_cons in HndT as [Hn _].
    apply Hn, list_elem_of_bind. exists i. split; [done|]. apply elem_of_seqZ. lia.
  - intros Hne. eapply children_disjoint; [|done|exact Hi|apply index_range|done|done]. lia.
Qed.

(** The other children are untouched. *)
Lemma node_frame i x : 0 <= i < 128 -> i <> idx -> x ∈ tree_blocks e0 l (child i) ->
  blk d' x = blk e0 x /\ x <> b.
Proof using Hnd Hrg Hc Hpost.
  intros Hi Hne Hx. destruct (node_sub i x Hi Hx) as (Hpos & HF & Hxc & Hdis).
  destruct Hpost as (r1 & _ & (Hr1 & Hb & HP & _) & _ & _ & (_ & _ & Hag)).
  change (get32 (blk e0 c) (Z.to_nat idx)) with (child idx) in *.
  assert (x ∉ tree_blocks e0 l (child idx) ++ F) as Hn.
  { rewrite elem_of_app. intros [?|?]; [by apply Hdis|done]. }
  split.
  - apply Hag; [done|]. intros [->|?]%elem_of_cons; done.
  - intros ->. apply Hn. rewrite <- HP. apply elem_of_app. by left.
Qed.

Lemma node_refs i : 0 <= i < 128 -> exists r1, refs (blk d' c) idx = r1 /\
  (i <> idx -> refs (blk d' c) i = child i) /\
  tree_post l off e0 (child idx) F d' r1 F' b.
Proof using Hblk Hpost.
  intros Hi. destruct Hpost as (r1 & _ & Htp & Hbc & _). pose proof (index_range l off).
  assert (is_block (blk e0 c)) by auto with egos.
  exists r1. unfold refs. rewrite Hbc. split; [|split; [|done]].
  - destruct Htp as [? _]. apply get32_block_eq; [lia|done|lia].
  - intros ?. apply get32_block_ne; [lia|done|lia].
Qed.

Lemma node_b_ne : b <> c.
Proof using Hnd Hrg Hc Hpost.
  destruct Hpost as (r1 & _ & (_ & Hb & HP & _) & _).
  change (get32 (blk e0 c) (Z.to_nat idx)) with (child idx) in HP.
  intros ->. assert (c ∈ tree_blocks e0 l (child idx) ++ F) as Hin
    by (rewrite <- HP; apply elem_of_app; by left).
  apply elem_of_app in Hin as [Hin|Hin].
  - destruct (node_sub idx c) as (_ & _ & Hcc & _); [apply index_range|done|done].
  - eapply NoDup_app_disj; [exact Hnd|done|]. apply tree_blocks_root. lia.
Qed.

Lemma node_conserve : tree_blocks d' (S l) c ++ F' ≡ₚ tree_blocks e0 (S l) c ++ F.
Proof using Hnd Hrg Hc Hpost Hblk.
  rewrite !tree_blocks_S by lia. pose proof (index_range l off) as Hidx.
  destruct (list_bind_split_in (fun i => tree_blocks e0 l (child i)) (seqZ 0 128) idx)
    as (rest & HPf & _ & Hg); [apply NoDup_seqZ|apply elem_of_seqZ; lia|].
  destruct (node_refs idx) as (r1 & Hr1 & _ & (_ & _ & HP & _)); [done|].
  rewrite HPf, (Hg (fun i => tree_blocks d' l (refs (blk d' c) i))).
  - rewrite Hr1. cbn [app]. f_equiv.
    rewrite (app_swap_r _ rest F'), (app_swap_r _ rest F). by rewrite HP.
  - intros i Hi%elem_of_seqZ Hne. destruct (node_refs i) as (_ & _ & Hri & _); [lia|].
    rewrite Hri by done. apply tree_blocks_frame. intros x Hx.
    apply (node_frame i x); [lia|done|done].
Qed.

(** A write below the child [idx] of the block [c] is a write below [c]. *)
Lemma node_step : tree_post (S l) off e0 c F d' c F' b.
Proof using Hnd Hrg Hc Hpost Hblk Hclen.
  split; [done|]. pose proof (index_range l off) as Hidx. split; [|split].
  - destruct (node_refs idx Hidx) as (r1 & Hr1 & _ & (_ & Hb & _)).
    eapply tree_blocks_child; [lia|exact Hidx|by rewrite Hr1].
  - apply node_conserve.
  - intros data. pose proof node_b_ne as Hbc.
    assert (0 <= b) as Hb0.
    { destruct Hpost as (r1 & _ & (_ & Hb & HP & _) & _).
      assert (0 < b); [|lia]. apply Hrg. rewrite (Permutation_app_comm F), <- node_conserve.
      destruct (node_refs idx Hidx) as (r2 & Hr2 & _ & (_ & Hb2 & _)).
      apply elem_of_app. left. eapply tree_blocks_child; [lia|exact Hidx|by rewrite Hr2]. }
    assert (blk (upd d' b data) c = blk d' c) as Hcb by (apply blk_upd_ne; lia).
    assert (forall i, 0 <= i < 128 -> i <> idx ->
      tree_blocks (upd d' b data) l (child i) = tree_blocks e0 l (child i) /\
      forall o, tree_get (upd d' b data) l (child i) o = tree_get e0 l (child i) o) as Hoth.
    { intros i Hi Hne. apply tree_frame. intros x Hx.
      destruct (node_sub i x Hi Hx) as [? _]. destruct (node_frame i x Hi Hne Hx).
      by rewrite blk_upd_ne by lia. }
    split.
    + rewrite !tree_blocks_S, Hcb by lia. f_equal. apply list_bind_ext_in.
      intros i Hi%elem_of_seqZ. destruct (node_refs i) as (r1 & Hr1 & Hri & Htp); [lia|].
      destruct (decide (i = idx)) as [->|Hne].
      * rewrite Hr1. apply Htp.
      * rewrite Hri by done. rewrite (proj1 (Hoth i ltac:(lia) Hne)). symmetry.
        apply tree_blocks_frame. intros x Hx. apply (node_frame i x); [lia|done|done].
    + intros o. rewrite !tree_get_S, Hcb by lia.
      destruct (node_refs (index l o)) as (r1 & Hr1 & Hri & Htp); [apply index_range|].
      destruct (decide (index l o = idx)) as [He|Hne].
      * rewrite He, Hr1. destruct Htp as (_ & _ & _ & Hw). rewrite (proj2 (Hw data)).
        apply decide_ext. rewrite same_path_S. tauto.
      * rewrite Hri by done. rewrite decide_False by (rewrite same_path_S; tauto).
        apply (Hoth (index l o)); [apply index_range|done].
Qed.
End node.

(** An indirect block full of zeros is an empty tree. *)
Lemma tree_empty d l x : x <> 0 -> blk d x = null_block ->
  tree_blocks d (S l) x = [x] /\ (forall o, tree_get d (S l) x o = None).
Proof.
  intros Hx Hb. split.
  - rewrite tree_blocks_S, Hb by done. f_equal. apply elem_of_nil_inv.
    intros y Hy. apply list_elem_of_bind in Hy as (i & Hy & _).
    rewrite refs_null, tree_blocks_0 in Hy. by apply not_elem_of_nil in Hy.
  - intros o. rewrite tree_get_S, Hb, refs_null by done. apply tree_get_0.
Qed.

Section leaf.
Context (off : Z) (d : list block) (p : Z) (pb : block) (w : nat) (F : list Z).
Hypothesis (Hsize : dlen d < 2 ^ 31) (Hpre : walk_pre 0 d p pb w F).

(** The data block exists. *)
Lemma leaf_old : get32 pb w <> 0 -> walk_post 0 off (upd d p pb) p pb w F (get32 pb w) d F.
Proof using Hsize Hpre.
  intros Hr. destruct Hpre as [Hf Hpb Hw Hp Hsync Hnd Hrg Hfresh].
  assert (upd d p pb = d) as Hd by (rewrite <- Hsync by done; apply upd_blk; lia).
  rewrite Hd in *. assert (0 < get32 pb w < dlen d) by (apply Hrg, tree_blocks_root, Hr).
  exists (get32 pb w). split; [done|]. split; [|split; [|done]].
  - apply tree_post_leaf; [done|lia|]. by rewrite tree_blocks_O.
  - rewrite put32_block_id by done. by apply Hsync.
Qed.

(** The data block was just allocated. *)
Lemma leaf_new x d1 F1 : get32 pb w = 0 -> (F ≡ₚ x :: F1) -> free_ok d1 F1 ->
  same_except F d d1 ->
  walk_post 0 off (upd d p pb) p pb w F x (upd d1 p (put32 pb w x)) F1.
Proof using Hsize Hpre.
  intros Hr HP Hf1 (Hlen1 & Hnib1 & Hag1). destruct Hpre as [Hf Hpb Hw Hp _ _ _ Hfresh].
  rewrite Hr, tree_blocks_0, app_nil_r in Hfresh.
  assert (0 < x < dlen d) as Hx by (apply (fo_range _ _ Hf); rewrite HP; left).
  assert (p ∉ F1) as HpF1 by (intros Hin; apply Hfresh; rewrite HP; by right).
  exists x. rewrite Hr, tree_blocks_0. split; [done|]. split; [|split; [|split]].
  - apply tree_post_leaf; [rewrite dlen_upd; lia|lia|]. by rewrite tree_blocks_0, HP.
  - apply blk_upd_eq. lia.
  - apply free_ok_upd; [done|lia|done].
  - split; [by rewrite !dlen_upd|]. split.
    + unfold nib. by rewrite !blk_upd_ne by lia.
    + intros y Hy [Hyp HyF]%not_elem_of_cons. rewrite !blk_upd_ne by lia. by apply Hag1.
Qed.
End leaf.

Section descend.
Context (l : nat) (off : Z) (d d' : list block) (p : Z) (pb : block) (w : nat).
Context (F F' : list Z) (b : Z).
Hypothesis (Hblk : Forall is_block d) (Hsize : dlen d < 2 ^ 31).
Hypothesis Hpre : walk_pre (S l) d p pb w F.
Local Abbreviation r := (get32 pb w).

(** Descending into an indirect block that exists. *)
Lemma descend_old : r <> 0 ->
  walk_pre l d r (blk d r) (Z.to_nat (index l off)) F /\
  (walk_post l off d r (blk d r) (Z.to_nat (index l off)) F b d' F' ->
   walk_post (S l) off (upd d p pb) p pb w F b d' F').
Proof using Hblk Hsize Hpre.
  intros Hr. destruct Hpre as [Hf Hpb Hw Hp Hsync Hnd Hrg Hfresh].
  assert (upd d p pb = d) as Hd by (rewrite <- Hsync by done; apply upd_blk; lia).
  rewrite Hd in *. pose proof (index_range l off).
  assert (0 < r < dlen d) as Hrr by (apply Hrg, tree_blocks_root, Hr).
  assert (forall x, x ∈ tree_blocks d l (refs (blk d r) (index l off)) ->
    x ∈ tree_blocks d (S l) r) as Hsub by (intros x; by apply tree_blocks_child).
  assert (r ∉ F) as HrF.
  { intros HF. eapply NoDup_app_disj; [exact Hnd|exact HF|]. by apply tree_blocks_root. }
  assert (NoDup (tree_blocks d (S l) r)) as HndT by (by apply NoDup_app in Hnd as (_ & _ & ?)).
  assert (r ∉ tree_blocks d l (refs (blk d r) (index l off))) as HrT.
  { rewrite tree_blocks_S in HndT by done. apply NoDup_cons in HndT as [Hn _].
    intros Hin. apply Hn, list_elem_of_bind. eexists. split; [exact Hin|].
    apply elem_of_seqZ. lia. }
  split.
  - split; rewrite ?upd_blk by lia; auto with egos; [lia| |].
    + apply NoDup_app. apply NoDup_app in Hnd as (HndF & Hdis & _).
      split; [done|]. split; [intros x Hx Hx'; by eapply Hdis, Hsub|].
      rewrite tree_blocks_S in HndT by done. apply NoDup_cons in HndT as [_ HndT].
      destruct (list_bind_split_in (fun i => tree_blocks d l (refs (blk d r) i))
        (seqZ 0 128) (index l off)) as (rest & HP & _);
        [apply NoDup_seqZ|apply elem_of_seqZ; lia|].
      rewrite HP in HndT. by apply NoDup_app in HndT as (? & _ & _).
    + intros [?|?]%elem_of_app; done.
  - intros Hpost. pose proof Hpost as (r1 & _ & _ & _ & Hf' & Hse).
    exists r. split; [done|]. split; [|split; [|split; [done|]]].
    + apply node_step; [lia|lia|done|done| |done].
      intros x [Hx|Hx]%elem_of_app; [by apply (fo_range _ _ Hf)|by apply Hrg].
    + rewrite put32_block_id by done. destruct Hse as (_ & _ & Hag).
      rewrite Hag; [by apply Hsync|lia|]. intros [->|Hin]%elem_of_cons.
      * apply Hfresh, elem_of_app. right. by apply tree_blocks_root.
      * apply elem_of_app in Hin as [Hin|Hin]; apply Hfresh, elem_of_app;
          [right; by apply Hsub|by left].
    + eapply same_except_weaken; [|exact Hse]. intros y [->|[Hy|Hy]%elem_of_app]%elem_of_cons.
      * right. apply elem_of_app. left. by apply tree_blocks_root.
      * right. apply elem_of_app. left. by apply Hsub.
      * right. apply elem_of_app. by right.
Qed.

(** Descending into an indirect block that was just allocated. *)
Lemma descend_new x d1 F1 : r = 0 -> (F ≡ₚ x :: F1) -> Forall is_block d1 ->
  free_ok d1 F1 -> same_except F d d1 ->
  let d2 := upd d1 p (put32 pb w x) in
  walk_pre l d2 x null_block (Z.to_nat (index l off)) F1 /\
  (walk_post l off (upd d2 x null_block) x null_block (Z.to_nat (index l off)) F1 b d' F' ->
   walk_post (S l) off (upd d p pb) p pb w F b d' F').
Proof using Hblk Hsize Hpre.
  intros Hr HP Hblk1 Hf1 (Hlen1 & Hnib1 & Hag1) d2.
  destruct Hpre as [Hf Hpb Hw Hp _ _ _ Hfresh]. pose proof (index_range l off).
  rewrite Hr, tree_blocks_0, app_nil_r in Hfresh.
  assert (0 < x < dlen d) as Hx by (apply (fo_range _ _ Hf); rewrite HP; left).
  assert (p <> x) as Hpx by (intros ->; apply Hfresh; rewrite HP; left).
  assert (dlen d2 = dlen d) as Hlen2 by (unfold d2; by rewrite dlen_upd).
  pose proof (fo_nodup _ _ Hf) as HndF. rewrite HP in HndF.
  apply NoDup_cons in HndF as [HxF1 HndF1].
  assert (p ∉ F1) as HpF1 by (intros Hin; apply Hfresh; rewrite HP; by right).
  assert (get32 null_block (Z.to_nat (index l off)) = 0) as Hz by apply refs_null.
  split.
  - split; rewrite ?Hz, ?tree_blocks_0, ?app_nil_r; auto with egos; try lia.
    + apply free_ok_upd; [done|lia|done].
    + intros y Hy. by apply not_elem_of_nil in Hy.
  - set (e0 := upd d2 x null_block). intros Hpost.
    assert (blk e0 x = null_block) as Hex by (apply blk_upd_eq; lia).
    assert (dlen e0 = dlen d) as Hlen0 by (unfold e0; by rewrite dlen_upd).
    destruct (tree_empty e0 l x) as [HTe HGe]; [lia|done|].
    assert (tree_post (S l) off e0 x F1 d' x F' b) as (Hx' & Hb & HPc & Hdata).
    { apply node_step; [lia|lia| |rewrite HTe| |by rewrite Hex].
      - apply upd_blocks; [|auto with egos]. apply upd_blocks; auto with egos.
      - rewrite (Permutation_app_comm F1). by apply NoDup_cons.
      - rewrite HTe. intros y [Hy|Hy]%elem_of_app; [by apply (fo_range _ _ Hf1)|].
        apply elem_of_cons in Hy as [->|Hy]; [lia|by apply not_elem_of_nil in Hy]. }
    destruct Hpost as (r1 & _ & _ & _ & Hf' & Hse). rewrite Hz, tree_blocks_0 in Hse.
    exists x. rewrite Hr. split; [done|]. split; [|split; [|split; [done|]]].
    + split; [done|]. split; [done|]. split.
      * rewrite tree_blocks_0, HPc, HTe. cbn [app]. by rewrite HP.
      * intros data. destruct (Hdata data) as [Hb1 Hg1]. split; [done|].
        intros o. rewrite tree_get_0, Hg1, HGe. done.
    + destruct Hse as (_ & _ & Hag). rewrite Hag; [|lia|].
      * unfold e0. rewrite blk_upd_ne by lia. apply blk_upd_eq. lia.
      * intros [?|?]%elem_of_cons; done.
    + rewrite tree_blocks_0. cbn [app]. apply (same_except_trans (p :: F) _ _ e0); [done| |].
      * split; [by rewrite Hlen0, dlen_upd|]. split.
        { unfold nib, e0, d2. rewrite !blk_upd_ne by lia. done. }
        intros y Hy Hn. apply not_elem_of_cons in Hn as [Hyp HyF].
        assert (y <> x) by (intros ->; apply HyF; rewrite HP; left).
        unfold e0, d2. rewrite !blk_upd_ne by lia. by apply Hag1.
      * eapply same_except_weaken; [|exact Hse]. cbn [app].
        intros y Hy. right. by rewrite HP.
Qed.
End descend.

Section walk.
Context {S : Type} (below : inode_store S) (ts : treedisk_state).
Context `{!StoreSpec below (below_ino ts)}.
Local Abbreviation on_disk := (holds below (below_ino ts)).
Context (off : Z) (Hoff : 0 <= off < 2 ^ 32).

(** Allocating a block and storing its number in the parent. *)
Lemma wp_alloc_parent E d F s sn w p pb (K : Z -> treedisk_snapshot -> M S Z) Q :
  on_disk d s -> superblock sn = blk d 0 -> free_ok d F -> is_block pb -> (w < 128)%nat ->
  0 < p < dlen d -> (F = [] -> E full_msg) ->
  (forall x d1 F1 s2, (F ≡ₚ x :: F1) -> Forall is_block d1 -> free_ok d1 F1 ->
     same_except F d d1 -> on_disk (upd d1 p (put32 pb w x)) s2 ->
     wp E (K x (with_superblock sn (blk d1 0))) s2 Q) ->
  wp E ('(b, snapshot) ← treedisk_alloc_block below ts sn;
        r ← write below (below_ino ts) p (put32 pb w b);
        panic_if (r <? 0) "treedisk_write: parent";;
        K b snapshot) s Q.
Proof using Type.
  intros Hd Hsb Hf Hpb Hw Hp HE HK. wp_step.
  eapply wp_conseq; [apply (wp_alloc_block below ts d F); [done|lia|done|done]| |].
  { intros e [-> ?]. auto. }
  intros [x sn1] s1 (d1 & F1 & Hd1 & HP & Hf1 & Hse & Hsn). cbn in HP, Hsn. subst sn1.
  pose proof (holds_blocks _ _ _ _ Hd1).
  wp_step. eapply wp_write; [done|destruct Hse; lia|auto with egos|].
  intros s2 Hd2. wp_step. wp_step; [done|]. intros _. by eapply HK.
Qed.

Lemma wp_write_walk l : forall d F s sn w p pb, (l <= 5)%nat ->
  on_disk d s -> superblock sn = blk d 0 -> walk_pre l d p pb w F ->
  wp (fun e => e = full_msg /\ (length F <= l)%nat)
    (treedisk_write_walk below 7 ts off l w p pb sn) s
    (fun b s' => exists d' F', on_disk d' s' /\ (length F <= length F' + Datatypes.S l)%nat /\
       walk_post l off (upd d p pb) p pb w F b d' F').
Proof using Hoff.
  induction l as [|l IH]; intros d F s sn w p pb Hl Hd Hsb Hpre;
    pose proof (holds_blocks _ _ _ _ Hd) as Hblk; pose proof (holds_size _ _ _ _ Hd) as Hsize;
    pose proof Hpre as [Hf Hpb Hw Hp Hsync Hnd Hrg Hfresh];
    cbn [treedisk_write_walk]; destruct (Z.eqb_spec (get32 pb w) 0) as [Hr|Hr].
  - apply wp_alloc_parent with d F; try done; [intros ->; split; [done|cbn; lia]|].
    intros x d1 F1 s2 HP Hblk1 Hf1 Hse Hd2. wp_step.
    eexists _, F1. split; [exact Hd2|]. split; [rewrite HP; cbn; lia|]. by eapply leaf_new.
  - wp_step. exists d, F. split; [done|]. split; [lia|]. by apply leaf_old.
  - apply wp_alloc_parent with d F; try done; [intros ->; split; [done|cbn; lia]|].
    intros x d1 F1 s2 HP Hblk1 Hf1 Hse Hd2. rewrite shift_index by lia.
    eapply wp_conseq.
    + apply (IH (upd d1 p (put32 pb w x)) F1); [lia|done| |].
      * cbn. by rewrite blk_upd_ne by lia.
      * by eapply (descend_new l off d d p pb w F [] 0).
    + intros e [-> ?]. split; [done|]. rewrite HP. cbn. lia.
    + intros b s' (d' & F' & Hd' & Hroom & Hpost). exists d', F'. split; [done|]. split; [rewrite HP; cbn; lia|].
      by eapply (descend_new l off d d' p pb w F F' b).
  - wp_step. assert (0 < get32 pb w < dlen d) by (apply Hrg, tree_blocks_root, Hr).
    eapply wp_read; [done|lia|]. intros s1 Hd1. wp_step. wp_step; [done|]. intros _.
    rewrite shift_index by lia. eapply wp_conseq.
    + apply (IH d F); [lia|done|done|]. by eapply (descend_old l off d d p pb w F [] 0).
    + intros e [-> ?]. split; [done|]. lia.
    + intros b s' (d' & F' & Hd' & Hroom & Hpost). exists d', F'. split; [done|]. split; [lia|].
      rewrite upd_blk in Hpost by lia. by eapply (descend_old l off d d' p pb w F F' b).
Qed.
End walk.
