(* ===== verification/TreediskWrite.v ===== *)
(** * The treedisk file system: writes

    [treedisk_write] on a well-formed file system implements
    [FileSpec.file_write] on the file it writes, leaves every other file alone
    and keeps the file system well-formed; it panics only when the free list
    runs out of blocks. *)

From stdpp Require Import options.
From S2P Require Import Prelude InodeStore Treedisk TreediskSpec TreediskRead TreediskAlloc TreediskGrow TreediskWalk.

(** From [d] (free blocks [F]) to [d2] (free blocks [F2]), only the file [ino]
    evolved: its size is now [sz] and its contents [G]. *)
Record evolved (d : list block) (F : list Z) (ino sz : Z) (G : Z -> option block)
    (d2 : list block) (F2 : list Z) : Prop := {
  ev_free : free_ok d2 F2;
  ev_same : same_except (ino_block ino :: ino_blocks d ino ++ F) d d2;
  ev_words : forall w, w <> root_word (ino mod 64) -> w <> nblocks_word (ino mod 64) ->
    get32 (blk d2 (ino_block ino)) w = get32 (blk d (ino_block ino)) w;
  ev_size : size_of d2 ino = sz;
  ev_conserve : ino_blocks d2 ino ++ F2 ≡ₚ ino_blocks d ino ++ F;
  ev_get : forall o, 0 <= o < 128 ^ Z.of_nat (levels sz) -> ino_get d2 ino o = G o;
}.

(** The contents of a file that only grows: the old blocks, then holes. *)
Definition grown (d : list block) (ino o : Z) : option block :=
  if decide (o < 128 ^ Z.of_nat (levels (size_of d ino))) then ino_get d ino o else None.

Section commit.
Context (d : list block) (F : list Z) (ino : Z).
Hypothesis (Hinv : fs_inv d F) (Hino : 0 <= ino < ninodes d).

Lemma meta_not_owned q : 0 <= q <= nib d -> q ∉ F ++ all_blocks d.
Proof using Hinv. intros Hq Hin. apply (inv_range _ _ Hinv) in Hin. lia. Qed.

Lemma ino_blocks_split : exists rest, (all_blocks d ≡ₚ ino_blocks d ino ++ rest) /\
  (forall y, y ∈ rest <-> exists z, 0 <= z < ninodes d /\ z <> ino /\ y ∈ ino_blocks d z) /\
  (forall g, (forall z, 0 <= z < ninodes d -> z <> ino -> g z = ino_blocks d z) ->
     seqZ 0 (ninodes d) ≫= g ≡ₚ g ino ++ rest).
Proof using Hinv Hino.
  destruct (list_bind_split_in (ino_blocks d) (seqZ 0 (ninodes d)) ino)
    as (rest & HP & Hel & Hg); [apply NoDup_seqZ|apply elem_of_seqZ; lia|].
  exists rest. split; [done|]. split.
  - intros y. rewrite Hel. by setoid_rewrite elem_of_seqZ; setoid_rewrite Z.add_0_l.
  - intros g Hgz. apply Hg. intros z Hz%elem_of_seqZ. apply Hgz. lia.
Qed.

Context (sz : Z) (G : Z -> option block) (d3 : list block) (F3 : list Z).
Hypothesis Hev : evolved d F ino sz G d3 F3.

Lemma other_words z : 0 <= z -> z <> ino -> ino_block z = ino_block ino ->
  root_word (z mod 64) <> root_word (ino mod 64) /\
  nblocks_word (z mod 64) <> nblocks_word (ino mod 64) /\
  root_word (z mod 64) <> nblocks_word (ino mod 64) /\
  nblocks_word (z mod 64) <> root_word (ino mod 64).
Proof using Hino.
  unfold ino_block, root_word, nblocks_word. intros ?? Heq.
  pose proof (Z.div_mod z 64 ltac:(lia)). pose proof (Z.div_mod ino 64 ltac:(lia)).
  pose proof (Z.mod_pos_bound z 64 ltac:(lia)). pose proof (Z.mod_pos_bound ino 64 ltac:(lia)).
  lia.
Qed.

(** Every other file is untouched. *)
Lemma other_files z : 0 <= z < ninodes d -> z <> ino ->
  size_of d3 z = size_of d z /\ ino_blocks d3 z = ino_blocks d z /\
  (forall o, ino_get d3 z o = ino_get d z o) /\ file_of d3 z = file_of d z.
Proof using Hinv Hino Hev.
  intros Hz Hne. destruct Hev as [_ (_ & _ & Hag) Hw _ _ _].
  pose proof (ino_block_range d ino Hino). pose proof (ino_block_range d z Hz).
  destruct ino_blocks_split as (rest & HP & Hel & _).
  assert (forall q, 0 < q <= nib d -> q <> ino_block ino -> blk d3 q = blk d q) as Hmeta.
  { intros q Hq Hqp. apply Hag; [lia|]. intros [?|Hin]%elem_of_cons; [done|].
    apply (meta_not_owned q); [lia|]. rewrite HP, (assoc_L (++)).
    apply elem_of_app. left. by rewrite (Permutation_app_comm F). }
  assert (root_of d3 z = root_of d z /\ size_of d3 z = size_of d z) as [Hrt Hsz].
  { unfold root_of, size_of, inode_root, inode_nblocks.
    destruct (decide (ino_block z = ino_block ino)) as [He|He].
    - destruct (other_words z) as (? & ? & ? & ?); [lia|done|done|].
      rewrite He. split; by apply Hw.
    - by rewrite Hmeta by lia. }
  split; [done|]. apply ino_frame; [done|done|]. intros x Hx.
  assert (x ∈ rest) as Hxr by (apply Hel; eauto).
  assert (x ∈ F ++ all_blocks d) as Hxa
    by (apply elem_of_app; right; by eapply all_blocks_elem).
  pose proof (inv_range _ _ Hinv x Hxa). pose proof (inv_nodup _ _ Hinv) as Hnd.
  rewrite HP, (assoc_L (++)) in Hnd.
  apply Hag; [lia|]. intros [->|Hin]%elem_of_cons; [lia|].
  eapply NoDup_app_disj; [exact Hnd| |exact Hxr]. by rewrite (Permutation_app_comm F).
Qed.

Lemma evolved_blocks : F3 ++ all_blocks d3 ≡ₚ F ++ all_blocks d.
Proof using Hinv Hino Hev.
  destruct ino_blocks_split as (rest & HP & _ & Hg).
  pose proof (ev_conserve _ _ _ _ _ _ _ Hev) as Hc.
  destruct (ev_same _ _ _ _ _ _ _ Hev) as (_ & Hnib & _).
  unfold all_blocks at 1. unfold ninodes. rewrite Hnib. fold (ninodes d).
  rewrite (Hg (ino_blocks d3)) by (intros; by apply other_files).
  rewrite HP, !(assoc_L (++)), !(Permutation_app_comm _ (ino_blocks _ _)). by rewrite Hc.
Qed.

Lemma evolved_inv :
  (forall o, sz <= o < 128 ^ Z.of_nat (levels sz) -> G o = None) -> 0 <= sz ->
  fs_inv d3 F3.
Proof using Hinv Hino Hev.
  intros HG Hsz. pose proof Hev as [Hf (Hlen & Hnib & Hag) _ Hsize _ Hget].
  split; unfold ninodes; rewrite ?Hnib, ?Hlen; fold (ninodes d).
  - apply (inv_nib _ _ Hinv).
  - apply (inv_ninodes _ _ Hinv).
  - apply (inv_room _ _ Hinv).
  - apply (fo_list _ _ Hf).
  - rewrite evolved_blocks. apply (inv_nodup _ _ Hinv).
  - intros x. rewrite evolved_blocks. apply (inv_range _ _ Hinv).
  - intros z o Hz Ho. destruct (decide (z = ino)) as [->|Hne].
    + rewrite Hsize in Ho. rewrite Hget by lia. by apply HG.
    + destruct (other_files z) as (Hs & _ & Hg & _); [done|done|].
      rewrite Hg. rewrite Hs in Ho. by apply (inv_end _ _ Hinv).
Qed.
End commit.

(** The evolution of a write is the specified one. *)
Lemma write_commit d F ino off data d3 F3 :
  fs_inv d F -> 0 <= ino < ninodes d -> 0 <= off < 2 ^ 32 - 1 ->
  evolved d F ino (Z.max (size_of d ino) (off + 1))
    (fun o => if decide (o = off) then Some data else grown d ino o) d3 F3 ->
  fs_inv d3 F3 /\ file_of d3 ino = FileSpec.file_write (file_of d ino) off data /\
  (forall z, 0 <= z < ninodes d -> z <> ino -> file_of d3 z = file_of d z).
Proof.
  intros Hinv Hino Hoff Hev. set (sz := Z.max _ _) in Hev. pose proof (size_range d ino).
  assert (forall o, size_of d ino <= o -> grown d ino o = None) as Hend.
  { intros o Ho. unfold grown. case_decide; [|done]. apply (inv_end _ _ Hinv); lia. }
  split; [|split].
  - eapply evolved_inv; [exact Hinv|exact Hino|exact Hev| |lia].
    intros o Ho. cbn beta. rewrite decide_False by lia. apply Hend. lia.
  - pose proof Hev as [_ _ _ Hsize _ Hget].
    assert (sz <= 128 ^ Z.of_nat (levels sz)) by (apply levels_bound; lia).
    apply list_eq. intros i. rewrite <- (Nat2Z.id i).
    rewrite FileSpec.lookup_file_write, !lookup_file_of, length_file_of by lia.
    set (o := Z.of_nat i). rewrite Hsize. destruct (decide (o < sz)) as [Ho|Ho].
    + rewrite Hget by lia. destruct (decide (o = off)); [done|].
      destruct (decide (o < size_of d ino)).
      * unfold grown. rewrite decide_True; [done|]. pose proof (levels_bound (size_of d ino)). lia.
      * rewrite Hend, decide_True by lia. done.
    + rewrite !decide_False by lia. done.
  - intros z Hz Hne. eapply (other_files d F ino Hinv Hino); [exact Hev|done|done].
Qed.

Section write.
Context {S : Type} (below : inode_store S) (ts : treedisk_state).
Context `{!StoreSpec below (below_ino ts)}.
Local Abbreviation on_disk := (holds below (below_ino ts)).
Context (d : list block) (F : list Z) (ino off : Z) (data : block).
Hypothesis (Hinv : fs_inv d F) (Hino : 0 <= ino < ninodes d).
Hypothesis (Hoff : 0 <= off < 2 ^ 32 - 1) (Hdata : is_block data).
Hypothesis (Hblk : Forall is_block d).
Local Abbreviation p := (ino_block ino).
Local Abbreviation rw := (root_word (ino mod 64)).

Lemma rw_small : (rw < 128)%nat.
Proof using Type. unfold root_word. pose proof (Z.mod_pos_bound ino 64). lia. Qed.
Lemma nw_small : (nblocks_word (ino mod 64) < 128)%nat.
Proof using Type. unfold nblocks_word. pose proof (Z.mod_pos_bound ino 64). lia. Qed.
Lemma rw_nw : rw <> nblocks_word (ino mod 64).
Proof using Type.
  unfold root_word, nblocks_word. pose proof (Z.mod_pos_bound ino 64). lia.
Qed.

(** The blocks of the file being written are not free and not metadata. *)
Lemma own_nodup : NoDup (F ++ ino_blocks d ino).
Proof using Hinv Hino.
  destruct (ino_blocks_split d F ino) as (rest & HP & _); [done|done|].
  pose proof (inv_nodup _ _ Hinv) as Hnd. rewrite HP, (assoc_L (++)) in Hnd.
  by apply NoDup_app in Hnd as (? & _ & _).
Qed.

Lemma own_range x : x ∈ ino_blocks d ino ++ F -> nib d < x < dlen d.
Proof using Hinv Hino.
  intros [Hx|Hx]%elem_of_app; apply (inv_range _ _ Hinv), elem_of_app; [right|by left].
  by eapply all_blocks_elem.
Qed.

Section evolution.
Context (d2 : list block) (F2 : list Z) (sz : Z) (G : Z -> option block).
Hypothesis (Hev : evolved d F ino sz G d2 F2) (Hsz : off < sz < 2 ^ 32).
Hypothesis (Hblk2 : Forall is_block d2).

Lemma evolved_tree : tree_blocks d2 (levels sz) (root_of d2 ino) = ino_blocks d2 ino.
Proof using Hev. unfold ino_blocks. by rewrite (ev_size _ _ _ _ _ _ _ Hev). Qed.

Lemma evolved_meta : dlen d2 = dlen d /\ 0 < p <= nib d /\ nib d < dlen d.
Proof using Hev Hinv Hino.
  pose proof (ino_block_range d ino Hino). pose proof (inv_room _ _ Hinv).
  destruct (ev_same _ _ _ _ _ _ _ Hev) as (? & _). lia.
Qed.

Lemma evolved_walk_pre : walk_pre (levels sz) d2 p (blk d2 p) rw F2.
Proof using Hev Hinv Hino Hblk2.
  destruct evolved_meta as (Hlen & Hp & Hroom).
  pose proof (ev_conserve _ _ _ _ _ _ _ Hev) as HP.
  assert (forall x, x ∈ ino_blocks d2 ino ++ F2 -> nib d < x < dlen d) as Hrg
    by (intros x; rewrite HP; apply own_range).
  split; rewrite ?upd_blk by lia;
    change (get32 (blk d2 p) rw) with (root_of d2 ino); rewrite ?evolved_tree.
  - apply (ev_free _ _ _ _ _ _ _ Hev).
  - auto with egos.
  - apply rw_small.
  - lia.
  - done.
  - rewrite (Permutation_app_comm F2), HP, (Permutation_app_comm _ F). apply own_nodup.
  - intros x Hx. destruct (Hrg x); [apply elem_of_app; by left|]. lia.
  - rewrite (Permutation_app_comm F2). intros Hin%Hrg. lia.
Qed.

Lemma evolved_walk_post b d' F' :
  walk_post (levels sz) off d2 p (blk d2 p) rw F2 b d' F' ->
  0 < b < dlen d' /\
  evolved d F ino sz (fun o => if decide (o = off) then Some data else G o)
    (upd d' b data) F'.
Proof using Hev Hinv Hino Hblk2 Hsz Hoff.
  destruct evolved_meta as (Hlen & Hp & Hroom).
  pose proof Hev as [Hf2 Hse2 Hw2 Hsize2 HP2 Hget2].
  intros (r' & _ & (Hr' & Hb & HP & Hst) & Hbp & Hf' & Hse').
  change (get32 (blk d2 p) rw) with (root_of d2 ino) in *. rewrite evolved_tree in *.
  assert (is_block (blk d2 p)) as Hpb by auto with egos.
  pose proof rw_small. pose proof rw_nw. pose proof nw_small.
  set (T' := tree_blocks d' (levels sz) r') in *.
  assert (T' ++ F' ≡ₚ ino_blocks d ino ++ F) as HPd by (by rewrite HP, HP2).
  assert (b ∈ ino_blocks d ino ++ F) as Hbin by (rewrite <- HPd; apply elem_of_app; by left).
  pose proof (own_range b Hbin) as Hbr. pose proof (inv_nib _ _ Hinv).
  assert (dlen d' = dlen d) as Hlen' by (destruct Hse'; lia).
  split; [lia|]. set (d3 := upd d' b data).
  assert (blk d3 p = put32 (blk d2 p) rw r') as Hbp3
    by (unfold d3; rewrite blk_upd_ne; [done|lia|lia|lia]).
  assert (size_of d3 ino = sz) as Hsize3.
  { unfold size_of, inode_nblocks. rewrite Hbp3, get32_block_ne; [done|lia|done|done]. }
  assert (root_of d3 ino = r') as Hroot3.
  { unfold root_of, inode_root. rewrite Hbp3. apply get32_block_eq; [lia|done|lia]. }
  destruct (Hst data) as [Hbl Hgt]. fold d3 in Hbl, Hgt.
  split.
  - apply free_ok_upd; [done|lia|]. intros HbF.
    assert (NoDup (T' ++ F')) as Hnd by (rewrite HPd, Permutation_app_comm; apply own_nodup).
    eapply NoDup_app_disj; [exact Hnd|exact Hb|done].
  - eapply same_except_trans; [done|exact Hse2|].
    eapply (same_except_trans (p :: ino_blocks d2 ino ++ F2) _ _ d').
    + intros y. rewrite HP2. done.
    + exact Hse'.
    + apply same_except_upd; [lia|by right].
  - intros w Hw Hw'. rewrite Hbp3, get32_block_ne; [by apply Hw2|lia|done|done].
  - done.
  - unfold ino_blocks at 1. rewrite Hsize3, Hroot3, Hbl. done.
  - intros o Ho. unfold ino_get. rewrite Hsize3, Hroot3, Hgt.
    assert (sz <= 128 ^ Z.of_nat (levels sz)) by (apply levels_bound; lia).
    rewrite (decide_ext _ (o = off)) by (apply same_path_small; lia).
    destruct (decide (o = off)); [done|]. rewrite <- Hget2 by done.
    unfold ino_get. by rewrite Hsize2.
Qed.
End evolution.

(** The walk and the write of the data block. *)
Lemma wp_write_data d2 F2 s sn sz G :
  on_disk d2 s -> evolved d F ino sz G d2 F2 -> off < sz < 2 ^ 32 ->
  superblock sn = blk d2 0 ->
  wp (fun e => e = full_msg /\ (length F2 <= levels sz)%nat)
    (b ← treedisk_write_walk below 7 ts off (levels sz) rw p (blk d2 p) sn;
     r ← write below (below_ino ts) b data;
     panic_if (r <? 0) "treedisk_write: data block";;
     mret 0) s
    (fun r s' => r = 0 /\ exists d3 F3, on_disk d3 s' /\ (length F2 <= length F3 + (levels sz + 1))%nat /\
       evolved d F ino sz (fun o => if decide (o = off) then Some data else G o) d3 F3).
Proof using Hinv Hino Hoff Hdata.
  intros Hd2 Hev Hsz Hsb. pose proof (holds_blocks _ _ _ _ Hd2) as Hblk2.
  destruct (evolved_meta d2 F2 sz G Hev) as (Hlen & Hp & Hroom). wp_step.
  eapply wp_mono; [apply (wp_write_walk below ts off); [lia|apply levels_le|done|done|]|].
  { by apply (evolved_walk_pre d2 F2 sz G). }
  rewrite upd_blk by lia. intros b s1 (d' & F' & Hd' & Hfew & Hpost).
  destruct (evolved_walk_post d2 F2 sz G Hev Hsz Hblk2 b d' F' Hpost) as [Hb Hev3].
  wp_step. eapply wp_write; [exact Hd'|lia|done|]. intros s2 Hd3.
  wp_step. wp_step; [done|]. intros _. wp_step. split; [done|].
  exists (upd d' b data), F'. split; [done|]. split; [lia|done].
Qed.

(** The inode block with the new size of the file. *)
Local Abbreviation ib1 := (put32 (blk d p) (nblocks_word (ino mod 64)) (off + 1)).
Local Abbreviation sn1 := (with_inodeblock (snap_of d ino) ib1).

Lemma ib1_root : inode_root ib1 (ino mod 64) = root_of d ino.
Proof using Hinv Hblk.
  apply get32_block_ne; [apply nw_small|auto with egos|]. pose proof rw_nw. congruence.
Qed.

(** Extending the file: the new size, the new levels and the inode written back. *)
Lemma extend_evolved k sn' d1 : size_of d ino <= off ->
  grow_post k (levels (size_of d ino)) d F (root_of d ino) sn1 sn' d1 ->
  (k + levels (size_of d ino))%nat = levels (off + 1) ->
  is_block (inodeblock sn') /\ inode_blockno sn' = p /\ inode sn' = ino mod 64 /\
  dlen d1 = dlen d /\ exists F1, length F = (k + length F1)%nat /\
    evolved d F ino (off + 1) (grown d ino) (upd d1 p (inodeblock sn')) F1 /\
    superblock sn' = blk (upd d1 p (inodeblock sn')) 0.
Proof using Hinv Hino Hblk Hoff.
  intros Hext (F1 & root' & Hf1 & (Hlen & Hnib & Hag) & -> & Hroot' & HlF & HP & Hget) Hk.
  pose proof (ino_block_range d ino Hino) as Hp. pose proof (inv_room _ _ Hinv).
  pose proof rw_small. pose proof nw_small. pose proof rw_nw.
  assert (is_block ib1) as Hib1 by auto with egos.
  assert (forall x, x ∈ ino_blocks d ino ++ F -> x <> p) as Hnp
    by (intros x Hx ->; apply own_range in Hx; lia).
  cbn [with_root inodeblock inode inode_blockno superblock with_inodeblock snap_of].
  set (ib2 := put32 ib1 rw root'). set (d2 := upd d1 p ib2).
  split; [by apply put32_is_block|]. do 2 (split; [done|]). split; [done|].
  exists F1. split; [done|].
  assert (blk d2 p = ib2) as Hb2 by (apply blk_upd_eq; lia).
  assert (size_of d2 ino = off + 1) as Hsize.
  { unfold size_of, inode_nblocks. rewrite Hb2. unfold ib2.
    rewrite get32_block_ne by done. apply get32_block_eq; [done|auto with egos|lia]. }
  assert (root_of d2 ino = root') as Hroot
    by (unfold root_of, inode_root; rewrite Hb2; apply get32_block_eq; [done|done|lia]).
  rewrite Hk in *.
  assert (forall x, x ∈ tree_blocks d1 (levels (off + 1)) root' -> blk d2 x = blk d1 x) as Hfr.
  { intros x Hx. assert (x ∈ ino_blocks d ino ++ F) as Hx'
      by (unfold ino_blocks; rewrite <- HP; apply elem_of_app; by left).
    pose proof (own_range x Hx'). pose proof (inv_nib _ _ Hinv).
    apply blk_upd_ne; [by apply not_eq_sym, Hnp|lia|lia]. }
  destruct (tree_frame d1 d2 _ _ Hfr) as [Hblocks Hgets].
  split; [|unfold d2; by rewrite blk_upd_ne by lia]. split.
  - apply free_ok_upd; [done|lia|]. intros HpF. apply (Hnp p); [|done].
    unfold ino_blocks. rewrite <- HP. apply elem_of_app. by right.
  - split; [unfold d2; by rewrite dlen_upd|]. split.
    { unfold nib, d2. rewrite blk_upd_ne by lia. done. }
    intros y Hy [Hyp [_ HyF]%not_elem_of_app]%not_elem_of_cons.
    unfold d2. rewrite blk_upd_ne by lia. by apply Hag.
  - intros w Hw Hw'. rewrite Hb2. unfold ib2.
    rewrite get32_block_ne; [|done|done|congruence].
    apply get32_block_ne; [done|auto with egos|congruence].
  - done.
  - unfold ino_blocks. rewrite Hsize, Hroot, Hblocks. exact HP.
  - intros o Ho. unfold ino_get, grown. rewrite Hsize, Hroot, Hgets, Hget by done. done.
Qed.

(** The statements of [treedisk_write] from the test of [dirty_inode] on. *)
Definition write_rest (sn : treedisk_snapshot) (dirty : bool) (nlevels : Z) : M S Z :=
  (if dirty then
     r ← write below (below_ino ts) (inode_blockno sn) (inodeblock sn);
     panic_if (r <? 0) "treedisk_write: inode block"
   else mret tt);;
  b ← treedisk_write_walk below 7 ts off (Z.to_nat nlevels) (root_word (inode sn))
        (inode_blockno sn) (inodeblock sn) sn;
  r ← write below (below_ino ts) b data;
  panic_if (r <? 0) "treedisk_write: data block";;
  mret 0.

(** The blocks a write may have to allocate. *)
Definition blocks_needed : nat :=
  let sz := Z.max (size_of d ino) (off + 1) in
  (levels sz - levels (size_of d ino) + (levels sz + 1))%nat.
Local Abbreviation out_of_blocks := (fun e => e = full_msg /\ (length F < blocks_needed)%nat).
Local Abbreviation written := (fun r s' => r = 0 /\ exists d3 F3, on_disk d3 s' /\ (length F <= length F3 + blocks_needed)%nat /\
  evolved d F ino (Z.max (size_of d ino) (off + 1))
    (fun o => if decide (o = off) then Some data else grown d ino o) d3 F3).

Lemma wp_write_inside s : on_disk d s -> off < size_of d ino ->
  wp out_of_blocks (write_rest (snap_of d ino) false (Z.of_nat (levels (size_of d ino)))) s written.
Proof using Hinv Hino Hoff Hdata Hblk.
  intros Hd Hin. unfold blocks_needed.
  replace (Z.max (size_of d ino) (off + 1)) with (size_of d ino) by lia.
  unfold write_rest. wp_step. wp_step. rewrite Nat2Z.id.
  pose proof (size_range d ino). pose proof (inv_nodup _ _ Hinv) as Hnd.
  eapply wp_conseq; [eapply (wp_write_data d F s _ (size_of d ino) (grown d ino))| |].
  - done.
  - split; [| |done|done|done|].
    + split; [apply (inv_free _ _ Hinv)|by apply NoDup_app in Hnd as (? & _ & _)|].
      intros x Hx. pose proof (inv_nib _ _ Hinv).
      destruct (inv_range _ _ Hinv x); [apply elem_of_app; by left|lia].
    + apply same_except_refl.
    + intros o Ho. unfold grown. by rewrite decide_True by lia.
  - lia.
  - done.
  - intros e [-> ?]. split; [done|]. lia.
  - intros r s' (-> & d3 & F3 & Hd3 & Hfew & Hev). split; [done|]. exists d3, F3. split; [done|]. split; [lia|done].
Qed.

Lemma wp_write_extended s1 d1 sn' k : on_disk d1 s1 -> size_of d ino <= off ->
  grow_post k (levels (size_of d ino)) d F (root_of d ino) sn1 sn' d1 ->
  (k + levels (size_of d ino))%nat = levels (off + 1) ->
  wp out_of_blocks (write_rest sn' true (Z.of_nat (levels (off + 1)))) s1 written.
Proof using Hinv Hino Hoff Hdata Hblk.
  intros Hd1 Hext Hgrow Hk. pose proof (size_range d ino).
  destruct (extend_evolved k sn' d1 Hext Hgrow Hk)
    as (Hib & Hno & Hidx & Hlen & F1 & HlF & Hev & Hsb).
  pose proof (ino_block_range d ino Hino). pose proof (inv_room _ _ Hinv).
  unfold write_rest. rewrite Hno, Hidx, Nat2Z.id.
  wp_step. wp_step. eapply wp_write; [exact Hd1|lia|done|]. intros s2 Hd2.
  wp_step; [done|]. intros _.
  replace (inodeblock sn') with (blk (upd d1 p (inodeblock sn')) p) at 1
    by (apply blk_upd_eq; lia).
  unfold blocks_needed. replace (Z.max (size_of d ino) (off + 1)) with (off + 1) by lia.
  eapply wp_conseq; [eapply (wp_write_data _ F1); [exact Hd2|exact Hev|lia|exact Hsb]| |].
  - intros e [-> ?]. split; [done|]. lia.
  - intros r s' (-> & d3 & F3 & Hd3 & Hfew & Hev3). split; [done|]. exists d3, F3. split; [done|]. split; [lia|done].
Qed.

Lemma wp_write_grow s : on_disk d s -> size_of d ino <= off ->
  let k := (levels (off + 1) - levels (size_of d ino))%nat in
  wp out_of_blocks (treedisk_grow below ts k sn1) s
    (fun sn' s' => exists d1, on_disk d1 s' /\
      grow_post k (levels (size_of d ino)) d F (root_of d ino) sn1 sn' d1).
Proof using Hinv Hino Hoff Hblk.
  intros Hd Hext k. pose proof (inv_room _ _ Hinv). pose proof (inv_nib _ _ Hinv).
  pose proof (inv_nodup _ _ Hinv) as Hnd.
  assert (inode_root (inodeblock sn1) (inode sn1) = root_of d ino) as Hroot by apply ib1_root.
  rewrite <- Hroot. eapply wp_conseq.
  - apply (wp_grow below ts k (levels (size_of d ino)) d F s sn1); rewrite ?Hroot.
    + done.
    + lia.
    + split; [apply (inv_free _ _ Hinv)|by apply NoDup_app in Hnd as (? & _ & _)|].
      intros x Hx. destruct (own_range x); [apply elem_of_app; by right|lia].
    + done.
    + apply put32_is_block; [apply nw_small|auto with egos].
    + apply (Z.mod_pos_bound ino 64). lia.
    + apply own_nodup.
    + intros x Hx. destruct (own_range x); [apply elem_of_app; by left|lia].
  - intros e [-> ?]. split; [done|]. unfold blocks_needed.
    replace (Z.max (size_of d ino) (off + 1)) with (off + 1) by lia. lia.
  - done.
Qed.

Lemma wp_treedisk_write s : on_disk d s ->
  wp out_of_blocks (treedisk_write below 7 ts ino off data) s written.
Proof using Hinv Hino Hoff Hdata Hblk.
  intros Hd. pose proof (size_range d ino) as Hsr. pose proof (inv_room _ _ Hinv).
  pose proof (inv_nib _ _ Hinv). pose proof (Z.mod_pos_bound ino 64 ltac:(lia)).
  unfold treedisk_write. wp_step. eapply wp_get_snapshot; [done|exact Hinv|lia| |lia].
  intros s1 Hd1 _. cbn [Z.ltb Z.compare].
  change (inode_nblocks (inodeblock (snap_of d ino)) (inode (snap_of d ino)))
    with (size_of d ino).
  rewrite treedisk_nlevels_ok by done. wp_step. unfold wp at 1. cbn [mlift].
  destruct (Z.geb_spec off (size_of d ino)) as [Hext|Hin].
  2: { wp_step. wp_step. wp_step.
       change (inode_nblocks (inodeblock (snap_of d ino)) (inode (snap_of d ino)))
         with (size_of d ino).
       destruct (Z.eqb_spec (size_of d ino) 0); [lia|].
       destruct (Z.gtb_spec (Z.of_nat (levels (size_of d ino)))
         (Z.of_nat (levels (size_of d ino)))); [lia|].
       wp_step. by apply wp_write_inside. }
  rewrite levels_loop_ok, u32_id by lia. wp_step. wp_step. unfold wp at 1. cbn [mlift]. wp_step.
  change (with_inodeblock (snap_of d ino) _) with sn1. wp_step.
  assert (inode_nblocks (inodeblock sn1) (inode sn1) = off + 1) as ->
    by (apply get32_block_eq; [apply nw_small|auto with egos|lia]).
  destruct (Z.eqb_spec (off + 1) 0); [lia|].
  pose proof (levels_mono (size_of d ino) (off + 1) ltac:(lia)) as Hmono.
  set (k := (levels (off + 1) - levels (size_of d ino))%nat).
  pose proof (wp_write_grow s1 Hd1 Hext) as Hgrow. fold k in Hgrow.
  destruct (Z.gtb_spec (Z.of_nat (levels (off + 1))) (Z.of_nat (levels (size_of d ino)))).
  - wp_step. replace (Z.to_nat _) with k by lia.
    eapply wp_mono; [exact Hgrow|]. intros sn' s2 (d1 & Hd2 & Hgp). wp_step.
    by apply (wp_write_extended s2 d1 sn' k); [..|lia].
  - replace k with 0%nat in Hgrow by lia. destruct Hgrow as (d1 & Hd2 & Hgp). wp_step.
    replace (levels (size_of d ino)) with (levels (off + 1)) by lia.
    by apply (wp_write_extended s1 d1 sn1 0); [..|lia].
Qed.
End write.
