(* ===== verification/TreediskCreate.v ===== *)
(** * The treedisk file system: creating one

    [setup_freelist] puts every block after the inode blocks on the free list,
    and [treedisk_create] makes a well-formed file system of empty files. *)

From stdpp Require Import options.
From S2P Require Import Prelude InodeStore Treedisk TreediskSpec TreediskRead TreediskAlloc TreediskGrow.

(** The two loops that fill one free-list block. *)
Lemma fill_refs_spec n : forall i nf N data nf' data',
  fill_refs n i nf N data = (nf', data') ->
  is_block data -> 1 <= i -> i + Z.of_nat n <= 128 -> 0 <= nf <= N -> N < 2 ^ 31 ->
  is_block data' /\ nf' = Z.min N (nf + Z.of_nat n) /\
  (forall j, i <= j < i + Z.of_nat n ->
     refs data' j = if decide (nf + (j - i) < N) then nf + (j - i) else 0) /\
  (forall j, 0 <= j < i -> refs data' j = refs data j).
Proof.
  induction n as [|n IH]; intros i nf N data nf' data' Hf Hb Hi Hn Hnf HN; cbn in Hf.
  { injection Hf as <- <-. repeat split; [done|lia|lia]. }
  destruct (Z.ltb_spec nf N).
  - rewrite u32_id in Hf by lia.
    apply IH in Hf as (? & -> & Hin & Hout); [|auto with egos lia|lia|lia|lia|lia].
    split; [done|]. split; [lia|]. split.
    + intros j Hj. destruct (decide (j = i)) as [->|].
      * rewrite Hout, refs_set_eq by (done || lia). case_decide; lia.
      * rewrite Hin by lia. repeat case_decide; lia.
    + intros j Hj. rewrite Hout, refs_set_ne by (done || lia). done.
  - apply IH in Hf as (? & -> & Hin & Hout); [|auto with egos lia|lia|lia|lia|lia].
    split; [done|]. split; [lia|]. split.
    + intros j Hj. destruct (decide (j = i)) as [->|].
      * rewrite Hout, refs_set_eq by (done || lia). case_decide; lia.
      * rewrite Hin by lia. repeat case_decide; lia.
    + intros j Hj. rewrite Hout, refs_set_ne by (done || lia). done.
Qed.

Lemma free_refs_filled fb nf N : 0 < nf <= N ->
  (forall j, 1 <= j < 128 -> refs fb j = if decide (nf + (j - 1) < N) then nf + (j - 1) else 0) ->
  free_refs fb = seqZ nf (Z.min N (nf + 127) - nf).
Proof.
  intros Hnf Hr. unfold free_refs. set (m := Z.min N (nf + 127) - nf).
  replace 127 with (m + (127 - m)) by lia. rewrite seqZ_app, fmap_app, filter_app by lia.
  assert (refs fb <$> seqZ 1 m = seqZ nf m) as ->.
  { apply list_eq. intros i. rewrite list_lookup_fmap.
    destruct (decide (Z.of_nat i < m)) as [Hi|Hi].
    - rewrite !lookup_seqZ_lt by done. cbn. rewrite Hr by lia.
      rewrite decide_True by lia. f_equal. lia.
    - by rewrite !lookup_seqZ_ge by lia. }
  rewrite filter_all.
  - rewrite filter_none; [apply app_nil_r|].
    apply Forall_fmap, Forall_seqZ. intros j Hj. cbn. rewrite Hr by lia.
    rewrite decide_False by lia. tauto.
  - apply Forall_seqZ. lia.
Qed.

Section create.
Context {S : Type} (below : inode_store S) (ino : Z) `{!StoreSpec below ino}.
Context (E : string -> Prop).
Local Abbreviation on_disk := (holds below ino).

Lemma wp_setup_freelist_loop lo fuel : forall d s nf fb data F,
  on_disk d s -> 0 < lo <= nf -> nf <= dlen d -> is_block data -> 0 <= fb < 2 ^ 32 ->
  dlen d - nf <= Z.of_nat fuel -> freelist d fb F -> (F ≡ₚ seqZ lo (nf - lo)) ->
  wp E (setup_freelist_loop below fuel ino nf (dlen d) fb data) s
    (fun r s' => exists d' F', on_disk d' s' /\ dlen d' = dlen d /\ 0 <= r < 2 ^ 32 /\
       freelist d' r F' /\ (F' ≡ₚ seqZ lo (dlen d - lo)) /\
       (forall y, 0 <= y < lo -> blk d' y = blk d y)).
Proof.
  induction fuel as [|fuel IH];
    intros d s nf fb data F Hd Hlo Hnf Hdata Hfb Hfuel Hfl HF; cbn [setup_freelist_loop].
  { destruct (Z.ltb_spec nf (dlen d)); [lia|]. wp_step. exists d, F.
    replace (dlen d) with nf by lia. repeat (split; [done || lia|]). done. }
  pose proof (holds_size _ _ _ _ Hd).
  destruct (Z.ltb_spec nf (dlen d)).
  2: { wp_step. exists d, F.
       replace (dlen d) with nf by lia. repeat (split; [done || lia|]). done. }
  rewrite u32_id by lia. change (Z.to_nat (REFS_PER_BLOCK - 1)) with 127%nat.
  destruct (fill_refs 127 1 (nf + 1) (dlen d) (set_refs data 0 fb)) as [nf' fdata] eqn:Hfill.
  apply fill_refs_spec in Hfill as (Hfd & Hnf' & Hin & Hout); [|auto with egos lia|lia|lia|lia|lia].
  specialize (Hout 0 ltac:(lia)). rewrite refs_set_eq in Hout by (done || lia).
  pose proof (free_refs_filled fdata (nf + 1) (dlen d) ltac:(lia) Hin) as Hfree.
  wp_step. eapply wp_write; [done|lia|done|]. intros s1 Hd1. wp_step. wp_step; [done|]. intros _.
  set (d1 := upd d nf fdata) in *. assert (dlen d1 = dlen d) as Hlen1 by apply dlen_upd.
  assert (blk d1 nf = fdata) as Hb1 by (apply blk_upd_eq; lia).
  assert (freelist d1 nf (nf :: free_refs fdata ++ F)) as Hfl1.
  { rewrite <- Hb1. constructor; [lia|]. rewrite Hb1, Hout.
    eapply freelist_frame; [exact Hfl|]. intros x Hx.
    rewrite HF, elem_of_seqZ in Hx. apply blk_upd_ne; lia. }
  rewrite <- Hlen1.
  eapply wp_mono; [apply (IH d1 s1 nf' nf fdata (nf :: free_refs fdata ++ F))|].
  - done.
  - lia.
  - lia.
  - done.
  - lia.
  - lia.
  - done.
  - rewrite HF, Hfree. change (Z.of_nat 127) with 127 in Hnf'.
    replace (nf' - lo) with ((nf - lo) + (1 + (Z.min (dlen d) (nf + 1 + 127) - (nf + 1)))) by lia.
    rewrite seqZ_app by lia. rewrite (Permutation_app_comm (seqZ lo _)).
    replace (lo + (nf - lo)) with nf by lia. rewrite (seqZ_cons nf) by lia.
    by replace (Z.pred _) with (Z.min (dlen d) (nf + 1 + 127) - (nf + 1)) by lia.
  - intros r s' (d' & F' & Hd' & Hlen' & Hr & Hfl' & HF' & Hag).
    rewrite Hlen1 in *. exists d', F'. repeat (split; [done|]).
    intros y Hy. rewrite Hag by lia. apply blk_upd_ne; lia.
Qed.

Lemma wp_clear_inodeblocks n : forall d s i, on_disk d s -> 0 < i ->
  i + Z.of_nat n <= dlen d ->
  wp E (clear_inodeblocks below ino n i) s
    (fun r s' => r = 0 /\ exists d', on_disk d' s' /\ dlen d' = dlen d /\
       (forall y, 0 <= y -> blk d' y =
          if decide (i <= y < i + Z.of_nat n) then null_block else blk d y)).
Proof.
  induction n as [|n IH]; intros d s i Hd Hi Hn; cbn [clear_inodeblocks].
  { wp_step. split; [done|]. exists d. repeat (split; [done|]). intros y Hy.
    by rewrite decide_False by lia. }
  wp_step. eapply wp_write; [done|lia|auto with egos|]. intros s1 Hd1. cbn [Z.ltb Z.compare].
  eapply wp_mono; [apply (IH (upd d i null_block) s1 (i + 1) Hd1); [lia|rewrite dlen_upd; lia]|].
  intros r s' (-> & d' & Hd' & Hlen & Hag). split; [done|]. exists d'. split; [done|].
  rewrite dlen_upd in Hlen. split; [done|]. intros y Hy. rewrite Hag, blk_upd by lia.
  repeat case_decide; subst; try done; lia.
Qed.
End create.

(** A disk whose inode blocks are all zero and whose free list holds the rest. *)
Lemma fresh_fs_inv d n fl F : Forall is_block d -> 0 < n -> n * 64 < 2 ^ 32 -> n + 2 <= dlen d ->
  nib d = n -> free_list (blk d 0) = fl -> freelist d fl F -> (F ≡ₚ seqZ (n + 1) (dlen d - (n + 1))) ->
  (forall y, 1 <= y <= n -> blk d y = null_block) ->
  fs_inv d F /\ ninodes d = n * 64 /\ (forall z, 0 <= z < n * 64 -> file_of d z = []).
Proof.
  intros Hblk Hn Hn32 Hlen Hnib Hfl HF HP Hz.
  assert (ninodes d = n * 64) as Hni by (unfold ninodes; lia).
  assert (forall z, 0 <= z < ninodes d -> size_of d z = 0 /\ root_of d z = 0) as Hino.
  { intros z Hzr. pose proof (ino_block_range d z Hzr).
    unfold size_of, root_of, inode_nblocks, inode_root. rewrite Hz by lia.
    split; apply get32_zeros. }
  assert (all_blocks d = []) as Hall.
  { apply elem_of_nil_inv. intros x Hx. apply list_elem_of_bind in Hx as (z & Hx & Hzr%elem_of_seqZ).
    destruct (Hino z) as [? Hr]; [lia|]. unfold ino_blocks in Hx.
    rewrite Hr, tree_blocks_0 in Hx. by apply not_elem_of_nil in Hx. }
  split; [|split; [done|]].
  - split; rewrite ?Hall, ?app_nil_r, ?Hni, ?Hnib; try lia.
    + by rewrite Hfl.
    + rewrite HP. apply NoDup_seqZ.
    + intros x. rewrite HP, elem_of_seqZ. lia.
    + intros z o Hzr Ho. destruct (Hino z) as [? Hr]; [lia|]. unfold ino_get.
      by rewrite Hr, tree_get_0.
  - intros z Hzr. destruct (Hino z) as [Hs _]; [lia|]. unfold file_of. by rewrite Hs.
Qed.

Section create_fs.
Context {S : Type} (below : inode_store S) (ino : Z) `{!StoreSpec below ino}.
Local Abbreviation on_disk := (holds below ino).

(** The number of inode blocks for [n] inodes. *)
Definition inodeblocks_for (n : Z) : Z := (n + 63) / 64.

Lemma inodeblocks_for_range n : 0 < n -> n + 63 < 2 ^ 32 ->
  0 < inodeblocks_for n /\ inodeblocks_for n * 64 < 2 ^ 32 /\ n <= inodeblocks_for n * 64.
Proof.
  intros. unfold inodeblocks_for. pose proof (Z.div_mod (n + 63) 64 ltac:(lia)).
  pose proof (Z.mod_pos_bound (n + 63) 64 ltac:(lia)). lia.
Qed.

Lemma wp_create_fresh d s n : on_disk d s -> 0 < n -> n * 64 < 2 ^ 32 -> n + 2 <= dlen d ->
  wp (fun _ => False)
    (free ← setup_freelist below ino (n + 1) (dlen d);
     r ← write below ino 0 (set_free_list (set_n_inodeblocks null_block n) free);
     if r <? 0 then mret (-1) else clear_inodeblocks below ino (Z.to_nat n) 1) s
    (fun r s' => r = 0 /\ exists d' F, on_disk d' s' /\ fs_inv d' F /\ ninodes d' = n * 64 /\
       dlen d' = dlen d /\ (F ≡ₚ seqZ (n + 1) (dlen d - (n + 1))) /\
       (forall z, 0 <= z < n * 64 -> file_of d' z = [])).
Proof.
  intros Hd Hn Hn32 Hlen. wp_step. unfold setup_freelist.
  eapply wp_mono; [apply (wp_setup_freelist_loop below ino _ (n + 1) _ d s (n + 1) 0 null_block []);
    [done|lia|lia|auto with egos|lia|lia|constructor|by rewrite seqZ_nil by lia]|].
  intros fb s1 (d1 & F & Hd1 & Hlen1 & Hfb & Hfl & HF & _).
  set (sb := set_free_list _ _). wp_step.
  assert (is_block (set_n_inodeblocks null_block n)) as Hsb0 by (apply put32_is_block; auto with egos; lia).
  assert (is_block sb) as Hsb by (apply put32_is_block; [lia|done]).
  eapply wp_write; [exact Hd1|lia|done|]. intros s2 Hd2. cbn [Z.ltb Z.compare].
  eapply wp_mono; [apply (wp_clear_inodeblocks below ino _ _ _ s2 1 Hd2); [lia|rewrite dlen_upd; lia]|].
  intros r s3 (-> & d' & Hd' & Hlen' & Hag). rewrite dlen_upd in Hlen'. rewrite Z2Nat.id in Hag by lia.
  assert (blk d' 0 = sb) as H0 by (rewrite Hag, decide_False, blk_upd_eq by lia; done).
  assert (nib d' = n) as Hnib.
  { unfold nib. rewrite H0. unfold n_inodeblocks, sb, set_free_list.
    rewrite get32_block_ne by (done || lia). apply get32_block_eq; [lia|auto with egos|lia]. }
  destruct (fresh_fs_inv d' n fb F) as (Hinv & Hni & Hfiles).
  - by eapply holds_blocks.
  - done.
  - done.
  - lia.
  - done.
  - rewrite H0. apply get32_block_eq; [lia|done|lia].
  - eapply freelist_frame; [exact Hfl|]. intros x Hx. rewrite HF, elem_of_seqZ in Hx.
    rewrite Hag, decide_False, blk_upd_ne by lia. done.
  - by rewrite HF, Hlen', Hlen1.
  - intros y Hy. rewrite Hag by lia. by rewrite decide_True by lia.
  - split; [done|]. exists d', F. rewrite Hlen', Hlen1. auto 10.
Qed.

Lemma wp_treedisk_create d s n : on_disk d s -> 0 < n -> n + 63 < 2 ^ 32 ->
  let k := inodeblocks_for n in
  wp (fun _ => False) (treedisk_create below ino n) s (fun r s' =>
    if decide (dlen d < k + 2) then r = -1 /\ on_disk d s'
    else if decide (nib d = 0) then
      r = 0 /\ exists d' F, on_disk d' s' /\ fs_inv d' F /\ ninodes d' = k * 64 /\
        dlen d' = dlen d /\ (F ≡ₚ seqZ (k + 1) (dlen d - (k + 1))) /\
        (forall z, 0 <= z < k * 64 -> file_of d' z = [])
    else r = 0 /\ on_disk d s').
Proof.
  intros Hd Hn Hn32 k. destruct (inodeblocks_for_range n Hn Hn32) as (Hk & Hk32 & _). fold k in Hk, Hk32.
  unfold treedisk_create.
  replace (u32 (n + INODES_PER_BLOCK - 1) / INODES_PER_BLOCK) with k
    by (unfold k, inodeblocks_for; change INODES_PER_BLOCK with 64; rewrite u32_id by lia; f_equal; lia).
  pose proof (holds_size _ _ _ _ Hd). assert (0 <= dlen d) by (unfold dlen; lia).
  wp_step. eapply wp_getsize; [done|]. intros s1 Hd1. rewrite !u32_id by lia.
  destruct (Z.ltb_spec (dlen d) (k + 2)).
  { wp_step. by rewrite decide_True by lia. }
  wp_step. eapply wp_read; [done|lia|]. intros s2 Hd2.
  cbn [Z.ltb Z.compare]. fold (nib d). destruct (Z.eqb_spec (nib d) 0).
  - eapply wp_mono; [by apply (wp_create_fresh d s2 k)|].
    intros r s' HQ. by rewrite decide_False, decide_True by lia.
  - wp_step. by rewrite !decide_False by lia.
Qed.
End create_fs.
