(* ===== verification/TreediskProps.v ===== *)
(** * The treedisk file system: its correctness

    The theorems about [library/file/file1.c], over every store below that
    satisfies [StoreSpec], and their instances on the ramdisk on which
    [tools/mkfs.c] builds the file system. *)

From stdpp Require Import options.
From S2P Require Import Prelude InodeStore Treedisk TreediskSpec TreediskRead TreediskAlloc TreediskGrow TreediskWalk TreediskWrite TreediskCreate.

(** ** A fresh file system on the ramdisk *)
Definition ram_ts : treedisk_state := {| below_ino := 0 |}.
Definition blank_ram : list block := replicate (Z.to_nat 4096) null_block.
(** The ramdisk after [treedisk_create(&ramdisk, 0, NINODES)]. *)
Definition fresh_ram : list block :=
  run_state (treedisk_create Ramdisk.ramdisk 0 NINODES) blank_ram [].

Lemma blank_ram_holds : holds Ramdisk.ramdisk 0 blank_ram blank_ram.
Proof.
  split; [|done]. split; [apply length_replicate|].
  apply Forall_replicate, null_block_is_block.
Qed.

Lemma nib_blank : nib blank_ram = 0.
Proof.
  unfold nib, n_inodeblocks, blk, blank_ram.
  rewrite lookup_replicate_2 by lia. apply get32_zeros.
Qed.

Lemma fresh_ram_ok :
  treedisk_create Ramdisk.ramdisk 0 NINODES blank_ram = Ok (0, fresh_ram) /\
  holds Ramdisk.ramdisk 0 fresh_ram fresh_ram /\ ninodes fresh_ram = 128 /\
  (forall z, 0 <= z < 128 -> file_of fresh_ram z = []) /\
  exists F, fs_inv fresh_ram F /\ length F = 4093%nat.
Proof.
  destruct (wp_returns _ _ _ (wp_treedisk_create Ramdisk.ramdisk 0 blank_ram blank_ram NINODES
    blank_ram_holds ltac:(unfold NINODES; lia) ltac:(unfold NINODES; lia))) as (r & s & Heq & H).
  assert (fresh_ram = s) as -> by (by eapply run_state_ok).
  assert (dlen blank_ram = 4096) as Hlen by (unfold dlen, blank_ram; by rewrite length_replicate).
  rewrite Hlen, nib_blank in H. change (inodeblocks_for NINODES) with 2 in H.
  rewrite decide_False, decide_True in H by lia.
  destruct H as (-> & d & F & [Hok Hd] & Hinv & Hni & _ & HF & Hfiles).
  change (s = d) in Hd. subst d. split; [exact Heq|]. clear Heq.
  split; [split; [exact Hok|reflexivity]|]. split; [exact Hni|]. split; [exact Hfiles|].
  exists F. split; [done|]. rewrite HF, length_seqZ. done.
Qed.
Global Opaque fresh_ram.

Section treedisk.
Context {S : Type} (below : inode_store S) (ts : treedisk_state).
Context `{!StoreSpec below (below_ino ts)}.

(** The specified effect of one write, shared by the theorems below. *)
Lemma wp_write_spec (d : list block) (F : list Z) (s : S) (ino off : Z) (data : block) :
  holds below (below_ino ts) d s -> fs_inv d F -> 0 <= ino < ninodes d ->
  0 <= off < 2 ^ 32 - 1 -> is_block data ->
  wp (fun e => e = full_msg /\ (length F < blocks_needed d ino off)%nat)
    (treedisk_write below 7 ts ino off data) s
    (fun r s' => r = 0 /\ exists d' F', holds below (below_ino ts) d' s' /\ fs_inv d' F' /\
      ninodes d' = ninodes d /\
      file_of d' ino = FileSpec.file_write (file_of d ino) off data /\
      (forall z, 0 <= z < ninodes d -> z <> ino -> file_of d' z = file_of d z) /\
      (F' ++ all_blocks d' ≡ₚ F ++ all_blocks d) /\ (length F <= length F' + blocks_needed d ino off)%nat).
Proof.
  intros Hd Hinv Hino Hoff Hdata.
  eapply wp_mono; [apply (wp_treedisk_write below ts d F ino off data Hinv Hino Hoff Hdata
    (holds_blocks _ _ _ _ Hd) s Hd)|].
  intros r s' (-> & d' & F' & Hd' & Hfew & Hev). split; [done|]. exists d', F'. split; [done|].
  destruct (write_commit d F ino off data d' F' Hinv Hino Hoff Hev) as (? & ? & ?).
  destruct (ev_same _ _ _ _ _ _ _ Hev) as (_ & Hnib & _).
  split; [done|]. split; [unfold ninodes; by rewrite Hnib|].
  repeat (split; [done|]). split; [by eapply evolved_blocks|done].
Qed.

(** A sequence of writes: inode, offset and block of each. *)
Fixpoint run_writes (ops : list (Z * Z * block)) : M S unit :=
  match ops with
  | [] => mret tt
  | (ino, off, data) :: ops => treedisk_write below 7 ts ino off data;; run_writes ops
  end.

(** What the sequence does to the files, by the specification. *)
Fixpoint spec_writes (ops : list (Z * Z * block)) (files : Z -> list block) : Z -> list block :=
  match ops with
  | [] => files
  | (ino, off, data) :: ops => spec_writes ops (fun z =>
      if decide (z = ino) then FileSpec.file_write (files ino) off data else files z)
  end.

(** The arguments of a write are in the ranges of their C types, the inode
    exists and the offset is not the largest [uint]. *)
Definition write_ok (n : Z) (op : Z * Z * block) : Prop :=
  let '(ino, off, data) := op in 0 <= ino < n /\ 0 <= off < 2 ^ 32 - 1 /\ is_block data.

Lemma wp_run_writes ops : forall d F s files,
  holds below (below_ino ts) d s -> fs_inv d F -> Forall (write_ok (ninodes d)) ops ->
  (forall z, 0 <= z < ninodes d -> files z = file_of d z) ->
  wp (fun e => e = full_msg) (run_writes ops) s (fun _ s' =>
    exists d' F', holds below (below_ino ts) d' s' /\ fs_inv d' F' /\ ninodes d' = ninodes d /\
      (forall z, 0 <= z < ninodes d -> file_of d' z = spec_writes ops files z)).
Proof.
  induction ops as [|[[ino off] data] ops IH]; intros d F s files Hd Hinv Hok Hfiles; cbn.
  { wp_step. exists d, F. repeat (split; [done|]). intros z Hz. by rewrite Hfiles. }
  apply Forall_cons in Hok as [(Hino & Hoff & Hdata) Hok]. wp_step.
  eapply wp_conseq; [by apply (wp_write_spec d F s ino off data)|by intros e [-> _]|].
  intros r s1 (_ & d1 & F1 & Hd1 & Hinv1 & Hn1 & Hfile & Hother & _). cbn beta.
  eapply wp_mono; [apply (IH d1 F1 s1 (fun z => if decide (z = ino)
    then FileSpec.file_write (files ino) off data else files z) Hd1 Hinv1)|].
  - by rewrite Hn1.
  - rewrite Hn1. intros z Hz. case_decide as Hzi; [subst z|].
    + by rewrite Hfile, Hfiles.
    + by rewrite Hother, Hfiles.
  - cbn beta. intros _ s' (d' & F' & Hd' & Hinv' & Hn' & Hfs). rewrite Hn1 in *. eauto 10.
Qed.

(** C1: writing a block.  On a well-formed file system, [treedisk_write] to an
    existing inode either returns 0 and implements the specification of files
    as lists of blocks ([file_write]: the block is replaced, a write past the
    end extends the file with null blocks), leaving every other file
    unchanged, the file system well-formed and every block either free or in
    exactly one file (none is lost), and takes at most the blocks it needs from
    the free list; or it panics because the free list has
    fewer blocks than the write needs.  It has no undefined behaviour. *)
Theorem treedisk_write_refines (d : list block) (F : list Z) (s : S) (ino off : Z) (data : block) :
  holds below (below_ino ts) d s -> fs_inv d F -> 0 <= ino < ninodes d ->
  0 <= off < 2 ^ 32 - 1 -> is_block data ->
  match treedisk_write below 7 ts ino off data s with
  | Ok (r, s') => r = 0 /\ exists d' F', holds below (below_ino ts) d' s' /\ fs_inv d' F' /\
      file_of d' ino = FileSpec.file_write (file_of d ino) off data /\
      (forall z, 0 <= z < ninodes d -> z <> ino -> file_of d' z = file_of d z) /\
      (F' ++ all_blocks d' ≡ₚ F ++ all_blocks d) /\ (length F <= length F' + blocks_needed d ino off)%nat
  | Fatal e => e = full_msg /\ (length F < blocks_needed d ino off)%nat
  | Stuck | NoFuel => False
  end.
Proof.
  intros Hd Hinv Hino Hoff Hdata.
  pose proof (wp_write_spec d F s ino off data Hd Hinv Hino Hoff Hdata) as H. unfold wp in H.
  destruct (treedisk_write _ _ _ _ _ _ _) as [[r s']|e| |]; [|done|done|done].
  destruct H as (-> & d' & F' & H). split; [done|]. exists d', F'. tauto.
Qed.

(** A write succeeds whenever the free list has enough blocks for the
    levels the tree gains plus one block per level of the path to the data. *)
Theorem treedisk_write_succeeds (d : list block) (F : list Z) (s : S) (ino off : Z) (data : block) :
  holds below (below_ino ts) d s -> fs_inv d F -> 0 <= ino < ninodes d ->
  0 <= off < 2 ^ 32 - 1 -> is_block data -> (blocks_needed d ino off <= length F)%nat ->
  exists s', treedisk_write below 7 ts ino off data s = Ok (0, s').
Proof.
  intros Hd Hinv Hino Hoff Hdata Hroom.
  destruct (wp_returns (treedisk_write below 7 ts ino off data) s (fun r _ => r = 0))
    as (r & s' & Heq & ->); [|by exists s'].
  eapply wp_conseq; [by apply (wp_write_spec d F s ino off data)| |by intros r s' [-> _]].
  intros e [_ Hlt]. lia.
Qed.

(** C19: reading a block.  On a well-formed file system, [treedisk_read] returns
    0 and the block of the file at the offset (null bytes in a hole), or -1
    with the caller's buffer untouched when the inode or the offset does not
    exist; the disk is not modified. *)
Theorem treedisk_read_correct (d : list block) (F : list Z) (s : S) (ino off : Z) (buf : block) :
  holds below (below_ino ts) d s -> fs_inv d F -> 0 <= ino -> 0 <= off < 2 ^ 32 ->
  exists s', holds below (below_ino ts) d s' /\
    treedisk_read below 7 ts ino off buf s = Ok (
      if decide (ino < ninodes d) then
        match file_of d ino !! Z.to_nat off with
        | Some b => (0, b)
        | None => (-1, buf)
        end
      else (-1, buf), s').
Proof.
  intros Hd Hinv Hino Hoff.
  destruct (wp_returns _ _ _ (wp_treedisk_read below ts (fun _ => False) d F s ino off buf Hd Hinv Hino Hoff))
    as (r & s' & Heq & Hd' & ->).
  by exists s'.
Qed.

(** [treedisk_getsize] returns the number of blocks of the file (as an
    [int]), or -1 when the inode does not exist. *)
Theorem treedisk_getsize_correct (d : list block) (F : list Z) (s : S) (ino : Z) :
  holds below (below_ino ts) d s -> fs_inv d F -> 0 <= ino ->
  exists s', holds below (below_ino ts) d s' /\
    treedisk_getsize below ts ino s = Ok (
      if decide (ino < ninodes d) then i32 (Z.of_nat (length (file_of d ino))) else -1, s').
Proof.
  intros Hd Hinv Hino.
  destruct (wp_returns _ _ _ (wp_treedisk_getsize below ts (fun _ => False) d F s ino Hd Hinv Hino))
    as (r & s' & Heq & Hd' & ->).
  by exists s'.
Qed.

(** A write to an inode that does not exist returns -1 and does not modify
    the disk. *)
Theorem treedisk_write_bad_inode (d : list block) (F : list Z) (s : S) (ino off : Z) (data : block) :
  holds below (below_ino ts) d s -> fs_inv d F -> ninodes d <= ino ->
  exists s', treedisk_write below 7 ts ino off data s = Ok (-1, s') /\
    holds below (below_ino ts) d s'.
Proof.
  intros Hd Hinv Hino. pose proof (inv_nib _ _ Hinv) as Hnib.
  assert (wp (fun _ => False) (treedisk_write below 7 ts ino off data) s
    (fun r s' => r = -1 /\ holds below (below_ino ts) d s')) as H.
  { unfold treedisk_write. wp_step. eapply wp_get_snapshot; [done|done| |lia|].
    - unfold ninodes in Hino. lia.
    - intros s' sn Hd' _. cbn. by wp_step. }
  destruct (wp_returns _ _ _ H) as (r & s' & Heq & -> & Hd'). by exists s'.
Qed.

(** C2: histories.  After any sequence of writes to existing inodes of a
    well-formed file system, every read returns what the specification of
    files computes for the sequence (its last write at that offset, null bytes
    in a hole, -1 past the end); the only way the sequence can stop early is
    the panic of a full disk. *)
Theorem treedisk_history (d : list block) (F : list Z) (s : S) (ops : list (Z * Z * block)) :
  holds below (below_ino ts) d s -> fs_inv d F -> Forall (write_ok (ninodes d)) ops ->
  match run_writes ops s with
  | Ok (_, s') => forall ino off buf, 0 <= ino < ninodes d -> 0 <= off < 2 ^ 32 ->
      exists s'', treedisk_read below 7 ts ino off buf s' =
        Ok (match spec_writes ops (file_of d) ino !! Z.to_nat off with
            | Some b => (0, b)
            | None => (-1, buf)
            end, s'')
  | Fatal e => e = full_msg
  | Stuck | NoFuel => False
  end.
Proof.
  intros Hd Hinv Hok.
  pose proof (wp_run_writes ops d F s (file_of d) Hd Hinv Hok (fun _ _ => eq_refl)) as H.
  unfold wp in H. destruct (run_writes ops s) as [[r s']|e| |]; [|done|done|done].
  destruct H as (d' & F' & Hd' & Hinv' & Hn' & Hfs). intros ino off buf Hino Hoff.
  destruct (wp_returns _ _ _ (wp_treedisk_read below ts (fun _ => False) d' F' s' ino off buf
    Hd' Hinv' ltac:(lia) Hoff)) as (r' & s'' & Heq & _ & ->).
  exists s''. rewrite Heq, decide_True, Hfs by lia. done.
Qed.
End treedisk.

Section create_thm.
Context {S : Type} (below : inode_store S) (ino : Z) `{!StoreSpec below ino}.

(** C20: creating a file system.  [treedisk_create] returns -1 without touching
    the disk when the disk is too small for the inodes, returns 0 without
    touching it when a file system already exists, and otherwise returns 0 and
    leaves a well-formed file system of empty files whose free list holds
    exactly the blocks after the inode blocks. *)
Theorem treedisk_create_correct (d : list block) (s : S) (n : Z) :
  holds below ino d s -> 0 < n -> n + 63 < 2 ^ 32 ->
  exists r s', treedisk_create below ino n s = Ok (r, s') /\
    let k := (n + 63) / 64 in
    if decide (dlen d < k + 2) then r = -1 /\ holds below ino d s'
    else if decide (nib d = 0) then
      r = 0 /\ exists d' F, holds below ino d' s' /\ fs_inv d' F /\ n <= ninodes d' /\
        (F ≡ₚ seqZ (k + 1) (dlen d - (k + 1))) /\
        (forall z, 0 <= z < ninodes d' -> file_of d' z = [])
    else r = 0 /\ holds below ino d s'.
Proof.
  intros Hd Hn Hn32. destruct (inodeblocks_for_range n Hn Hn32) as (_ & _ & Hle).
  destruct (wp_returns _ _ _ (wp_treedisk_create below ino d s n Hd Hn Hn32))
    as (r & s' & Heq & H).
  exists r, s'. split; [done|]. unfold inodeblocks_for in *. cbn beta zeta in H |- *.
  case_decide; [done|]. case_decide; [|done].
  destruct H as (-> & d' & F & Hd' & Hinv & Hni & _ & HF & Hfiles). split; [done|].
  exists d', F. rewrite Hni. auto.
Qed.
End create_thm.

(** C40: the number of levels.  The loops that count the levels of a file's tree
    terminate and return the least [l] with [nblocks <= 128^l], with the value
    of [log_rpb] that [treedisk_init] computes. *)
Theorem treedisk_nlevels_least (ino n : Z) : 0 < n < 2 ^ 32 ->
  exists log_rpb l, treedisk_init 0 ino = Ok (log_rpb, {| below_ino := ino |}) /\
    treedisk_nlevels log_rpb n = Ok l /\ 0 <= l <= 5 /\ n <= 128 ^ l /\
    (forall l', 0 <= l' -> n <= 128 ^ l' -> l <= l').
Proof.
  intros Hn. exists 7, (Z.of_nat (levels n)). split; [done|].
  split; [apply treedisk_nlevels_ok; lia|]. pose proof (levels_le n).
  split; [lia|]. split; [apply levels_bound; lia|]. intros l' Hl' Hle.
  destruct (decide (Z.of_nat (levels n) <= l')) as [|Hgt]; [done|]. exfalso.
  assert (l' <= 4) by lia. clear H.
  assert (l' = 0 \/ l' = 1 \/ l' = 2 \/ l' = 3 \/ l' = 4) as Hc by lia.
  unfold levels in Hgt. destruct Hc as [->|[->|[->|[->| ->]]]]; revert Hgt; zcases; lia.
Qed.

(** ** Instances on the ramdisk *)

Lemma fresh_write_ok : 0 <= 5 < ninodes fresh_ram /\ 0 <= 300 < 2 ^ 32 - 1 /\
  blocks_needed fresh_ram 5 300 = 5%nat.
Proof.
  destruct fresh_ram_ok as (_ & _ & -> & Hf & _). split; [lia|]. split; [lia|].
  unfold blocks_needed. rewrite <- length_file_of, Hf by lia. done.
Qed.

Lemma treedisk_write_refines_witness : exists s' d' F',
  treedisk_write Ramdisk.ramdisk 7 ram_ts 5 300 null_block fresh_ram = Ok (0, s') /\
  holds Ramdisk.ramdisk 0 d' s' /\ fs_inv d' F' /\
  file_of d' 5 = FileSpec.file_write [] 300 null_block.
Proof.
  destruct fresh_ram_ok as (_ & Hd & Hn & Hf & F & Hinv & HF).
  destruct fresh_write_ok as (Hino & Hoff & Hneed).
  pose proof (treedisk_write_refines Ramdisk.ramdisk ram_ts fresh_ram F fresh_ram 5 300 null_block
    Hd Hinv Hino Hoff null_block_is_block) as H.
  destruct (treedisk_write Ramdisk.ramdisk 7 ram_ts 5 300 null_block fresh_ram)
    as [[r s']|e| |].
  - destruct H as (-> & d' & F' & Hd' & Hinv' & Hfile & _). exists s', d', F'.
    rewrite Hf in Hfile by lia. auto.
  - destruct H as [_ Hlt]. rewrite Hneed, HF in Hlt. lia.
  - destruct H.
  - destruct H.
Defined.

Lemma treedisk_write_succeeds_witness :
  exists s', treedisk_write Ramdisk.ramdisk 7 ram_ts 5 300 null_block fresh_ram = Ok (0, s').
Proof.
  destruct fresh_ram_ok as (_ & Hd & Hn & Hf & F & Hinv & HF).
  destruct fresh_write_ok as (Hino & Hoff & Hneed).
  apply (treedisk_write_succeeds Ramdisk.ramdisk ram_ts fresh_ram F fresh_ram 5 300 null_block
    Hd Hinv Hino Hoff null_block_is_block).
  rewrite Hneed, HF. lia.
Defined.

Lemma treedisk_read_correct_witness : exists s',
  treedisk_read Ramdisk.ramdisk 7 ram_ts 5 300 null_block fresh_ram = Ok ((-1, null_block), s').
Proof.
  destruct fresh_ram_ok as (_ & Hd & Hn & Hf & F & Hinv & HF).
  destruct (treedisk_read_correct Ramdisk.ramdisk ram_ts fresh_ram F fresh_ram 5 300 null_block
    Hd Hinv ltac:(lia) ltac:(lia)) as (s' & _ & Heq).
  exists s'. rewrite Heq, decide_True, Hf by lia. reflexivity.
Defined.

Lemma treedisk_getsize_correct_witness : exists s',
  treedisk_getsize Ramdisk.ramdisk ram_ts 5 fresh_ram = Ok (0, s').
Proof.
  destruct fresh_ram_ok as (_ & Hd & Hn & Hf & F & Hinv & HF).
  destruct (treedisk_getsize_correct Ramdisk.ramdisk ram_ts fresh_ram F fresh_ram 5
    Hd Hinv ltac:(lia)) as (s' & _ & Heq).
  exists s'. rewrite Heq, decide_True, Hf by lia. reflexivity.
Defined.

Lemma treedisk_write_bad_inode_witness : exists s',
  treedisk_write Ramdisk.ramdisk 7 ram_ts 128 0 null_block fresh_ram = Ok (-1, s') /\
  holds Ramdisk.ramdisk 0 fresh_ram s'.
Proof.
  destruct fresh_ram_ok as (_ & Hd & Hn & Hf & F & Hinv & HF).
  apply (treedisk_write_bad_inode Ramdisk.ramdisk ram_ts fresh_ram F fresh_ram 128 0 null_block
    Hd Hinv). rewrite Hn. lia.
Defined.

Lemma treedisk_history_witness :
  match run_writes Ramdisk.ramdisk ram_ts [(5, 3, null_block); (6, 0, null_block)] fresh_ram with
  | Ok (_, s') => exists s'', treedisk_read Ramdisk.ramdisk 7 ram_ts 5 1 [] s' =
      Ok ((0, null_block), s'')
  | Fatal e => e = full_msg
  | Stuck | NoFuel => False
  end.
Proof.
  destruct fresh_ram_ok as (_ & Hd & Hn & Hf & F & Hinv & HF).
  assert (Forall (write_ok (ninodes fresh_ram)) [(5, 3, null_block); (6, 0, null_block)]) as Hok.
  { rewrite Hn. repeat constructor; try lia; apply null_block_is_block. }
  pose proof (treedisk_history Ramdisk.ramdisk ram_ts fresh_ram F fresh_ram
    [(5, 3, null_block); (6, 0, null_block)] Hd Hinv Hok) as H.
  destruct (run_writes _ _ _ _) as [[r s']|e| |]; [|exact H|exact H|exact H].
  destruct (H 5 1 []) as (s'' & Heq); [lia|lia|]. exists s''. rewrite Heq.
  cbn [spec_writes]. rewrite decide_False, decide_True, Hf by lia.
  rewrite FileSpec.lookup_file_write by lia. rewrite decide_False, decide_False, decide_True;
    [reflexivity|lia|cbn; lia|lia].
Defined.

Lemma treedisk_create_correct_witness : exists r s',
  treedisk_create Ramdisk.ramdisk 0 128 blank_ram = Ok (r, s') /\ r = 0.
Proof.
  destruct (treedisk_create_correct Ramdisk.ramdisk 0 blank_ram blank_ram 128
    blank_ram_holds ltac:(lia) ltac:(lia)) as (r & s' & Heq & H).
  exists r, s'. split; [exact Heq|]. cbn zeta in H.
  assert (dlen blank_ram = 4096) as Hlen by (unfold dlen, blank_ram; by rewrite length_replicate).
  rewrite Hlen, nib_blank in H. change ((128 + 63) / 64) with 2 in H.
  rewrite decide_False, decide_True in H by lia. destruct H as [-> _]. reflexivity.
Defined.

Lemma treedisk_nlevels_least_witness :
  exists log_rpb l, treedisk_init 0 0 = Ok (log_rpb, {| below_ino := 0 |}) /\
    treedisk_nlevels log_rpb 129 = Ok l /\ l <= 2.
Proof.
  destruct (treedisk_nlevels_least 0 129 ltac:(lia)) as (r & l & Hi & Hl & _ & _ & Hleast).
  exists r, l. split; [exact Hi|]. split; [exact Hl|]. apply Hleast; lia.
Defined.

(** The largest offset.  Writing at offset [2^32 - 1] wraps [offset + 1] to
    0: [treedisk_write] returns 0, but the one-block file now has size 0 and
    its block can no longer be read. *)
Theorem treedisk_write_last_offset_truncates :
  exists s', (treedisk_create Ramdisk.ramdisk 0 128;;
    treedisk_write Ramdisk.ramdisk 7 ram_ts 0 0 null_block;;
    before ← treedisk_getsize Ramdisk.ramdisk ram_ts 0;
    r ← treedisk_write Ramdisk.ramdisk 7 ram_ts 0 (2 ^ 32 - 1) null_block;
    after ← treedisk_getsize Ramdisk.ramdisk ram_ts 0;
    '(r', _) ← treedisk_read Ramdisk.ramdisk 7 ram_ts 0 0 null_block;
    mret (before, r, after, r')) blank_ram = Ok ((1, 0, 0, -1), s').
Proof. eexists. vm_compute. reflexivity. Qed.
