(* ===== verification/Mydisk.v ===== *)
(** * The mydisk file system

    [library/file/file0.c]: every inode is a fixed window of 128 blocks of
    inode 0 of the store below. *)

From stdpp Require Import options.
From S2P Require Import Prelude InodeStore.

Definition DUMMY_DISK_OFFSET (ino offset : Z) : Z := u32 (u32 (ino * 128) + offset).

Section Mydisk.
Context {S : Type} (below : inode_store S).

Definition mydisk_read (ino offset : Z) (block : block) : M S (Z * InodeStore.block) :=
  read below 0 (DUMMY_DISK_OFFSET ino offset) block.

Definition mydisk_write (ino offset : Z) (block : block) : M S Z :=
  write below 0 (DUMMY_DISK_OFFSET ino offset) block.

Definition mydisk_getsize (ino : Z) : M S Z := mfatal "mydisk_getsize not implemented".

Definition mydisk_setsize (ino nblocks : Z) : M S Z := mfatal "mydisk_setsize not implemented".

Definition mydisk_create (below_ino ninodes : Z) : M S Z := mret 0.

Definition mydisk_init (below_ino : Z) : inode_store S := {|
  getsize := mydisk_getsize;
  setsize := mydisk_setsize;
  read := mydisk_read;
  write := mydisk_write;
|}.

Context `{!StoreSpec below 0}.

Lemma dummy_offset ino off : 0 <= ino -> 0 <= off -> ino * 128 + off < 2 ^ 32 ->
  DUMMY_DISK_OFFSET ino off = ino * 128 + off.
Proof.
  intros. unfold DUMMY_DISK_OFFSET. rewrite (u32_id (ino * 128)) by lia.
  by rewrite u32_id by lia.
Qed.

(** Mydisk stores what is written.  For blocks within the window of an
    inode (offset below 128) that the disk can hold, a read after a write
    returns the written block at the same inode and offset, and the block
    that was there before at any other. *)
Theorem mydisk_read_write (d : list block) (s : S) (ino off ino' off' : Z) (b buf : block) :
  holds below 0 d s -> is_block b ->
  0 <= ino -> 0 <= off < 128 -> ino * 128 + off < dlen d ->
  0 <= ino' -> 0 <= off' < 128 -> ino' * 128 + off' < dlen d ->
  exists s', (r ← write (mydisk_init 0) ino off b;
              '(r', b') ← read (mydisk_init 0) ino' off' buf;
              mret (r, r', b')) s =
    Ok ((0, 0, if decide (ino = ino' /\ off = off') then b else blk d (ino' * 128 + off')), s').
Proof.
  intros Hd Hb Hi Ho Hlen Hi' Ho' Hlen'. pose proof (holds_size _ _ _ _ Hd).
  set (Q := fun (a : Z * Z * block) (s' : S) => a =
    (0, 0, if decide (ino = ino' /\ off = off') then b else blk d (ino' * 128 + off'))).
  assert (wp (fun _ => False) (r ← write (mydisk_init 0) ino off b;
    '(r', b') ← read (mydisk_init 0) ino' off' buf; mret (r, r', b')) s Q) as Hwp.
  { wp_step. cbn. unfold mydisk_write, mydisk_read. rewrite !dummy_offset by lia.
    eapply wp_write; [done|lia|done|]. intros s1 Hd1. wp_step.
    eapply wp_read; [done|rewrite dlen_upd; lia|]. intros s2 Hd2. cbn. wp_step.
    unfold Q. rewrite blk_upd by lia. f_equal. apply decide_ext. lia. }
  destruct (wp_returns _ _ _ Hwp) as (a & s' & Heq & ->). by exists s'.
Qed.

(** Windows overlap past their end.  Offset 128 of an inode is offset 0 of
    the next one: a write there changes the next inode's first block. *)
Theorem mydisk_windows_overlap (d : list block) (s : S) (ino : Z) (b buf : block) :
  holds below 0 d s -> is_block b -> 0 <= ino -> ino * 128 + 128 < dlen d ->
  exists s', (write (mydisk_init 0) ino 128 b;;
              read (mydisk_init 0) (ino + 1) 0 buf) s = Ok ((0, b), s').
Proof.
  intros Hd Hb Hi Hlen. pose proof (holds_size _ _ _ _ Hd).
  assert (wp (fun _ => False) (write (mydisk_init 0) ino 128 b;;
    read (mydisk_init 0) (ino + 1) 0 buf) s (fun a _ => a = (0, b))) as Hwp.
  { wp_step. cbn. unfold mydisk_write, mydisk_read.
    rewrite !dummy_offset by lia.
    eapply wp_write; [done|lia|done|]. intros s1 Hd1.
    eapply wp_read; [done|rewrite dlen_upd; lia|]. intros s2 Hd2.
    replace ((ino + 1) * 128 + 0) with (ino * 128 + 128) by lia. by rewrite blk_upd_eq by lia. }
  destruct (wp_returns _ _ _ Hwp) as (a & s' & Heq & ->). by exists s'.
Qed.
End Mydisk.

Section witnesses.
Let ram0 : list block := replicate (Z.to_nat 4096) null_block.

Lemma ram0_holds : holds Ramdisk.ramdisk 0 ram0 ram0 /\ dlen ram0 = 4096.
Proof.
  split; [|unfold dlen, ram0; by rewrite length_replicate].
  split; [|done]. split; [apply length_replicate|].
  apply Forall_replicate, null_block_is_block.
Qed.
End witnesses.

Lemma mydisk_read_write_witness : exists s',
  (r ← write (mydisk_init Ramdisk.ramdisk 0) 3 7 null_block;
   '(r', b') ← read (mydisk_init Ramdisk.ramdisk 0) 3 7 [];
   mret (r, r', b')) (replicate (Z.to_nat 4096) null_block) = Ok ((0, 0, null_block), s').
Proof.
  destruct ram0_holds as [Hd Hlen].
  destruct (mydisk_read_write Ramdisk.ramdisk _ _ 3 7 3 7 null_block [] Hd null_block_is_block)
    as (s' & Heq); [lia|lia|rewrite Hlen; lia|lia|lia|rewrite Hlen; lia|].
  exists s'. rewrite Heq, decide_True by lia. reflexivity.
Defined.

Lemma mydisk_windows_overlap_witness : exists s',
  (write (mydisk_init Ramdisk.ramdisk 0) 3 128 null_block;;
   read (mydisk_init Ramdisk.ramdisk 0) 4 0 []) (replicate (Z.to_nat 4096) null_block) =
  Ok ((0, null_block), s').
Proof.
  destruct ram0_holds as [Hd Hlen].
  apply (mydisk_windows_overlap Ramdisk.ramdisk _ _ 3 null_block [] Hd null_block_is_block).
  - lia.
  - rewrite Hlen. lia.
Defined.
