(* ===== verification/Earth.v ===== *)
(** * The earth interface

    [library/egos.h]: the memory layout, [struct earth] (the operations of the
    earth layer that the grass layer calls through function pointers) and what
    the kernel relies on, as the class [EarthSpec].  The kernel is proved
    against [EarthSpec]; the software TLB of [earth/cpu_mmu.c] discharges it in
    the file [SoftTlb]. *)

From stdpp Require Import options.
From S2P Require Import Prelude.

(** ** Memory layout *)
Definition RAM_END : Z := 0x81000000.
Definition APPS_PAGES_BASE : Z := 0x80800000.
Definition APPS_STACK_TOP : Z := 0x80800000.
Definition SHELL_WORK_DIR : Z := 0x80602000.
Definition SYSCALL_ARG : Z := 0x80601000.
Definition APPS_ARG : Z := 0x80600000.
Definition APPS_ENTRY : Z := 0x80400000.
Definition EGOS_STACK_TOP : Z := 0x80400000.
Definition GRASS_STRUCT_BASE : Z := 0x80201000.
Definition EARTH_STRUCT_BASE : Z := 0x80200000.
Definition RAM_START : Z := 0x80000000.
Definition BOARD_FLASH_ROM : Z := 0x20400000.
Definition ETHMAC_CSR_BASE : Z := 0xF0002000.
Definition ETHMAC_RX_BUFFER : Z := 0x90000000.
Definition ETHMAC_TX_BUFFER : Z := 0x90001000.

Inductive platform : Type := ARTY | QEMU.
Inductive translation : Type := PAGE_TABLE | SOFT_TLB.
#[global] Instance platform_eq_dec : EqDecision platform.
Proof. solve_decision. Defined.
#[global] Instance translation_eq_dec : EqDecision translation.
Proof. solve_decision. Defined.

Definition SPI_BASE (p : platform) : Z := if decide (p = ARTY) then 0xF0008800 else 0x10050000.
Definition UART_BASE (p : platform) : Z := if decide (p = ARTY) then 0xF0001000 else 0x10010000.
Definition CLINT_BASE (p : platform) : Z := if decide (p = ARTY) then 0xF0010000 else 0x02000000.

Definition NCORES : Z := 4.

(** ** Pages *)
Definition PAGE_SIZE : Z := 4096.
(** The contents of a page of memory. *)
Definition page : Type := list byte.
Definition is_page (pg : page) : Prop := length pg = Z.to_nat PAGE_SIZE.
(** [n] bytes at offset [o] of a page, and the page with the bytes [bs] there. *)
Definition slice (pg : page) (o n : nat) : list byte := take n (drop o pg).
Definition splice (pg : page) (o : nat) (bs : list byte) : page :=
  take o pg ++ bs ++ drop (o + length bs) pg.

Lemma length_slice pg o n : (o + n <= length pg)%nat -> length (slice pg o n) = n.
Proof. intros. unfold slice. rewrite length_take, length_drop. lia. Qed.

Lemma splice_is_page pg o bs : (o + length bs <= 4096)%nat ->
  is_page pg -> is_page (splice pg o bs).
Proof.
  unfold is_page, splice, PAGE_SIZE. intros Ho Hpg.
  rewrite !length_app, length_take, length_drop, Hpg. lia.
Qed.

Lemma put32_is_page pg j v : is_page pg -> (j < 1024)%nat -> is_page (put32 pg j v).
Proof.
  unfold is_page, PAGE_SIZE. intros Hpg Hj. rewrite length_put32; rewrite Hpg; [done|lia].
Qed.

(** Words of a page. *)
Lemma get32_page_eq pg i v : (i < 1024)%nat -> is_page pg -> 0 <= v < 2 ^ 32 -> get32 (put32 pg i v) i = v.
Proof.
  unfold is_page, PAGE_SIZE. intros ? Hp ?. rewrite get32_put32_eq by (rewrite Hp; lia). by apply u32_id.
Qed.

Lemma get32_page_ne pg i j v : (i < 1024)%nat -> is_page pg -> i <> j ->
  get32 (put32 pg i v) j = get32 pg j.
Proof. unfold is_page, PAGE_SIZE. intros ? Hp ?. apply get32_put32_ne; [done|]. rewrite Hp. lia. Qed.

#[local] Transparent put32 get32.
(** Words before the strings do not meet them. *)
Lemma drop_put32 pg i v o : (4 * i + 4 <= o)%nat -> (o <= length pg)%nat -> drop o (put32 pg i v) = drop o pg.
Proof.
  intros Hi Ho. unfold put32. rewrite app_assoc, drop_app_ge by (rewrite length_app, length_le_split, length_take; lia).
  rewrite drop_drop. f_equal. rewrite length_app, length_le_split, length_take. lia.
Qed.

Lemma get32_splice pg i o bs : (4 * i + 4 <= o)%nat -> (o <= length pg)%nat ->
  get32 (splice pg o bs) i = get32 pg i.
Proof.
  intros Hi Ho. unfold get32, splice. f_equal. rewrite !take_drop_commute. f_equal.
  rewrite take_app_le by (rewrite length_take; lia). rewrite take_take. f_equal. lia.
Qed.
#[local] Opaque put32 get32.

#[local] Transparent get32.
Lemma get32_take pg n i : (4 * i + 4 <= n)%nat -> get32 (take n pg) i = get32 pg i.
Proof. intros Hi. unfold get32. f_equal. rewrite !take_drop_commute, take_take. do 2 f_equal. lia. Qed.
#[local] Opaque get32.

Lemma slice_splice pg o bs : (o <= length pg)%nat ->
  slice (splice pg o bs) o (length bs) = bs.
Proof.
  intros Ho. unfold slice, splice.
  rewrite drop_app_length' by (rewrite length_take; lia). apply take_app_length.
Qed.

(** ** [struct earth]

    The operations the kernel and the loader call, over the machine state [S].
    [earth_load] and [earth_store] are the accesses of [memcpy] through a
    physical address. *)
Record earth (S : Type) : Type := {
  mmu_alloc : M S Z;
  mmu_free : Z -> M S unit;
  mmu_flush_cache : M S unit;
  timer_reset : Z -> M S unit;
  mmu_map : Z -> Z -> Z -> M S unit;
  mmu_translate : Z -> Z -> M S Z;
  mmu_switch : Z -> M S unit;
  earth_load : Z -> nat -> M S (list byte);
  earth_store : Z -> list byte -> M S unit;
}.
Arguments mmu_alloc {S} _.
Arguments mmu_free {S} _ _.
Arguments mmu_flush_cache {S} _.
Arguments timer_reset {S} _ _.
Arguments mmu_map {S} _ _ _ _.
Arguments mmu_translate {S} _ _ _.
Arguments mmu_switch {S} _ _.
Arguments earth_load {S} _ _ _.
Arguments earth_store {S} _ _ _.

(** An access of [n] bytes at address [a] that stays within one page. *)
Definition in_page (a : Z) (n : nat) : Prop := a mod PAGE_SIZE + Z.of_nat n <= PAGE_SIZE.

#[global] Instance in_page_dec a n : Decision (in_page a n).
Proof. unfold in_page. apply _. Defined.

(** What the kernel relies on.  Every process has a private address space,
    [aspace s pid vpage]; [reaches s pa pid va] says that the physical address
    [pa] currently accesses virtual address [va] of process [pid].  Switching
    and translating change no address space; a store through a translated
    address changes the one page of the one process it was translated for. *)
Class EarthSpec {S} (e : earth S) : Type := {
  earth_inv : S -> Prop;
  aspace : S -> Z -> Z -> option page;
  vm_pid : S -> Z;
  reaches : S -> Z -> Z -> Z -> Prop;
  aspace_page s pid v pg : earth_inv s -> aspace s pid v = Some pg -> is_page pg;
  switch_spec s pid : earth_inv s -> 0 < pid ->
    wp (fun _ => False) (mmu_switch e pid) s (fun _ s' =>
      earth_inv s' /\ vm_pid s' = pid /\ forall q v, aspace s' q v = aspace s q v);
  translate_spec s pid va : earth_inv s -> 0 < pid -> APPS_ENTRY <= va < APPS_STACK_TOP ->
    wp (fun _ => False) (mmu_translate e pid va) s (fun pa s' =>
      earth_inv s' /\ reaches s' pa pid va /\ forall q v, aspace s' q v = aspace s q v);
  load_spec s pa pid va n : earth_inv s -> reaches s pa pid va -> in_page va n ->
    wp (fun _ => False) (earth_load e pa n) s (fun bs s' =>
      s' = s /\ length bs = n /\
      forall pg, aspace s pid (va / PAGE_SIZE) = Some pg ->
        bs = slice pg (Z.to_nat (va mod PAGE_SIZE)) n);
  store_spec s pa pid va bs : earth_inv s -> reaches s pa pid va -> in_page va (length bs) ->
    wp (fun _ => False) (earth_store e pa bs) s (fun _ s' =>
      earth_inv s' /\ forall q v, aspace s' q v =
        if decide (q = pid /\ v = va / PAGE_SIZE)
        then (fun pg => splice pg (Z.to_nat (va mod PAGE_SIZE)) bs) <$> aspace s q v
        else aspace s q v);
  flush_spec s : earth_inv s ->
    wp (fun _ => False) (mmu_flush_cache e) s (fun _ s' =>
      earth_inv s' /\ vm_pid s' = vm_pid s /\ forall q v, aspace s' q v = aspace s q v);
  timer_spec s core : earth_inv s ->
    wp (fun _ => False) (timer_reset e core) s (fun _ s' =>
      earth_inv s' /\ vm_pid s' = vm_pid s /\ forall q v, aspace s' q v = aspace s q v);
  free_spec s pid : earth_inv s -> 0 < pid ->
    wp (fun _ => False) (mmu_free e pid) s (fun _ s' =>
      earth_inv s' /\ vm_pid s' = vm_pid s /\
      forall q v, aspace s' q v = if decide (q = pid) then None else aspace s q v);
}.
