(* ===== verification/Timer.v ===== *)
(** * The timer

    [earth/cpu_intr.c]: reading the 64-bit clock and setting the 64-bit timer
    comparator through 32-bit memory-mapped registers.  The clock is hardware:
    [mtime n] is its value at the [n]-th access to a clock register, a
    parameter of the model. *)

From stdpp Require Import options.
From S2P Require Import Prelude Earth.

(** The core-local interruptor: how many clock reads were made, and the words
    of the comparator registers by their offset from [MTIMECMP_BASE]. *)
Record clint : Type := {
  reads : nat;
  mtimecmp : gmap Z Z;
}.

Definition MTIME_BASE (p : platform) : Z := CLINT_BASE p + 0xBFF8.
Definition MTIMECMP_BASE (p : platform) : Z := CLINT_BASE p + 0x4000.
Definition QUANTUM (p : platform) : Z := if decide (p = QEMU) then 100000 else 50000000.

Definition u64 (z : Z) : Z := z mod 2 ^ 64.

Section Timer.
Context (mtime : nat -> Z) (plat : platform).

(** [REGW(MTIME_BASE, 0)] and [REGW(MTIME_BASE, 4)]. *)
Definition read_mtime_low : M clint Z := fun s =>
  Ok (u32 (mtime (reads s)), {| reads := Datatypes.S (reads s); mtimecmp := mtimecmp s |}).
Definition read_mtime_high : M clint Z := fun s =>
  Ok (u32 (Z.shiftr (mtime (reads s)) 32),
      {| reads := Datatypes.S (reads s); mtimecmp := mtimecmp s |}).
(** [REGW(MTIMECMP_BASE, off) = v;] *)
Definition write_mtimecmp (off v : Z) : M clint unit :=
  mmodify (fun s => {| reads := reads s; mtimecmp := <[off := v]> (mtimecmp s) |}).

(** [do { high = ...; low = ...; } while (... != high);] *)
Fixpoint mtime_loop (fuel : nat) : M clint (Z * Z) :=
  match fuel with
  | O => mnofuel
  | Datatypes.S fuel =>
    high ← read_mtime_high;
    low ← read_mtime_low;
    again ← read_mtime_high;
    if (again : Z) =? high then mret (high, low) else mtime_loop fuel
  end.
(** Two rounds: the high word cannot change in two consecutive rounds (its
    period is 2^32 ticks). *)
Definition mtime_fuel : nat := 2.

Definition mtime_get : M clint Z :=
  '(high, low) ← mtime_loop mtime_fuel;
  mret (Z.lor (Z.shiftl high 32) low).

Definition mtimecmp_set (time core_id : Z) : M clint unit :=
  write_mtimecmp (u32 (core_id * 8 + 4)) 0xFFFFFFFF;;
  write_mtimecmp (u32 (core_id * 8 + 0)) (u32 time);;
  write_mtimecmp (u32 (core_id * 8 + 4)) (u32 (Z.shiftr time 32)).

Definition timer_reset (core_id : Z) : M clint unit :=
  now ← mtime_get;
  mtimecmp_set (u64 (now + QUANTUM plat)) core_id.

(** [intr_init]: the comparator starts far in the future.  The installation of
    [trap_entry] and the enabling of interrupts are writes to CSRs that this
    state does not hold. *)
Definition intr_init (core_id : Z) : M clint unit := mtimecmp_set 0x0FFFFFFFFFFFFFFF core_id.

(** What the hardware promises: a 64-bit clock that does not run backwards and
    whose high word changes at most once in six accesses. *)
Record clock_ok : Prop := {
  clock_range n : 0 <= mtime n < 2 ^ 64;
  clock_mono n m : (n <= m)%nat -> mtime n <= mtime m;
  clock_slow n : mtime (n + 5) / 2 ^ 32 <= mtime n / 2 ^ 32 + 1;
}.

(** The comparator of a core as the hardware compares it with the clock. *)
Definition mtimecmp_of (s : clint) (core_id : Z) : Z :=
  default 0 (mtimecmp s !! u32 (core_id * 8 + 4)) * 2 ^ 32 +
  default 0 (mtimecmp s !! u32 (core_id * 8 + 0)).
End Timer.

Section proofs.
Context (mtime : nat -> Z) (plat : platform) (Hclock : clock_ok mtime).

Lemma read_high s : read_mtime_high mtime s =
  Ok (mtime (reads s) / 2 ^ 32, {| reads := Datatypes.S (reads s); mtimecmp := mtimecmp s |}).
Proof using Hclock.
  unfold read_mtime_high. pose proof (clock_range _ Hclock (reads s)).
  rewrite Z.shiftr_div_pow2, u32_id; [done| |lia].
  split; [apply Z.div_pos; lia|apply Z.div_lt_upper_bound; lia].
Qed.

(** One round: it succeeds when the high word is stable, with the value of the
    clock at the second access. *)
Lemma mtime_round fuel s :
  let n := reads s in
  mtime_loop mtime (Datatypes.S fuel) s =
    if mtime (n + 2)%nat / 2 ^ 32 =? mtime n / 2 ^ 32
    then Ok ((mtime (n + 1)%nat / 2 ^ 32, mtime (n + 1)%nat mod 2 ^ 32),
             {| reads := (n + 3)%nat; mtimecmp := mtimecmp s |})
    else mtime_loop mtime fuel {| reads := (n + 3)%nat; mtimecmp := mtimecmp s |}.
Proof using Hclock.
  intros n. cbn [mtime_loop]. erewrite mbind_ok by apply read_high.
  erewrite mbind_ok by reflexivity. erewrite mbind_ok by apply read_high. cbn [reads mtimecmp].
  fold n. replace (n + 1)%nat with (Datatypes.S n) by lia.
  replace (n + 2)%nat with (Datatypes.S (Datatypes.S n)) by lia.
  replace (n + 3)%nat with (Datatypes.S (Datatypes.S (Datatypes.S n))) by lia.
  destruct (Z.eqb_spec (mtime (Datatypes.S (Datatypes.S n)) / 2 ^ 32) (mtime n / 2 ^ 32)) as [Heq|];
    [|done].
  assert (mtime n / 2 ^ 32 = mtime (Datatypes.S n) / 2 ^ 32) as ->; [|done].
  apply Z.le_antisymm; [|rewrite <- Heq]; apply Z.div_le_mono; try lia;
    apply (clock_mono _ Hclock); lia.
Qed.

(** The loop ends within its fuel. *)
Lemma mtime_loop_ends s : exists n,
  (reads s < n /\ n < reads s + 6)%nat /\
  mtime_loop mtime mtime_fuel s = Ok ((mtime n / 2 ^ 32, mtime n mod 2 ^ 32),
    {| reads := (n + 2)%nat; mtimecmp := mtimecmp s |}).
Proof using Hclock.
  unfold mtime_fuel. rewrite mtime_round. set (n := reads s).
  destruct (Z.eqb_spec (mtime (n + 2)%nat / 2 ^ 32) (mtime n / 2 ^ 32)) as [|Hne].
  { exists (n + 1)%nat. split; [lia|]. by replace (n + 1 + 2)%nat with (n + 3)%nat by lia. }
  rewrite mtime_round. cbn [reads mtimecmp].
  assert (forall a b, (a <= b)%nat -> mtime a / 2 ^ 32 <= mtime b / 2 ^ 32) as Hmono.
  { intros a b Hab. apply Z.div_le_mono; [lia|]. by apply (clock_mono _ Hclock). }
  pose proof (Hmono n (n + 2)%nat ltac:(lia)). pose proof (Hmono (n + 2)%nat (n + 3)%nat ltac:(lia)).
  pose proof (Hmono (n + 3)%nat (n + 5)%nat ltac:(lia)). pose proof (clock_slow _ Hclock n).
  replace (n + 3 + 2)%nat with (n + 5)%nat by lia. rewrite (proj2 (Z.eqb_eq _ _)) by lia.
  exists (n + 4)%nat. split; [lia|]. replace (n + 3 + 1)%nat with (n + 4)%nat by lia.
  by replace (n + 3 + 3)%nat with (n + 4 + 2)%nat by lia.
Qed.

Lemma mtime_get_ends s : exists n,
  (reads s < n /\ n < reads s + 6)%nat /\
  mtime_get mtime s = Ok (mtime n, {| reads := (n + 2)%nat; mtimecmp := mtimecmp s |}).
Proof using Hclock.
  destruct (mtime_loop_ends s) as (n & Hn & Heq). exists n. split; [done|].
  unfold mtime_get. erewrite mbind_ok by exact Heq. pose proof (clock_range _ Hclock n).
  pose proof (Z.div_mod (mtime n) (2 ^ 32)). pose proof (Z.mod_pos_bound (mtime n) (2 ^ 32)).
  cbv beta iota. rewrite lor_shiftl_low by lia. unfold mret, M_ret. do 2 f_equal. lia.
Qed.

Lemma u32_core core off : 0 <= core < 2 ^ 28 -> 0 <= off < 8 -> u32 (core * 8 + off) = core * 8 + off.
Proof. intros. apply u32_id. lia. Qed.

Lemma mtimecmp_set_regs s time core core' : 0 <= core < 2 ^ 28 -> 0 <= core' < 2 ^ 28 ->
  0 <= time < 2 ^ 64 ->
  exists s', mtimecmp_set time core s = Ok (tt, s') /\ reads s' = reads s /\
    mtimecmp_of s' core' = if decide (core' = core) then time else mtimecmp_of s core'.
Proof.
  intros Hc Hc' Ht. eexists. split; [reflexivity|]. split; [done|].
  unfold mtimecmp_of. cbn [mtimecmp]. rewrite !u32_core by lia. case_decide as Heq.
  - subst. rewrite lookup_insert_eq, lookup_insert_ne, lookup_insert_eq by lia. cbn.
    rewrite Z.shiftr_div_pow2 by lia. rewrite (u32_id (time / _)).
    + unfold u32. pose proof (Z.div_mod time (2 ^ 32)). lia.
    + split; [apply Z.div_pos; lia|apply Z.div_lt_upper_bound; lia].
  - by rewrite !lookup_insert_ne by lia.
Qed.
End proofs.

Section claims.
Context (mtime : nat -> Z) (plat : platform).

(** C38: the clock is read consistently.  The two 32-bit halves that
    [mtime_get] combines belong to one moment: under a monotone clock whose
    high word changes at most once in six accesses it returns, and its result
    is exactly the 64-bit value the clock had at one of its own accesses. *)
Theorem mtime_get_consistent (s : clint) : clock_ok mtime ->
  exists n, (reads s < n /\ n < reads s + 6)%nat /\
    mtime_get mtime s = Ok (mtime n, {| reads := (n + 2)%nat; mtimecmp := mtimecmp s |}).
Proof. intros Hclock. by apply mtime_get_ends. Qed.

(** Resetting the timer arms the core's comparator one quantum after a
    moment of the call, leaves the comparators of the other cores alone, and
    raises no early interrupt: after the first and the second of the three
    writes the comparator is above any clock value below 0xFFFFFFFF00000000. *)
Theorem timer_reset_correct (s : clint) (core core' : Z) : clock_ok mtime ->
  0 <= core < 2 ^ 28 -> 0 <= core' < 2 ^ 28 ->
  exists n s', (reads s < n /\ n < reads s + 6)%nat /\
    timer_reset mtime plat core s = Ok (tt, s') /\
    mtimecmp_of s' core' =
      (if decide (core' = core) then u64 (mtime n + QUANTUM plat) else mtimecmp_of s core') /\
    forall time s1 s2,
      write_mtimecmp (u32 (core * 8 + 4)) 0xFFFFFFFF s = Ok (tt, s1) ->
      write_mtimecmp (u32 (core * 8 + 0)) (u32 time) s1 = Ok (tt, s2) ->
      0xFFFFFFFF00000000 <= mtimecmp_of s2 core.
Proof.
  intros Hclock Hc Hc'. destruct (mtime_get_ends mtime Hclock s) as (n & Hn & Hget).
  set (s1 := {| reads := (n + 2)%nat; mtimecmp := mtimecmp s |}) in *.
  destruct (mtimecmp_set_regs s1 (u64 (mtime n + QUANTUM plat)) core core' Hc Hc')
    as (s' & Hset & _ & Hval); [apply Z.mod_pos_bound; lia|].
  exists n, s'. split; [done|]. split; [|split; [exact Hval|]].
  - unfold timer_reset. by erewrite mbind_ok by exact Hget.
  - intros time t1 t2 [= <-] [= <-]. unfold mtimecmp_of. cbn [mtimecmp].
    rewrite !u32_core by lia.
    rewrite lookup_insert_ne, lookup_insert_eq, lookup_insert_eq by lia. cbn [default].
    pose proof (u32_range time). unfold default, id. lia.
Qed.
End claims.

(** A clock that ticks once per access and stops at its last value. *)
Definition tick (start : Z) (n : nat) : Z := Z.min (start + Z.of_nat n) (2 ^ 64 - 1).

Lemma tick_ok start : 0 <= start -> clock_ok (tick start).
Proof.
  intros Hs. unfold tick. split; [intros n; lia|intros n m; lia|].
  intros n. rewrite <- Z.div_add by lia. apply Z.div_le_mono; lia.
Qed.

(** The clock's low word wraps during the call. *)
Lemma mtime_get_consistent_witness : exists n, (0 < n /\ n < 6)%nat /\
  mtime_get (tick (2 ^ 32 - 2)) {| reads := 0; mtimecmp := ∅ |} =
  Ok (tick (2 ^ 32 - 2) n, {| reads := (n + 2)%nat; mtimecmp := ∅ |}).
Proof.
  apply (mtime_get_consistent (tick (2 ^ 32 - 2)) {| reads := 0; mtimecmp := ∅ |}).
  apply tick_ok. lia.
Defined.

Lemma timer_reset_correct_witness : exists n s', (0 < n /\ n < 6)%nat /\
  timer_reset (tick 5) QEMU 1 {| reads := 0; mtimecmp := ∅ |} = Ok (tt, s') /\
  mtimecmp_of s' 1 = u64 (tick 5 n + QUANTUM QEMU).
Proof.
  destruct (timer_reset_correct (tick 5) QEMU {| reads := 0; mtimecmp := ∅ |} 1 1)
    as (n & s' & Hn & Hr & Hv & _); [apply tick_ok; lia|lia|lia|].
  exists n, s'. split; [exact Hn|]. split; [exact Hr|]. rewrite Hv. reflexivity.
Defined.
