(* ===== verification/Mmu.v ===== *)
(** * Memory management: definitions

    [earth/cpu_mmu.c]: the page allocator, the software TLB and the functions
    selected by [mmu_init].  Physical memory is a map from page numbers to
    pages; a page never written is zero.  The page table of an application's
    frames is [page_info_table]; the kernel's own variables are not part of the
    modelled memory. *)

From stdpp Require Import options.
From S2P Require Import Prelude Earth Timer.

Definition APPS_PAGES_CNT : Z := (RAM_END - APPS_PAGES_BASE) / PAGE_SIZE.
Definition PAGE_NO_TO_ADDR (x : Z) : Z := u32 (x * PAGE_SIZE).
Definition PAGE_ID_TO_ADDR (x : Z) : Z := u32 (APPS_PAGES_BASE + x * PAGE_SIZE).

Record page_info : Type := {
  use : Z;
  pi_pid : Z;
  vpage_no : Z;
}.
Definition zero_info : page_info := {| use := 0; pi_pid := 0; vpage_no := 0 |}.

(** ** Physical memory *)
Abbreviation memory := (gmap Z page).
Definition zero_page : page := zeros (Z.to_nat PAGE_SIZE).
Definition page_at (m : memory) (n : Z) : page := default zero_page (m !! n).

(** [memcpy(dst, src, PAGE_SIZE)] between page-aligned addresses. *)
Definition memcpy_page (dst src : Z) (m : memory) : memory :=
  <[dst / PAGE_SIZE := page_at m (src / PAGE_SIZE)]> m.

(** The state of the machine: the variables of [cpu_mmu.c] ([curr_vm_pid] is
    static in [soft_tlb_switch]), memory, and the timer. *)
Record machine : Type := {
  page_info_table : list page_info;
  curr_vm_pid : Z;
  mem : memory;
  timer : clint;
}.

Definition with_table (s : machine) (t : list page_info) : machine :=
  {| page_info_table := t; curr_vm_pid := curr_vm_pid s; mem := mem s; timer := timer s |}.
Definition with_mem (s : machine) (m : memory) : machine :=
  {| page_info_table := page_info_table s; curr_vm_pid := curr_vm_pid s; mem := m;
     timer := timer s |}.
Definition with_vm (s : machine) (pid : Z) : machine :=
  {| page_info_table := page_info_table s; curr_vm_pid := pid; mem := mem s; timer := timer s |}.
Definition with_timer (s : machine) (t : clint) : machine :=
  {| page_info_table := page_info_table s; curr_vm_pid := curr_vm_pid s; mem := mem s;
     timer := t |}.

(** ** Allocation *)

(** The loop of [mmu_alloc] from index [i] with [n] rounds left. *)
Fixpoint mmu_alloc_loop (n : nat) (i : Z) : M machine Z :=
  match n with
  | O => mfatal "mmu_alloc: no more free memory"
  | Datatypes.S n =>
    s ← mget;
    match page_info_table s !! Z.to_nat i with
    | None => mstuck
    | Some p =>
      if use p =? 0 then
        mput (with_table s (<[Z.to_nat i := {| use := 1; pi_pid := pi_pid p;
                                               vpage_no := vpage_no p |}]> (page_info_table s)));;
        mret i
      else mmu_alloc_loop n (i + 1)
    end
  end.
Definition mmu_alloc : M machine Z := mmu_alloc_loop (Z.to_nat APPS_PAGES_CNT) 0.

(** [page_info_table[i].use && page_info_table[i].pid == pid] *)
Definition owned (pid : Z) (p : page_info) : bool := negb (use p =? 0) && (pi_pid p =? pid).

Definition mmu_free (pid : Z) : M machine unit :=
  mmodify (fun s => with_table s
    ((fun p => if owned pid p then zero_info else p) <$> page_info_table s)).

(** ** The software TLB *)
Definition soft_tlb_map (pid vpage ppage_id : Z) : M machine unit := fun s =>
  match page_info_table s !! Z.to_nat ppage_id with
  | Some p => Ok (tt, with_table s (<[Z.to_nat ppage_id :=
      {| use := use p; pi_pid := pid; vpage_no := vpage |}]> (page_info_table s)))
  | None => Stuck
  end.

(** Save the pages of [pid] from the user address space to its frames, from
    index [i] of the table on. *)
Fixpoint unmap_loop (pid : Z) (t : list page_info) (i : Z) (m : memory) : memory :=
  match t with
  | [] => m
  | p :: t => unmap_loop pid t (i + 1)
      (if owned pid p
       then memcpy_page (PAGE_ID_TO_ADDR i) (PAGE_NO_TO_ADDR (vpage_no p)) m else m)
  end.
(** Load them from its frames to the user address space. *)
Fixpoint map_loop (pid : Z) (t : list page_info) (i : Z) (m : memory) : memory :=
  match t with
  | [] => m
  | p :: t => map_loop pid t (i + 1)
      (if owned pid p
       then memcpy_page (PAGE_NO_TO_ADDR (vpage_no p)) (PAGE_ID_TO_ADDR i) m else m)
  end.

Definition soft_tlb_switch (pid : Z) : M machine unit :=
  s ← mget;
  if pid =? curr_vm_pid s then mret tt else
  let m := unmap_loop (curr_vm_pid s) (page_info_table s) 0 (mem s) in
  let m := map_loop pid (page_info_table s) 0 m in
  mput (with_vm (with_mem s m) pid).

Definition soft_tlb_translate (pid vaddr : Z) : M machine Z :=
  soft_tlb_switch pid;;
  mret vaddr.

(** ** Functions of the page-table mode

    As distributed they add a bound on the pid and fall back on the TLB. *)
Definition MMU_MAX_NPROCESS : Z := 256.
Definition page_table_map (pid vpage ppage_id : Z) : M machine unit :=
  panic_if (pid >=? MMU_MAX_NPROCESS) "page_table_map: pid too large";;
  soft_tlb_map pid vpage ppage_id.
Definition page_table_switch (pid : Z) : M machine unit := soft_tlb_switch pid.
Definition page_table_translate (pid vaddr : Z) : M machine Z := soft_tlb_translate pid vaddr.

(** [flush_cache] only executes fence instructions: nothing of this state. *)
Definition flush_cache : M machine unit := mret tt.

(** ** Memory accesses through a physical address, within one page *)
Definition mem_load (a : Z) (n : nat) : M machine (list byte) := fun s =>
  if bool_decide (in_page a n)
  then Ok (slice (page_at (mem s) (a / PAGE_SIZE)) (Z.to_nat (a mod PAGE_SIZE)) n, s)
  else Stuck.
Definition mem_store (a : Z) (bs : list byte) : M machine unit := fun s =>
  if bool_decide (in_page a (length bs))
  then Ok (tt, with_mem s (<[a / PAGE_SIZE :=
         splice (page_at (mem s) (a / PAGE_SIZE)) (Z.to_nat (a mod PAGE_SIZE)) bs]> (mem s)))
  else Stuck.

(** ** The earth interface as [mmu_init] and [intr_init] set it up *)
Section Interface.
Context (mtime : nat -> Z) (plat : platform).

Definition machine_timer_reset (core_id : Z) : M machine unit := fun s =>
  match timer_reset mtime plat core_id (timer s) with
  | Ok (_, t) => Ok (tt, with_timer s t)
  | Fatal m => Fatal m
  | Stuck => Stuck
  | NoFuel => NoFuel
  end.

Definition mmu_init (tr : translation) : earth machine := {|
  Earth.mmu_alloc := mmu_alloc;
  Earth.mmu_free := mmu_free;
  Earth.mmu_flush_cache := flush_cache;
  Earth.timer_reset := machine_timer_reset;
  Earth.mmu_map := if decide (tr = PAGE_TABLE) then page_table_map else soft_tlb_map;
  Earth.mmu_translate :=
    if decide (tr = PAGE_TABLE) then page_table_translate else soft_tlb_translate;
  Earth.mmu_switch := if decide (tr = PAGE_TABLE) then page_table_switch else soft_tlb_switch;
  Earth.earth_load := mem_load;
  Earth.earth_store := mem_store;
|}.
End Interface.
