(* ===== verification/SoftTlb.v ===== *)
(** * The software TLB gives every process a private address space

    The pages of the process whose address space is installed
    ([curr_vm_pid]) live in the user window; those of every other process live
    in their frames.  Switching moves pages between the two and changes no
    address space: [Mmu.mmu_init] implements the interface [EarthSpec]. *)

From stdpp Require Import options.
From S2P Require Import Prelude Earth Timer Mmu.

(** The page number of frame [i], and the page numbers of the user window. *)
Definition frame (i : nat) : Z := 0x80800 + Z.of_nat i.
Definition in_window (v : Z) : Prop := 0x80400 <= v < 0x80800.

(** ** Sequences of page copies *)
Definition copies (l : list (Z * Z)) (m : memory) : memory :=
  foldl (fun m '(d, s) => <[d := page_at m s]> m) m l.

Lemma page_at_insert_eq m n pg : page_at (<[n := pg]> m) n = pg.
Proof. unfold page_at. by rewrite lookup_insert_eq. Qed.

Lemma page_at_insert_ne m n n' pg : n <> n' -> page_at (<[n := pg]> m) n' = page_at m n'.
Proof. intros. unfold page_at. by rewrite lookup_insert_ne. Qed.

Lemma copies_cons d s l m : copies ((d, s) :: l) m = copies l (<[d := page_at m s]> m).
Proof. done. Qed.

Lemma copies_other l m x : x ∉ l.*1 -> page_at (copies l m) x = page_at m x.
Proof.
  revert m. induction l as [|[d s] l IH]; intros m Hx; [done|].
  rewrite fmap_cons in Hx. rewrite copies_cons. apply not_elem_of_cons in Hx as [Hne Hx]. by rewrite IH, page_at_insert_ne.
Qed.

(** Copies to distinct pages that are no sources act as one simultaneous copy. *)
Lemma copies_at l m d s : NoDup l.*1 -> (forall x, x ∈ l.*1 -> x ∉ l.*2) ->
  (d, s) ∈ l -> page_at (copies l m) d = page_at m s.
Proof.
  revert m. induction l as [|[d' s'] l IH]; intros m Hnd Hdis Hin.
  { by apply not_elem_of_nil in Hin. }
  rewrite !fmap_cons in *. rewrite copies_cons. cbn [fst snd] in *.
  apply NoDup_cons in Hnd as [Hd' Hnd].
  apply elem_of_cons in Hin as [[= -> ->]|Hin].
  - by rewrite copies_other, page_at_insert_eq.
  - rewrite IH; auto.
    + rewrite page_at_insert_ne; [done|]. intros ->.
      apply (Hdis s); [left|]. right. apply list_elem_of_fmap. by exists (d, s).
    + intros x Hx Hx'. apply (Hdis x); by right.
Qed.

(** The copies of the two loops. *)
Fixpoint owned_pages (pid : Z) (t : list page_info) (i : nat) : list (Z * Z) :=
  match t with
  | [] => []
  | p :: t => if owned pid p then (frame i, vpage_no p) :: owned_pages pid t (S i)
              else owned_pages pid t (S i)
  end.

Lemma owned_pages_elem pid t i x v : (x, v) ∈ owned_pages pid t i <->
  exists j p, t !! j = Some p /\ owned pid p = true /\ x = frame (i + j) /\ v = vpage_no p.
Proof.
  revert i. induction t as [|p t IH]; intros i; cbn.
  - rewrite elem_of_nil. split; [done|]. intros (j & q & Hj & _). done.
  - assert ((x, v) ∈ owned_pages pid t (S i) <-> exists j q, (p :: t) !! S j = Some q /\
      owned pid q = true /\ x = frame (i + S j) /\ v = vpage_no q) as Htail.
    { rewrite IH. by setoid_rewrite Nat.add_succ_r. }
    split.
    + intros Hin. destruct (owned pid p) eqn:Hp;
        [apply elem_of_cons in Hin as [[= -> ->]|Hin]|].
      * exists 0%nat, p. by rewrite Nat.add_0_r.
      * apply Htail in Hin as (j & q & Hq). by exists (S j), q.
      * apply Htail in Hin as (j & q & Hq). by exists (S j), q.
    + intros ([|j] & q & Hq & Ho & Hx & Hv).
      * injection Hq as <-. rewrite Ho, Hx, Hv, Nat.add_0_r. left.
      * assert ((x, v) ∈ owned_pages pid t (S i)) as Hin by (apply Htail; by exists j, q).
        destruct (owned pid p); [by right|done].
Qed.

Lemma owned_pages_nodup pid t i : NoDup (owned_pages pid t i).*1.
Proof.
  revert i. induction t as [|p t IH]; intros i; cbn; [constructor|].
  destruct (owned pid p); [|done]. cbn. apply NoDup_cons. split; [|done].
  intros ([x v] & Hx & Hin)%list_elem_of_fmap. cbn in Hx. subst x.
  apply owned_pages_elem in Hin as (j & q & _ & _ & Hf & _). unfold frame in Hf. lia.
Qed.

(** ** The invariant *)
Record tlb_inv (s : machine) : Prop := {
  tlb_len : length (page_info_table s) = 2048%nat;
  tlb_window i p : page_info_table s !! i = Some p -> use p <> 0 -> pi_pid p <> 0 ->
    in_window (vpage_no p);
  tlb_inj i j p q : page_info_table s !! i = Some p -> page_info_table s !! j = Some q ->
    use p <> 0 -> use q <> 0 -> pi_pid p <> 0 -> pi_pid p = pi_pid q ->
    vpage_no p = vpage_no q -> i = j;
  tlb_pages n : is_page (page_at (mem s) n);
  tlb_vm : curr_vm_pid s <> 0;
  tlb_free i p : page_info_table s !! i = Some p -> use p = 0 -> pi_pid p = 0;
}.

(** The frame that holds page [v] of process [pid]. *)
Definition frame_of (t : list page_info) (pid v : Z) : option nat :=
  fst <$> list_find (fun p => owned pid p = true /\ vpage_no p = v) t.

Definition tlb_aspace (s : machine) (pid v : Z) : option page :=
  if decide (pid = 0) then None else
  (fun i => page_at (mem s) (if decide (pid = curr_vm_pid s) then v else frame i)) <$>
  frame_of (page_info_table s) pid v.

Lemma owned_true pid p : owned pid p = true <-> use p <> 0 /\ pi_pid p = pid.
Proof.
  unfold owned. rewrite andb_true_iff, negb_true_iff, Z.eqb_neq, Z.eqb_eq. done.
Qed.

Lemma frame_of_Some t pid v i : frame_of t pid v = Some i ->
  exists p, t !! i = Some p /\ owned pid p = true /\ vpage_no p = v.
Proof.
  unfold frame_of. rewrite fmap_Some. intros ([j p] & Hf & ->).
  apply list_find_Some in Hf as (Hp & [Ho Hv] & _). eauto.
Qed.

Lemma frame_of_owned s i p : tlb_inv s -> page_info_table s !! i = Some p -> use p <> 0 ->
  pi_pid p <> 0 -> frame_of (page_info_table s) (pi_pid p) (vpage_no p) = Some i.
Proof.
  intros Hinv Hp Hu Hpid. unfold frame_of.
  destruct (list_find _ (page_info_table s)) as [[j q]|] eqn:Hf; cbn.
  - apply list_find_Some in Hf as (Hq & [[Hqu Hqp]%owned_true Hqv] & _). f_equal.
    by apply (tlb_inj _ Hinv j i q p); rewrite ?Hqp.
  - apply list_find_None in Hf. rewrite Forall_lookup in Hf.
    destruct (Hf i p Hp). split; [by apply owned_true|done].
Qed.

(** ** Switching *)
Lemma frame_addr i : (i < 2048)%nat -> PAGE_ID_TO_ADDR (Z.of_nat i) / PAGE_SIZE = frame i.
Proof.
  intros Hi. unfold PAGE_ID_TO_ADDR, APPS_PAGES_BASE, PAGE_SIZE, frame.
  rewrite u32_id by lia. rewrite Z.div_add by lia. done.
Qed.

Lemma window_addr v : in_window v -> PAGE_NO_TO_ADDR v / PAGE_SIZE = v.
Proof.
  unfold in_window. intros Hv. unfold PAGE_NO_TO_ADDR, PAGE_SIZE.
  rewrite u32_id by lia. apply Z.div_mul. lia.
Qed.

Lemma unmap_loop_copies pid t i m : (i + length t <= 2048)%nat ->
  (forall p, p ∈ t -> owned pid p = true -> in_window (vpage_no p)) ->
  unmap_loop pid t (Z.of_nat i) m = copies (owned_pages pid t i) m.
Proof.
  revert i m. induction t as [|p t IH]; intros i m Hi Hw; [done|]. cbn [unmap_loop owned_pages].
  cbn in Hi. replace (Z.of_nat i + 1) with (Z.of_nat (S i)) by lia.
  rewrite IH by (lia || intros q Hq; apply Hw; by right).
  destruct (owned pid p) eqn:Hp; [|done]. rewrite copies_cons. unfold memcpy_page.
  rewrite frame_addr by lia. by rewrite window_addr by (apply Hw; [left|done]).
Qed.

Definition swap {A B} (x : A * B) : B * A := (x.2, x.1).

Lemma swap_fst {A B} (l : list (A * B)) : (swap <$> l).*1 = l.*2.
Proof. by rewrite <- list_fmap_compose. Qed.
Lemma swap_snd {A B} (l : list (A * B)) : (swap <$> l).*2 = l.*1.
Proof. by rewrite <- list_fmap_compose. Qed.

Lemma map_loop_copies pid t i m : (i + length t <= 2048)%nat ->
  (forall p, p ∈ t -> owned pid p = true -> in_window (vpage_no p)) ->
  map_loop pid t (Z.of_nat i) m = copies (swap <$> owned_pages pid t i) m.
Proof.
  revert i m. induction t as [|p t IH]; intros i m Hi Hw; [done|]. cbn [map_loop owned_pages].
  cbn in Hi. replace (Z.of_nat i + 1) with (Z.of_nat (S i)) by lia.
  rewrite IH by (lia || intros q Hq; apply Hw; by right).
  destruct (owned pid p) eqn:Hp; [|done]. rewrite fmap_cons.
  change (swap (frame i, vpage_no p)) with (vpage_no p, frame i).
  rewrite copies_cons. unfold memcpy_page.
  rewrite frame_addr by lia. by rewrite window_addr by (apply Hw; [left|done]).
Qed.

Section switch.
Context (s : machine) (Hinv : tlb_inv s).

Lemma owned_window pid p : p ∈ page_info_table s -> pid <> 0 -> owned pid p = true ->
  in_window (vpage_no p).
Proof using Hinv.
  intros [i Hp]%list_elem_of_lookup Hpid [Hu Hq]%owned_true. by apply (tlb_window _ Hinv i p); subst.
Qed.

(** No frame is a page of the window. *)
Lemma owned_disjoint pid x1 v1 x2 v2 : pid <> 0 ->
  (x1, v1) ∈ owned_pages pid (page_info_table s) 0 ->
  (x2, v2) ∈ owned_pages pid (page_info_table s) 0 -> x1 <> v2.
Proof using Hinv.
  intros Hpid (j1 & p1 & _ & _ & -> & _)%owned_pages_elem
    (j2 & p2 & Hp2 & Ho2 & _ & ->)%owned_pages_elem.
  pose proof (owned_window pid p2 ltac:(by eapply list_elem_of_lookup_2) Hpid Ho2) as Hw.
  unfold in_window, frame in *. lia.
Qed.

(** Saving the pages of [pid]. *)
Lemma unmap_frame pid i p : pid <> 0 -> page_info_table s !! i = Some p -> owned pid p = true ->
  page_at (unmap_loop pid (page_info_table s) 0 (mem s)) (frame i) = page_at (mem s) (vpage_no p).
Proof using Hinv.
  intros Hpid Hp Ho. rewrite (unmap_loop_copies pid _ 0).
  2: { rewrite (tlb_len _ Hinv). lia. }
  2: { intros q Hq. by apply owned_window. }
  apply copies_at; [apply owned_pages_nodup| |].
  - intros x ([x1 v1] & -> & Hin1)%list_elem_of_fmap ([x2 v2] & Heq & Hin2)%list_elem_of_fmap.
    by apply (owned_disjoint pid x1 v1 x2 v2).
  - apply owned_pages_elem. by exists i, p.
Qed.

Lemma unmap_other pid x : pid <> 0 ->
  (forall i p, page_info_table s !! i = Some p -> owned pid p = true -> x <> frame i) ->
  page_at (unmap_loop pid (page_info_table s) 0 (mem s)) x = page_at (mem s) x.
Proof using Hinv.
  intros Hpid Hx. rewrite (unmap_loop_copies pid _ 0).
  2: { rewrite (tlb_len _ Hinv). lia. }
  2: { intros q Hq. by apply owned_window. }
  apply copies_other. intros ([x1 v1] & -> & Hin)%list_elem_of_fmap.
  apply owned_pages_elem in Hin as (j & p & Hp & Ho & -> & _). by apply (Hx j p).
Qed.

(** Loading the pages of [pid]. *)
Lemma map_window pid m i p : pid <> 0 -> page_info_table s !! i = Some p -> owned pid p = true ->
  page_at (map_loop pid (page_info_table s) 0 m) (vpage_no p) = page_at m (frame i).
Proof using Hinv.
  intros Hpid Hp Ho. rewrite (map_loop_copies pid _ 0).
  2: { rewrite (tlb_len _ Hinv). lia. }
  2: { intros q Hq. by apply owned_window. }
  apply copies_at.
  - rewrite swap_fst. apply NoDup_fmap_2_strong; [|eapply NoDup_fmap_1, owned_pages_nodup].
    intros [x1 v1] [x2 v2] Hin1 Hin2 Heq. cbn in Heq. subst v2.
    apply owned_pages_elem in Hin1 as (j1 & p1 & Hp1 & [Hu1 Hq1]%owned_true & -> & ->),
      Hin2 as (j2 & p2 & Hp2 & [Hu2 Hq2]%owned_true & -> & Hv2).
    f_equal. by rewrite (tlb_inj _ Hinv j1 j2 p1 p2) by congruence.
  - rewrite swap_fst, swap_snd.
    intros x ([x1 v1] & -> & Hin1)%list_elem_of_fmap ([x2 v2] & Heq & Hin2)%list_elem_of_fmap.
    by apply (owned_disjoint pid x2 v2 x1 v1).
  - apply list_elem_of_fmap. exists (frame i, vpage_no p). split; [done|].
    apply owned_pages_elem. by exists i, p.
Qed.

Lemma map_other pid m x : pid <> 0 -> ~ in_window x ->
  page_at (map_loop pid (page_info_table s) 0 m) x = page_at m x.
Proof using Hinv.
  intros Hpid Hx. rewrite (map_loop_copies pid _ 0).
  2: { rewrite (tlb_len _ Hinv). lia. }
  2: { intros q Hq. by apply owned_window. }
  apply copies_other. rewrite swap_fst.
  intros ([x1 v1] & -> & Hin)%list_elem_of_fmap.
  apply owned_pages_elem in Hin as (j & p & Hp & Ho & _ & ->). apply Hx.
  eapply owned_window; [by eapply list_elem_of_lookup_2|done|done].
Qed.
End switch.

Lemma copies_pages l m : (forall n, is_page (page_at m n)) ->
  forall n, is_page (page_at (copies l m) n).
Proof.
  revert m. induction l as [|[d s] l IH]; intros m Hm; [done|]. rewrite copies_cons.
  apply IH. intros n. destruct (decide (d = n)) as [->|].
  - rewrite page_at_insert_eq. apply Hm.
  - rewrite page_at_insert_ne by done. apply Hm.
Qed.

(** The machine after [soft_tlb_switch(pid)]. *)
Definition switched (s : machine) (pid : Z) : machine :=
  if decide (pid = curr_vm_pid s) then s else
  with_vm (with_mem s (map_loop pid (page_info_table s) 0
    (unmap_loop (curr_vm_pid s) (page_info_table s) 0 (mem s)))) pid.

Lemma soft_tlb_switch_eq pid s : soft_tlb_switch pid s = Ok (tt, switched s pid).
Proof.
  unfold soft_tlb_switch. erewrite mbind_ok by reflexivity. unfold switched.
  destruct (Z.eqb_spec pid (curr_vm_pid s)); [by rewrite decide_True|by rewrite decide_False].
Qed.

Lemma switched_vm s pid : curr_vm_pid (switched s pid) = pid.
Proof. unfold switched. by case_decide. Qed.

Lemma switched_table s pid : page_info_table (switched s pid) = page_info_table s.
Proof. unfold switched. by case_decide. Qed.

Lemma switched_inv s pid : tlb_inv s -> pid <> 0 -> tlb_inv (switched s pid).
Proof.
  intros Hinv Hpid. split; rewrite ?switched_table, ?switched_vm; try apply Hinv; [|done].
  intros n. unfold switched. case_decide; [by apply tlb_pages|]. cbn.
  pose proof (tlb_len _ Hinv) as Hlen.
  rewrite (map_loop_copies pid _ 0);
    [|rewrite Hlen; lia|intros p Hp; by apply (owned_window s Hinv)].
  rewrite (unmap_loop_copies (curr_vm_pid s) _ 0);
    [|rewrite Hlen; lia|intros p Hp; apply (owned_window s Hinv); [done|apply Hinv]].
  apply copies_pages, copies_pages, Hinv.
Qed.

Lemma frame_not_window i : ~ in_window (frame i).
Proof. unfold in_window, frame. lia. Qed.

(** Switching changes no address space. *)
Lemma switched_aspace s pid q v : tlb_inv s -> pid <> 0 ->
  tlb_aspace (switched s pid) q v = tlb_aspace s q v.
Proof.
  intros Hinv Hpid. unfold tlb_aspace. rewrite switched_table, switched_vm.
  case_decide as Hq; [done|].
  destruct (frame_of (page_info_table s) q v) as [i|] eqn:Hf; [|done]. cbn. f_equal.
  destruct (frame_of_Some _ _ _ _ Hf) as (p & Hp & Ho & <-).
  pose proof (proj1 (owned_true _ _) Ho) as [Hu Hqp].
  assert (in_window (vpage_no p)) as Hw
    by (eapply (owned_window s Hinv q); [by eapply list_elem_of_lookup_2|done|done]).
  unfold switched. destruct (decide (pid = curr_vm_pid s)) as [->|Hne]; [done|]. cbn.
  set (m1 := unmap_loop _ _ _ _).
  (* the frames of the other processes are not touched by the saving loop *)
  assert (q <> curr_vm_pid s -> page_at m1 (frame i) = page_at (mem s) (frame i)) as Hsave.
  { intros Hqc. apply unmap_other; [done|apply Hinv|]. intros j p' Hp' [_ Ho']%owned_true Heq.
    assert (j = i) as -> by (unfold frame in Heq; lia). by simplify_eq. }
  destruct (decide (q = pid)) as [->|Hqp'].
  - rewrite (map_window s Hinv pid m1 i p) by done. rewrite Hsave by done.
    by rewrite decide_False.
  - rewrite (map_other s Hinv) by (done || apply frame_not_window).
    destruct (decide (q = curr_vm_pid s)) as [->|]; [|by apply Hsave].
    by apply unmap_frame.
Qed.

(** Nor a frame that belongs to no process. *)
Lemma switched_frame s pid i p : tlb_inv s -> pid <> 0 -> page_info_table s !! i = Some p -> pi_pid p = 0 ->
  page_at (mem (switched s pid)) (frame i) = page_at (mem s) (frame i).
Proof.
  intros Hinv Hpid Hp Hz. unfold switched. case_decide; [done|]. cbn.
  rewrite (map_other s Hinv) by (done || apply frame_not_window). pose proof (tlb_vm _ Hinv) as Hvm.
  apply unmap_other; [done|done|]. intros j q Hq [_ Hown]%owned_true Heq.
  assert (j = i) as -> by (unfold frame in Heq; lia). simplify_eq. congruence.
Qed.

(** The window then shows the pages of [pid]. *)
Lemma aspace_current s pid v pg : tlb_aspace s pid v = Some pg -> curr_vm_pid s = pid ->
  pg = page_at (mem s) v.
Proof.
  unfold tlb_aspace. case_decide; [done|]. intros Hf <-.
  apply fmap_Some in Hf as (i & _ & ->). by rewrite decide_True.
Qed.

(** ** Freeing *)
Definition free_info (pid : Z) (p : page_info) : page_info :=
  if owned pid p then zero_info else p.

Lemma free_info_used pid p : pid <> 0 -> use (free_info pid p) <> 0 ->
  free_info pid p = p /\ owned pid p = false.
Proof. unfold free_info. destruct (owned pid p) eqn:Ho; [done|auto]. Qed.

Lemma freed_inv s pid : tlb_inv s -> pid <> 0 ->
  tlb_inv (with_table s (free_info pid <$> page_info_table s)).
Proof.
  intros Hinv Hpid.
  assert (forall i p, (free_info pid <$> page_info_table s) !! i = Some p -> use p <> 0 ->
    page_info_table s !! i = Some p) as Hback.
  { intros i p (q & -> & Hq)%list_lookup_fmap_Some Hu.
    by destruct (free_info_used pid q Hpid Hu) as [-> _]. }
  split; cbn; try apply Hinv.
  - rewrite length_fmap. apply Hinv.
  - intros i p Hp Hu. apply (tlb_window _ Hinv i); auto.
  - intros i j p q Hp Hq Hu Hv. apply (tlb_inj _ Hinv); auto.
  - intros i p (q & -> & Hq)%list_lookup_fmap_Some. unfold free_info.
    destruct (owned pid q); [done|]. by apply (tlb_free _ Hinv i).
Qed.

Lemma freed_frame t pid q v : q <> 0 -> frame_of (free_info pid <$> t) q v =
  if decide (q = pid) then None else frame_of t q v.
Proof.
  intros Hq0. assert (forall p, (owned q (free_info pid p) = true /\ vpage_no (free_info pid p) = v) <->
    (q <> pid /\ owned q p = true /\ vpage_no p = v)) as Hiff.
  { intros p. unfold free_info. destruct (owned pid p) eqn:Ho.
    - apply owned_true in Ho as [Hu Hp]. split; [by intros [? _]|].
      intros (Hne & Hoq & _). apply owned_true in Hoq as [_ Hoq]. congruence.
    - split; [|tauto]. intros [Hoq Hv]. split; [|done]. intros ->. congruence. }
  unfold frame_of. induction t as [|p t IH]; cbn.
  - by case_decide.
  - specialize (Hiff p). destruct (decide (q = pid)) as [Heq|Hne].
    + rewrite decide_False by tauto.
      destruct (list_find _ (free_info pid <$> t)) as [[]|]; done.
    + destruct (decide (owned q p = true /\ vpage_no p = v)) as [Hd|Hd].
      * by rewrite decide_True by tauto.
      * rewrite decide_False by tauto.
        destruct (list_find _ (free_info pid <$> t)) as [[]|], (list_find _ t) as [[]|];
          cbn in *; congruence.
Qed.

Lemma freed_aspace s pid q v : tlb_inv s ->
  tlb_aspace (with_table s (free_info pid <$> page_info_table s)) q v =
  if decide (q = pid) then None else tlb_aspace s q v.
Proof.
  intros Hinv. unfold tlb_aspace. cbn [with_table page_info_table mem curr_vm_pid].
  destruct (decide (q = 0)); [by case_decide|].
  rewrite freed_frame by done. by destruct (decide (q = pid)).
Qed.

(** ** Stores *)
Lemma store_inv s n o bs : tlb_inv s -> (o + length bs <= 4096)%nat ->
  tlb_inv (with_mem s (<[n := splice (page_at (mem s) n) o bs]> (mem s))).
Proof.
  intros Hinv Hlen. split; cbn; try apply Hinv. intros n'.
  destruct (decide (n = n')) as [->|].
  - rewrite page_at_insert_eq. apply splice_is_page; [done|]. apply Hinv.
  - rewrite page_at_insert_ne by done. apply Hinv.
Qed.

Lemma store_aspace s v o bs q v' : tlb_inv s -> in_window v ->
  tlb_aspace (with_mem s (<[v := splice (page_at (mem s) v) o bs]> (mem s))) q v' =
  if decide (q = curr_vm_pid s /\ v' = v)
  then (fun pg => splice pg o bs) <$> tlb_aspace s q v' else tlb_aspace s q v'.
Proof.
  intros Hinv Hv. unfold tlb_aspace. cbn [with_mem page_info_table mem curr_vm_pid].
  destruct (decide (q = 0)) as [->|Hq].
  { by destruct (decide (0 = curr_vm_pid s /\ v' = v)). }
  destruct (frame_of (page_info_table s) q v') as [i|] eqn:Hf.
  2: { by destruct (decide (q = curr_vm_pid s /\ v' = v)). }
  cbn [fmap option_fmap option_map].
  destruct (frame_of_Some _ _ _ _ Hf) as (p & Hp & Ho & <-).
  destruct (decide (q = curr_vm_pid s)) as [->|Hne].
  - destruct (decide (vpage_no p = v)) as [<-|Hnv].
    + rewrite decide_True by done. cbn. by rewrite page_at_insert_eq.
    + rewrite decide_False by tauto. by rewrite page_at_insert_ne.
  - rewrite decide_False by tauto. rewrite page_at_insert_ne; [done|].
    intros ->. by apply (frame_not_window i).
Qed.

(** ** The interface *)
Section instance.
Context (mtime : nat -> Z) (plat : platform) (tr : translation) (Hclock : clock_ok mtime).

Definition tlb_reaches (s : machine) (pa pid va : Z) : Prop :=
  pa = va /\ curr_vm_pid s = pid /\ APPS_ENTRY <= va < APPS_STACK_TOP.

Lemma window_page va : APPS_ENTRY <= va < APPS_STACK_TOP -> in_window (va / PAGE_SIZE).
Proof.
  unfold APPS_ENTRY, APPS_STACK_TOP, in_window, PAGE_SIZE. intros Hva. split.
  - apply Z.div_le_lower_bound; lia.
  - apply Z.div_lt_upper_bound; lia.
Qed.

Lemma aspace_is_page s pid v pg : tlb_inv s -> tlb_aspace s pid v = Some pg -> is_page pg.
Proof.
  intros Hinv. unfold tlb_aspace. case_decide; [done|].
  intros (i & _ & ->)%fmap_Some. apply Hinv.
Qed.

Lemma timer_aspace s t q v : tlb_aspace (with_timer s t) q v = tlb_aspace s q v.
Proof. done. Qed.

Lemma timer_inv s t : tlb_inv s -> tlb_inv (with_timer s t).
Proof. intros [? ? ? ? ? ?]. by split. Qed.

Lemma mmu_switch_eq pid s : Earth.mmu_switch (mmu_init mtime plat tr) pid s = Ok (tt, switched s pid).
Proof. cbn. case_decide; apply soft_tlb_switch_eq. Qed.

Lemma mmu_translate_eq pid va s :
  Earth.mmu_translate (mmu_init mtime plat tr) pid va s = Ok (va, switched s pid).
Proof.
  cbn. assert (soft_tlb_translate pid va s = Ok (va, switched s pid)) as Heq.
  { unfold soft_tlb_translate. by erewrite mbind_ok by apply soft_tlb_switch_eq. }
  by case_decide.
Qed.

Lemma timer_reset_eq core s : exists t,
  Earth.timer_reset (mmu_init mtime plat tr) core s = Ok (tt, with_timer s t).
Proof using Hclock.
  cbn. unfold machine_timer_reset, timer_reset.
  destruct (mtime_get_ends mtime Hclock (timer s)) as (n & _ & Hget).
  erewrite mbind_ok by exact Hget. cbn. by eexists.
Qed.
End instance.

#[global, program] Instance soft_tlb_spec mtime plat tr (Hclock : clock_ok mtime) :
  EarthSpec (mmu_init mtime plat tr) := {|
  earth_inv := tlb_inv;
  aspace := tlb_aspace;
  vm_pid := curr_vm_pid;
  reaches := tlb_reaches;
  aspace_page := aspace_is_page;
|}.
Next Obligation.
  intros mtime plat tr _ s pid Hinv Hpid. eapply wp_ok; [apply mmu_switch_eq|].
  split; [apply switched_inv; [done|lia]|]. split; [apply switched_vm|].
  intros q v. apply switched_aspace; [done|lia].
Qed.
Next Obligation.
  intros mtime plat tr _ s pid va Hinv Hpid Hva. eapply wp_ok; [apply mmu_translate_eq|].
  split; [apply switched_inv; [done|lia]|]. split; [split; [done|by rewrite switched_vm]|].
  intros q v. apply switched_aspace; [done|lia].
Qed.
Next Obligation.
  intros mtime plat tr _ s pa pid va n Hinv (-> & <- & Hva) Hin. cbn. unfold mem_load, wp.
  rewrite bool_decide_true by done. split; [done|]. split.
  - apply length_slice. rewrite (tlb_pages _ Hinv). unfold in_page, PAGE_SIZE in *.
    pose proof (Z.mod_pos_bound va 4096). lia.
  - intros pg Hpg. by rewrite <- (aspace_current s _ _ _ Hpg eq_refl).
Qed.
Next Obligation.
  intros mtime plat tr _ s pa pid va bs Hinv (-> & <- & Hva) Hin. cbn. unfold mem_store, wp.
  rewrite bool_decide_true by done. split.
  - apply store_inv; [done|]. unfold in_page, PAGE_SIZE in *.
    pose proof (Z.mod_pos_bound va 4096). lia.
  - intros q v. apply store_aspace; [done|]. by apply window_page.
Qed.
Next Obligation. intros mtime plat tr _ s Hinv. by apply wp_ret. Qed.
Next Obligation.
  intros mtime plat tr Hclock s core Hinv.
  destruct (timer_reset_eq mtime plat tr Hclock core s) as [t Ht]. eapply wp_ok; [exact Ht|].
  split; [by apply timer_inv|done].
Qed.
Next Obligation.
  intros mtime plat tr _ s pid Hinv Hpid. eapply wp_ok; [reflexivity|]. cbn.
  split; [apply (freed_inv s pid); [done|lia]|]. split; [done|].
  intros q v. by apply freed_aspace.
Qed.
