(* ===== verification/MmuProps.v ===== *)
(** * Memory management: properties

    The page allocator and the software TLB of [earth/cpu_mmu.c]. *)

From stdpp Require Import options.
From S2P Require Import Prelude Earth Timer Mmu SoftTlb.

(** ** Allocation *)

(** Frame [i] is the first one not in use. *)
Definition first_free (t : list page_info) (i : nat) (p : page_info) : Prop :=
  t !! i = Some p /\ use p = 0 /\ forall j q, (j < i)%nat -> t !! j = Some q -> use q <> 0.

Definition take_frame (p : page_info) : page_info :=
  {| use := 1; pi_pid := pi_pid p; vpage_no := vpage_no p |}.

Definition no_memory : string := "mmu_alloc: no more free memory".

Lemma wp_mmu_alloc_loop E n i s Q : (i + n = length (page_info_table s))%nat ->
  (forall j q, (j < i)%nat -> page_info_table s !! j = Some q -> use q <> 0) ->
  ((forall j q, page_info_table s !! j = Some q -> use q <> 0) -> E no_memory) ->
  (forall j p, first_free (page_info_table s) j p ->
    Q (Z.of_nat j) (with_table s (<[j := take_frame p]> (page_info_table s)))) ->
  wp E (mmu_alloc_loop n (Z.of_nat i)) s Q.
Proof.
  revert i. induction n as [|n IH]; intros i Hn Hbelow HE HQ; cbn [mmu_alloc_loop].
  { apply wp_fatal, HE. intros j q Hq. apply (Hbelow j); [|done]. apply lookup_lt_Some in Hq. lia. }
  destruct (lookup_lt_is_Some_2 (page_info_table s) i) as [p Hp]; [lia|].
  apply wp_bind. eapply wp_ok; [reflexivity|]. rewrite Nat2Z.id, Hp.
  destruct (Z.eqb_spec (use p) 0) as [Hu|Hu].
  - apply wp_bind. eapply wp_ok; [reflexivity|]. apply wp_ret. by apply HQ.
  - replace (Z.of_nat i + 1) with (Z.of_nat (S i)) by lia. apply IH; auto; [lia|].
    intros j q Hj Hq. destruct (decide (j = i)) as [->|]; [by simplify_eq|].
    apply (Hbelow j q); [lia|done].
Qed.

(** A change of one entry that belongs to no process, before and after. *)
Lemma entry_inv s i p p' : tlb_inv s -> page_info_table s !! i = Some p ->
  pi_pid p = 0 -> pi_pid p' = 0 -> tlb_inv (with_table s (<[i := p']> (page_info_table s))).
Proof.
  intros Hinv Hp Hpid Hpid'.
  assert (forall j q, <[i := p']> (page_info_table s) !! j = Some q ->
    (j = i /\ q = p') \/ (j <> i /\ page_info_table s !! j = Some q)) as Hcase.
  { intros j q [(-> & -> & _)|[? ?]]%list_lookup_insert_Some; [by left|right; by split]. }
  split; cbn; try apply Hinv.
  - rewrite length_insert. apply Hinv.
  - intros j q [[-> ->]|[_ Hq]]%Hcase; [done|]. by apply (tlb_window _ Hinv j).
  - intros j j' q q' [[-> ->]|[_ Hq]]%Hcase Hq' ? ? ? Heq ?; [done|].
    apply Hcase in Hq' as [[-> ->]|[_ Hq']]; [congruence|]. by apply (tlb_inj _ Hinv j j' q q').
  - intros j q [[-> ->]|[_ Hq]]%Hcase; [done|]. by apply (tlb_free _ Hinv j).
Qed.

(** The frame of a mapped page, by its entry. *)
Lemma frame_of_iff s pid v i : tlb_inv s -> pid <> 0 ->
  frame_of (page_info_table s) pid v = Some i <->
  exists p, page_info_table s !! i = Some p /\ use p <> 0 /\ pi_pid p = pid /\ vpage_no p = v.
Proof.
  intros Hinv Hpid. split.
  - intros (p & Hp & [Hu Hq]%owned_true & Hv)%frame_of_Some. eauto.
  - intros (p & Hp & Hu & <- & <-). by apply frame_of_owned.
Qed.

(** Two tables with the same entries of processes give the same frames. *)
Lemma frame_of_ext s s' pid v : tlb_inv s -> tlb_inv s' -> pid <> 0 ->
  (forall i, (exists p, page_info_table s !! i = Some p /\ use p <> 0 /\ pi_pid p = pid /\ vpage_no p = v) <->
             (exists p, page_info_table s' !! i = Some p /\ use p <> 0 /\ pi_pid p = pid /\ vpage_no p = v)) ->
  frame_of (page_info_table s') pid v = frame_of (page_info_table s) pid v.
Proof.
  intros Hinv Hinv' Hpid Hiff. apply option_eq. intros i.
  rewrite !frame_of_iff by done. symmetry. apply Hiff.
Qed.

Lemma entry_aspace s i p p' q v : tlb_inv s -> page_info_table s !! i = Some p ->
  pi_pid p = 0 -> pi_pid p' = 0 ->
  tlb_aspace (with_table s (<[i := p']> (page_info_table s))) q v = tlb_aspace s q v.
Proof.
  intros Hinv Hp Hpid Hpid'. unfold tlb_aspace. case_decide as Hq; [done|].
  cbn [with_table page_info_table mem curr_vm_pid]. f_equal.
  apply (frame_of_ext s (with_table s (<[i := p']> (page_info_table s)))); auto;
    [by eapply entry_inv|].
  intros j. cbn [with_table page_info_table]. split.
  - intros (r & Hr & Hu & Hrp & Hv). exists r. split; [|auto].
    transitivity (page_info_table s !! j); [|done]. apply list_lookup_insert_ne. congruence.
  - intros (r & [(-> & -> & _)|[_ Hr]]%list_lookup_insert_Some & Hu & Hrp & Hv); [congruence|eauto].
Qed.

(** Allocating a frame.  [mmu_alloc] returns the first frame that is not in
    use and marks it used; no address space changes and the TLB invariant is
    kept.  It fails exactly when all 2048 frames are in use. *)
Theorem mmu_alloc_correct (s : machine) : tlb_inv s ->
  match mmu_alloc s with
  | Ok (id, s') => 0 <= id < APPS_PAGES_CNT /\ tlb_inv s' /\
      (forall q v, tlb_aspace s' q v = tlb_aspace s q v) /\
      exists p, first_free (page_info_table s) (Z.to_nat id) p /\
        s' = with_table s (<[Z.to_nat id := take_frame p]> (page_info_table s))
  | Fatal m => m = no_memory /\
      forall i p, page_info_table s !! i = Some p -> use p <> 0
  | Stuck | NoFuel => False
  end.
Proof.
  intros Hinv. pose proof (tlb_len _ Hinv) as Hlen.
  apply (wp_mmu_alloc_loop (fun m => m = no_memory /\
      forall i p, page_info_table s !! i = Some p -> use p <> 0) 2048 0 s (fun id s' =>
    0 <= id < APPS_PAGES_CNT /\ tlb_inv s' /\
      (forall q v, tlb_aspace s' q v = tlb_aspace s q v) /\
      exists p, first_free (page_info_table s) (Z.to_nat id) p /\
        s' = with_table s (<[Z.to_nat id := take_frame p]> (page_info_table s))));
    [by rewrite Hlen|intros; lia|auto|].
  intros i p Hfirst. pose proof Hfirst as (Hp & Hu & _). pose proof (tlb_free _ Hinv i p Hp Hu).
  pose proof (lookup_lt_Some _ _ _ Hp) as Hi. rewrite Hlen in Hi. rewrite Nat2Z.id. split_and!.
  - lia.
  - change APPS_PAGES_CNT with 2048. lia.
  - by eapply entry_inv.
  - intros q v. by eapply entry_aspace.
  - by exists p.
Qed.

Definition map_entry (p : page_info) (pid v : Z) : page_info :=
  {| use := use p; pi_pid := pid; vpage_no := v |}.

Lemma map_inv s i p pid v : tlb_inv s -> page_info_table s !! i = Some p -> use p <> 0 ->
  pi_pid p = 0 -> 0 < pid -> in_window v -> tlb_aspace s pid v = None ->
  tlb_inv (with_table s (<[i := map_entry p pid v]> (page_info_table s))).
Proof.
  intros Hinv Hp Hu Hp0 Hpid Hv Hnone.
  assert (forall j q, page_info_table s !! j = Some q -> use q <> 0 -> pi_pid q = pid ->
    vpage_no q <> v) as Hfresh.
  { intros j q Hq Hqu Hqp Hqv. unfold tlb_aspace in Hnone. rewrite decide_False in Hnone by lia.
    apply fmap_None in Hnone. assert (frame_of (page_info_table s) pid v = Some j) as Hf; [|congruence].
    apply frame_of_iff; [done|lia|eauto]. }
  assert (forall j q, <[i := map_entry p pid v]> (page_info_table s) !! j = Some q ->
    (j = i /\ q = map_entry p pid v) \/ (j <> i /\ page_info_table s !! j = Some q)) as Hcase.
  { intros j q [(-> & -> & _)|[? ?]]%list_lookup_insert_Some; [by left|right; by split]. }
  split; cbn; try apply Hinv.
  - rewrite length_insert. apply Hinv.
  - intros j q [[-> ->]|[_ Hq]]%Hcase; [done|]. by apply (tlb_window _ Hinv j).
  - intros j j' q q' Hq Hq' Hqu Hqu' Hq0 Heq Hvv.
    apply Hcase in Hq as [[-> ->]|[_ Hq]], Hq' as [[-> ->]|[_ Hq']]; cbn in *.
    + done.
    + by destruct (Hfresh j' q').
    + by destruct (Hfresh j q).
    + by apply (tlb_inj _ Hinv j j' q q').
  - intros j q [[-> ->]|[_ Hq]]%Hcase; [done|]. by apply (tlb_free _ Hinv j).
Qed.

(** The effect of mapping a page. *)
Lemma soft_tlb_map_spec (s : machine) (pid v : Z) (i : nat) (p : page_info) :
  tlb_inv s -> page_info_table s !! i = Some p -> use p <> 0 -> pi_pid p = 0 ->
  0 < pid -> pid <> curr_vm_pid s -> in_window v -> tlb_aspace s pid v = None ->
  exists s', soft_tlb_map pid v (Z.of_nat i) s = Ok (tt, s') /\ tlb_inv s' /\
    forall q w, tlb_aspace s' q w =
      if decide (q = pid /\ w = v) then Some (page_at (mem s) (frame i)) else tlb_aspace s q w.
Proof.
  intros Hinv Hp Hu Hp0 Hpid Hcur Hv Hnone. unfold soft_tlb_map. rewrite Nat2Z.id, Hp.
  eexists. split; [reflexivity|]. change {| use := use p; pi_pid := pid; vpage_no := v |}
    with (map_entry p pid v). set (s' := with_table s _).
  assert (tlb_inv s') as Hinv' by (by apply map_inv). split; [done|]. intros q w.
  assert (i < length (page_info_table s))%nat by (by eapply lookup_lt_Some).
  unfold tlb_aspace. destruct (decide (q = 0)) as [->|Hq].
  { rewrite decide_False; [done|]. lia. }
  change (curr_vm_pid s') with (curr_vm_pid s). change (mem s') with (mem s).
  destruct (decide (q = pid /\ w = v)) as [[-> ->]|Hne].
  - assert (frame_of (page_info_table s') pid v = Some i) as ->.
    { apply frame_of_iff; [done|done|]. exists (map_entry p pid v).
      split; [by apply list_lookup_insert_eq|done]. }
    cbn [fmap option_fmap option_map]. by rewrite decide_False.
  - f_equal. apply frame_of_ext; auto. intros j.
    cbn [s' with_table page_info_table]. split.
    + intros (r & Hr & Hru & Hrp & Hrv). exists r. split; [|auto].
      transitivity (page_info_table s !! j); [|done]. apply list_lookup_insert_ne. congruence.
    + intros (r & [(-> & <- & _)|[_ Hr]]%list_lookup_insert_Some & Hru & Hrp & Hrv); [|eauto].
      destruct Hne. by cbn in *.
Qed.

(** Mapping a page.  Mapping an allocated frame that belongs to nobody at a
    page of the user window that the process does not have yet adds exactly
    that page, with the frame's contents, to the process's address space; no
    other page of any process changes. *)
Theorem soft_tlb_map_correct (s : machine) (pid v : Z) (i : nat) (p : page_info) :
  tlb_inv s -> page_info_table s !! i = Some p -> use p <> 0 -> pi_pid p = 0 ->
  0 < pid -> pid <> curr_vm_pid s -> in_window v -> tlb_aspace s pid v = None ->
  exists s', soft_tlb_map pid v (Z.of_nat i) s = Ok (tt, s') /\ tlb_inv s' /\
    forall q w, tlb_aspace s' q w =
      if decide (q = pid /\ w = v) then Some (page_at (mem s) (frame i)) else tlb_aspace s q w.
Proof. apply soft_tlb_map_spec. Qed.

(** Freeing memory.  [mmu_free] removes the whole address space of the
    process, makes its frames free for [mmu_alloc], and changes no page of any
    other process. *)
Theorem mmu_free_correct (s : machine) (pid : Z) : tlb_inv s -> 0 < pid ->
  exists s', mmu_free pid s = Ok (tt, s') /\ tlb_inv s' /\
    (forall q v, tlb_aspace s' q v = if decide (q = pid) then None else tlb_aspace s q v) /\
    forall i p, page_info_table s !! i = Some p ->
      exists p', page_info_table s' !! i = Some p' /\
        p' = if decide (use p <> 0 /\ pi_pid p = pid) then zero_info else p.
Proof.
  intros Hinv Hpid. eexists. split; [reflexivity|].
  split; [apply (freed_inv s pid); [done|lia]|]. split; [intros q v; by apply freed_aspace|].
  intros i p Hp. cbn. rewrite list_lookup_fmap, Hp. eexists. split; [reflexivity|].
  destruct (owned pid p) eqn:Ho.
  - apply owned_true in Ho. by rewrite decide_True.
  - rewrite decide_False; [done|]. intros Hd%owned_true. congruence.
Qed.

(** C7: switching address spaces.  [soft_tlb_switch] copies pages between the
    user window and the frames so that every process keeps exactly the pages it
    had, and the window then shows the pages of [pid]. *)
Theorem soft_tlb_switch_correct (s : machine) (pid : Z) : tlb_inv s -> 0 < pid ->
  exists s', soft_tlb_switch pid s = Ok (tt, s') /\ tlb_inv s' /\ curr_vm_pid s' = pid /\
    (forall q v, tlb_aspace s' q v = tlb_aspace s q v) /\
    (forall v pg, tlb_aspace s pid v = Some pg -> page_at (mem s') v = pg).
Proof.
  intros Hinv Hpid. exists (switched s pid). split; [apply soft_tlb_switch_eq|].
  split; [apply switched_inv; [done|lia]|]. split; [apply switched_vm|].
  assert (forall q v, tlb_aspace (switched s pid) q v = tlb_aspace s q v) as Has
    by (intros q v; apply switched_aspace; [done|lia]).
  split; [done|]. intros v pg Hpg. rewrite <- Has in Hpg. symmetry.
  eapply aspace_current; [exact Hpg|apply switched_vm].
Qed.

(** ** A machine with a page of processes 1 and 2 and one unmapped frame *)
Definition t_machine : machine := {|
  page_info_table := [{| use := 1; pi_pid := 1; vpage_no := 0x80601 |};
                      {| use := 1; pi_pid := 2; vpage_no := 0x80601 |};
                      {| use := 1; pi_pid := 0; vpage_no := 0 |}] ++ replicate 2045 zero_info;
  curr_vm_pid := 1;
  mem := ∅;
  timer := {| reads := 0; mtimecmp := ∅ |};
|}.

Lemma t_machine_inv : tlb_inv t_machine.
Proof.
  assert (forall i p, page_info_table t_machine !! i = Some p -> use p <> 0 -> pi_pid p <> 0 ->
    vpage_no p = 0x80601 /\ pi_pid p = Z.of_nat i + 1) as Htbl.
  { intros i p Hp Hu Hp0. apply lookup_app_Some in Hp as [Hp|[_ Hp]].
    - do 3 (destruct i as [|i]; [by injection Hp as <-|]). done.
    - apply lookup_replicate in Hp as [-> _]. done. }
  split.
  - reflexivity.
  - intros i p Hp Hu Hp0. destruct (Htbl i p Hp Hu Hp0) as [-> _]. done.
  - intros i j p q Hp Hq Hu Hv Hp0 Heq _.
    destruct (Htbl i p Hp Hu Hp0), (Htbl j q Hq Hv); [congruence|lia].
  - intros n. apply length_zeros.
  - done.
  - intros i p Hp Hu. apply lookup_app_Some in Hp as [Hp|[_ Hp]].
    + do 3 (destruct i as [|i]; [by injection Hp as <-|]). done.
    + apply lookup_replicate in Hp as [-> _]. done.
Qed.

Lemma mmu_alloc_correct_witness :
  match mmu_alloc t_machine with
  | Ok (id, s') => 0 <= id < APPS_PAGES_CNT /\ tlb_inv s' /\
      (forall q v, tlb_aspace s' q v = tlb_aspace t_machine q v) /\
      exists p, first_free (page_info_table t_machine) (Z.to_nat id) p /\
        s' = with_table t_machine (<[Z.to_nat id := take_frame p]> (page_info_table t_machine))
  | Fatal m => m = no_memory /\
      forall i p, page_info_table t_machine !! i = Some p -> use p <> 0
  | Stuck | NoFuel => False
  end.
Proof. apply (mmu_alloc_correct t_machine t_machine_inv). Defined.

Lemma soft_tlb_map_correct_witness :
  exists s', soft_tlb_map 2 0x80400 2 t_machine = Ok (tt, s') /\ tlb_inv s' /\
    forall q w, tlb_aspace s' q w =
      if decide (q = 2 /\ w = 0x80400) then Some (page_at (mem t_machine) (frame 2))
      else tlb_aspace t_machine q w.
Proof.
  apply (soft_tlb_map_correct t_machine 2 0x80400 2 {| use := 1; pi_pid := 0; vpage_no := 0 |}).
  - apply t_machine_inv.
  - reflexivity.
  - discriminate.
  - reflexivity.
  - reflexivity.
  - discriminate.
  - unfold in_window. lia.
  - vm_compute. reflexivity.
Defined.

Lemma mmu_free_correct_witness :
  exists s', mmu_free 2 t_machine = Ok (tt, s') /\ tlb_inv s' /\
    (forall q v, tlb_aspace s' q v = if decide (q = 2) then None else tlb_aspace t_machine q v) /\
    forall i p, page_info_table t_machine !! i = Some p ->
      exists p', page_info_table s' !! i = Some p' /\
        p' = if decide (use p <> 0 /\ pi_pid p = 2) then zero_info else p.
Proof. apply (mmu_free_correct t_machine 2 t_machine_inv). reflexivity. Defined.

Lemma soft_tlb_switch_correct_witness :
  exists s', soft_tlb_switch 2 t_machine = Ok (tt, s') /\ tlb_inv s' /\ curr_vm_pid s' = 2 /\
    (forall q v, tlb_aspace s' q v = tlb_aspace t_machine q v) /\
    (forall v pg, tlb_aspace t_machine 2 v = Some pg -> page_at (mem s') v = pg).
Proof. apply (soft_tlb_switch_correct t_machine 2 t_machine_inv). reflexivity. Defined.
