(* ===== verification/PageTable.v ===== *)
(** * Identity page tables: definitions

    The page-table half of [earth/cpu_mmu.c]: [setup_identity_region] and
    [pagetable_identity_map] build two-level RISC-V Sv32 tables in frames of
    physical memory; [sv32] is the hardware's walk of such tables, from the
    privileged specification. *)

From stdpp Require Import options.
From S2P Require Import Prelude Earth Timer Mmu.

(** The machine and the static variables [root], [leaf] and
    [pid_to_pagetable_base]. *)
Record pagetables : Type := {
  pt_machine : machine;
  root : Z;
  leaf : Z;
  pid_to_pagetable_base : list Z;
}.

Definition with_machine (s : pagetables) (m : machine) : pagetables :=
  {| pt_machine := m; root := root s; leaf := leaf s;
     pid_to_pagetable_base := pid_to_pagetable_base s |}.
Definition with_root (s : pagetables) (a : Z) : pagetables :=
  {| pt_machine := pt_machine s; root := a; leaf := leaf s;
     pid_to_pagetable_base := pid_to_pagetable_base s |}.
Definition with_leaf (s : pagetables) (a : Z) : pagetables :=
  {| pt_machine := pt_machine s; root := root s; leaf := a;
     pid_to_pagetable_base := pid_to_pagetable_base s |}.
Definition with_bases (s : pagetables) (l : list Z) : pagetables :=
  {| pt_machine := pt_machine s; root := root s; leaf := leaf s; pid_to_pagetable_base := l |}.

(** The word at a word-aligned physical address. *)
Definition word_at (m : memory) (a : Z) : Z :=
  get32 (page_at m (a / PAGE_SIZE)) (Z.to_nat (a mod PAGE_SIZE / 4)).
Definition put_word (m : memory) (a v : Z) : memory :=
  <[a / PAGE_SIZE := put32 (page_at m (a / PAGE_SIZE)) (Z.to_nat (a mod PAGE_SIZE / 4)) v]> m.
(** [memset(a, 0, PAGE_SIZE)] at a page-aligned address. *)
Definition clear_page (m : memory) (a : Z) : memory := <[a / PAGE_SIZE := zero_page]> m.

Definition machine_call {A} (m : M machine A) : M pagetables A := fun s =>
  match m (pt_machine s) with
  | Ok (a, s') => Ok (a, with_machine s s')
  | Fatal e => Fatal e
  | Stuck => Stuck
  | NoFuel => NoFuel
  end.
Definition mem_modify (f : memory -> memory) : M machine unit :=
  mmodify (fun s => with_mem s (f (mem s))).
(** [page_info_table[id].pid = pid;] *)
Definition set_page_pid (id pid : Z) : M machine unit := fun s =>
  match page_info_table s !! Z.to_nat id with
  | Some p => Ok (tt, with_table s (<[Z.to_nat id :=
      {| use := use p; pi_pid := pid; vpage_no := vpage_no p |}]> (page_info_table s)))
  | None => Stuck
  end.

Definition USER_RWX : Z := Z.lor 0xC0 0x1F.

(** [for (i < npages) leaf[vpn0 + i] = ((addr + i * PAGE_SIZE) >> 2) | flag;]
    from the index [i] with [n] rounds left. *)
Fixpoint region_loop (n : nat) (i leaf vpn0 addr flag : Z) (m : memory) : memory :=
  match n with
  | O => m
  | S n => region_loop n (i + 1) leaf vpn0 addr flag
      (put_word m (leaf + 4 * (vpn0 + i)) (Z.lor (Z.shiftr (u32 (addr + i * PAGE_SIZE)) 2) flag))
  end.

Definition setup_identity_region (pid addr npages flag : Z) : M pagetables unit :=
  let vpn1 := Z.shiftr addr 22 in
  s ← mget;
  (if Z.land (word_at (mem (pt_machine s)) (root s + 4 * vpn1)) 1 =? 0 then
     ppage_id ← machine_call mmu_alloc;
     mmodify (fun s => with_leaf s (PAGE_ID_TO_ADDR ppage_id));;
     machine_call (set_page_pid ppage_id pid);;
     s ← mget;
     machine_call (mem_modify (fun m => clear_page m (leaf s)));;
     machine_call (mem_modify (fun m =>
       put_word m (root s + 4 * vpn1) (Z.lor (Z.shiftr (leaf s) 2) 1)))
   else
     mmodify (fun s => with_leaf s
       (Z.land (u32 (Z.shiftl (word_at (mem (pt_machine s)) (root s + 4 * vpn1)) 2)) 0xFFFFF000)));;
  let vpn0 := Z.land (Z.shiftr addr 12) 0x3FF in
  s ← mget;
  machine_call (mem_modify (region_loop (Z.to_nat npages) 0 (leaf s) vpn0 addr flag)).

(** [for (i = RAM_START; i < RAM_END; i += PAGE_SIZE * 1024) ...]: four rounds. *)
Fixpoint ram_regions (fuel : nat) (pid i : Z) : M pagetables unit :=
  if i <? RAM_END then
    match fuel with
    | O => mnofuel
    | S fuel =>
      setup_identity_region pid i 1024 USER_RWX;;
      ram_regions fuel pid (u32 (i + PAGE_SIZE * 1024))
    end
  else mret tt.

Definition pagetable_identity_map (plat : platform) (pid : Z) : M pagetables unit :=
  ppage_id ← machine_call mmu_alloc;
  mmodify (fun s => with_root s (PAGE_ID_TO_ADDR ppage_id));;
  machine_call (set_page_pid ppage_id pid);;
  s ← mget;
  (if bool_decide (Z.to_nat pid < length (pid_to_pagetable_base s))%nat
   then mput (with_bases s (<[Z.to_nat pid := root s]> (pid_to_pagetable_base s)))
   else mstuck);;
  machine_call (mem_modify (fun m => clear_page m (root s)));;
  ram_regions 4 pid RAM_START;;
  setup_identity_region pid (CLINT_BASE plat) 16 USER_RWX;;
  setup_identity_region pid (UART_BASE plat) 1 USER_RWX;;
  setup_identity_region pid (SPI_BASE plat) 1 USER_RWX;;
  if decide (plat = ARTY) then
    setup_identity_region pid BOARD_FLASH_ROM 1024 USER_RWX;;
    setup_identity_region pid ETHMAC_CSR_BASE 1 USER_RWX;;
    setup_identity_region pid ETHMAC_TX_BUFFER 1 USER_RWX;;
    setup_identity_region pid ETHMAC_RX_BUFFER 1 USER_RWX
  else mret tt.

(** ** The hardware's walk *)

(** The page-table entry for the virtual page [vpn]: the first-level entry must
    be valid and a pointer (no R, W or X bit), the second-level one valid. *)
Definition sv32_pte (m : memory) (root vpn : Z) : option Z :=
  let pte1 := word_at m (root + 4 * (vpn / 1024)) in
  if negb (Z.testbit pte1 0) || negb (Z.land pte1 0xE =? 0) then None else
  let pte0 := word_at m (pte1 / 1024 * PAGE_SIZE + 4 * (vpn mod 1024)) in
  if Z.testbit pte0 0 then Some pte0 else None.

(** The physical address of [va], for accesses that the entry's permission bits
    allow in user mode: R, W, X and U all set. *)
Definition sv32 (m : memory) (root va : Z) : option Z :=
  match sv32_pte m root (va / PAGE_SIZE) with
  | Some pte => if Z.land pte 0x1E =? 0x1E
                then Some (pte / 1024 * PAGE_SIZE + va mod PAGE_SIZE) else None
  | None => None
  end.
