(* ===== verification/PageTableProps.v ===== *)
(** * Identity page tables: properties

    The tables that [pagetable_identity_map] builds translate, by the Sv32 walk,
    exactly the addresses of RAM and of the devices, each to itself. *)

From stdpp Require Import options.
From S2P Require Import Prelude Earth Timer Mmu SoftTlb MmuProps PageTable.

(** ** Words of frames *)
Lemma word_frame m i j : (i < 2048)%nat -> 0 <= j < 1024 ->
  (PAGE_ID_TO_ADDR (Z.of_nat i) + 4 * j) / PAGE_SIZE = frame i /\
  Z.to_nat ((PAGE_ID_TO_ADDR (Z.of_nat i) + 4 * j) mod PAGE_SIZE / 4) = Z.to_nat j /\
  word_at m (PAGE_ID_TO_ADDR (Z.of_nat i) + 4 * j) = get32 (page_at m (frame i)) (Z.to_nat j).
Proof.
  intros Hi Hj. set (a := PAGE_ID_TO_ADDR (Z.of_nat i) + 4 * j).
  assert (a = frame i * 4096 + 4 * j) as Ha.
  { unfold a, PAGE_ID_TO_ADDR, APPS_PAGES_BASE, PAGE_SIZE, frame. rewrite u32_id by lia. lia. }
  assert (a / PAGE_SIZE = frame i) as Hd.
  { unfold PAGE_SIZE. rewrite Ha. rewrite Z.div_add_l by lia. rewrite Z.div_small; lia. }
  assert (a mod PAGE_SIZE / 4 = j) as Hm.
  { unfold PAGE_SIZE. rewrite Ha. rewrite Z.add_comm, Z.mod_add by lia.
    rewrite Z.mod_small by lia. rewrite Z.mul_comm. apply Z.div_mul. lia. }
  unfold word_at. by rewrite Hd, Hm.
Qed.

(** The first-level entry that points to leaf table [f]. *)
Definition leaf_pte (f : nat) : Z := Z.lor (Z.shiftr (PAGE_ID_TO_ADDR (Z.of_nat f)) 2) 1.

Definition leaf_pte_ok (f : nat) : bool :=
  (u32 (leaf_pte f) =? leaf_pte f) && Z.testbit (leaf_pte f) 0 &&
  (Z.land (leaf_pte f) 0xE =? 0) && negb (Z.land (leaf_pte f) 1 =? 0) &&
  (leaf_pte f / 1024 * PAGE_SIZE =? PAGE_ID_TO_ADDR (Z.of_nat f)) &&
  (Z.land (u32 (Z.shiftl (leaf_pte f) 2)) 0xFFFFF000 =? PAGE_ID_TO_ADDR (Z.of_nat f)).

(** Checked for each of the 2048 frames. *)
Lemma leaf_pte_spec f : (f < 2048)%nat ->
  u32 (leaf_pte f) = leaf_pte f /\ Z.testbit (leaf_pte f) 0 = true /\
  Z.land (leaf_pte f) 0xE = 0 /\ Z.land (leaf_pte f) 1 <> 0 /\
  leaf_pte f / 1024 * PAGE_SIZE = PAGE_ID_TO_ADDR (Z.of_nat f) /\
  Z.land (u32 (Z.shiftl (leaf_pte f) 2)) 0xFFFFF000 = PAGE_ID_TO_ADDR (Z.of_nat f).
Proof.
  intros Hf.
  assert (forallb leaf_pte_ok (seq 0 2048) = true) as Hall by (vm_compute; reflexivity).
  rewrite forallb_forall in Hall. specialize (Hall f). rewrite in_seq in Hall.
  specialize (Hall ltac:(lia)). unfold leaf_pte_ok in Hall.
  rewrite !andb_true_iff, !Z.eqb_eq, negb_true_iff, Z.eqb_neq in Hall. tauto.
Qed.

(** ** The entries of a region *)
Definition region_pte (addr flag i : Z) : Z :=
  Z.lor (Z.shiftr (u32 (addr + i * PAGE_SIZE)) 2) flag.

Lemma page_word_put m f j v : (forall n, is_page (page_at m n)) -> (f < 2048)%nat -> 0 <= j < 1024 ->
  put_word m (PAGE_ID_TO_ADDR (Z.of_nat f) + 4 * j) v =
    <[frame f := put32 (page_at m (frame f)) (Z.to_nat j) v]> m.
Proof.
  intros Hm Hf Hj. destruct (word_frame m f j Hf Hj) as (Hd & Hw & _).
  unfold put_word. by rewrite Hd, Hw.
Qed.

(** Memory in which the words of frame [f] are [w], and nothing else differs
    from [m]. *)
Definition frame_words (m m' : memory) (f : nat) (w : Z -> Z) : Prop :=
  (forall n, is_page (page_at m' n)) /\
  (forall n, n <> frame f -> page_at m' n = page_at m n) /\
  (forall j, 0 <= j < 1024 -> get32 (page_at m' (frame f)) (Z.to_nat j) = w j).

Lemma frame_words_put m m' f w j v : frame_words m m' f w -> (f < 2048)%nat -> 0 <= j < 1024 ->
  frame_words m (put_word m' (PAGE_ID_TO_ADDR (Z.of_nat f) + 4 * j) v) f
    (fun x => if decide (x = j) then u32 v else w x).
Proof.
  intros (Hp & Ho & Hw) Hf Hj. rewrite page_word_put by done.
  pose proof (Hp (frame f)) as Hpf. unfold is_page, PAGE_SIZE in Hpf.
  split_and!.
  - intros n. destruct (decide (n = frame f)) as [->|Hne].
    + rewrite page_at_insert_eq. apply put32_is_page; [done|lia].
    + by rewrite page_at_insert_ne.
  - intros n Hn. rewrite page_at_insert_ne by done. by apply Ho.
  - intros x Hx. rewrite page_at_insert_eq. case_decide as Hxj.
    + subst. apply get32_put32_eq. lia.
    + rewrite get32_put32_ne by lia. by apply Hw.
Qed.

Lemma region_loop_words n i f vpn0 addr flag m m' w : frame_words m m' f w -> (f < 2048)%nat ->
  0 <= i -> 0 <= vpn0 -> vpn0 + i + Z.of_nat n <= 1024 ->
  frame_words m (region_loop n i (PAGE_ID_TO_ADDR (Z.of_nat f)) vpn0 addr flag m') f
    (fun x => if decide (vpn0 + i <= x < vpn0 + i + Z.of_nat n)
              then u32 (region_pte addr flag (x - vpn0)) else w x).
Proof.
  revert i m' w. induction n as [|n IH]; intros i m' w Hw Hf Hi Hv Hn; cbn [region_loop].
  - destruct Hw as (Hp & Ho & Hw). split_and!; auto. intros x Hx.
    rewrite decide_False by lia. by apply Hw.
  - specialize (IH (i + 1) _ _ (frame_words_put _ _ _ _ (vpn0 + i)
      (region_pte addr flag i) Hw Hf ltac:(lia)) Hf ltac:(lia) Hv ltac:(lia)).
    destruct IH as (Hp & Ho & Hw'). split_and!; auto. intros x Hx.
    etransitivity; [exact (Hw' x Hx)|]. cbv beta.
    destruct (decide (x = vpn0 + i)) as [->|Hne].
    + rewrite decide_False by lia. rewrite decide_True by lia.
      do 2 f_equal. lia.
    + destruct (decide (vpn0 + (i + 1) <= x < vpn0 + (i + 1) + Z.of_nat n)).
      * by rewrite decide_True by lia.
      * rewrite !decide_False by lia. done.
Qed.

(** The entry for page [v] maps it to itself with all permissions. *)
Definition identity_entry (v w : Z) : Prop :=
  Z.testbit w 0 = true /\ Z.land w 0x1E = 0x1E /\ w / 1024 = v.

Lemma region_identity addr i : 0 <= addr -> 0 <= i -> addr + i * PAGE_SIZE < 2 ^ 32 ->
  identity_entry (addr / PAGE_SIZE + i) (u32 (region_pte addr USER_RWX i)).
Proof.
  unfold PAGE_SIZE. intros Ha Hi Hlt. unfold region_pte, PAGE_SIZE. rewrite (u32_id (addr + _)) by lia.
  set (x := addr + i * 4096) in *. change USER_RWX with 0xDF.
  assert (Z.lor (Z.shiftr x 2) 0xDF / 1024 = addr / 4096 + i) as Hdiv.
  { change 1024 with (2 ^ 10). rewrite <- Z.shiftr_div_pow2 by lia. rewrite Z.shiftr_lor.
    rewrite Z.shiftr_shiftr by lia. change (Z.shiftr 0xDF 10) with 0. rewrite Z.lor_0_r.
    rewrite Z.shiftr_div_pow2 by lia. change (2 ^ (2 + 10)) with 4096. unfold x.
    rewrite Z.div_add by lia. lia. }
  assert (0 <= Z.lor (Z.shiftr x 2) 0xDF) as Hpos.
  { apply Z.lor_nonneg. split; [apply Z.shiftr_nonneg; lia|lia]. }
  rewrite u32_id.
  - split_and!; [|..|done].
    + rewrite Z.lor_spec. apply orb_true_r.
    + apply Z.bits_inj'. intros b Hb. rewrite Z.land_spec, Z.lor_spec.
      destruct (Z.testbit 0x1E b) eqn:Hbit; [|apply andb_false_r].
      assert (Z.testbit 0xDF b = true) as ->; [|by rewrite orb_true_r].
      assert (Z.land 0x1E 0xDF = 0x1E) as Hland by reflexivity. rewrite <- Hland in Hbit.
      rewrite Z.land_spec in Hbit. by apply andb_true_iff in Hbit as [_ ?].
  - pose proof (Z.div_lt_upper_bound x 4096 (2 ^ 20) ltac:(lia) ltac:(lia)).
    assert (x / 4096 = addr / 4096 + i) by (unfold x; rewrite Z.div_add by lia; lia).
    pose proof (Z.div_mod (Z.lor (Z.shiftr x 2) 0xDF) 1024 ltac:(lia)).
    pose proof (Z.mod_pos_bound (Z.lor (Z.shiftr x 2) 0xDF) 1024 ltac:(lia)). lia.
Qed.

(** ** The tables of one process

    Root table in frame [rid], leaf table of the 4 MB slot [v1] in frame [lf v1];
    the pages [mapped] have identity entries and the others none.  The frames in
    use in [s0] and the pages outside the frames are as in [s0]. *)
Definition taken (t : list page_info) (f : nat) : Prop :=
  exists p, t !! f = Some p /\ use p <> 0.

Record pt_ok (s0 : machine) (rid : nat) (lf : Z -> option nat) (mapped : Z -> bool)
    (t : list page_info) (m : memory) : Prop := {
  pt_len : length t = 2048%nat;
  pt_pages n : is_page (page_at m n);
  pt_old i p : page_info_table s0 !! i = Some p -> use p <> 0 -> t !! i = Some p;
  pt_other n : (forall i, n = frame i -> (i < 2048)%nat -> taken (page_info_table s0) i) ->
    page_at m n = page_at (mem s0) n;
  pt_rid : taken t rid /\ ~ taken (page_info_table s0) rid;
  pt_lf v f : lf v = Some f -> f <> rid /\ taken t f /\ ~ taken (page_info_table s0) f;
  pt_inj v v' f : lf v = Some f -> lf v' = Some f -> v = v';
  pt_root v : 0 <= v < 1024 -> get32 (page_at m (frame rid)) (Z.to_nat v) =
    match lf v with Some f => leaf_pte f | None => 0 end;
  pt_entry v : 0 <= v < 2 ^ 20 ->
    let w := match lf (v / 1024) with
             | Some f => get32 (page_at m (frame f)) (Z.to_nat (v mod 1024))
             | None => 0
             end in
    if mapped v then identity_entry v w else w = 0;
}.

Lemma taken_lt t f : taken t f -> (f < length t)%nat.
Proof. intros (p & Hp & _). by eapply lookup_lt_Some. Qed.

(** What the hardware makes of such tables, in a memory [m'] that still has them. *)
Lemma pt_sv32_frames s0 rid lf mapped t m m' va : pt_ok s0 rid lf mapped t m ->
  page_at m' (frame rid) = page_at m (frame rid) ->
  (forall v f, lf v = Some f -> page_at m' (frame f) = page_at m (frame f)) -> 0 <= va < 2 ^ 32 ->
  sv32 m' (PAGE_ID_TO_ADDR (Z.of_nat rid)) va = if mapped (va / PAGE_SIZE) then Some va else None.
Proof.
  intros Hok Hmr Hml Hva. unfold sv32, sv32_pte. set (v := va / PAGE_SIZE).
  assert (0 <= v < 2 ^ 20) as Hv.
  { unfold v, PAGE_SIZE. split; [apply Z.div_pos|apply Z.div_lt_upper_bound]; lia. }
  assert (0 <= v / 1024 < 1024) as Hv1.
  { split; [apply Z.div_pos|apply Z.div_lt_upper_bound]; lia. }
  pose proof (Z.mod_pos_bound v 1024 ltac:(lia)) as Hv0.
  pose proof (taken_lt _ _ (proj1 (pt_rid _ _ _ _ _ _ Hok))) as Hrid.
  rewrite (pt_len _ _ _ _ _ _ Hok) in Hrid.
  destruct (word_frame m' rid (v / 1024) Hrid Hv1) as (_ & _ & ->).
  rewrite Hmr, (pt_root _ _ _ _ _ _ Hok) by done.
  pose proof (pt_entry _ _ _ _ _ _ Hok v Hv) as He. cbv zeta in He.
  destruct (lf (v / 1024)) as [f|] eqn:Hf.
  - destruct (pt_lf _ _ _ _ _ _ Hok _ _ Hf) as (_ & Hft%taken_lt & _).
    rewrite (pt_len _ _ _ _ _ _ Hok) in Hft.
    destruct (leaf_pte_spec f Hft) as (_ & -> & -> & _ & -> & _). cbn [negb orb Z.eqb].
    destruct (word_frame m' f (v mod 1024) Hft Hv0) as (_ & _ & ->). rewrite (Hml _ _ Hf).
    destruct (mapped v).
    + destruct He as (-> & -> & ->). cbn [Z.eqb Pos.eqb]. f_equal. unfold v, PAGE_SIZE.
      pose proof (Z.div_mod va 4096 ltac:(lia)). lia.
    + rewrite He. done.
  - destruct (mapped v); [|done]. by destruct He as (He & _).
Qed.
Lemma pt_sv32 s0 rid lf mapped t m va : pt_ok s0 rid lf mapped t m -> 0 <= va < 2 ^ 32 ->
  sv32 m (PAGE_ID_TO_ADDR (Z.of_nat rid)) va = if mapped (va / PAGE_SIZE) then Some va else None.
Proof. intros Hok. by apply (pt_sv32_frames s0 rid lf mapped t m). Qed.

Definition add_region (mapped : Z -> bool) (addr n v : Z) : bool :=
  mapped v || ((addr / PAGE_SIZE <=? v) && (v <? addr / PAGE_SIZE + n)).

(** A region that lies in one 4 MB slot of the address space. *)
Record region_in_slot (addr n : Z) : Prop := {
  ris_addr : 0 <= addr < 2 ^ 32;
  ris_n : 0 <= n;
  ris_fits : addr / PAGE_SIZE mod 1024 + n <= 1024;
}.

Lemma slot_arith addr n : region_in_slot addr n ->
  Z.shiftr addr 22 = addr / PAGE_SIZE / 1024 /\
  Z.land (Z.shiftr addr 12) 0x3FF = addr / PAGE_SIZE mod 1024 /\
  0 <= addr / PAGE_SIZE / 1024 < 1024 /\ addr / PAGE_SIZE < 2 ^ 20.
Proof.
  intros [Ha Hn Hf]. unfold PAGE_SIZE in *.
  assert (addr / 4096 < 2 ^ 20) by (apply Z.div_lt_upper_bound; lia).
  assert (0 <= addr / 4096) by (apply Z.div_pos; lia).
  split_and!; [| |apply Z.div_pos; lia|apply Z.div_lt_upper_bound; lia|done].
  - rewrite Z.shiftr_div_pow2 by lia. change (2 ^ 22) with (4096 * 1024).
    symmetry. apply Z.div_div; lia.
  - change 0x3FF with (Z.ones 10). rewrite Z.land_ones by lia. by rewrite Z.shiftr_div_pow2 by lia.
Qed.

Lemma region_mem v a n : 0 <= v -> 0 <= a -> a mod 1024 + n <= 1024 ->
  a <= v < a + n <-> v / 1024 = a / 1024 /\ a mod 1024 <= v mod 1024 < a mod 1024 + n.
Proof.
  intros Hv Ha Hn. pose proof (Z.div_mod v 1024 ltac:(lia)). pose proof (Z.div_mod a 1024 ltac:(lia)).
  pose proof (Z.mod_pos_bound v 1024 ltac:(lia)). pose proof (Z.mod_pos_bound a 1024 ltac:(lia)).
  split; [|lia]. intros Hin. assert (v / 1024 = a / 1024) by nia. lia.
Qed.

Lemma region_bound addr n i : region_in_slot addr n -> 0 <= i < n ->
  addr + i * PAGE_SIZE < 2 ^ 32.
Proof.
  intros Hr Hi. destruct (slot_arith _ _ Hr) as (_ & _ & Hv1 & _). destruct Hr as [Ha Hn Hfits].
  unfold PAGE_SIZE in *. pose proof (Z.div_mod addr 4096 ltac:(lia)).
  pose proof (Z.mod_pos_bound addr 4096 ltac:(lia)).
  pose proof (Z.div_mod (addr / 4096) 1024 ltac:(lia)). lia.
Qed.

Lemma add_region_eq mapped addr n v : add_region mapped addr n v =
  mapped v || bool_decide (addr / PAGE_SIZE <= v < addr / PAGE_SIZE + n).
Proof.
  unfold add_region. f_equal. apply eq_true_iff_eq.
  rewrite bool_decide_eq_true, andb_true_iff, Z.leb_le, Z.ltb_lt. done.
Qed.

Lemma frame_inj i j : frame i = frame j -> i = j.
Proof. unfold frame. lia. Qed.

(** Filling a region of a leaf table. *)
Lemma pt_region s0 rid lf mapped t m f addr n : pt_ok s0 rid lf mapped t m ->
  region_in_slot addr n -> lf (addr / PAGE_SIZE / 1024) = Some f ->
  pt_ok s0 rid lf (add_region mapped addr n) t
    (region_loop (Z.to_nat n) 0 (PAGE_ID_TO_ADDR (Z.of_nat f)) (addr / PAGE_SIZE mod 1024)
       addr USER_RWX m).
Proof.
  intros Hok [Ha Hn Hfits] Hlf. destruct (pt_lf _ _ _ _ _ _ Hok _ _ Hlf) as (Hne & Hft & Hnew).
  pose proof (taken_lt _ _ Hft) as Hf. rewrite (pt_len _ _ _ _ _ _ Hok) in Hf.
  pose proof (Z.mod_pos_bound (addr / PAGE_SIZE) 1024 ltac:(lia)) as Hv0.
  assert (0 <= addr / PAGE_SIZE) as Hpn by (unfold PAGE_SIZE; apply Z.div_pos; lia).
  destruct (region_loop_words (Z.to_nat n) 0 f (addr / PAGE_SIZE mod 1024) addr USER_RWX m m
    (fun j => get32 (page_at m (frame f)) (Z.to_nat j))) as (Hp & Ho & Hw); [|lia..|].
  { split_and!; [apply Hok|done|done]. }
  set (m' := region_loop _ _ _ _ _ _ _) in *. clearbody m'.
  split; try apply Hok; [done|..].
  - intros x Hx. rewrite Ho; [by apply Hok|]. intros ->. by apply Hnew, Hx.
  - intros v Hv. rewrite Ho; [by apply Hok|]. intros ?%frame_inj. congruence.
  - intros v Hv. cbv zeta. pose proof (pt_entry _ _ _ _ _ _ Hok v Hv) as He. cbv zeta in He.
    pose proof (region_mem v (addr / PAGE_SIZE) n ltac:(lia) Hpn Hfits) as Hmem.
    rewrite add_region_eq.
    destruct (lf (v / 1024)) as [f'|] eqn:Hf'.
    + destruct (decide (f' = f)) as [->|Hff'].
      * pose proof (pt_inj _ _ _ _ _ _ Hok _ _ _ Hf' Hlf) as Hv1.
        rewrite Hw by (apply Z.mod_pos_bound; lia). rewrite Z.add_0_r, Z2Nat.id by done.
        case_decide as Hin.
        -- rewrite bool_decide_true by (apply Hmem; lia). rewrite orb_true_r.
           replace v with (addr / PAGE_SIZE + (v mod 1024 - addr / PAGE_SIZE mod 1024)) at 1
             by (pose proof (Z.div_mod v 1024 ltac:(lia));
                 pose proof (Z.div_mod (addr / PAGE_SIZE) 1024 ltac:(lia)); lia).
           apply region_identity; [lia|lia|]. apply (region_bound addr n); [by split|lia].
        -- rewrite bool_decide_false by (intros [_ ?]%Hmem; lia). by rewrite orb_false_r.
      * rewrite Ho by (intros ?%frame_inj; congruence).
        rewrite bool_decide_false; [by rewrite orb_false_r|].
        intros [Hv1 _]%Hmem. rewrite Hv1 in Hf'. congruence.
    + rewrite bool_decide_false; [by rewrite orb_false_r|].
      intros [Hv1 _]%Hmem. rewrite Hv1 in Hf'. congruence.
Qed.

(** The memory with an empty leaf table in frame [f], entered in the root table. *)
Lemma leaf_memory m f rid v1 : (forall n, is_page (page_at m n)) -> (f < 2048)%nat ->
  (rid < 2048)%nat -> f <> rid -> 0 <= v1 < 1024 ->
  let m' := put_word (clear_page m (PAGE_ID_TO_ADDR (Z.of_nat f)))
              (PAGE_ID_TO_ADDR (Z.of_nat rid) + 4 * v1) (leaf_pte f) in
  (forall n, is_page (page_at m' n)) /\
  (forall n, n <> frame rid -> n <> frame f -> page_at m' n = page_at m n) /\
  page_at m' (frame f) = zero_page /\
  (forall j, 0 <= j < 1024 -> get32 (page_at m' (frame rid)) (Z.to_nat j) =
    if decide (j = v1) then leaf_pte f else get32 (page_at m (frame rid)) (Z.to_nat j)).
Proof.
  intros Hm Hf Hrid Hne Hv1 m'.
  assert (frame rid <> frame f) as Hfr by (intros ?%frame_inj; congruence).
  destruct (frame_words_put (clear_page m (PAGE_ID_TO_ADDR (Z.of_nat f))) (clear_page m (PAGE_ID_TO_ADDR (Z.of_nat f)))
    rid (fun j => get32 (page_at m (frame rid)) (Z.to_nat j)) v1 (leaf_pte f))
    as (Hpg & Ho & Hw); [|done..|].
  { unfold clear_page. rewrite frame_addr by done. split_and!; [|done|].
    - intros n. destruct (decide (n = frame f)) as [->|Hn].
      + rewrite page_at_insert_eq. apply length_zeros.
      + by rewrite page_at_insert_ne.
    - intros j Hj. by rewrite page_at_insert_ne. }
  fold m' in Hpg, Ho, Hw. split_and!; [done|..].
  - intros n Hn Hn'. rewrite Ho by done. unfold clear_page. rewrite frame_addr by done.
    by rewrite page_at_insert_ne.
  - rewrite Ho by done. unfold clear_page. rewrite frame_addr by done. apply page_at_insert_eq.
  - intros j Hj. rewrite Hw by done. by destruct (leaf_pte_spec f Hf) as (-> & _).
Qed.

Lemma taken_insert t f p p' g : t !! f = Some p -> use p = 0 -> use p' <> 0 ->
  (taken t g -> g <> f) /\ (taken (<[f := p']> t) g <-> taken t g \/ g = f).
Proof.
  intros Hp Hu Hu'. assert (taken t g -> g <> f) as Hgf.
  { intros (q & Hq & Hqu) ->. congruence. }
  split; [done|]. destruct (decide (g = f)) as [->|Hne].
  - split; [by right|]. intros _. exists p'. split; [|done].
    apply list_lookup_insert_eq. by eapply lookup_lt_Some.
  - unfold taken. rewrite list_lookup_insert_ne by done. split; [by left|by intros [?|?]].
Qed.

(** Adding an empty leaf table in a free frame. *)
Lemma pt_leaf s0 rid lf mapped t m f p p' v1 : pt_ok s0 rid lf mapped t m ->
  t !! f = Some p -> use p = 0 -> use p' <> 0 -> 0 <= v1 < 1024 -> lf v1 = None ->
  pt_ok s0 rid (fun v => if decide (v = v1) then Some f else lf v) mapped (<[f := p']> t)
    (put_word (clear_page m (PAGE_ID_TO_ADDR (Z.of_nat f)))
       (PAGE_ID_TO_ADDR (Z.of_nat rid) + 4 * v1) (leaf_pte f)).
Proof.
  intros Hok Hp Hu Hu' Hv1 Hnone. pose proof (lookup_lt_Some _ _ _ Hp) as Hf.
  destruct (pt_rid _ _ _ _ _ _ Hok) as [Hrid Hridnew]. pose proof (taken_lt _ _ Hrid) as Hridlt.
  rewrite (pt_len _ _ _ _ _ _ Hok) in Hf, Hridlt.
  pose proof (fun g => proj1 (taken_insert t f p p' g Hp Hu Hu')) as Htf.
  pose proof (fun g => proj2 (taken_insert t f p p' g Hp Hu Hu')) as Htaken.
  assert (~ taken (page_info_table s0) f) as Hfnew.
  { intros (q & Hq & Hqu). pose proof (pt_old _ _ _ _ _ _ Hok _ _ Hq Hqu). congruence. }
  destruct (leaf_memory m f rid v1) as (Hpg & Hsame & Hzero & Hw); try done.
  { apply Hok. } { intros ->. by apply (Htf rid). }
  set (m' := put_word _ _ _) in *. clearbody m'.
  assert (forall v g, lf v = Some g -> g <> rid /\ g <> f /\ taken (<[f := p']> t) g /\
    ~ taken (page_info_table s0) g) as Hlf.
  { intros v g Hg. destruct (pt_lf _ _ _ _ _ _ Hok _ _ Hg) as (? & ? & ?).
    split_and!; auto. apply Htaken. by left. }
  split.
  - rewrite length_insert. apply Hok.
  - done.
  - intros i q Hq Hqu. pose proof (pt_old _ _ _ _ _ _ Hok _ _ Hq Hqu) as Hold.
    rewrite list_lookup_insert_ne; [done|congruence].
  - intros n Hn. rewrite Hsame; [by apply Hok|..]; intros ->; [by apply Hridnew, Hn|by apply Hfnew, Hn].
  - split; [apply Htaken; by left|done].
  - intros v g. case_decide; intros Hg; [|by destruct (Hlf v g Hg) as (? & _ & ? & ?)].
    injection Hg as <-. split_and!; [|apply Htaken; by right|done]. intros ->. by apply (Htf rid).
  - intros v v' g. case_decide; case_decide; intros Hg Hg'; [congruence|..].
    + injection Hg as <-. by destruct (Hlf _ _ Hg') as (_ & ? & _).
    + injection Hg' as <-. by destruct (Hlf _ _ Hg) as (_ & ? & _).
    + by eapply pt_inj.
  - intros v Hv. rewrite Hw by done. case_decide; [done|]. by apply Hok.
  - intros v Hv. pose proof (pt_entry _ _ _ _ _ _ Hok v Hv) as He. cbv zeta in He |- *.
    case_decide as Hvv.
    + rewrite Hvv, Hnone in He. rewrite Hzero. unfold zero_page. by rewrite get32_zeros.
    + destruct (lf (v / 1024)) as [g|] eqn:Hg; [|done]. destruct (Hlf _ _ Hg) as (? & ? & _).
      by rewrite Hsame by (intros ?%frame_inj; congruence).
Qed.

(** ** The operations *)
Lemma wp_machine_call {A} E (m : M machine A) s Q :
  wp E m (pt_machine s) (fun a s' => Q a (with_machine s s')) -> wp E (machine_call m) s Q.
Proof. unfold wp, machine_call. by destruct (m (pt_machine s)) as [[a s']| | |]. Qed.

Lemma wp_alloc s Q : length (page_info_table s) = 2048%nat ->
  (forall j p, page_info_table s !! j = Some p -> use p = 0 ->
    Q (Z.of_nat j) (with_table s (<[j := take_frame p]> (page_info_table s)))) ->
  wp (fun e => e = no_memory) mmu_alloc s Q.
Proof.
  intros Hlen HQ. apply (wp_mmu_alloc_loop _ 2048 0); [by rewrite Hlen|lia|done|].
  intros j p (Hp & Hu & _). by apply HQ.
Qed.

Definition pt_state (s0 : machine) (rid : nat) (mapped : Z -> bool) (s : pagetables) : Prop :=
  root s = PAGE_ID_TO_ADDR (Z.of_nat rid) /\
  exists lf, pt_ok s0 rid lf mapped (page_info_table (pt_machine s)) (mem (pt_machine s)).

Lemma wp_setup_identity_region s0 rid mapped s pid addr n : pt_state s0 rid mapped s ->
  region_in_slot addr n ->
  wp (fun e => e = no_memory) (setup_identity_region pid addr n USER_RWX) s
    (fun _ s' => pt_state s0 rid (add_region mapped addr n) s' /\
       pid_to_pagetable_base s' = pid_to_pagetable_base s).
Proof.
  intros [Hroot [lf Hok]] Hr. destruct (slot_arith _ _ Hr) as (Hv1 & Hv0 & Hlt & _).
  unfold setup_identity_region. rewrite Hv1, Hv0. set (v1 := addr / PAGE_SIZE / 1024) in *.
  pose proof (taken_lt _ _ (proj1 (pt_rid _ _ _ _ _ _ Hok))) as Hridlt.
  rewrite (pt_len _ _ _ _ _ _ Hok) in Hridlt.
  pose proof (proj2 (proj2 (word_frame (mem (pt_machine s)) rid v1 Hridlt Hlt))) as Hword.
  rewrite (pt_root _ _ _ _ _ _ Hok v1 Hlt) in Hword.
  apply wp_bind. eapply wp_ok; [reflexivity|]. rewrite Hroot, Hword.
  destruct (lf v1) as [f|] eqn:Hf; apply wp_bind.
  - pose proof (taken_lt _ _ (proj1 (proj2 (pt_lf _ _ _ _ _ _ Hok _ _ Hf)))) as Hft.
    rewrite (pt_len _ _ _ _ _ _ Hok) in Hft.
    destruct (leaf_pte_spec f Hft) as (_ & _ & _ & Hbit & _ & Haddr).
    destruct (Z.eqb_spec (Z.land (leaf_pte f) 1) 0) as [|_]; [done|].
    eapply wp_ok; [reflexivity|]. apply wp_bind. eapply wp_ok; [reflexivity|].
    apply wp_machine_call. eapply wp_ok; [reflexivity|]. split; [|done]. split; [done|].
    exists lf. cbn. rewrite Hroot, Hword, Haddr. by apply pt_region.
  - cbn [Z.land Z.eqb]. apply wp_bind, wp_machine_call, wp_alloc; [apply Hok|].
    intros f p Hp Hu.
    pose proof (pt_leaf _ _ _ _ _ _ f p {| use := 1; pi_pid := pid; vpage_no := vpage_no p |} v1
      Hok Hp Hu ltac:(done) Hlt Hf) as Hok'.
    apply wp_bind. eapply wp_ok; [reflexivity|]. apply wp_bind, wp_machine_call.
    eapply wp_ok.
    { unfold set_page_pid. cbn. rewrite Nat2Z.id, list_lookup_insert_eq by (by eapply lookup_lt_Some).
      rewrite list_insert_insert_eq. reflexivity. }
    apply wp_bind. eapply wp_ok; [reflexivity|]. apply wp_bind, wp_machine_call.
    eapply wp_ok; [reflexivity|]. apply wp_machine_call. eapply wp_ok; [reflexivity|].
    apply wp_bind. eapply wp_ok; [reflexivity|]. apply wp_machine_call.
    eapply wp_ok; [reflexivity|]. split; [|done]. split; [done|].
    exists (fun v => if decide (v = v1) then Some f else lf v). cbn. rewrite Hroot.
    apply pt_region; [done|done|]. by rewrite decide_True.
Qed.

(** The regions of the address space that the source's comments name, with
    their sizes in pages. *)
Definition identity_regions (plat : platform) : list (Z * Z) :=
  [(RAM_START, 4096); (CLINT_BASE plat, 16); (UART_BASE plat, 1); (SPI_BASE plat, 1)] ++
  (if decide (plat = ARTY) then
     [(BOARD_FLASH_ROM, 1024); (ETHMAC_CSR_BASE, 1); (ETHMAC_TX_BUFFER, 1); (ETHMAC_RX_BUFFER, 1)]
   else []).
Definition page_mapped (plat : platform) (v : Z) : bool :=
  existsb (fun '(addr, n) => (addr / PAGE_SIZE <=? v) && (v <? addr / PAGE_SIZE + n))
    (identity_regions plat).

Lemma pt_ok_ext s0 rid lf mapped mapped' t m : (forall v, mapped v = mapped' v) ->
  pt_ok s0 rid lf mapped t m -> pt_ok s0 rid lf mapped' t m.
Proof.
  intros Hext Hok. split; try apply Hok. intros v Hv. rewrite <- Hext. by apply Hok.
Qed.

(** The empty root table in a free frame. *)
Lemma pt_empty s0 rid p p' : length (page_info_table s0) = 2048%nat ->
  (forall n, is_page (page_at (mem s0) n)) ->
  page_info_table s0 !! rid = Some p -> use p = 0 -> use p' <> 0 ->
  pt_ok s0 rid (fun _ => None) (fun _ => false) (<[rid := p']> (page_info_table s0))
    (clear_page (mem s0) (PAGE_ID_TO_ADDR (Z.of_nat rid))).
Proof.
  intros Hlen Hpages Hp Hu Hu'. pose proof (lookup_lt_Some _ _ _ Hp) as Hrid. rewrite Hlen in Hrid.
  destruct (taken_insert (page_info_table s0) rid p p' rid Hp Hu Hu') as [Hnew Htaken].
  unfold clear_page. rewrite frame_addr by done. split; try done.
  - by rewrite length_insert.
  - intros n. destruct (decide (n = frame rid)) as [->|Hn].
    + rewrite page_at_insert_eq. apply length_zeros.
    + by rewrite page_at_insert_ne.
  - intros i q Hq Hqu. rewrite list_lookup_insert_ne; [done|congruence].
  - intros n Hn. rewrite page_at_insert_ne; [done|]. intros <-.
    by apply (Hnew (Hn rid eq_refl Hrid)).
  - split; [apply Htaken; by right|]. intros Ht. by apply (Hnew Ht).
  - intros v Hv. rewrite page_at_insert_eq. unfold zero_page. by rewrite get32_zeros.
Qed.

(** One region after another. *)
Definition regions (mapped : Z -> bool) (l : list (Z * Z)) : Z -> bool :=
  fold_left (fun mp '(addr, n) => add_region mp addr n) l mapped.

Lemma wp_next_region s0 rid mapped s pid addr n (k : M pagetables unit) Q :
  pt_state s0 rid mapped s -> region_in_slot addr n ->
  (forall s', pt_state s0 rid (add_region mapped addr n) s' ->
     pid_to_pagetable_base s' = pid_to_pagetable_base s ->
     wp (fun e => e = no_memory) k s' Q) ->
  wp (fun e => e = no_memory) (setup_identity_region pid addr n USER_RWX;; k) s Q.
Proof.
  intros Hs Hr Hk. apply wp_bind. eapply wp_mono; [by apply wp_setup_identity_region|].
  intros [] s' [Hs' Hb]. by apply Hk.
Qed.

Definition region_in_slotb (r : Z * Z) : bool :=
  (0 <=? r.1) && (r.1 <? 2 ^ 32) && (0 <=? r.2) && (r.1 / PAGE_SIZE mod 1024 + r.2 <=? 1024).

Lemma region_in_slot_spec addr n : region_in_slotb (addr, n) = true -> region_in_slot addr n.
Proof.
  unfold region_in_slotb. rewrite !andb_true_iff, !Z.leb_le, Z.ltb_lt. cbn.
  intros [[[? ?] ?] ?]. by split.
Qed.

(** The regions as the code sets them up: RAM in four slots. *)
Definition ram_slots : list (Z * Z) :=
  [(0x80000000, 1024); (0x80400000, 1024); (0x80800000, 1024); (0x80C00000, 1024)].
Definition setup_regions (plat : platform) : list (Z * Z) :=
  ram_slots ++ drop 1 (identity_regions plat).

Lemma regions_existsb l mapped v : regions mapped l v =
  mapped v || existsb (fun '(addr, n) => (addr / PAGE_SIZE <=? v) && (v <? addr / PAGE_SIZE + n)) l.
Proof.
  revert mapped. induction l as [|[addr n] l IH]; intros mapped; cbn [regions fold_left existsb].
  - by rewrite orb_false_r.
  - etransitivity; [exact (IH _)|]. unfold add_region. by rewrite orb_assoc.
Qed.

Lemma ram_slots_mapped v :
  existsb (fun '(addr, n) => (addr / PAGE_SIZE <=? v) && (v <? addr / PAGE_SIZE + n)) ram_slots =
  (RAM_START / PAGE_SIZE <=? v) && (v <? RAM_START / PAGE_SIZE + 4096).
Proof.
  unfold ram_slots. cbn [existsb].
  change (RAM_START / PAGE_SIZE) with 0x80000. change (0x80000000 / PAGE_SIZE) with 0x80000.
  change (0x80400000 / PAGE_SIZE) with 0x80400. change (0x80800000 / PAGE_SIZE) with 0x80800.
  change (0x80C00000 / PAGE_SIZE) with 0x80C00. apply eq_true_iff_eq.
  rewrite !orb_true_iff, !andb_true_iff, !Z.leb_le, !Z.ltb_lt. lia.
Qed.

Lemma setup_regions_mapped plat v : regions (fun _ => false) (setup_regions plat) v = page_mapped plat v.
Proof.
  rewrite regions_existsb. unfold setup_regions, page_mapped. rewrite existsb_app, ram_slots_mapped.
  destruct plat; reflexivity.
Qed.

Ltac next_region :=
  eapply wp_next_region; [eassumption|apply region_in_slot_spec; vm_compute; reflexivity|];
  let s := fresh "s" in intros s ? ?.

Lemma wp_ram_regions s0 rid mapped s pid : pt_state s0 rid mapped s ->
  wp (fun e => e = no_memory) (ram_regions 4 pid RAM_START) s
    (fun _ s' => pt_state s0 rid (regions mapped ram_slots) s' /\
       pid_to_pagetable_base s' = pid_to_pagetable_base s).
Proof.
  intros Hs.
  change (ram_regions 4 pid RAM_START) with
    (setup_identity_region pid 0x80000000 1024 USER_RWX;;
     setup_identity_region pid 0x80400000 1024 USER_RWX;;
     setup_identity_region pid 0x80800000 1024 USER_RWX;;
     setup_identity_region pid 0x80C00000 1024 USER_RWX;; (mret (M:=M pagetables) tt)).
  do 4 next_region. apply wp_ret. split; [done|congruence].
Qed.

(** The whole construction. *)
Lemma wp_pagetable_identity_map plat pid s :
  length (page_info_table (pt_machine s)) = 2048%nat ->
  (forall n, is_page (page_at (mem (pt_machine s)) n)) ->
  0 <= pid < MMU_MAX_NPROCESS -> length (pid_to_pagetable_base s) = 256%nat ->
  wp (fun e => e = no_memory) (pagetable_identity_map plat pid) s (fun _ s' =>
    exists rid lf, pt_ok (pt_machine s) rid lf (page_mapped plat)
      (page_info_table (pt_machine s')) (mem (pt_machine s')) /\
    root s' = PAGE_ID_TO_ADDR (Z.of_nat rid) /\
    pid_to_pagetable_base s' = <[Z.to_nat pid := root s']> (pid_to_pagetable_base s)).
Proof.
  intros Hlen Hpages Hpid Hb. unfold pagetable_identity_map.
  apply wp_bind, wp_machine_call, wp_alloc; [done|]. intros rid p Hp Hu.
  pose proof (pt_empty _ rid p {| use := 1; pi_pid := pid; vpage_no := vpage_no p |}
    Hlen Hpages Hp Hu ltac:(done)) as Hok.
  apply wp_bind. eapply wp_ok; [reflexivity|]. apply wp_bind, wp_machine_call. eapply wp_ok.
  { unfold set_page_pid. cbn. rewrite Nat2Z.id, list_lookup_insert_eq by (by eapply lookup_lt_Some).
    rewrite list_insert_insert_eq. reflexivity. }
  apply wp_bind. eapply wp_ok; [reflexivity|]. apply wp_bind.
  rewrite bool_decide_true by (cbn; unfold MMU_MAX_NPROCESS in Hpid; lia).
  eapply wp_ok; [reflexivity|]. apply wp_bind, wp_machine_call. eapply wp_ok; [reflexivity|].
  apply wp_bind. eapply wp_mono.
  { apply (wp_ram_regions (pt_machine s) rid (fun _ => false)). split; [reflexivity|]. by eexists. }
  intros [] s1 [Hs1 Hb1]. cbn [pid_to_pagetable_base with_bases with_machine with_root] in Hb1.
  eapply wp_mono with (Q' := fun _ s' => pt_state (pt_machine s) rid
    (regions (fun _ => false) (setup_regions plat)) s' /\
    pid_to_pagetable_base s' = pid_to_pagetable_base s1).
  - destruct plat.
    + do 6 next_region. eapply wp_mono; [apply wp_setup_identity_region; [eassumption|]|].
      { apply region_in_slot_spec. vm_compute. reflexivity. }
      intros [] s' [Hs' Hb']. split; [exact Hs'|congruence].
    + do 3 next_region. apply wp_ret. split; [done|congruence].
  - intros [] s' [[Hroot [lf Hs']] Hb']. exists rid, lf. split_and!; [|done|].
    + by eapply pt_ok_ext; [apply setup_regions_mapped|].
    + rewrite Hb', Hb1, Hroot. done.
Qed.

(** C8: the identity map.  With a page table of 2048 entries and a process id
    below 256, [pagetable_identity_map] either runs out of frames or builds
    tables by which the hardware translates every address of RAM, of the timer,
    the UART and the SPI controller (and on the board of the flash and the
    Ethernet controller) to itself, with user permissions, and no other address;
    the root is recorded for the process, and the frames that were in use keep
    their owners and contents. *)
Theorem pagetable_identity_map_correct (plat : platform) (pid : Z) (s : pagetables) :
  length (page_info_table (pt_machine s)) = 2048%nat ->
  (forall n, is_page (page_at (mem (pt_machine s)) n)) ->
  0 <= pid < MMU_MAX_NPROCESS -> length (pid_to_pagetable_base s) = 256%nat ->
  match pagetable_identity_map plat pid s with
  | Ok (_, s') =>
      (forall va, 0 <= va < 2 ^ 32 -> sv32 (mem (pt_machine s')) (root s') va =
         if page_mapped plat (va / PAGE_SIZE) then Some va else None) /\
      pid_to_pagetable_base s' = <[Z.to_nat pid := root s']> (pid_to_pagetable_base s) /\
      (forall i p, page_info_table (pt_machine s) !! i = Some p -> use p <> 0 ->
         page_info_table (pt_machine s') !! i = Some p /\
         page_at (mem (pt_machine s')) (frame i) = page_at (mem (pt_machine s)) (frame i))
  | Fatal e => e = no_memory
  | Stuck | NoFuel => False
  end.
Proof.
  intros Hlen Hpages Hpid Hb.
  pose proof (wp_pagetable_identity_map plat pid s Hlen Hpages Hpid Hb) as H. unfold wp in H.
  destruct (pagetable_identity_map plat pid s) as [[[] s']| | |]; [|done..].
  destruct H as (rid & lf & Hok & Hroot & Hbase). split_and!; [|done|].
  - intros va Hva. rewrite Hroot. by eapply pt_sv32.
  - intros i p Hp Hu. split; [by eapply pt_old|].
    apply (pt_other _ _ _ _ _ _ Hok). intros j ->%frame_inj _. by exists p.
Qed.

(** The state at boot: no frame is in use. *)
Definition boot_tables : pagetables := {|
  pt_machine := {| page_info_table := replicate 2048 zero_info; curr_vm_pid := -1; mem := ∅;
                   timer := {| reads := 0; mtimecmp := ∅ |} |};
  root := 0; leaf := 0; pid_to_pagetable_base := replicate 256 0;
|}.

(** From boot it does not run out of frames. *)
Lemma pagetable_identity_map_boot plat : is_ok (pagetable_identity_map plat 0 boot_tables) = true.
Proof. destruct plat; vm_compute; reflexivity. Qed.

Lemma pagetable_identity_map_correct_witness :
  exists s', pagetable_identity_map ARTY 0 boot_tables = Ok (tt, s') /\
    sv32 (mem (pt_machine s')) (root s') 0xF0008804 = Some 0xF0008804 /\
    sv32 (mem (pt_machine s')) (root s') 0x10050000 = None.
Proof.
  pose proof (pagetable_identity_map_correct ARTY 0 boot_tables (length_replicate _ _)
    (fun n => length_zeros _) ltac:(done) (length_replicate _ _)) as H.
  pose proof (pagetable_identity_map_boot ARTY) as Hok.
  destruct (pagetable_identity_map ARTY 0 boot_tables) as [[[] s']| | |]; [|discriminate..].
  destruct H as (H & _ & _). exists s'. split; [reflexivity|].
  split; [exact (H 0xF0008804 ltac:(lia))|exact (H 0x10050000 ltac:(lia))].
Defined.
