(* ===== verification/Process.v ===== *)
(** * Processes and system calls: definitions

    [library/syscall/syscall.h] (the system-call structure and its memory
    layout), [grass/process.h] and [grass/process.c] (the process table). *)

From stdpp Require Import pretty options.
From S2P Require Import Prelude Earth.

(** ** servers.h: well-known process ids *)
Definition GPID_ALL : Z := -1.
Definition GPID_UNUSED : Z := 0.
Definition GPID_PROCESS : Z := 1.
Definition GPID_TERMINAL : Z := 2.
Definition GPID_FILE : Z := 3.
Definition GPID_SHELL : Z := 4.
Definition GPID_USER_START : Z := 5.

(** ** syscall.h

    [enum syscall_type] and the anonymous [enum { PENDING, DONE }] are ints
    that user space writes: they are kept as numbers. *)
Definition SYS_UNUSED : Z := 0.
Definition SYS_RECV : Z := 1.
Definition SYS_SEND : Z := 2.
Definition PENDING : Z := 0.
Definition DONE : Z := 1.
Definition SYSCALL_MSG_LEN : Z := 1024.

Record syscall : Type := {
  sc_type : Z;
  sc_sender : Z;
  sc_receiver : Z;
  sc_content : list byte;
  sc_status : Z;
}.

(** [sizeof(struct syscall)], and the structure as bytes: three words, the
    message, one word. *)
Definition sizeof_syscall : nat := 1040.
Definition syscall_decode (b : list byte) : syscall := {|
  sc_type := get32 b 0;
  sc_sender := i32 (get32 b 1);
  sc_receiver := i32 (get32 b 2);
  sc_content := take (Z.to_nat SYSCALL_MSG_LEN) (drop 12 b);
  sc_status := get32 b 259;
|}.
Definition syscall_encode (sc : syscall) : list byte :=
  le_split 4 (sc_type sc) ++ le_split 4 (sc_sender sc) ++ le_split 4 (sc_receiver sc) ++
  sc_content sc ++ le_split 4 (sc_status sc).
(** A value of the C type [struct syscall]. *)
Definition syscall_ok (sc : syscall) : Prop :=
  0 <= sc_type sc < 2 ^ 32 /\ - 2 ^ 31 <= sc_sender sc < 2 ^ 31 /\
  - 2 ^ 31 <= sc_receiver sc < 2 ^ 31 /\ length (sc_content sc) = Z.to_nat SYSCALL_MSG_LEN /\
  0 <= sc_status sc < 2 ^ 32.

Definition sc_set_status (sc : syscall) (v : Z) : syscall :=
  {| sc_type := sc_type sc; sc_sender := sc_sender sc; sc_receiver := sc_receiver sc;
     sc_content := sc_content sc; sc_status := v |}.

(** ** process.h *)
Inductive proc_status : Type :=
| PROC_UNUSED
| PROC_LOADING
| PROC_READY
| PROC_RUNNING
| PROC_RUNNABLE
| PROC_PENDING_SYSCALL.
#[global] Instance proc_status_eq_dec : EqDecision proc_status.
Proof. solve_decision. Defined.

Definition MAX_NPROCESS : Z := 16.
Definition SAVED_REGISTER_NUM : Z := 32.

Record process : Type := {
  p_pid : Z;
  p_syscall : syscall;
  p_status : proc_status;
  p_mepc : Z;
  p_saved_registers : list Z;
}.

Definition set_pid (p : process) (v : Z) : process :=
  {| p_pid := v; p_syscall := p_syscall p; p_status := p_status p;
     p_mepc := p_mepc p; p_saved_registers := p_saved_registers p |}.
Definition set_syscall (p : process) (v : syscall) : process :=
  {| p_pid := p_pid p; p_syscall := v; p_status := p_status p;
     p_mepc := p_mepc p; p_saved_registers := p_saved_registers p |}.
Definition set_status (p : process) (v : proc_status) : process :=
  {| p_pid := p_pid p; p_syscall := p_syscall p; p_status := v;
     p_mepc := p_mepc p; p_saved_registers := p_saved_registers p |}.
Definition set_mepc (p : process) (v : Z) : process :=
  {| p_pid := p_pid p; p_syscall := p_syscall p; p_status := p_status p;
     p_mepc := v; p_saved_registers := p_saved_registers p |}.
Definition set_saved (p : process) (v : list Z) : process :=
  {| p_pid := p_pid p; p_syscall := p_syscall p; p_status := p_status p;
     p_mepc := p_mepc p; p_saved_registers := v |}.

(** ** The state of the grass layer *)

(** The trap state of a hart: its CSRs, and the 32 words at
    [SAVED_REGISTER_ADDR] that [trap_entry] fills before [kernel_entry] and
    reloads the registers from after it. *)
Record hart : Type := {
  mhartid : Z;
  csr_mepc : Z;
  mcause : Z;
  saved_area : list Z;
}.

Record kernel (S : Type) : Type := {
  proc_set : list process;       (** [proc_set[MAX_NPROCESS + 1]] *)
  core_to_proc_idx : list Z;     (** [core_to_proc_idx[NCORES + 1]] *)
  core_in_kernel : Z;
  alloc_pid : Z;                 (** the static [curr_pid] of [proc_alloc] *)
  hw : hart;
  mach : S;                      (** the state behind [earth] *)
}.
Arguments proc_set {S} _.
Arguments core_to_proc_idx {S} _.
Arguments core_in_kernel {S} _.
Arguments alloc_pid {S} _.
Arguments hw {S} _.
Arguments mach {S} _.

Section state.
Context {S : Type}.
Implicit Types (k : kernel S).

Definition with_procs k (l : list process) : kernel S :=
  {| proc_set := l; core_to_proc_idx := core_to_proc_idx k; core_in_kernel := core_in_kernel k;
     alloc_pid := alloc_pid k; hw := hw k; mach := mach k |}.
Definition with_idx k (l : list Z) : kernel S :=
  {| proc_set := proc_set k; core_to_proc_idx := l; core_in_kernel := core_in_kernel k;
     alloc_pid := alloc_pid k; hw := hw k; mach := mach k |}.
Definition with_core k (c : Z) : kernel S :=
  {| proc_set := proc_set k; core_to_proc_idx := core_to_proc_idx k; core_in_kernel := c;
     alloc_pid := alloc_pid k; hw := hw k; mach := mach k |}.
Definition with_alloc k (c : Z) : kernel S :=
  {| proc_set := proc_set k; core_to_proc_idx := core_to_proc_idx k;
     core_in_kernel := core_in_kernel k; alloc_pid := c; hw := hw k; mach := mach k |}.
Definition with_hart k (h : hart) : kernel S :=
  {| proc_set := proc_set k; core_to_proc_idx := core_to_proc_idx k;
     core_in_kernel := core_in_kernel k; alloc_pid := alloc_pid k; hw := h; mach := mach k |}.
Definition with_mach k (s : S) : kernel S :=
  {| proc_set := proc_set k; core_to_proc_idx := core_to_proc_idx k;
     core_in_kernel := core_in_kernel k; alloc_pid := alloc_pid k; hw := hw k; mach := s |}.

(** A call through the earth interface: it changes the machine only. *)
Definition earth_call {A} (m : M S A) : M (kernel S) A := fun k =>
  match m (mach k) with
  | Ok (a, s) => Ok (a, with_mach k s)
  | Fatal e => Fatal e
  | Stuck => Stuck
  | NoFuel => NoFuel
  end.

(** [proc_set[i]] and [proc_set[i] = f(proc_set[i])]. *)
Definition get_proc (i : Z) : M (kernel S) process := fun k =>
  match proc_set k !! Z.to_nat i with
  | Some p => Ok (p, k)
  | None => Stuck
  end.
Definition upd_proc (i : Z) (f : process -> process) : M (kernel S) unit := fun k =>
  match proc_set k !! Z.to_nat i with
  | Some p => Ok (tt, with_procs k (<[Z.to_nat i := f p]> (proc_set k)))
  | None => Stuck
  end.
End state.

(** ** process.c *)
Section Process.
Context {S : Type} (e : earth S).

(** [for (i < MAX_NPROCESS) if (proc_set[i].pid == pid) proc_set[i].status = status;] *)
Definition status_loop (pid : Z) (status : proc_status) (l : list process) : list process :=
  ((fun p => if p_pid p =? pid then set_status p status else p) <$>
     take (Z.to_nat MAX_NPROCESS) l) ++ drop (Z.to_nat MAX_NPROCESS) l.

Definition proc_set_status (pid : Z) (status : proc_status) : M (kernel S) unit :=
  mmodify (fun k => with_procs k (status_loop pid status (proc_set k))).

Definition proc_set_ready (pid : Z) : M (kernel S) unit := proc_set_status pid PROC_READY.
Definition proc_set_running (pid : Z) : M (kernel S) unit := proc_set_status pid PROC_RUNNING.
Definition proc_set_runnable (pid : Z) : M (kernel S) unit := proc_set_status pid PROC_RUNNABLE.
Definition proc_set_pending (pid : Z) : M (kernel S) unit :=
  proc_set_status pid PROC_PENDING_SYSCALL.

(** The loop of [proc_alloc] from index [i] with [n] rounds left. *)
Fixpoint proc_alloc_loop (n : nat) (i : Z) : M (kernel S) Z :=
  match n with
  | O => mfatal ("proc_alloc: reach the limit of " +:+ pretty MAX_NPROCESS +:+ " processes")
  | Datatypes.S n =>
    p ← get_proc i;
    if decide (p_status p = PROC_UNUSED) then
      mmodify (fun k => with_alloc k (u32 (alloc_pid k + 1)));;
      c ← mgets alloc_pid;
      upd_proc i (fun p => set_status (set_pid p (i32 c)) PROC_LOADING);;
      mret (i32 c)
    else proc_alloc_loop n (i + 1)
  end.
Definition proc_alloc : M (kernel S) Z := proc_alloc_loop (Z.to_nat MAX_NPROCESS) 0.

(** [for (i < MAX_NPROCESS) if (...) { mmu_free(pid); status = PROC_UNUSED; }] *)
Fixpoint free_all_loop (n : nat) (i : Z) : M (kernel S) unit :=
  match n with
  | O => mret tt
  | Datatypes.S n =>
    p ← get_proc i;
    (if (GPID_USER_START <=? p_pid p) && negb (bool_decide (p_status p = PROC_UNUSED)) then
       earth_call (mmu_free e (p_pid p));;
       upd_proc i (fun p => set_status p PROC_UNUSED)
     else mret tt);;
    free_all_loop n (i + 1)
  end.

Definition proc_free (pid : Z) : M (kernel S) unit :=
  if negb (pid =? GPID_ALL) then
    earth_call (mmu_free e pid);;
    proc_set_status pid PROC_UNUSED
  else free_all_loop (Z.to_nat MAX_NPROCESS) 0.
End Process.
