(* ===== verification/Kernel.v ===== *)
(** * The kernel: definitions

    [grass/kernel.c]: the trap handler, the scheduler and the system calls.
    A [struct process*] argument is the index of the process in [proc_set]. *)

From stdpp Require Import pretty options.
From S2P Require Import Prelude Earth Process.

Definition INTR_ID_TIMER : Z := 7.
Definition EXCP_ID_ECALL_U : Z := 8.
Definition EXCP_ID_ECALL_M : Z := 11.

Section Kernel.
Context {S : Type} (e : earth S).

Definition core_set_idle (core : Z) : M (kernel S) unit := fun k =>
  match core_to_proc_idx k !! Z.to_nat core with
  | Some _ => Ok (tt, with_idx k (<[Z.to_nat core := MAX_NPROCESS]> (core_to_proc_idx k)))
  | None => Stuck
  end.

(** [#define curr_proc_idx core_to_proc_idx[core_in_kernel]] *)
Definition curr_proc_idx : M (kernel S) Z := fun k =>
  match core_to_proc_idx k !! Z.to_nat (core_in_kernel k) with
  | Some i => Ok (i, k)
  | None => Stuck
  end.
Definition set_curr_proc_idx (i : Z) : M (kernel S) unit := fun k =>
  match core_to_proc_idx k !! Z.to_nat (core_in_kernel k) with
  | Some _ => Ok (tt, with_idx k (<[Z.to_nat (core_in_kernel k) := i]> (core_to_proc_idx k)))
  | None => Stuck
  end.
(** [proc_set[curr_proc_idx]], for [curr_pid], [curr_status] and [curr_saved]. *)
Definition curr_proc : M (kernel S) process := i ← curr_proc_idx; get_proc i.
Definition upd_curr (f : process -> process) : M (kernel S) unit :=
  i ← curr_proc_idx; upd_proc i f.

(** The assignments to [dst->syscall] of a delivery. *)
Definition deliver (sender dst : process) : process :=
  set_syscall dst {|
    sc_type := sc_type (p_syscall dst);
    sc_sender := p_pid sender;
    sc_receiver := sc_receiver (p_syscall dst);
    sc_content := sc_content (p_syscall sender);
    sc_status := DONE |}.

(** The loop of [proc_try_send] from index [i] with [n] rounds left. *)
Fixpoint try_send_loop (sender : process) (n : nat) (i : Z) : M (kernel S) unit :=
  match n with
  | O => mfatal ("proc_try_send: unknown receiver pid=" +:+
                 pretty (sc_receiver (p_syscall sender)))
  | Datatypes.S n =>
    dst ← get_proc i;
    if (p_pid dst =? sc_receiver (p_syscall sender)) &&
       negb (bool_decide (p_status dst = PROC_UNUSED))
    then
      if negb ((sc_type (p_syscall dst) =? SYS_RECV) && (sc_status (p_syscall dst) =? PENDING))
      then mret tt else
      if negb ((sc_sender (p_syscall dst) =? GPID_ALL) ||
               (sc_sender (p_syscall dst) =? p_pid sender))
      then mret tt else
      upd_proc i (deliver sender)
    else try_send_loop sender n (i + 1)
  end.
Definition proc_try_send (sender : Z) : M (kernel S) unit :=
  p ← get_proc sender; try_send_loop p (Z.to_nat MAX_NPROCESS) 0.

Definition proc_try_recv (receiver : Z) : M (kernel S) unit :=
  p ← get_proc receiver;
  if sc_status (p_syscall p) =? PENDING then mret tt else
  syscall_paddr ← earth_call (mmu_translate e (p_pid p) SYSCALL_ARG);
  earth_call (earth_store e syscall_paddr (syscall_encode (p_syscall p)));;
  proc_set_runnable (p_pid p);;
  proc_set_runnable (sc_sender (p_syscall p)).

Definition proc_try_syscall (proc : Z) : M (kernel S) unit :=
  p ← get_proc proc;
  if sc_type (p_syscall p) =? SYS_RECV then proc_try_recv proc
  else if sc_type (p_syscall p) =? SYS_SEND then proc_try_send proc
  else mfatal ("proc_try_syscall: unknown syscall type=" +:+ pretty (i32 (sc_type (p_syscall p)))).

(** [p->status == PROC_READY || p->status == PROC_RUNNABLE] *)
Definition schedulable (p : process) : bool :=
  bool_decide (p_status p = PROC_READY) || bool_decide (p_status p = PROC_RUNNABLE).

(** The loop of [proc_yield] from index [i] with [n] rounds left; the result is
    [next_idx]. *)
Fixpoint yield_loop (n : nat) (i : Z) : M (kernel S) Z :=
  match n with
  | O => mret MAX_NPROCESS
  | Datatypes.S n =>
    curr ← curr_proc_idx;
    let j := u32 (curr + i) mod MAX_NPROCESS in
    p ← get_proc j;
    (if decide (p_status p = PROC_PENDING_SYSCALL) then proc_try_syscall j else mret tt);;
    p ← get_proc j;
    if schedulable p then mret j else yield_loop n (i + 1)
  end.

(** [proc_yield] after the scheduling decision: switch to [next_idx]. *)
Definition proc_dispatch (next_idx : Z) : M (kernel S) unit :=
  set_curr_proc_idx next_idx;;
  p ← curr_proc;
  earth_call (mmu_switch e (p_pid p));;
  earth_call (mmu_flush_cache e);;
  p ← curr_proc;
  (if decide (p_status p = PROC_READY) then
     upd_curr (fun p => set_saved p (<[0%nat := APPS_ARG]> (p_saved_registers p)));;
     upd_curr (fun p => set_saved p (<[1%nat := APPS_ARG + 4]> (p_saved_registers p)));;
     upd_curr (fun p => set_mepc p APPS_ENTRY)
   else mret tt);;
  p ← curr_proc;
  proc_set_running (p_pid p);;
  core ← mgets core_in_kernel;
  earth_call (timer_reset e core).

Definition proc_yield : M (kernel S) unit :=
  p ← curr_proc;
  (if decide (p_status p = PROC_RUNNING) then proc_set_runnable (p_pid p) else mret tt);;
  next_idx ← yield_loop (Z.to_nat MAX_NPROCESS) 1;
  if next_idx <? MAX_NPROCESS then proc_dispatch next_idx
  else core ← mgets core_in_kernel;
       mfatal ("proc_yield: no process to run on core " +:+ pretty (core : Z)).

Definition excp_entry (id : Z) : M (kernel S) unit :=
  if (EXCP_ID_ECALL_U <=? id) && (id <=? EXCP_ID_ECALL_M) then
    p ← curr_proc;
    syscall_paddr ← earth_call (mmu_translate e (p_pid p) SYSCALL_ARG);
    b ← earth_call (earth_load e syscall_paddr sizeof_syscall);
    upd_curr (fun p => set_syscall p (syscall_decode b));;
    upd_curr (fun p => set_syscall p (sc_set_status (p_syscall p) PENDING));;
    p ← curr_proc;
    proc_set_pending (p_pid p);;
    upd_curr (fun p => set_mepc p (u32 (p_mepc p + 4)));;
    idx ← curr_proc_idx;
    proc_try_syscall idx;;
    proc_yield
  else mfatal ("excp_entry: kernel got exception " +:+ pretty (i32 id)).

Definition intr_entry (id : Z) : M (kernel S) unit :=
  if negb (id =? INTR_ID_TIMER)
  then mfatal ("excp_entry: kernel got interrupt " +:+ pretty (i32 id))
  else proc_yield.

(** Reading [mhartid], saving and restoring the context of the current process. *)
Definition save_context : M (kernel S) unit :=
  h ← mgets hw;
  mmodify (fun k => with_core k (mhartid h));;
  upd_curr (fun p => set_mepc p (csr_mepc h));;
  upd_curr (fun p => set_saved p (saved_area h)).
Definition restore_context : M (kernel S) unit :=
  p ← curr_proc;
  mmodify (fun k => with_hart k {| mhartid := mhartid (hw k); csr_mepc := p_mepc p;
                                   mcause := mcause (hw k); saved_area := p_saved_registers p |}).

Definition kernel_entry : M (kernel S) unit :=
  save_context;;
  h ← mgets hw;
  (if Z.testbit (mcause h) 31 then intr_entry (Z.land (mcause h) 0x3FF)
   else excp_entry (mcause h));;
  restore_context.
End Kernel.
