(* ===== verification/KernelInv.v ===== *)
(** * The kernel: invariant

    The invariant of the process table, the relation [kframe] that bounds what
    the kernel changes while it retries system calls, and the weakest
    preconditions of the primitive accesses. *)

From stdpp Require Import options.
From S2P Require Import Prelude Earth Process Kernel.

(** ** The process table *)

(** A system call that was answered: the receiver has its message and waits to
    be resumed. *)
Definition answered (p : process) : Prop :=
  p_status p = PROC_PENDING_SYSCALL /\ sc_type (p_syscall p) = SYS_RECV /\
  sc_status (p_syscall p) <> PENDING.

(** [tbl_inv a l]: [l] is a process table in which the pids up to [a] were
    handed out.  [ti_rdv] is the rendezvous: the process whose message was
    delivered is still in its [SYS_SEND] to the receiver, with the same
    message, or was freed. *)
Record tbl_inv (a : Z) (l : list process) : Prop := {
  ti_len : length l = 17%nat;
  ti_pid i p : (i < 16)%nat -> l !! i = Some p -> 0 <= p_pid p <= a;
  ti_uniq i j p q : (i < 16)%nat -> (j < 16)%nat -> l !! i = Some p -> l !! j = Some q ->
    p_pid p = p_pid q -> 0 < p_pid p -> i = j;
  ti_used i p : (i < 16)%nat -> l !! i = Some p -> p_status p <> PROC_UNUSED -> 0 < p_pid p;
  ti_type i p : (i < 16)%nat -> l !! i = Some p -> p_status p = PROC_PENDING_SYSCALL ->
    sc_type (p_syscall p) = SYS_RECV \/ sc_type (p_syscall p) = SYS_SEND;
  ti_sender i p : (i < 16)%nat -> l !! i = Some p -> answered p ->
    0 < sc_sender (p_syscall p) <= a;
  ti_rdv i j p q : (i < 16)%nat -> (j < 16)%nat -> l !! i = Some p -> l !! j = Some q ->
    answered p -> p_pid q = sc_sender (p_syscall p) ->
    (p_status q = PROC_PENDING_SYSCALL \/ p_status q = PROC_UNUSED) /\
    sc_type (p_syscall q) = SYS_SEND /\ sc_receiver (p_syscall q) = p_pid p /\
    sc_content (p_syscall q) = sc_content (p_syscall p);
  ti_regs i p : l !! i = Some p -> length (p_saved_registers p) = 32%nat;
  ti_sc i p : l !! i = Some p -> syscall_ok (p_syscall p);
}.

Definition nobody_runs (l : list process) : Prop :=
  forall i p, (i < 16)%nat -> l !! i = Some p -> p_status p <> PROC_RUNNING.
(** Exactly the process at index [c] runs. *)
Definition only_runs (l : list process) (c : nat) : Prop :=
  forall i p, (i < 16)%nat -> l !! i = Some p -> (p_status p = PROC_RUNNING <-> i = c).

Lemma status_loop_lookup pid st l i :
  status_loop pid st l !! i =
  (fun p => if bool_decide ((i < 16)%nat /\ p_pid p = pid) then set_status p st else p) <$> l !! i.
Proof.
  unfold status_loop. change (Z.to_nat MAX_NPROCESS) with 16%nat.
  destruct (decide (i < 16)%nat) as [Hi|Hi].
  - destruct (l !! i) as [p|] eqn:Hl; simpl.
    + rewrite lookup_app_l by (rewrite length_fmap, length_take; apply lookup_lt_Some in Hl; lia).
      rewrite list_lookup_fmap, lookup_take_lt, Hl by done. simpl. f_equal.
      destruct (Z.eqb_spec (p_pid p) pid); [by rewrite bool_decide_true|].
      rewrite bool_decide_false; [done|]. by intros [_ ?].
    + apply lookup_ge_None in Hl. apply lookup_ge_None.
      rewrite length_app, length_fmap, length_take, length_drop. lia.
  - destruct (decide (i < length l)%nat) as [Hil|Hil].
    + rewrite lookup_app_r by (rewrite length_fmap, length_take; lia).
      rewrite lookup_drop, length_fmap, length_take.
      replace (16 + (i - 16 `min` length l))%nat with i by lia.
      destruct (l !! i); simpl; [|done]. rewrite bool_decide_false; [done|]. by intros [? _].
    + assert (length l <= i)%nat by lia.
      rewrite (proj2 (lookup_ge_None l i)) by done. simpl. apply lookup_ge_None.
      rewrite length_app, length_fmap, length_take, length_drop. lia.
Qed.

Lemma status_loop_length pid st l : length (status_loop pid st l) = length l.
Proof.
  unfold status_loop. rewrite length_app, length_fmap, length_take, length_drop. lia.
Qed.

(** In a table, [status_loop] on an allocated pid is one update. *)
Lemma status_loop_at a l i p st : tbl_inv a l -> (i < 16)%nat -> l !! i = Some p ->
  0 < p_pid p -> status_loop (p_pid p) st l = <[i := set_status p st]> l.
Proof.
  intros Hinv Hi Hl Hp. apply list_eq. intros j. rewrite status_loop_lookup.
  destruct (decide (i = j)) as [<-|Hne].
  - rewrite Hl, list_lookup_insert_eq by (by eapply lookup_lt_Some). simpl.
    by rewrite bool_decide_true.
  - rewrite list_lookup_insert_ne by done. destruct (l !! j) as [q|] eqn:Hq; [|done].
    simpl. rewrite bool_decide_false; [done|]. intros [Hj Heq].
    apply Hne. symmetry. eapply (ti_uniq a l); eauto; lia.
Qed.

(** and on a pid of no process it is the identity. *)
Lemma status_loop_none l pid st :
  (forall i p, (i < 16)%nat -> l !! i = Some p -> p_pid p <> pid) -> status_loop pid st l = l.
Proof.
  intros Hno. apply list_eq. intros j. rewrite status_loop_lookup.
  destruct (l !! j) as [q|] eqn:Hq; [|done]. simpl.
  rewrite bool_decide_false; [done|]. intros [Hj Heq]. by eapply Hno.
Qed.

(** What a process must still satisfy, as a sender, towards an answered
    receiver [q]. *)
Definition still_sending (p q : process) : Prop :=
  (p_status p = PROC_PENDING_SYSCALL \/ p_status p = PROC_UNUSED) /\
  sc_type (p_syscall p) = SYS_SEND /\ sc_receiver (p_syscall p) = p_pid q /\
  sc_content (p_syscall p) = sc_content (p_syscall q).

(** Changing one process of the table. *)
Lemma tbl_upd a l i p p' : tbl_inv a l -> (i < 16)%nat -> l !! i = Some p ->
  p_pid p' = p_pid p -> length (p_saved_registers p') = 32%nat -> syscall_ok (p_syscall p') ->
  (p_status p' <> PROC_UNUSED -> 0 < p_pid p) ->
  (p_status p' = PROC_PENDING_SYSCALL ->
    sc_type (p_syscall p') = SYS_RECV \/ sc_type (p_syscall p') = SYS_SEND) ->
  (answered p' -> 0 < sc_sender (p_syscall p') <= a /\ sc_sender (p_syscall p') <> p_pid p /\
    forall j q, (j < 16)%nat -> l !! j = Some q -> p_pid q = sc_sender (p_syscall p') ->
      still_sending q p') ->
  (forall j q, (j < 16)%nat -> j <> i -> l !! j = Some q -> answered q ->
    sc_sender (p_syscall q) = p_pid p -> still_sending p' q) ->
  tbl_inv a (<[i := p']> l).
Proof.
  intros Hinv Hi Hl Hpid Hregs Hsc Hused Htype Hans Hsend.
  assert (i < length l)%nat as Hlt by (by eapply lookup_lt_Some).
  assert (forall j q, <[i := p']> l !! j = Some q ->
    (j = i /\ q = p') \/ (j <> i /\ l !! j = Some q)) as Hcase.
  { intros j q [(-> & -> & _)|[? ?]]%list_lookup_insert_Some; [by left|right; by split]. }
  split.
  - rewrite length_insert. apply Hinv.
  - intros j q Hj [[-> ->]|[Hne Hq]]%Hcase; [rewrite Hpid|]; eapply ti_pid; eauto.
  - intros j j' q q' Hj Hj' Hq Hq' Heq Hpos.
    destruct (Hcase _ _ Hq) as [[-> ->]|[Hne Hlq]], (Hcase _ _ Hq') as [[-> ->]|[Hne' Hlq']];
      [done| | |]; eapply (ti_uniq a l); eauto; congruence.
  - intros j q Hj [[-> ->]|[Hne Hq]]%Hcase ?; [rewrite Hpid; auto|]. eapply ti_used; eauto.
  - intros j q Hj [[-> ->]|[Hne Hq]]%Hcase ?; [auto|]. eapply ti_type; eauto.
  - intros j q Hj [[-> ->]|[Hne Hq]]%Hcase ?; [by apply Hans|]. eapply ti_sender; eauto.
  - intros j j' q q' Hj Hj' Hq Hq' Ha Heq.
    destruct (Hcase _ _ Hq) as [[-> ->]|[Hne Hlq]], (Hcase _ _ Hq') as [[-> ->]|[Hne' Hlq']].
    + destruct (Hans Ha) as (_ & Hno & _). congruence.
    + destruct (Hans Ha) as (_ & _ & Hrdv). by eapply Hrdv.
    + rewrite Hpid in Heq. by apply (Hsend j q).
    + by apply (ti_rdv a l Hinv j j').
  - intros j q [[-> ->]|[Hne Hq]]%Hcase; [done|]. eapply ti_regs; eauto.
  - intros j q [[-> ->]|[Hne Hq]]%Hcase; [done|]. eapply ti_sc; eauto.
Qed.

(** A process that is neither blocked nor free is the sender of no answered
    receiver. *)
Lemma active_no_sender a l i j p q : tbl_inv a l -> (i < 16)%nat -> (j < 16)%nat ->
  l !! i = Some p -> l !! j = Some q -> answered q ->
  p_status p <> PROC_PENDING_SYSCALL -> p_status p <> PROC_UNUSED ->
  sc_sender (p_syscall q) <> p_pid p.
Proof.
  intros Hinv Hi Hj Hp Hq Ha Hs Hu Heq.
  destruct (ti_rdv a l Hinv j i q p) as [[?|?] _]; eauto.
Qed.

(** Any change of an active process that leaves it unanswered. *)
Lemma tbl_upd_active a l i p p' : tbl_inv a l -> (i < 16)%nat -> l !! i = Some p ->
  p_status p <> PROC_PENDING_SYSCALL -> p_status p <> PROC_UNUSED ->
  p_pid p' = p_pid p -> length (p_saved_registers p') = 32%nat -> syscall_ok (p_syscall p') ->
  (p_status p' = PROC_PENDING_SYSCALL ->
    sc_type (p_syscall p') = SYS_RECV \/ sc_type (p_syscall p') = SYS_SEND) ->
  ~ answered p' -> tbl_inv a (<[i := p']> l).
Proof.
  intros Hinv Hi Hp Hb Hu Hpid Hregs Hsc Hty Hans.
  apply (tbl_upd a l i p p'); auto.
  - intros _. by apply (ti_used _ _ Hinv i).
  - intros Ha. done.
  - intros j q Hj Hne Hq Ha Heq. by destruct (active_no_sender a l i j p q).
Qed.

(** Changing the status of a process that no answered receiver waits for. *)
Lemma tbl_set_status a l i p st : tbl_inv a l -> (i < 16)%nat -> l !! i = Some p ->
  (st <> PROC_UNUSED -> 0 < p_pid p) -> st <> PROC_PENDING_SYSCALL ->
  (forall j q, (j < 16)%nat -> j <> i -> l !! j = Some q -> answered q ->
    sc_sender (p_syscall q) <> p_pid p) ->
  tbl_inv a (<[i := set_status p st]> l).
Proof.
  intros Hinv Hi Hl Hused Hst Hno.
  eapply tbl_upd; eauto; simpl; [eapply ti_regs|eapply ti_sc|done| |]; eauto.
  - intros [? _]. done.
  - intros j q Hj Hne Hq Ha Heq. by destruct (Hno j q).
Qed.

Lemma tbl_set_status_active a l i p st : tbl_inv a l -> (i < 16)%nat -> l !! i = Some p ->
  p_status p <> PROC_PENDING_SYSCALL -> p_status p <> PROC_UNUSED ->
  st <> PROC_PENDING_SYSCALL -> tbl_inv a (<[i := set_status p st]> l).
Proof.
  intros Hinv Hi Hp Hb Hu Hst. apply tbl_set_status; auto.
  - intros _. by apply (ti_used _ _ Hinv i).
  - intros j q Hj Hne Hq Ha. by apply (active_no_sender a l i j p q).
Qed.

Lemma find_pid (l : list process) (pid : Z) :
  (exists i p, (i < 16)%nat /\ l !! i = Some p /\ p_pid p = pid) \/
  (forall i p, (i < 16)%nat -> l !! i = Some p -> p_pid p <> pid).
Proof.
  destruct (decide (Exists (fun p => p_pid p = pid) (take 16 l))) as [Hex|Hno].
  - left. apply Exists_exists in Hex as (p & Hin & Hp).
    apply list_elem_of_lookup in Hin as (i & Hi). apply lookup_take_Some in Hi as [Hi Hlt].
    by exists i, p.
  - right. intros i p Hi Hp Heq. apply Hno, Exists_exists. exists p. split; [|done].
    apply list_elem_of_lookup. exists i. by rewrite lookup_take_lt.
Qed.

Lemma tbl_status_loop a l pid st : tbl_inv a l -> 0 < pid -> st <> PROC_PENDING_SYSCALL ->
  (forall i p j q, (i < 16)%nat -> l !! i = Some p -> p_pid p = pid ->
    (j < 16)%nat -> j <> i -> l !! j = Some q -> answered q -> sc_sender (p_syscall q) <> pid) ->
  tbl_inv a (status_loop pid st l).
Proof.
  intros Hinv Hpos Hst Hno. destruct (find_pid l pid) as [(i & p & Hi & Hp & <-)|Hnone].
  - erewrite status_loop_at by eauto. apply tbl_set_status; auto.
    intros j q Hj Hne Hq. by apply (Hno i p j q).
  - by rewrite status_loop_none.
Qed.

(** Freeing a process: allowed whoever waits for it. *)
Lemma tbl_free a l i p : tbl_inv a l -> (i < 16)%nat -> l !! i = Some p ->
  tbl_inv a (<[i := set_status p PROC_UNUSED]> l).
Proof.
  intros Hinv Hi Hl.
  eapply tbl_upd; eauto; simpl; [eapply ti_regs|eapply ti_sc|done|done| |]; eauto.
  - intros [? _]. done.
  - intros j q Hj Hne Hq Ha Heq.
    destruct (ti_rdv a l Hinv j i q p) as (_ & ? & ? & ?); eauto. split; simpl; auto.
Qed.

(** ** Primitive accesses *)
Section prims.
Context {S : Type} (E : string -> Prop).
Implicit Types (k : kernel S).

Lemma wp_earth_call {A} (m : M S A) k Q :
  wp (fun _ => False) m (mach k) (fun a s => Q a (with_mach k s)) -> wp E (earth_call m) k Q.
Proof. unfold wp, earth_call. by destruct (m (mach k)) as [[a s]| | |]. Qed.

Lemma wp_get_proc i p k (Q : process -> kernel S -> Prop) :
  proc_set k !! Z.to_nat i = Some p -> Q p k -> wp E (get_proc i) k Q.
Proof. unfold wp, get_proc. by intros ->. Qed.

Lemma wp_upd_proc i p f k (Q : unit -> kernel S -> Prop) :
  proc_set k !! Z.to_nat i = Some p ->
  Q tt (with_procs k (<[Z.to_nat i := f p]> (proc_set k))) -> wp E (upd_proc i f) k Q.
Proof. unfold wp, upd_proc. by intros ->. Qed.

Lemma wp_modify (f : kernel S -> kernel S) k (Q : unit -> kernel S -> Prop) :
  Q tt (f k) -> wp E (mmodify f) k Q.
Proof. done. Qed.

Lemma wp_gets {A} (f : kernel S -> A) k (Q : A -> kernel S -> Prop) :
  Q (f k) k -> wp E (mgets f) k Q.
Proof. done. Qed.

(** The index of the process on the core that is in the kernel. *)
Definition at_idx k (c : Z) : Prop :=
  core_to_proc_idx k !! Z.to_nat (core_in_kernel k) = Some c.

Lemma wp_curr_proc_idx c k (Q : Z -> kernel S -> Prop) :
  at_idx k c -> Q c k -> wp E curr_proc_idx k Q.
Proof. unfold wp, curr_proc_idx, at_idx. by intros ->. Qed.

Lemma wp_set_curr_proc_idx c i k (Q : unit -> kernel S -> Prop) :
  at_idx k c ->
  Q tt (with_idx k (<[Z.to_nat (core_in_kernel k) := i]> (core_to_proc_idx k))) ->
  wp E (set_curr_proc_idx i) k Q.
Proof. unfold wp, set_curr_proc_idx, at_idx. by intros ->. Qed.

Lemma wp_curr_proc c p k (Q : process -> kernel S -> Prop) :
  at_idx k c -> proc_set k !! Z.to_nat c = Some p -> Q p k -> wp E curr_proc k Q.
Proof.
  intros. unfold curr_proc. apply wp_bind. eapply wp_curr_proc_idx; [done|].
  by eapply wp_get_proc.
Qed.

Lemma wp_upd_curr c p f k (Q : unit -> kernel S -> Prop) :
  at_idx k c -> proc_set k !! Z.to_nat c = Some p ->
  Q tt (with_procs k (<[Z.to_nat c := f p]> (proc_set k))) -> wp E (upd_curr f) k Q.
Proof.
  intros. unfold upd_curr. apply wp_bind. eapply wp_curr_proc_idx; [done|].
  by eapply wp_upd_proc.
Qed.
End prims.
