(* ===== verification/KernelIpc.v ===== *)
(** * The kernel: system calls

    What [proc_try_send], [proc_try_recv] and [proc_try_syscall] do to the
    process table and to the address spaces, and the relation [kframe] that
    bounds it. *)

From stdpp Require Import pretty options.
From S2P Require Import Prelude Earth Process Kernel KernelInv.

(** [dst] takes a message from [sender]. *)
Definition accepts (dst sender : process) : bool :=
  (sc_type (p_syscall dst) =? SYS_RECV) && (sc_status (p_syscall dst) =? PENDING) &&
  ((sc_sender (p_syscall dst) =? GPID_ALL) || (sc_sender (p_syscall dst) =? p_pid sender)).

Definition receives (sender dst : process) : Prop :=
  p_pid dst = sc_receiver (p_syscall sender) /\ p_status dst <> PROC_UNUSED.

(** The page of the system-call arguments. *)
Definition SYSCALL_PAGE : Z := SYSCALL_ARG / PAGE_SIZE.
(** The page after the kernel wrote [sc] to it. *)
Definition put_syscall (sc : syscall) (pg : page) : page := splice pg 0 (syscall_encode sc).

(** How the kernel changes one process [p] of the table [l] while it retries
    system calls: it may become runnable, and a pending receive may be answered
    with the message of a process blocked in a send to it. *)
Record proc_evolves (l : list process) (p p' : process) : Prop := {
  pe_pid : p_pid p' = p_pid p;
  pe_mepc : p_mepc p' = p_mepc p;
  pe_regs : p_saved_registers p' = p_saved_registers p;
  pe_status : p_status p' = p_status p \/ p_status p' = PROC_RUNNABLE;
  pe_syscall : p_syscall p' = p_syscall p \/
    exists j q, (j < 16)%nat /\ l !! j = Some q /\ p_status q = PROC_PENDING_SYSCALL /\
      sc_type (p_syscall q) = SYS_SEND /\ p_pid p = sc_receiver (p_syscall q) /\
      accepts p q = true /\
      p_syscall p' = p_syscall (deliver q p);
  pe_ready : p_status p = PROC_READY -> p_status p' = PROC_READY;
}.

Definition tbl_evolves (l l' : list process) : Prop :=
  length l' = length l /\
  forall i p, l !! i = Some p -> exists p', l' !! i = Some p' /\ proc_evolves l p p'.

Section ipc.
Context {S : Type} (e : earth S) `{!EarthSpec e}.
Implicit Types (k : kernel S).

Definition kinv k : Prop :=
  tbl_inv (alloc_pid k) (proc_set k) /\ 0 <= alloc_pid k < 2 ^ 31 /\ earth_inv (mach k).

(** The process [q] completes a receive between [k] and [k']: its call, blocked
    in [k], was answered, and it is runnable in [k']. *)
Definition completes k k' (q : Z) (sc : syscall) : Prop :=
  exists i p p', (i < 16)%nat /\ proc_set k !! i = Some p /\ proc_set k' !! i = Some p' /\
    p_pid p = q /\ p_pid p' = q /\ 0 < q /\ p_status p = PROC_PENDING_SYSCALL /\ p_status p' = PROC_RUNNABLE /\
    sc_type sc = SYS_RECV /\ sc_status sc <> PENDING /\ p_syscall p' = sc.

Record kframe k k' : Prop := {
  kf_idx : core_to_proc_idx k' = core_to_proc_idx k;
  kf_core : core_in_kernel k' = core_in_kernel k;
  kf_alloc : alloc_pid k' = alloc_pid k;
  kf_hw : hw k' = hw k;
  kf_tbl : tbl_evolves (proc_set k) (proc_set k');
  kf_mem q v : aspace (mach k') q v = aspace (mach k) q v \/
    (v = SYSCALL_PAGE /\ exists sc, completes k k' q sc /\
       aspace (mach k') q v = put_syscall sc <$> aspace (mach k) q v);
}.

Lemma proc_evolves_refl l p : proc_evolves l p p.
Proof. split; auto. Qed.

Lemma kframe_refl k : kframe k k.
Proof.
  split; auto. split; [done|]. intros i p Hp. exists p. eauto using proc_evolves_refl.
Qed.

Lemma proc_evolves_blocked l p p' : proc_evolves l p p' ->
  p_status p' = PROC_PENDING_SYSCALL -> p_status p = PROC_PENDING_SYSCALL.
Proof. intros [_ _ _ [-> | ->] _]; [done|discriminate]. Qed.

(** A call that no longer waits for a message is left alone. *)
Lemma proc_evolves_answered l p p' : proc_evolves l p p' ->
  ~ (sc_type (p_syscall p) = SYS_RECV /\ sc_status (p_syscall p) = PENDING) ->
  p_syscall p' = p_syscall p.
Proof.
  intros [_ _ _ _ [-> |(j & q & _ & _ & _ & _ & _ & Hacc & _)]] Hno; [done|].
  destruct Hno. unfold accepts in Hacc.
  rewrite !andb_true_iff in Hacc. destruct Hacc as [[H1 H2] _].
  by apply Z.eqb_eq in H1, H2.
Qed.

Lemma deliver_answered q p : ~ (sc_type (p_syscall (deliver q p)) = SYS_RECV /\
  sc_status (p_syscall (deliver q p)) = PENDING).
Proof. intros [_ ?]. done. Qed.

Lemma proc_evolves_trans l l' p p' p'' : tbl_evolves l l' ->
  proc_evolves l p p' -> proc_evolves l' p' p'' -> proc_evolves l p p''.
Proof.
  intros [Hlen Hl] Hp Hp'. pose proof Hp as [Hpid Hm Hr Hs Hc Hy].
  pose proof Hp' as [Hpid' Hm' Hr' Hs' Hc' Hy']. split; [congruence..| | |auto].
  - destruct Hs' as [-> | ->]; auto.
  - destruct Hc as [Hc|(j & q & Hj & Hq & Hqs & Hqt & Hrec & Hacc & Hc)].
    + destruct Hc' as [-> |(j & q' & Hj & Hq' & Hqs & Hqt & Hrec & Hacc & Hc')]; [by left|].
      right. destruct (l !! j) as [q|] eqn:Hq.
      2: { apply lookup_ge_None in Hq. apply lookup_lt_Some in Hq'. lia. }
      destruct (Hl j q Hq) as (q2 & Hq2 & Hev). simplify_eq.
      pose proof (proc_evolves_blocked _ _ _ Hev Hqs) as Hqb.
      assert (p_syscall q' = p_syscall q) as Hsc.
      { destruct Hev as [_ _ _ _ [-> |(j2 & q3 & _ & _ & _ & _ & _ & Hacc3 & Heq)]]; [done|].
        rewrite Heq in Hqt. unfold accepts in Hacc3. simpl in Hqt. rewrite Hqt in Hacc3. done. }
      exists j, q. unfold accepts, deliver in *. simpl in *.
      rewrite <- Hc, <- Hsc, <- Hpid, <- (pe_pid _ _ _ Hev). auto 10.
    + right. exists j, q. rewrite <- Hc. repeat split; auto.
      eapply proc_evolves_answered; [exact Hp'|]. rewrite Hc. apply deliver_answered.
Qed.
Lemma tbl_evolves_trans l1 l2 l3 :
  tbl_evolves l1 l2 -> tbl_evolves l2 l3 -> tbl_evolves l1 l3.
Proof.
  intros H12 [Hlen H23]. split; [rewrite Hlen; apply H12|]. intros i p Hp.
  destruct (proj2 H12 i p Hp) as (p2 & Hp2 & He2).
  destruct (H23 i p2 Hp2) as (p3 & Hp3 & He3). exists p3. split; [done|].
  by eapply proc_evolves_trans.
Qed.

(** A completed receive stays completed, and a later one was already waiting. *)
Lemma completes_l k1 k2 k3 q sc :
  tbl_evolves (proc_set k2) (proc_set k3) -> completes k1 k2 q sc -> completes k1 k3 q sc.
Proof.
  intros [_ H23] (i & p & p' & Hi & Hp & Hp' & Hq & Hq2 & Hpos & Hb & Hr & Ht & Hs & Hsc).
  destruct (H23 i p' Hp') as (p3 & Hp3 & He3). exists i, p, p3. split_and!; auto.
  - rewrite <- Hq2. apply (pe_pid _ _ _ He3).
  - destruct (pe_status _ _ _ He3) as [-> | ->]; done.
  - rewrite <- Hsc. eapply proc_evolves_answered; [done|]. rewrite Hsc. by intros [_ ?].
Qed.

Lemma completes_r k1 k2 k3 q sc :
  tbl_evolves (proc_set k1) (proc_set k2) -> completes k2 k3 q sc -> completes k1 k3 q sc.
Proof.
  intros [Hlen H12] (i & p & p' & Hi & Hp & Hp' & Hq & Hq2 & Hpos & Hb & Hrest).
  destruct (proc_set k1 !! i) as [p1|] eqn:Hp1.
  2: { apply lookup_ge_None in Hp1. apply lookup_lt_Some in Hp. lia. }
  destruct (H12 i p1 Hp1) as (p2 & Hp2 & He). simplify_eq.
  exists i, p1, p'. split_and!; try apply Hrest; auto.
  - symmetry. apply (pe_pid _ _ _ He).
  - by eapply proc_evolves_blocked.
Qed.

(** One process does not complete twice. *)
Lemma completes_once k1 k2 k3 q sc sc' : kinv k2 ->
  completes k1 k2 q sc -> completes k2 k3 q sc' -> False.
Proof.
  intros [Hinv _] (i & p & p' & Hi & Hp & Hp' & Hq & Hq2 & Hpos & Hb & Hr & _)
    (j & r & r' & Hj & Hr1 & Hr1' & Hq' & Hq2' & Hpos' & Hb' & _).
  assert (i = j) as -> by (eapply (ti_uniq _ _ Hinv i j p' r); eauto; congruence).
  congruence.
Qed.

Lemma kframe_trans k1 k2 k3 : kinv k2 -> kframe k1 k2 -> kframe k2 k3 -> kframe k1 k3.
Proof.
  intros Hinv [? ? ? ? Ht Hm] [? ? ? ? Ht' Hm']. split; [congruence..| |].
  - by eapply tbl_evolves_trans.
  - intros q v. destruct (Hm q v) as [Heq|(Hv0 & sc & Hc & Heq)],
      (Hm' q v) as [Heq'|(Hv & sc' & Hc' & Heq')].
    + left. congruence.
    + right. split; [done|]. exists sc'. split; [by eapply completes_r|congruence].
    + right. split; [done|]. exists sc. split; [by eapply completes_l|congruence].
    + destruct (completes_once k1 k2 k3 q sc sc'); auto.
Qed.

(** ** proc_try_send *)
Definition unknown_receiver (r : Z) : string := "proc_try_send: unknown receiver pid=" +:+ pretty r.

(** The state after a delivery attempt to the process at index [i]. *)
Definition sent k (p : process) (i : nat) (dst : process) : kernel S :=
  if accepts dst p then with_procs k (<[i := deliver p dst]> (proc_set k)) else k.

Lemma wp_try_send_loop E p n i k Q :
  (i + n = 16)%nat -> (16 <= length (proc_set k))%nat ->
  (forall j q, (j < i)%nat -> proc_set k !! j = Some q -> ~ receives p q) ->
  ((forall j q, (j < 16)%nat -> proc_set k !! j = Some q -> ~ receives p q) ->
    E (unknown_receiver (sc_receiver (p_syscall p)))) ->
  (forall j q, (j < 16)%nat -> proc_set k !! j = Some q -> receives p q -> Q tt (sent k p j q)) ->
  wp E (try_send_loop p n (Z.of_nat i)) k Q.
Proof.
  revert i. induction n as [|n IH]; intros i Hn Hlen Hbelow HE HQ; cbn [try_send_loop].
  { apply wp_fatal, HE. intros j q Hj. apply Hbelow. lia. }
  apply wp_bind. destruct (proc_set k !! i) as [dst|] eqn:Hdst.
  2: { apply lookup_ge_None in Hdst. lia. }
  eapply wp_get_proc; [by rewrite Nat2Z.id|].
  destruct (Z.eqb_spec (p_pid dst) (sc_receiver (p_syscall p))) as [Hpid|Hpid]; cbn [andb].
  - case_bool_decide as Hu; cbn [negb].
    + replace (Z.of_nat i + 1) with (Z.of_nat (Datatypes.S i)) by lia. apply IH; auto; [lia|].
      intros j q Hj Hq [? ?]. destruct (decide (j = i)) as [->|]; [by simplify_eq|].
      destruct (Hbelow j q) as []; [lia|done|done].
    + specialize (HQ i dst ltac:(lia) Hdst (conj Hpid Hu)). unfold sent, accepts in HQ.
      destruct ((sc_type (p_syscall dst) =? SYS_RECV) && (sc_status (p_syscall dst) =? PENDING));
        cbn [negb andb] in *; [|by apply wp_ret].
      destruct ((sc_sender (p_syscall dst) =? GPID_ALL) || (sc_sender (p_syscall dst) =? p_pid p));
        cbn [negb] in *; [|by apply wp_ret].
      eapply wp_upd_proc; [by rewrite Nat2Z.id|]. by rewrite Nat2Z.id.
  - replace (Z.of_nat i + 1) with (Z.of_nat (Datatypes.S i)) by lia. apply IH; auto; [lia|].
    intros j q Hj Hq [? ?]. destruct (decide (j = i)) as [->|]; [by simplify_eq|].
    destruct (Hbelow j q) as []; [lia|done|done].
Qed.

Lemma wp_try_send E k j p Q : kinv k -> proc_set k !! j = Some p ->
  ((forall i q, (i < 16)%nat -> proc_set k !! i = Some q -> ~ receives p q) ->
    E (unknown_receiver (sc_receiver (p_syscall p)))) ->
  (forall i q, (i < 16)%nat -> proc_set k !! i = Some q -> receives p q -> Q tt (sent k p i q)) ->
  wp E (proc_try_send (Z.of_nat j)) k Q.
Proof.
  intros [Hinv _] Hp HE HQ. apply wp_bind. eapply wp_get_proc; [by rewrite Nat2Z.id|].
  apply (wp_try_send_loop E p 16 0); auto; [|lia].
  rewrite (ti_len _ _ Hinv). lia.
Qed.

Lemma deliver_ok p q : syscall_ok (p_syscall p) -> syscall_ok (p_syscall q) ->
  0 <= p_pid p < 2 ^ 31 -> syscall_ok (p_syscall (deliver p q)).
Proof.
  unfold syscall_ok, DONE. cbn [deliver set_syscall p_syscall sc_type sc_sender sc_receiver
    sc_content sc_status]. intros (? & ? & ? & ? & ?) (? & ? & ? & ? & ?) ?. split_and!; (done || lia).
Qed.

Lemma accepts_recv q p : accepts q p = true ->
  sc_type (p_syscall q) = SYS_RECV /\ sc_status (p_syscall q) = PENDING.
Proof.
  unfold accepts. rewrite !andb_true_iff, !Z.eqb_eq. by intros [[? ?] _].
Qed.

Lemma sent_inv k j p i q : kinv k -> (i < 16)%nat -> (j < 16)%nat ->
  proc_set k !! j = Some p -> p_status p = PROC_PENDING_SYSCALL ->
  sc_type (p_syscall p) = SYS_SEND -> proc_set k !! i = Some q -> receives p q ->
  kinv (sent k p i q).
Proof.
  intros (Hinv & Ha & He) Hi Hj Hp Hst Hty Hq [Hrq Hu]. unfold sent.
  destruct (accepts q p) eqn:Hacc; [|done]. destruct (accepts_recv _ _ Hacc) as [Ht Hs].
  assert (0 < p_pid p <= alloc_pid k) as Hpp.
  { split; [eapply ti_used|eapply ti_pid]; eauto. by rewrite Hst. }
  assert (p_pid p <> p_pid q) as Hne.
  { intros Heq. assert (i = j) as -> by (eapply (ti_uniq _ _ Hinv i j); eauto; lia).
    simplify_eq. rewrite Hty in Ht. discriminate. }
  split; [|done]. cbn. eapply tbl_upd; eauto; cbn.
  - eapply ti_regs; eauto.
  - apply deliver_ok; [eapply ti_sc; eauto..|lia].
  - by apply (ti_used _ _ Hinv i).
  - intros _. split_and!; [lia|lia|done|]. intros j' q' Hj' Hq' Heq.
    assert (j' = j) as -> by (eapply (ti_uniq _ _ Hinv j' j); eauto; lia).
    simplify_eq. split_and!; auto.
  - intros j' q' Hj' Hne' Hq' Hans Heq.
    destruct (ti_rdv _ _ Hinv j' i q' q) as (_ & Hty' & _); eauto.
    rewrite Hty' in Ht. discriminate.
Qed.

Lemma sent_kframe k j p i q : (j < 16)%nat ->
  proc_set k !! j = Some p -> p_status p = PROC_PENDING_SYSCALL ->
  sc_type (p_syscall p) = SYS_SEND -> proc_set k !! i = Some q -> receives p q ->
  kframe k (sent k p i q).
Proof.
  intros Hj Hp Hst Hty Hq [Hrq Hu]. unfold sent.
  destruct (accepts q p) eqn:Hacc; [|apply kframe_refl]. split; auto; cbn.
  split; [by rewrite length_insert|]. intros i' q' Hq'.
  destruct (decide (i' = i)) as [->|].
  - rewrite Hq in Hq'. injection Hq' as <-. exists (deliver p q). split.
    + apply list_lookup_insert_eq. by eapply lookup_lt_Some.
    + split; cbn; auto. right. exists j, p. auto 10.
  - exists q'. rewrite list_lookup_insert_ne by done. auto using proc_evolves_refl.
Qed.

(** ** proc_try_recv *)

(** The table after a receive completed: the receiver at index [i] and its
    sender, if it is still in the table, become runnable. *)
Definition received (l : list process) (i : nat) (p : process) : list process :=
  status_loop (sc_sender (p_syscall p)) PROC_RUNNABLE (<[i := set_status p PROC_RUNNABLE]> l).

Lemma received_inv a l i p : tbl_inv a l -> (i < 16)%nat -> l !! i = Some p -> answered p ->
  tbl_inv a (received l i p).
Proof.
  intros Hinv Hi Hp Hans. pose proof Hans as (Hst & Hty & Hs).
  pose proof (ti_sender _ _ Hinv i p Hi Hp Hans) as Hsnd.
  set (l1 := <[i := set_status p PROC_RUNNABLE]> l).
  assert (l1 !! i = Some (set_status p PROC_RUNNABLE)) as Hl1
    by (apply list_lookup_insert_eq; by eapply lookup_lt_Some).
  assert (tbl_inv a l1) as Hinv1.
  { apply tbl_set_status; auto; [by intros _; apply (ti_used _ _ Hinv i); [..|rewrite Hst]|].
    intros j q Hj Hne Hq Ha Heq.
    destruct (ti_rdv _ _ Hinv j i q p) as (_ & Hty' & _); auto. rewrite Hty in Hty'. discriminate. }
  apply tbl_status_loop; [done|lia|done|]. intros m r j q Hm Hr Hrp Hj Hne Hq Ha Heq.
  assert (j <> i) as Hji.
  { intros ->. fold l1 in Hq. rewrite Hl1 in Hq. injection Hq as <-. by destruct Ha as [? _]. }
  assert (exists r0, l !! m = Some r0 /\ p_pid r0 = p_pid r /\ p_syscall r0 = p_syscall r)
    as (r0 & Hr0 & Hp0 & Hs0).
  { apply list_lookup_insert_Some in Hr as [(<- & <- & _)|[_ ?]]; eauto. }
  rewrite list_lookup_insert_ne in Hq by done.
  destruct (ti_rdv _ _ Hinv i m p r0) as (_ & _ & Hrcv & _); auto; [congruence|].
  destruct (ti_rdv _ _ Hinv j m q r0) as (_ & _ & Hrcv' & _); auto; [congruence|].
  apply Hji. apply (ti_uniq _ _ Hinv j i q p); auto; [congruence|].
  apply (ti_used _ _ Hinv j); auto. destruct Ha as [-> _]. done.
Qed.

Lemma received_lookup l i p j : (i < 16)%nat -> l !! i = Some p ->
  exists b, received l i p !! j =
    (fun q => if b : bool then set_status q PROC_RUNNABLE else q) <$> l !! j /\
    (j = i -> b = true) /\
    (b = true -> j = i \/ forall q, l !! j = Some q -> (j < 16)%nat /\ p_pid q = sc_sender (p_syscall p)).
Proof.
  intros Hi Hp. unfold received. rewrite status_loop_lookup.
  destruct (decide (j = i)) as [->|Hne].
  - exists true. rewrite list_lookup_insert_eq by (by eapply lookup_lt_Some).
    rewrite Hp. cbn. split; [|by auto]. by case_bool_decide.
  - rewrite list_lookup_insert_ne by done. destruct (l !! j) as [q|]; cbn.
    + eexists. split; [reflexivity|]. split; [done|]. intros Hb%bool_decide_eq_true. right. by intros ? [= <-].
    + exists true. split; [done|]. split; [done|]. by right.
Qed.

Lemma received_evolves a l i p : tbl_inv a l -> (i < 16)%nat -> l !! i = Some p -> answered p ->
  tbl_evolves l (received l i p).
Proof.
  intros Hinv Hi Hp Hans. split.
  { unfold received. by rewrite status_loop_length, length_insert. }
  intros j q Hq. destruct (received_lookup l i p j Hi Hp) as (b & Hb & _ & Hbt).
  rewrite Hb, Hq. cbn. eexists. split; [reflexivity|]. destruct b; split; auto.
  intros Hr. exfalso. destruct (Hbt eq_refl) as [->|Hs].
  - rewrite Hp in Hq. injection Hq as <-. destruct Hans as [Hst _]. congruence.
  - destruct (Hs q Hq) as [Hj Hpid]. destruct (ti_rdv _ _ Hinv i j p q) as [[?|?] _]; auto; congruence.
Qed.

Lemma length_syscall_encode sc : syscall_ok sc -> length (syscall_encode sc) = sizeof_syscall.
Proof.
  intros (_ & _ & _ & Hlen & _). unfold syscall_encode.
  rewrite !length_app, !length_le_split, Hlen. reflexivity.
Qed.

Lemma decode_encode sc : syscall_ok sc -> syscall_decode (syscall_encode sc) = sc.
Proof.
  intros (Ht & Hs & Hr & Hlen & Hst). destruct sc as [t sn rc ct st]. cbn in *.
  unfold syscall_decode, syscall_encode. cbn [sc_type sc_sender sc_receiver sc_content sc_status].
  assert (length (le_split 4 t ++ le_split 4 sn) = (4 * 2)%nat) as H2
    by (by rewrite length_app, !length_le_split).
  assert (length (le_split 4 t ++ le_split 4 sn ++ le_split 4 rc) = 12%nat) as H3
    by (by rewrite !length_app, !length_le_split).
  assert (length (le_split 4 t ++ le_split 4 sn ++ le_split 4 rc ++ ct) = (4 * 259)%nat) as H4
    by (rewrite !length_app, !length_le_split, Hlen; done).
  f_equal.
  - etransitivity; [by apply (get32_app [] t _ 0)|by apply u32_id].
  - rewrite (get32_app (le_split 4 t) sn _ 1) by apply length_le_split.
    rewrite i32_u32. by apply i32_id.
  - rewrite (assoc_L (++)), (get32_app (le_split 4 t ++ le_split 4 sn) rc _ 2) by done. rewrite i32_u32. by apply i32_id.
  - replace (le_split 4 t ++ le_split 4 sn ++ le_split 4 rc ++ ct ++ le_split 4 st)
      with ((le_split 4 t ++ le_split 4 sn ++ le_split 4 rc) ++ ct ++ le_split 4 st)
      by (by rewrite <- !(assoc_L (++))).
    rewrite drop_app_length' by done. by apply take_app_length'.
  - replace (le_split 4 t ++ le_split 4 sn ++ le_split 4 rc ++ ct ++ le_split 4 st)
      with ((le_split 4 t ++ le_split 4 sn ++ le_split 4 rc ++ ct) ++ le_split 4 st ++ [])
      by (by rewrite <- !(assoc_L (++)), app_nil_r).
    rewrite get32_app by done. by apply u32_id.
Qed.

Lemma encode_decode b : length b = sizeof_syscall -> syscall_encode (syscall_decode b) = b.
Proof.
  unfold sizeof_syscall. intros Hb. unfold syscall_encode, syscall_decode.
  cbn [sc_type sc_sender sc_receiver sc_content sc_status].
  rewrite <- (le_split_u32 (i32 (get32 b 1))), <- (le_split_u32 (i32 (get32 b 2))), !u32_i32,
    !le_split_u32, !le_split_get32 by lia.
  change (Z.to_nat SYSCALL_MSG_LEN) with 1024%nat.
  assert (forall a n, take n (drop a b) ++ drop (a + n) b = drop a b) as Hj
    by (intros a n; rewrite <- drop_drop; apply take_drop).
  rewrite (take_ge (drop (4 * 259) b)) by (rewrite length_drop; lia).
  change (drop (4 * 259) b) with (drop (12 + 1024) b). rewrite Hj.
  change (drop 12 b) with (drop (4 * 2 + 4) b). rewrite Hj.
  change (drop (4 * 2) b) with (drop (4 * 1 + 4) b). rewrite Hj. apply (Hj 0%nat 4%nat).
Qed.

(** The machine after [proc_try_recv] wrote [sc] to the process [pid]. *)
Definition delivered (s s' : S) (pid : Z) (sc : syscall) : Prop :=
  earth_inv s' /\ forall q v, aspace s' q v =
    if decide (q = pid /\ v = SYSCALL_PAGE)
    then put_syscall sc <$> aspace s q v else aspace s q v.

Lemma wp_try_recv E k i p Q : kinv k -> (i < 16)%nat -> proc_set k !! i = Some p ->
  p_status p = PROC_PENDING_SYSCALL -> sc_type (p_syscall p) = SYS_RECV ->
  (sc_status (p_syscall p) = PENDING -> Q tt k) ->
  (forall s', answered p -> delivered (mach k) s' (p_pid p) (p_syscall p) ->
    Q tt (with_procs (with_mach k s') (received (proc_set k) i p))) ->
  wp E (proc_try_recv e (Z.of_nat i)) k Q.
Proof.
  intros (Hinv & Ha & He) Hi Hp Hst Hty HQ0 HQ. apply wp_bind.
  eapply wp_get_proc; [by rewrite Nat2Z.id|].
  destruct (Z.eqb_spec (sc_status (p_syscall p)) PENDING) as [Hs|Hs]; [by apply wp_ret, HQ0|].
  assert (0 < p_pid p) as Hpos by (apply (ti_used _ _ Hinv i); [..|rewrite Hst]; done).
  apply wp_bind, wp_earth_call. eapply wp_mono; [by apply translate_spec|].
  intros pa s1 (He1 & Hre & Has1).
  apply wp_bind, wp_earth_call. cbn [mach with_mach]. eapply wp_mono.
  { eapply store_spec; [done..|]. rewrite length_syscall_encode by (by eapply ti_sc).
    unfold in_page. done. }
  intros [] s2 (He2 & Has2). apply wp_bind, wp_modify, wp_modify.
  cbn [with_procs with_mach proc_set].
  rewrite (status_loop_at _ _ i p) by done. apply (HQ s2); [done|].
  split; [done|]. intros q v. rewrite Has2, Has1. done.
Qed.

Lemma received_inv_frame k i p s' : kinv k -> (i < 16)%nat -> proc_set k !! i = Some p ->
  answered p -> delivered (mach k) s' (p_pid p) (p_syscall p) ->
  let k' := with_procs (with_mach k s') (received (proc_set k) i p) in
  kinv k' /\ kframe k k'.
Proof.
  intros (Hinv & Ha & He) Hi Hp Hans [He' Has] k'. split.
  { split; [|done]. by apply received_inv. }
  split; try done; [by eapply received_evolves|]. intros q v. cbn. rewrite Has.
  case_decide as Hd; [|by left]. destruct Hd as [-> ->]. right. split; [done|].
  destruct Hans as (Hst & Hty & Hs).
  exists (p_syscall p). split; [|done].
  destruct (received_lookup _ i p i Hi Hp) as (b & Hb & Hbt & _). rewrite (Hbt eq_refl), Hp in Hb.
  exists i, p, (set_status p PROC_RUNNABLE). split_and!; try done.
  apply (ti_used _ _ Hinv i); [done|done|by rewrite Hst].
Qed.

(** ** proc_try_syscall *)

(** The only message a blocked call can stop the kernel with. *)
Definition lost_receiver k (m : string) : Prop :=
  exists j p, (j < 16)%nat /\ proc_set k !! j = Some p /\
    p_status p = PROC_PENDING_SYSCALL /\ sc_type (p_syscall p) = SYS_SEND /\
    (forall i q, (i < 16)%nat -> proc_set k !! i = Some q -> ~ receives p q) /\
    m = unknown_receiver (sc_receiver (p_syscall p)).

Lemma wp_try_syscall k j p : kinv k -> (j < 16)%nat -> proc_set k !! j = Some p ->
  p_status p = PROC_PENDING_SYSCALL ->
  wp (lost_receiver k) (proc_try_syscall e (Z.of_nat j)) k (fun _ k' => kinv k' /\ kframe k k').
Proof.
  intros Hinv Hj Hp Hst. apply wp_bind. eapply wp_get_proc; [by rewrite Nat2Z.id|].
  destruct (ti_type _ _ (proj1 Hinv) j p) as [Hty|Hty]; auto; rewrite Hty; cbn [Z.eqb].
  - eapply wp_try_recv; eauto; [by eauto using kframe_refl|].
    intros s' Hans Hdel. by apply received_inv_frame.
  - eapply wp_try_send; eauto.
    + intros Hno. exists j, p. auto 10.
    + intros i q Hi Hq Hr. eauto using sent_inv, sent_kframe.
Qed.
End ipc.
