(* ===== verification/KernelSched.v ===== *)
(** * The kernel: scheduling and traps

    The scheduling decision, the dispatch of the chosen process, and the trap
    handler [kernel_entry] built from them. *)

From stdpp Require Import pretty options.
From S2P Require Import Prelude Earth Process Kernel KernelInv KernelIpc.

(** The slot [i] places after [c] in round-robin order. *)
Definition slot_after (c i : Z) : nat := Z.to_nat ((c + i) mod MAX_NPROCESS).

(** The process a READY or RUNNABLE process is resumed as. *)
Definition launched (p : process) : process :=
  set_status
    (if decide (p_status p = PROC_READY)
     then set_mepc (set_saved p (<[1%nat := APPS_ARG + 4]> (<[0%nat := APPS_ARG]>
            (p_saved_registers p)))) APPS_ENTRY
     else p) PROC_RUNNING.

Section sched.
Context {S : Type} (e : earth S) `{!EarthSpec e}.
Implicit Types (k : kernel S).

Lemma slot_after_lt c i : (slot_after c i < 16)%nat.
Proof. unfold slot_after, MAX_NPROCESS. pose proof (Z.mod_pos_bound (c + i) 16). lia. Qed.

Lemma kframe_slot k k' i p : kframe e k k' -> proc_set k !! i = Some p ->
  exists p', proc_set k' !! i = Some p' /\ proc_evolves (proc_set k) p p'.
Proof. intros [_ _ _ _ [_ Ht] _]. apply Ht. Qed.

Lemma kframe_slot_inv k k' i p' : kframe e k k' -> proc_set k' !! i = Some p' ->
  exists p, proc_set k !! i = Some p /\ proc_evolves (proc_set k) p p'.
Proof.
  intros [_ _ _ _ [Hlen Ht] _] Hp'. destruct (proc_set k !! i) as [p|] eqn:Hp.
  - exists p. split; [done|]. destruct (Ht i p Hp) as (p2 & Hp2 & Hev). by simplify_eq.
  - apply lookup_ge_None in Hp. apply lookup_lt_Some in Hp'. lia.
Qed.

Lemma kframe_nobody k k' : kframe e k k' -> nobody_runs (proc_set k) -> nobody_runs (proc_set k').
Proof.
  intros Hf Hno i p' Hi Hp' Hrun.
  destruct (kframe_slot_inv _ _ _ _ Hf Hp') as (p & Hp & Hev).
  destruct (pe_status _ _ _ Hev) as [Hs|Hs]; [|congruence]. apply (Hno i p Hi Hp). congruence.
Qed.

Lemma evolves_schedulable l p p' : proc_evolves l p p' ->
  schedulable p = true -> schedulable p' = true.
Proof. intros Hev. unfold schedulable. by destruct (pe_status _ _ _ Hev) as [-> | ->]. Qed.

Lemma kframe_lost k k' m : kframe e k k' -> lost_receiver k' m -> lost_receiver k m.
Proof.
  intros Hf (j & p' & Hj & Hp' & Hst & Hty & Hno & ->).
  destruct (kframe_slot_inv _ _ _ _ Hf Hp') as (p & Hp & Hev).
  assert (p_syscall p' = p_syscall p) as Hsc.
  { destruct Hev as [_ _ _ _ [-> |(j2 & q & _ & _ & _ & _ & _ & Hacc & Heq)]]; [done|].
    destruct (accepts_recv _ _ Hacc) as [Ht _]. rewrite Heq in Hty. cbn in Hty.
    rewrite Hty in Ht. discriminate. }
  exists j, p. rewrite <- Hsc. split_and!; auto; [by eapply proc_evolves_blocked|].
  intros i q Hi Hq [Hr Hu]. destruct (kframe_slot _ _ _ _ Hf Hq) as (q' & Hq' & Hevq).
  apply (Hno i q' Hi Hq'). split; [rewrite (pe_pid _ _ _ Hevq); congruence|].
  destruct (pe_status _ _ _ Hevq) as [-> | ->]; done.
Qed.

(** No slot from the [lo]-th to before the [hi]-th after [c] is schedulable. *)
Definition idle_between k (c lo hi : Z) : Prop :=
  forall i p, lo <= i < hi -> proc_set k !! slot_after c i = Some p -> schedulable p = false.

Lemma wp_yield_loop n i k c : kinv e k -> at_idx k c -> 0 <= c < 16 -> 1 <= i ->
  i + Z.of_nat n = 17 ->
  wp (lost_receiver k) (yield_loop e n i) k (fun next k' =>
    kinv e k' /\ kframe e k k' /\
    ((next = 16 /\ idle_between k c i 17) \/
     (exists i0 p', i <= i0 <= 16 /\ next = Z.of_nat (slot_after c i0) /\
        proc_set k' !! slot_after c i0 = Some p' /\ schedulable p' = true /\
        idle_between k c i i0))).
Proof.
  revert i k. induction n as [|n IH]; intros i k Hinv Hat Hc Hi Hn; cbn [yield_loop].
  { apply wp_ret. split; [done|]. split; [apply kframe_refl|]. left. split; [done|].
    intros j p Hj. lia. }
  apply wp_bind. eapply wp_curr_proc_idx; [done|].
  rewrite u32_id by lia. set (j := (c + i) mod MAX_NPROCESS).
  assert (j = Z.of_nat (slot_after c i)) as Hjj.
  { unfold slot_after, MAX_NPROCESS, j. rewrite Z2Nat.id; [done|].
    by apply Z.mod_pos_bound. }
  rewrite Hjj. pose proof (slot_after_lt c i) as Hlt.
  destruct (lookup_lt_is_Some_2 (proc_set k) (slot_after c i)) as [p Hp].
  { rewrite (ti_len _ _ (proj1 Hinv)). lia. }
  apply wp_bind. eapply wp_get_proc; [by rewrite Nat2Z.id|]. apply wp_bind.
  assert (wp (lost_receiver k) (if decide (p_status p = PROC_PENDING_SYSCALL)
    then proc_try_syscall e (Z.of_nat (slot_after c i)) else mret tt) k
    (fun _ k1 => kinv e k1 /\ kframe e k k1)) as Htry.
  { case_decide as Hst; [by eapply wp_try_syscall|]. apply wp_ret. auto using kframe_refl. }
  eapply wp_mono; [exact Htry|]. clear Htry. intros [] k1 [Hinv1 Hf1].
  destruct (kframe_slot _ _ _ _ Hf1 Hp) as (p1 & Hp1 & Hev1).
  apply wp_bind. eapply wp_get_proc; [by rewrite Nat2Z.id|].
  destruct (schedulable p1) eqn:Hs1.
  - apply wp_ret. split_and!; auto. right. exists i, p1. split_and!; auto; try lia.
    intros i' p' Hi'. lia.
  - assert (schedulable p = false) as Hs.
    { destruct (schedulable p) eqn:Hs; [|done].
      rewrite (evolves_schedulable _ _ _ Hev1 Hs) in Hs1. done. }
    eapply wp_conseq; [apply (IH (i + 1) k1); auto; try lia| |].
    + unfold at_idx. by rewrite (kf_idx _ _ _ Hf1), (kf_core _ _ _ Hf1).
    + intros m. by apply kframe_lost.
    + intros next k' (Hinv' & Hf' & Hres). split; [done|].
      split; [by apply (kframe_trans e k k1 k')|].
      assert (forall hi, idle_between k1 c (i + 1) hi -> idle_between k c i hi) as Hext.
      { intros hi Hidle i' q Hi' Hq. destruct (decide (i' = i)) as [->|]; [by simplify_eq|].
        destruct (kframe_slot _ _ _ _ Hf1 Hq) as (q1 & Hq1 & Hevq).
        destruct (schedulable q) eqn:Hsq; [|done].
        rewrite <- (Hidle i' q1), <- (evolves_schedulable _ _ _ Hevq Hsq); [done|lia|done]. }
      destruct Hres as [[-> Hidle]|(i0 & p' & Hi0 & Hnext & Hp' & Hsp & Hidle)]; [left; auto|].
      right. exists i0, p'. split_and!; auto; lia.
Qed.
(** ** Dispatch *)

(** [k'] is [k] after switching to the process [p] at index [j]. *)
Record dispatched k (j : nat) (p : process) k' : Prop := {
  ds_procs : proc_set k' = <[j := launched p]> (proc_set k);
  ds_idx : core_to_proc_idx k' =
    <[Z.to_nat (core_in_kernel k) := Z.of_nat j]> (core_to_proc_idx k);
  ds_core : core_in_kernel k' = core_in_kernel k;
  ds_alloc : alloc_pid k' = alloc_pid k;
  ds_hw : hw k' = hw k;
  ds_earth : earth_inv (mach k');
  ds_vm : vm_pid (mach k') = p_pid p;
  ds_mem q v : aspace (mach k') q v = aspace (mach k) q v;
}.

Lemma schedulable_active p : schedulable p = true ->
  p_status p <> PROC_PENDING_SYSCALL /\ p_status p <> PROC_UNUSED /\
  (p_status p = PROC_READY \/ p_status p = PROC_RUNNABLE).
Proof.
  unfold schedulable. rewrite orb_true_iff, !bool_decide_eq_true.
  intros [-> | ->]; auto.
Qed.

Lemma launched_regs p : length (p_saved_registers p) = 32%nat ->
  length (p_saved_registers (launched p)) = 32%nat.
Proof. intros Hlen. unfold launched. case_decide; cbn; by rewrite ?length_insert. Qed.

Lemma launched_pid p : p_pid (launched p) = p_pid p.
Proof. unfold launched. by case_decide. Qed.

Lemma launched_syscall p : p_syscall (launched p) = p_syscall p.
Proof. unfold launched. by case_decide. Qed.

(** The process set up for its first instruction, before it is marked running. *)
Lemma tbl_launch a l j p : tbl_inv a l -> (j < 16)%nat -> l !! j = Some p ->
  schedulable p = true ->
  tbl_inv a (<[j := launched p]> l) /\
  tbl_inv a (<[j := set_status (launched p) (p_status p)]> l).
Proof.
  intros Hinv Hj Hp Hs. destruct (schedulable_active p Hs) as (Hb & Hu & _).
  split; (apply (tbl_upd_active a l j p);
    [done..|apply launched_pid|apply launched_regs; by eapply ti_regs
    |cbn [set_status p_syscall]; rewrite launched_syscall; by eapply ti_sc|cbn; done|intros [? _]; cbn in *; done]).
Qed.

(** [if (curr_status == PROC_READY) { ... }] *)
Lemma wp_setup E k j p Q : at_idx k (Z.of_nat j) -> proc_set k !! j = Some p ->
  Q tt (with_procs k (<[j := set_status (launched p) (p_status p)]> (proc_set k))) ->
  wp E (if decide (p_status p = PROC_READY) then
      upd_curr (fun p => set_saved p (<[0%nat := APPS_ARG]> (p_saved_registers p)));;
      upd_curr (fun p => set_saved p (<[1%nat := APPS_ARG + 4]> (p_saved_registers p)));;
      upd_curr (fun p => set_mepc p APPS_ENTRY)
    else mret tt) k Q.
Proof.
  intros Hat Hp HQ. assert (j < length (proc_set k))%nat by (by eapply lookup_lt_Some).
  unfold launched in HQ. destruct (decide (p_status p = PROC_READY)) as [Hr|Hr].
  - apply wp_bind. eapply wp_upd_curr; [done|by rewrite Nat2Z.id|]. rewrite Nat2Z.id.
    apply wp_bind. eapply wp_upd_curr; [done|rewrite Nat2Z.id; by apply list_lookup_insert_eq|].
    rewrite Nat2Z.id.
    eapply wp_upd_curr; [done|rewrite Nat2Z.id; cbn; rewrite list_insert_insert_eq;
                              by apply list_lookup_insert_eq|].
    rewrite Nat2Z.id. cbn [with_procs proc_set]. rewrite !list_insert_insert_eq.
    exact HQ.
  - apply wp_ret. replace (set_status (set_status p PROC_RUNNING) (p_status p)) with p in HQ
      by (by destruct p).
    rewrite list_insert_id in HQ by done. by destruct k.
Qed.

Lemma wp_dispatch E k c j p : kinv e k -> at_idx k c -> (j < 16)%nat ->
  proc_set k !! j = Some p -> schedulable p = true ->
  wp E (proc_dispatch e (Z.of_nat j)) k (fun _ => dispatched k j p).
Proof.
  intros (Hinv & Ha & He) Hat Hj Hp Hs.
  destruct (schedulable_active p Hs) as (Hb & Hu & _).
  assert (0 < p_pid p) as Hpos by (by apply (ti_used _ _ Hinv j)).
  assert (Z.to_nat (core_in_kernel k) < length (core_to_proc_idx k))%nat as Hcore
    by (by eapply lookup_lt_Some).
  destruct (tbl_launch _ _ _ _ Hinv Hj Hp Hs) as [_ Hinv2].
  unfold proc_dispatch. apply wp_bind. eapply wp_set_curr_proc_idx; [done|].
  set (k1 := with_idx k _).
  assert (at_idx k1 (Z.of_nat j)) as Hat1 by (by apply list_lookup_insert_eq).
  apply wp_bind. eapply wp_curr_proc; [done|by rewrite Nat2Z.id|].
  apply wp_bind, wp_earth_call. eapply wp_mono; [by apply switch_spec|].
  intros [] s1 (He1 & Hvm1 & Has1). apply wp_bind, wp_earth_call.
  eapply wp_mono; [by apply flush_spec|]. cbn [mach with_mach].
  intros [] s2 (He2 & Hvm2 & Has2). set (k2 := with_mach _ s2).
  assert (at_idx k2 (Z.of_nat j)) as Hat2 by done.
  apply wp_bind. eapply wp_curr_proc; [done|by rewrite Nat2Z.id|].
  set (p2 := set_status (launched p) (p_status p)) in *.
  apply wp_bind. eapply wp_setup; [done|done|]. fold p2. set (k3 := with_procs _ _).
  assert (proc_set k3 !! j = Some p2) as Hp3
    by (apply list_lookup_insert_eq; by eapply lookup_lt_Some).
  apply wp_bind. eapply (wp_curr_proc _ (Z.of_nat j)); [done|by rewrite Nat2Z.id|].
  apply wp_bind, wp_modify. apply wp_bind, wp_gets, wp_earth_call.
  eapply wp_mono; [by apply timer_spec|]. intros [] s4 (He4 & Hvm4 & Has4).
  assert (status_loop (p_pid p2) PROC_RUNNING (proc_set k3) =
    <[j := launched p]> (proc_set k)) as Hproc.
  { assert (p_pid p2 = p_pid p) as Hpid2 by apply launched_pid.
    rewrite (status_loop_at (alloc_pid k) _ j p2) by (done || by rewrite Hpid2).
    cbn [k3 with_procs proc_set]. by rewrite list_insert_insert_eq. }
  split; cbn; try done.
  - by transitivity (vm_pid s2); [|transitivity (vm_pid s1)].
  - intros q v. by transitivity (aspace s2 q v); [|rewrite Has2, Has1].
Qed.
(** ** proc_yield *)
Definition no_process (core : Z) : string := "proc_yield: no process to run on core " +:+ pretty core.

(** [k] with its current process, at index [c], put back in the queue. *)
Definition requeue k (c : nat) (p : process) : kernel S :=
  if decide (p_status p = PROC_RUNNING)
  then with_procs k (<[c := set_status p PROC_RUNNABLE]> (proc_set k)) else k.

Definition yield_fatal k (c : nat) (m : string) : Prop :=
  lost_receiver k m \/
  (m = no_process (core_in_kernel k) /\ idle_between k (Z.of_nat c) 1 17).

(** The process [p], [i0] places after [c], is switched to: it is schedulable
    once the blocked calls were retried, and nothing before it was. *)
Record yielded k (c : nat) (i0 : Z) k1 (p : process) k' : Prop := {
  yd_inv : kinv e k1;
  yd_frame : kframe e k k1;
  yd_range : 1 <= i0 <= 16;
  yd_slot : proc_set k1 !! slot_after (Z.of_nat c) i0 = Some p;
  yd_sched : schedulable p = true;
  yd_idle : idle_between k (Z.of_nat c) 1 i0;
  yd_disp : dispatched k1 (slot_after (Z.of_nat c) i0) p k';
}.

Lemma requeue_inv k c p : kinv e k -> (c < 16)%nat -> proc_set k !! c = Some p ->
  kinv e (requeue k c p).
Proof.
  intros (Hinv & Ha & He) Hc Hp. unfold requeue. case_decide as Hr; [|done].
  split; [|done]. by apply tbl_set_status_active; rewrite ?Hr.
Qed.

Lemma wp_yield k c p : kinv e k -> at_idx k (Z.of_nat c) -> (c < 16)%nat ->
  proc_set k !! c = Some p ->
  wp (yield_fatal (requeue k c p) c) (proc_yield e) k (fun _ k' =>
    exists i0 k1 q, yielded (requeue k c p) c i0 k1 q k').
Proof.
  intros Hinv Hat Hc Hp. pose proof (requeue_inv k c p Hinv Hc Hp) as Hinv0.
  unfold proc_yield. apply wp_bind. eapply wp_curr_proc; [done|by rewrite Nat2Z.id|].
  set (k0 := requeue k c p) in *.
  assert (at_idx k0 (Z.of_nat c)) as Hat0 by (unfold k0, requeue; by case_decide).
  apply wp_bind.
  assert (wp (yield_fatal k0 c) (if decide (p_status p = PROC_RUNNING)
    then proc_set_runnable (p_pid p) else mret tt) k (fun _ k' => k' = k0)) as Hrq.
  { unfold k0, requeue. case_decide as Hr; [|done]. apply wp_modify.
    rewrite (status_loop_at (alloc_pid k) _ c p); [done|apply Hinv|done..|].
    apply (ti_used _ _ (proj1 Hinv) c); [done..|by rewrite Hr]. }
  eapply wp_mono; [exact Hrq|]. clear Hrq. intros [] ? ->. apply wp_bind.
  eapply wp_conseq; [apply (wp_yield_loop 16 1 k0 (Z.of_nat c)); auto; lia| |].
  { intros m Hm. by left. }
  intros next k1 (Hinv1 & Hf1 & [[-> Hidle]|(i0 & q & Hi0 & -> & Hq & Hs & Hidle)]).
  - cbn. apply wp_bind, wp_gets, wp_fatal. right. split; [|done].
    by rewrite (kf_core _ _ _ Hf1).
  - pose proof (slot_after_lt (Z.of_nat c) i0) as Hlt.
    rewrite (proj2 (Z.ltb_lt _ _)) by (unfold MAX_NPROCESS; lia).
    eapply wp_mono; [eapply wp_dispatch; eauto|].
    + unfold at_idx. rewrite (kf_idx _ _ _ Hf1), (kf_core _ _ _ Hf1). exact Hat0.
    + intros [] k' Hd. exists i0, k1, q. by split.
Qed.

(** ** Traps *)

(** [k] in user mode: the process [p] at index [c] runs on the hart, in its own
    address space. *)
Record user_mode k (c : nat) (p : process) : Prop := {
  um_inv : kinv e k;
  um_lt : (c < 16)%nat;
  um_idx : core_to_proc_idx k !! Z.to_nat (mhartid (hw k)) = Some (Z.of_nat c);
  um_slot : proc_set k !! c = Some p;
  um_runs : only_runs (proc_set k) c;
  um_area : length (saved_area (hw k)) = 32%nat;
  um_vm : vm_pid (mach k) = p_pid p;
}.

(** The process [p] interrupted with the context of [h], in state [st]; after
    an [ecall] it continues at the next instruction. *)
Definition interrupted (h : hart) (p : process) : process :=
  {| p_pid := p_pid p; p_syscall := p_syscall p; p_status := PROC_RUNNABLE;
     p_mepc := csr_mepc h; p_saved_registers := saved_area h |}.
Definition ecalled (h : hart) (p : process) (sc : syscall) : process :=
  {| p_pid := p_pid p; p_syscall := sc; p_status := PROC_PENDING_SYSCALL;
     p_mepc := u32 (csr_mepc h + 4); p_saved_registers := saved_area h |}.

(** The kernel after it saved the context of the interrupted process. *)
Definition trapped k (c : nat) (p' : process) (s : S) : kernel S :=
  with_mach (with_procs (with_core k (mhartid (hw k))) (<[c := p']> (proc_set k))) s.

(** Back in user mode, in the process [p]. *)
Definition resume k (p : process) : kernel S :=
  with_hart k {| mhartid := mhartid (hw k); csr_mepc := p_mepc p; mcause := mcause (hw k);
                 saved_area := p_saved_registers p |}.

Lemma only_runs_status k c p : user_mode k c p -> p_status p = PROC_RUNNING.
Proof. intros [? Hlt ? Hp Hr ? ?]. by apply (Hr c p). Qed.

(** Dispatching from a kernel in which nobody runs ends in user mode. *)
Lemma dispatched_user_mode k1 j p k' : kinv e k1 -> nobody_runs (proc_set k1) ->
  core_in_kernel k1 = mhartid (hw k1) ->
  (Z.to_nat (core_in_kernel k1) < length (core_to_proc_idx k1))%nat ->
  (j < 16)%nat -> proc_set k1 !! j = Some p -> schedulable p = true -> dispatched k1 j p k' ->
  user_mode (resume k' (launched p)) j (launched p).
Proof.
  intros (Hinv & Ha & He) Hno Hcore Hlen Hj Hp Hs [Hprocs Hidx Hc Hal Hhw He' Hvm Hmem].
  destruct (tbl_launch _ _ _ _ Hinv Hj Hp Hs) as [Hinv' _].
  assert (j < length (proc_set k1))%nat by (by eapply lookup_lt_Some).
  split; cbn.
  - split; cbn; [by rewrite Hal, Hprocs|]. by rewrite Hal.
  - done.
  - rewrite Hidx, Hhw, <- Hcore. by apply list_lookup_insert_eq.
  - rewrite Hprocs. by apply list_lookup_insert_eq.
  - rewrite Hprocs. intros i q Hi [(<- & <- & _)|[Hne Hq]]%list_lookup_insert_Some; [done|].
    split; [|congruence]. intros Hr. by destruct (Hno i q).
  - apply launched_regs. by apply (ti_regs _ _ Hinv j p).
  - rewrite Hvm. symmetry. apply launched_pid.
Qed.

(** The process that a trap left in the kernel state [k0] resumes user mode in. *)
Definition returns_to k0 (c : nat) (k'' : kernel S) : Prop :=
  exists i0 k1 q k', yielded k0 c i0 k1 q k' /\ k'' = resume k' (launched q) /\
    user_mode k'' (slot_after (Z.of_nat c) i0) (launched q).

Lemma nobody_runs_insert l c p : only_runs l c -> p_status p <> PROC_RUNNING ->
  nobody_runs (<[c := p]> l).
Proof.
  intros Hr Hp i q Hi [(<- & <- & _)|[Hne Hq]]%list_lookup_insert_Some; [done|].
  intros Hq'. by apply (Hr i q) in Hq'.
Qed.

(** The end of [kernel_entry]: yield from [k0] and restore the context. *)
Lemma wp_yield_restore k k0 c p : kinv e k -> nobody_runs (proc_set (requeue k c p)) ->
  requeue k c p = k0 -> at_idx k (Z.of_nat c) -> core_in_kernel k = mhartid (hw k) ->
  (c < 16)%nat -> proc_set k !! c = Some p ->
  wp (yield_fatal k0 c) (proc_yield e;; restore_context) k (fun _ => returns_to k0 c).
Proof.
  intros Hinv Hno <- Hat Hcore Hc Hp. apply wp_bind.
  eapply wp_mono; [by apply wp_yield|]. intros [] k' (i0 & k1 & q & Hy).
  pose proof Hy as [Hinv1 Hf1 Hi0 Hq Hs Hidle Hd].
  set (k0 := requeue k c p) in *.
  assert (core_to_proc_idx k0 = core_to_proc_idx k /\ core_in_kernel k0 = core_in_kernel k /\
    hw k0 = hw k) as (Hk1 & Hk2 & Hk3) by (unfold k0, requeue; by case_decide).
  assert (core_in_kernel k1 = mhartid (hw k1)) as Hc1
    by (rewrite (kf_core _ _ _ Hf1), (kf_hw _ _ _ Hf1); congruence).
  assert (Z.to_nat (core_in_kernel k1) < length (core_to_proc_idx k1))%nat as Hlen.
  { rewrite (kf_core _ _ _ Hf1), (kf_idx _ _ _ Hf1), Hk1, Hk2. by eapply lookup_lt_Some. }
  pose proof (slot_after_lt (Z.of_nat c) i0) as Hlt.
  pose proof (dispatched_user_mode k1 _ q k' Hinv1 (kframe_nobody _ _ Hf1 Hno) Hc1 Hlen Hlt
    Hq Hs Hd) as Hum.
  apply wp_bind. eapply (wp_curr_proc _ (Z.of_nat (slot_after (Z.of_nat c) i0)) (launched q)).
  - unfold at_idx. rewrite (ds_idx _ _ _ _ Hd), (ds_core _ _ _ _ Hd).
    by apply list_lookup_insert_eq.
  - rewrite Nat2Z.id. apply (um_slot _ _ _ Hum).
  - apply wp_modify. by exists i0, k1, q, k'.
Qed.

(** Saving the context of the interrupted process. *)
Lemma wp_save_context E k c p Q : user_mode k c p ->
  Q tt (trapped k c (set_status (interrupted (hw k) p) PROC_RUNNING) (mach k)) ->
  wp E save_context k Q.
Proof.
  intros [Hinv Hlt Hidx Hp Hr Ha Hvm] HQ.
  assert (p_status p = PROC_RUNNING) as Hst by (by apply (Hr c p)).
  assert (c < length (proc_set k))%nat by (by eapply lookup_lt_Some).
  unfold save_context. apply wp_bind, wp_gets. apply wp_bind, wp_modify.
  apply wp_bind. eapply (wp_upd_curr _ (Z.of_nat c)); [done|by rewrite Nat2Z.id|].
  rewrite Nat2Z.id.
  eapply (wp_upd_curr _ (Z.of_nat c)); [done|rewrite Nat2Z.id; by apply list_lookup_insert_eq|].
  rewrite Nat2Z.id. cbn [with_procs with_core proc_set]. rewrite list_insert_insert_eq.
  unfold trapped, interrupted, set_status in HQ. rewrite <- Hst in HQ. exact HQ.
Qed.

Lemma trapped_inv k c p p' s : user_mode k c p -> earth_inv s -> p_pid p' = p_pid p ->
  p_saved_registers p' = saved_area (hw k) -> syscall_ok (p_syscall p') ->
  (p_status p' = PROC_PENDING_SYSCALL ->
    sc_type (p_syscall p') = SYS_RECV \/ sc_type (p_syscall p') = SYS_SEND) ->
  ~ answered p' -> kinv e (trapped k c p' s).
Proof.
  intros Hum Hs Hpid Hregs Hsc Hty Hans. pose proof (only_runs_status _ _ _ Hum) as Hst.
  destruct Hum as [(Hinv & Ha & He) Hlt Hidx Hp Hr Harea Hvm].
  split; [|done]. apply (tbl_upd_active _ _ c p); auto; by rewrite ?Hst, ?Hregs.
Qed.

(** A timer interrupt: the current process goes back in the queue.  Only a
    blocked send to a process that no longer exists can stop the kernel. *)
Lemma wp_kernel_entry_timer k c p : user_mode k c p ->
  Z.testbit (mcause (hw k)) 31 = true -> Z.land (mcause (hw k)) 0x3FF = INTR_ID_TIMER ->
  let k0 := trapped k c (interrupted (hw k) p) (mach k) in
  wp (lost_receiver k0) (kernel_entry e) k (fun _ => returns_to k0 c).
Proof.
  intros Hum Hbit Hid k0. pose proof Hum as [Hinv Hlt Hidx Hp Hr Harea Hvm].
  assert (c < length (proc_set k))%nat as Hcl by (by eapply lookup_lt_Some).
  unfold kernel_entry. apply wp_bind. eapply wp_save_context; [done|].
  set (p1 := set_status _ _). set (k1 := trapped k c p1 _).
  assert (proc_set k1 !! c = Some p1) as Hp1 by (by apply list_lookup_insert_eq).
  assert (requeue k1 c p1 = k0) as Hk0.
  { unfold requeue. rewrite decide_True by done. unfold k0, trapped, with_procs. cbn.
    rewrite list_insert_insert_eq. done. }
  apply wp_bind, wp_gets. change (hw k1) with (hw k). rewrite Hbit. unfold intr_entry.
  rewrite Hid, Z.eqb_refl. cbn [negb].
  eapply wp_conseq; [apply (wp_yield_restore k1 k0 c p1)| |done]; auto.
  - apply (trapped_inv k c p); [done|apply Hinv|done..| | |]; cbn.
    + eapply ti_sc; [apply Hinv|done].
    + done.
    + by intros [? _].
  - rewrite Hk0. by apply nobody_runs_insert.
  - intros m [Hm|[_ Hidle]]; [done|]. exfalso.
    specialize (Hidle 16 (interrupted (hw k) p)).
    replace (slot_after (Z.of_nat c) 16) with c in Hidle.
    2: { unfold slot_after, MAX_NPROCESS. rewrite Z.add_mod, Z.mod_same, Z.add_0_r by done.
         rewrite Z.mod_mod by done. rewrite Z.mod_small by lia. lia. }
    discriminate Hidle; [lia|]. by apply list_lookup_insert_eq.
Qed.

(** ** System calls *)
Definition unknown_type (t : Z) : string :=
  "proc_try_syscall: unknown syscall type=" +:+ pretty (i32 t).

(** [sc] is the pending call that the process [p] of [k] makes, and [s] the
    machine after the kernel read it: the bytes of its system-call page. *)
Record calls k (p : process) (sc : syscall) (s : S) : Prop := {
  ca_earth : earth_inv s;
  ca_mem q v : aspace s q v = aspace (mach k) q v;
  ca_ok : syscall_ok sc;
  ca_pending : sc_status sc = PENDING;
  ca_args pg : aspace (mach k) (p_pid p) SYSCALL_PAGE = Some pg ->
    sc = sc_set_status (syscall_decode (slice pg 0 sizeof_syscall)) PENDING;
}.

Lemma syscall_decode_ok b : length b = sizeof_syscall -> syscall_ok (syscall_decode b).
Proof.
  intros Hb. unfold sizeof_syscall in Hb.
  split_and!; cbn; try apply get32_range; try apply i32_range.
  rewrite length_take, length_drop, Hb. done.
Qed.

Lemma sc_set_status_ok sc v : syscall_ok sc -> 0 <= v < 2 ^ 32 ->
  syscall_ok (sc_set_status sc v).
Proof. intros (? & ? & ? & ? & ?) ?. unfold syscall_ok; cbn. auto. Qed.

(** [excp_entry] up to [proc_try_syscall]: the call is read and the process is
    blocked. *)
Lemma wp_ecall E k c p Q : user_mode k c p ->
  EXCP_ID_ECALL_U <= mcause (hw k) <= EXCP_ID_ECALL_M ->
  (forall sc s, calls k p sc s ->
    wp E (proc_try_syscall e (Z.of_nat c);; proc_yield e)
      (trapped k c (ecalled (hw k) p sc) s) Q) ->
  wp E (excp_entry e (mcause (hw k)))
    (trapped k c (set_status (interrupted (hw k) p) PROC_RUNNING) (mach k)) Q.
Proof.
  intros Hum Hid HQ. pose proof Hum as [Hinv Hlt Hidx Hp Hr Harea Hvm].
  pose proof (only_runs_status _ _ _ Hum) as Hst.
  assert (c < length (proc_set k))%nat as Hcl by (by eapply lookup_lt_Some).
  assert (0 < p_pid p) as Hpos
    by (apply (ti_used _ _ (proj1 Hinv) c); [done..|by rewrite Hst]).
  unfold excp_entry. rewrite !(proj2 (Z.leb_le _ _)) by lia. cbn [andb].
  set (p1 := set_status _ _). set (k1 := trapped k c p1 _).
  assert (at_idx k1 (Z.of_nat c)) as Hat by exact Hidx.
  assert (forall q, <[c := q]> (proc_set k) !! Z.to_nat (Z.of_nat c) = Some q) as Hget
    by (intros q; rewrite Nat2Z.id; by apply list_lookup_insert_eq).
  apply wp_bind. eapply (wp_curr_proc _ (Z.of_nat c) p1); [done|apply Hget|].
  apply wp_bind, wp_earth_call. eapply wp_mono; [by apply translate_spec; [apply Hinv|..]|].
  intros pa s1 (He1 & Hre & Has1). apply wp_bind, wp_earth_call.
  eapply wp_mono; [eapply load_spec; [done..|]; done|].
  intros b s2 (-> & Hlen & Hb). cbn [mach with_mach] in *.
  set (sc := sc_set_status (syscall_decode b) PENDING).
  assert (calls k p sc s1) as Hcalls.
  { split; try done; [by apply sc_set_status_ok; [apply syscall_decode_ok|]|]. intros pg Hpg.
    unfold sc. by rewrite (Hb pg) by (by rewrite Has1). }
  set (p2 := set_syscall p1 sc).
  assert (tbl_inv (alloc_pid k) (<[c := p2]> (proc_set k))) as Hinv2.
  { apply (tbl_upd_active _ _ c p); [apply Hinv|done|done|by rewrite Hst..|done|done| |done|].
    - apply Hcalls.
    - by intros [? _]. }
  apply wp_bind. eapply (wp_upd_curr _ (Z.of_nat c)); [done|apply Hget|].
  apply wp_bind. eapply (wp_upd_curr _ (Z.of_nat c)); [done|cbn; rewrite Nat2Z.id;
    by apply list_lookup_insert_eq; rewrite length_insert|].
  cbn [with_procs with_mach trapped proc_set k1]. rewrite Nat2Z.id, !list_insert_insert_eq.
  change (set_syscall (set_syscall p1 _) _) with p2.
  apply wp_bind. eapply (wp_curr_proc _ (Z.of_nat c) p2); [done|apply Hget|].
  apply wp_bind, wp_modify. cbn [with_procs with_mach proc_set].
  rewrite (status_loop_at (alloc_pid k) _ c p2) by
    (done || by apply list_lookup_insert_eq). rewrite list_insert_insert_eq.
  apply wp_bind. eapply (wp_upd_curr _ (Z.of_nat c)); [done|apply Hget|].
  cbn [with_procs with_mach proc_set]. rewrite Nat2Z.id, list_insert_insert_eq.
  apply wp_bind. eapply (wp_curr_proc_idx _ (Z.of_nat c)); [done|].
  exact (HQ sc s1 Hcalls).
Qed.

Lemma idle_between_frame k0 k1 c lo hi : kframe e k0 k1 ->
  idle_between k1 c lo hi -> idle_between k0 c lo hi.
Proof.
  intros Hf Hidle i p Hi Hp. destruct (kframe_slot _ _ _ _ Hf Hp) as (p' & Hp' & Hev).
  destruct (schedulable p) eqn:Hs; [|done].
  rewrite <- (Hidle i p' Hi Hp'). symmetry. by eapply evolves_schedulable.
Qed.

Lemma returns_to_frame k0 k1 c k'' : kinv e k1 -> kframe e k0 k1 ->
  returns_to k1 c k'' -> returns_to k0 c k''.
Proof.
  intros Hinv Hf (i0 & k2 & q & k' & [? Hf2 ? ? ? Hidle ?] & Hres).
  exists i0, k2, q, k'. split; [|done]. split; try done.
  - by apply (kframe_trans e k0 k1 k2).
  - by eapply idle_between_frame.
Qed.

Lemma yield_fatal_frame k0 k1 c m : kframe e k0 k1 -> yield_fatal k1 c m -> yield_fatal k0 c m.
Proof.
  intros Hf [Hm|[-> Hidle]]; [left; by eapply kframe_lost|right].
  rewrite (kf_core _ _ _ Hf). split; [done|]. by eapply idle_between_frame.
Qed.

Definition known_type (sc : syscall) : Prop := sc_type sc = SYS_RECV \/ sc_type sc = SYS_SEND.

(** What can stop the kernel in a system call. *)
Definition ecall_fatal k (c : nat) (p : process) (m : string) : Prop :=
  exists sc s, calls k p sc s /\
    ((~ known_type sc /\ m = unknown_type (sc_type sc)) \/
     (known_type sc /\ yield_fatal (trapped k c (ecalled (hw k) p sc) s) c m)).

Lemma ecall_not_intr cause : EXCP_ID_ECALL_U <= cause <= EXCP_ID_ECALL_M ->
  Z.testbit cause 31 = false.
Proof.
  unfold EXCP_ID_ECALL_U, EXCP_ID_ECALL_M. intros Hid.
  assert (cause = 8 \/ cause = 9 \/ cause = 10 \/ cause = 11) as [-> |[-> |[-> | ->]]] by lia; done.
Qed.

(** A system call of a process in user mode. *)
Lemma wp_kernel_entry_ecall k c p : user_mode k c p ->
  EXCP_ID_ECALL_U <= mcause (hw k) <= EXCP_ID_ECALL_M ->
  wp (ecall_fatal k c p) (kernel_entry e) k (fun _ k'' =>
    exists sc s, calls k p sc s /\ known_type sc /\
      returns_to (trapped k c (ecalled (hw k) p sc) s) c k'').
Proof.
  intros Hum Hid. pose proof Hum as [Hinv Hlt Hidx Hp Hr Harea Hvm].
  assert (c < length (proc_set k))%nat as Hcl by (by eapply lookup_lt_Some).
  unfold kernel_entry. apply wp_bind. eapply wp_save_context; [done|].
  apply wp_bind, wp_gets. cbn [trapped with_mach with_procs with_core hw].
  rewrite ecall_not_intr by done.
  apply wp_bind. eapply (wp_ecall _ k c p); [done..|]. intros sc s Hca.
  set (p0 := ecalled (hw k) p sc). set (k0 := trapped k c p0 s).
  assert (proc_set k0 !! c = Some p0) as Hp0 by (by apply list_lookup_insert_eq).
  destruct (decide (sc_type sc = SYS_RECV \/ sc_type sc = SYS_SEND)) as [Hty|Hty].
  2: { apply wp_bind. unfold proc_try_syscall. apply wp_bind.
       eapply wp_get_proc; [by rewrite Nat2Z.id|]. cbn [p0 ecalled p_syscall].
       rewrite !(proj2 (Z.eqb_neq _ _)) by tauto. apply wp_fatal.
       exists sc, s. split; [done|]. by left. }
  assert (kinv e k0) as Hinv0.
  { apply (trapped_inv k c p); try done; [apply Hca|apply Hca|].
    intros (_ & _ & Hs). by destruct Hs; apply Hca. }
  apply wp_bind. eapply wp_conseq; [by eapply wp_try_syscall| |].
  { intros m Hm. exists sc, s. split; [done|]. right. split; [done|]. by left. }
  intros [] k1 [Hinv1 Hf1]. destruct (kframe_slot _ _ _ _ Hf1 Hp0) as (p1 & Hp1 & Hev).
  assert (requeue k1 c p1 = k1) as Hrq.
  { unfold requeue. rewrite decide_False; [done|].
    by destruct (pe_status _ _ _ Hev) as [-> | ->]. }
  apply wp_bind_inv. eapply wp_conseq; [apply (wp_yield_restore k1 k1 c p1)| |]; auto.
  - rewrite Hrq. eapply kframe_nobody; [done|]. by apply nobody_runs_insert.
  - unfold at_idx. by rewrite (kf_idx _ _ _ Hf1), (kf_core _ _ _ Hf1).
  - by rewrite (kf_hw _ _ _ Hf1), (kf_core _ _ _ Hf1).
  - intros m Hm. exists sc, s. split; [done|]. right. split; [done|].
    by eapply yield_fatal_frame.
  - intros [] k'' Hret. exists sc, s. split; [done|]. split; [done|].
    by eapply returns_to_frame.
Qed.
End sched.
