(* ===== verification/KernelTrace.v ===== *)
(** * The kernel: runs

    The grass layer as a state machine: user programs run, trap into
    [kernel_entry], and GPID_PROCESS calls [proc_alloc], [proc_set_ready] and
    [proc_free] through the grass interface.  The invariant of the process
    table and user mode hold in every reachable state. *)

From stdpp Require Import pretty options.
From S2P Require Import Prelude Earth Process Kernel KernelInv KernelIpc KernelSched.

Section trace.
Context {S : Type} (e : earth S) `{!EarthSpec e}.
Implicit Types (k : kernel S).

(** A pid whose program is being loaded. *)
Definition loading k (pid : Z) : Prop :=
  exists i p, (i < 16)%nat /\ proc_set k !! i = Some p /\ p_pid p = pid /\
    p_status p = PROC_LOADING.

(** The program of [p] runs in user mode (or, in GPID_PROCESS, fills the
    address space of a process being loaded): the kernel's data do not change,
    and no other address space does. *)
Record user_runs k (p : process) k' : Prop := {
  ur_procs : proc_set k' = proc_set k;
  ur_idx : core_to_proc_idx k' = core_to_proc_idx k;
  ur_core : core_in_kernel k' = core_in_kernel k;
  ur_alloc : alloc_pid k' = alloc_pid k;
  ur_hart : mhartid (hw k') = mhartid (hw k);
  ur_area : length (saved_area (hw k')) = 32%nat;
  ur_earth : earth_inv (mach k');
  ur_vm : vm_pid (mach k') = vm_pid (mach k);
  ur_mem q v : q <> p_pid p -> ~ loading k q -> aspace (mach k') q v = aspace (mach k) q v;
}.

(** The traps the hardware raises: the timer interrupt and system calls. *)
Definition timer_cause (h : hart) : Prop :=
  Z.testbit (mcause h) 31 = true /\ Z.land (mcause h) 0x3FF = INTR_ID_TIMER.
Definition ecall_cause (h : hart) : Prop :=
  EXCP_ID_ECALL_U <= mcause h <= EXCP_ID_ECALL_M.

Definition trap k k' : Prop :=
  (timer_cause (hw k) \/ ecall_cause (hw k)) /\ kernel_entry e k = Ok (tt, k').

(** Everything between two traps.  GPID_PROCESS allocates a process while pids
    last, makes ready the one it loaded, and frees other processes. *)
Inductive between : kernel S -> kernel S -> Prop :=
| between_user k c p k' : user_mode e k c p -> user_runs k p k' -> between k k'
| between_alloc k pid k' : alloc_pid k + 1 < 2 ^ 31 ->
    proc_alloc k = Ok (pid, k') -> between k k'
| between_ready k pid k' : loading k pid ->
    proc_set_ready pid k = Ok (tt, k') -> between k k'
| between_free k c p pid k' : user_mode e k c p -> 0 < pid -> pid <> p_pid p ->
    proc_free e pid k = Ok (tt, k') -> between k k'
| between_free_all k c p k' : user_mode e k c p -> p_pid p < GPID_USER_START ->
    proc_free e GPID_ALL k = Ok (tt, k') -> between k k'.

Inductive reaches_state (k0 : kernel S) : kernel S -> Prop :=
| reaches_refl : reaches_state k0 k0
| reaches_trap k k' : reaches_state k0 k -> trap k k' -> reaches_state k0 k'
| reaches_between k k' : reaches_state k0 k -> between k k' -> reaches_state k0 k'.

(** ** Traps preserve user mode *)

(** The kernel state from which a trap of [k] schedules. *)
Definition enters k (c : nat) (p : process) k0 : Prop :=
  (timer_cause (hw k) /\ k0 = trapped k c (interrupted (hw k) p) (mach k)) \/
  (ecall_cause (hw k) /\ exists sc s, calls e k p sc s /\ known_type sc /\
     k0 = trapped k c (ecalled (hw k) p sc) s).

Lemma trap_returns k k' c p : user_mode e k c p -> trap k k' ->
  exists k0, enters k c p k0 /\ returns_to e k0 c k'.
Proof.
  intros Hum [[Hc|Hc] Hk].
  - pose proof (wp_kernel_entry_timer e k c p Hum (proj1 Hc) (proj2 Hc)) as Hwp.
    unfold wp in Hwp. rewrite Hk in Hwp. eexists. split; [by left|exact Hwp].
  - pose proof (wp_kernel_entry_ecall e k c p Hum Hc) as Hwp.
    unfold wp in Hwp. rewrite Hk in Hwp. destruct Hwp as (sc & s & Hca & Hty & Hret).
    eexists. split; [|exact Hret]. right. eauto 10.
Qed.

Lemma trap_user_mode k k' c p : user_mode e k c p -> trap k k' ->
  exists c' p', user_mode e k' c' p'.
Proof.
  intros Hum Ht. destruct (trap_returns _ _ _ _ Hum Ht) as (k0 & _ & i0 & k1 & q & k2 & _ & _ & Hum').
  eauto.
Qed.

(** ** proc_alloc *)

(** The first free slot. *)
Definition first_unused (l : list process) (i : nat) (p : process) : Prop :=
  (i < 16)%nat /\ l !! i = Some p /\ p_status p = PROC_UNUSED /\
  forall j q, (j < i)%nat -> l !! j = Some q -> p_status q <> PROC_UNUSED.

(** [k] after the slot [i] was allocated. *)
Definition allocated k (i : nat) (p : process) : kernel S :=
  with_procs (with_alloc k (u32 (alloc_pid k + 1)))
    (<[i := set_status (set_pid p (i32 (u32 (alloc_pid k + 1)))) PROC_LOADING]> (proc_set k)).

Definition full_table : string :=
  "proc_alloc: reach the limit of " +:+ pretty MAX_NPROCESS +:+ " processes".

Lemma wp_alloc_loop E n i k Q : (16 <= length (proc_set k))%nat -> (i + n = 16)%nat ->
  (forall j q, (j < i)%nat -> proc_set k !! j = Some q -> p_status q <> PROC_UNUSED) ->
  ((forall j q, (j < 16)%nat -> proc_set k !! j = Some q -> p_status q <> PROC_UNUSED) ->
    E full_table) ->
  (forall j p, first_unused (proc_set k) j p ->
    Q (i32 (u32 (alloc_pid k + 1))) (allocated k j p)) ->
  wp E (proc_alloc_loop n (Z.of_nat i)) k Q.
Proof.
  revert i. induction n as [|n IH]; intros i Hlen Hn Hbelow HE HQ; cbn [proc_alloc_loop].
  { apply wp_fatal, HE. intros j q Hj. apply Hbelow. lia. }
  destruct (lookup_lt_is_Some_2 (proc_set k) i) as [p Hp]; [lia|].
  apply wp_bind. eapply wp_get_proc; [by rewrite Nat2Z.id|]. case_decide as Hst.
  - apply wp_bind, wp_modify. apply wp_bind, wp_gets. apply wp_bind.
    eapply wp_upd_proc; [by rewrite Nat2Z.id|]. rewrite Nat2Z.id. apply wp_ret.
    apply HQ. repeat split; auto. lia.
  - replace (Z.of_nat i + 1) with (Z.of_nat (Datatypes.S i)) by lia. apply IH; auto; [lia|].
    intros j q Hj Hq. destruct (decide (j = i)) as [->|]; [by simplify_eq|].
    apply (Hbelow j q); [lia|done].
Qed.
Lemma tbl_alloc a l i p : tbl_inv a l -> 0 <= a -> (i < 16)%nat -> l !! i = Some p ->
  tbl_inv (a + 1) (<[i := set_status (set_pid p (a + 1)) PROC_LOADING]> l).
Proof.
  intros Hinv Ha Hi Hp. set (p' := set_status _ _).
  assert (forall j q, <[i := p']> l !! j = Some q ->
    (j = i /\ q = p') \/ (j <> i /\ l !! j = Some q)) as Hcase.
  { intros j q [(-> & -> & _)|[? ?]]%list_lookup_insert_Some; [by left|right; by split]. }
  assert (forall j q, (j < 16)%nat -> l !! j = Some q -> p_pid q <> a + 1) as Hfresh.
  { intros j q Hj Hq. pose proof (ti_pid _ _ Hinv j q Hj Hq). lia. }
  split.
  - rewrite length_insert. apply Hinv.
  - intros j q Hj [[-> ->]|[Hne Hq]]%Hcase; [cbn; lia|].
    pose proof (ti_pid _ _ Hinv j q Hj Hq). lia.
  - intros j j' q q' Hj Hj' Hq Hq' Heq Hpos.
    destruct (Hcase _ _ Hq) as [[-> ->]|[Hne Hlq]], (Hcase _ _ Hq') as [[-> ->]|[Hne' Hlq']].
    + done.
    + by destruct (Hfresh j' q').
    + by destruct (Hfresh j q).
    + by apply (ti_uniq _ _ Hinv j j' q q').
  - intros j q Hj [[-> ->]|[Hne Hq]]%Hcase Hu; [cbn; lia|]. by apply (ti_used _ _ Hinv j).
  - intros j q Hj [[-> ->]|[Hne Hq]]%Hcase Hs; [done|]. by apply (ti_type _ _ Hinv j).
  - intros j q Hj [[-> ->]|[Hne Hq]]%Hcase Hans; [by destruct Hans|].
    pose proof (ti_sender _ _ Hinv j q Hj Hq Hans). lia.
  - intros j j' q q' Hj Hj' [[-> ->]|[Hne Hq]]%Hcase Hq' Hans Heq; [by destruct Hans|].
    pose proof (ti_sender _ _ Hinv j q Hj Hq Hans).
    apply Hcase in Hq' as [[-> ->]|[Hne' Hq']]; [cbn in Heq; lia|].
    by apply (ti_rdv _ _ Hinv j j').
  - intros j q [[-> ->]|[Hne Hq]]%Hcase.
    + exact (ti_regs _ _ Hinv i p Hp).
    + exact (ti_regs _ _ Hinv j q Hq).
  - intros j q [[-> ->]|[Hne Hq]]%Hcase.
    + exact (ti_sc _ _ Hinv i p Hp).
    + exact (ti_sc _ _ Hinv j q Hq).
Qed.

Lemma allocated_user_mode k c p i q : user_mode e k c p -> alloc_pid k + 1 < 2 ^ 31 ->
  first_unused (proc_set k) i q -> user_mode e (allocated k i q) c p.
Proof.
  intros Hum Ha (Hi & Hq & Hst & _). pose proof (only_runs_status _ _ _ _ Hum) as Hrun.
  destruct Hum as [(Hinv & Hal & He) Hlt Hidx Hp Hr Harea Hvm].
  assert (i <> c) as Hne by (intros ->; congruence).
  unfold allocated. rewrite u32_id, i32_id by lia. split; cbn; try done.
  - split; [|split; [cbn; lia|done]]. apply tbl_alloc; [done|lia|done..].
  - by rewrite list_lookup_insert_ne.
  - intros j r Hj [(<- & <- & _)|[Hj' Hr']]%list_lookup_insert_Some; [done|by apply Hr].
Qed.

(** ** Changing the status of a process other than the current one *)
Lemma user_mode_procs k k' c p l : user_mode e k c p ->
  tbl_inv (alloc_pid k) l -> l !! c = Some p -> only_runs l c ->
  proc_set k' = l -> core_to_proc_idx k' = core_to_proc_idx k -> alloc_pid k' = alloc_pid k ->
  hw k' = hw k -> earth_inv (mach k') -> vm_pid (mach k') = vm_pid (mach k) ->
  user_mode e k' c p.
Proof.
  intros [(Hinv & Ha & He) Hlt Hidx Hp Hr Harea Hvm] Hl Hc Hrun <- Hi Hal Hhw He' Hvm'.
  split; try done; [|by rewrite Hi, Hhw|by rewrite Hhw|congruence].
  split; [by rewrite Hal|]. split; [by rewrite Hal|done].
Qed.

Lemma only_runs_insert l c i st q : only_runs l c -> l !! i = Some q -> i <> c ->
  st <> PROC_RUNNING -> only_runs (<[i := set_status q st]> l) c.
Proof.
  intros Hr Hq Hne Hst j r Hj [(<- & <- & _)|[Hj' Hr']]%list_lookup_insert_Some; [|by apply Hr].
  cbn. split; [done|congruence].
Qed.

Lemma ready_user_mode k c p pid k' : user_mode e k c p -> loading k pid ->
  proc_set_ready pid k = Ok (tt, k') -> user_mode e k' c p.
Proof.
  intros Hum (i & q & Hi & Hq & <- & Hst) Hk. injection Hk as <-.
  pose proof Hum as [(Hinv & Ha & He) Hlt Hidx Hp Hr Harea Hvm].
  assert (i <> c) as Hne.
  { intros ->. apply (Hr c q) in Hq as [_ Hrun]; [|done]. rewrite Hrun in Hst; done. }
  assert (0 < p_pid q) by (apply (ti_used _ _ Hinv i); [done..|by rewrite Hst]).
  cbn. rewrite (status_loop_at (alloc_pid k) _ i q) by done.
  apply (user_mode_procs k _ c p (<[i := set_status q PROC_READY]> (proc_set k))); try done.
  - by apply tbl_set_status_active; rewrite ?Hst.
  - by rewrite list_lookup_insert_ne.
  - by apply only_runs_insert.
Qed.
(** ** proc_free *)

(** The machine after the address spaces of the pids in [P] were freed. *)
Definition freed_mem (s s' : S) (P : Z -> Prop) : Prop :=
  earth_inv s' /\ vm_pid s' = vm_pid s /\
  forall q v, (P q -> aspace s' q v = None) /\ (~ P q -> aspace s' q v = aspace s q v).

Lemma wp_free E k pid Q : earth_inv (mach k) -> 0 < pid ->
  (forall s', freed_mem (mach k) s' (eq pid) ->
    Q tt (with_procs (with_mach k s') (status_loop pid PROC_UNUSED (proc_set k)))) ->
  wp E (proc_free e pid) k Q.
Proof.
  intros He Hpos HQ. unfold proc_free. rewrite (proj2 (Z.eqb_neq _ _)) by (unfold GPID_ALL; lia).
  cbn [negb]. apply wp_bind, wp_earth_call. eapply wp_mono; [by apply free_spec|].
  intros [] s' (He' & Hvm & Has). apply wp_modify. apply HQ. split_and!; auto.
  intros q v. rewrite Has. split; intros Hq; [by rewrite decide_True|by rewrite decide_False].
Qed.

Lemma free_user_mode k c p pid k' : user_mode e k c p -> 0 < pid -> pid <> p_pid p ->
  proc_free e pid k = Ok (tt, k') -> user_mode e k' c p.
Proof.
  intros Hum Hpos Hne Hk. pose proof Hum as [(Hinv & Ha & He) Hlt Hidx Hp Hr Harea Hvm].
  assert (wp (fun _ => True) (proc_free e pid) k (fun _ k' => user_mode e k' c p)) as Hwp.
  { apply wp_free; [done|done|]. intros s' (He' & Hvm' & _).
    eapply (user_mode_procs k _ c p (status_loop pid PROC_UNUSED (proc_set k))); try done.
    - destruct (find_pid (proc_set k) pid) as [(i & q & Hi & Hq & <-)|Hno].
      + erewrite status_loop_at by done. by apply tbl_free.
      + by rewrite status_loop_none.
    - rewrite status_loop_lookup, Hp. cbn. rewrite bool_decide_false; [done|]. by intros [_ ?].
    - intros i q Hi. rewrite status_loop_lookup. destruct (proc_set k !! i) as [r|] eqn:Hi'; [|done].
      intros [= <-]. case_bool_decide as Hd; [|by apply Hr]. cbn. split; [done|].
      intros ->. simplify_eq. by destruct Hd. }
  unfold wp in Hwp. by rewrite Hk in Hwp.
Qed.

(** The table after [proc_free(GPID_ALL)], up to index [n]. *)
Definition users_freed (n : nat) (l l' : list process) : Prop :=
  forall j, l' !! j = (fun p => if bool_decide ((j < n)%nat /\ GPID_USER_START <= p_pid p)
                             then set_status p PROC_UNUSED else p) <$> l !! j.

(** The pids of user processes in use at an index below [n]. *)
Definition user_pid (n : nat) (l : list process) (q : Z) : Prop :=
  exists i p, (i < n)%nat /\ l !! i = Some p /\ p_pid p = q /\ GPID_USER_START <= q /\
    p_status p <> PROC_UNUSED.

Lemma users_freed_step i l l' p : users_freed i l l' -> l' !! i = Some p ->
  users_freed (Datatypes.S i) l
    (if bool_decide (GPID_USER_START <= p_pid p) then <[i := set_status p PROC_UNUSED]> l' else l').
Proof.
  intros Hl Hp j. pose proof (Hl i) as Hi. rewrite Hp in Hi.
  destruct (l !! i) as [p0|] eqn:Hp0; [|done]. cbn in Hi.
  rewrite bool_decide_false in Hi by lia. injection Hi as ->.
  destruct (decide (j = i)) as [->|Hne].
  - rewrite Hp0. cbn. case_bool_decide as Hu.
    + rewrite list_lookup_insert_eq by (by eapply lookup_lt_Some). by rewrite bool_decide_true by lia.
    + rewrite Hp. by rewrite bool_decide_false by lia.
  - transitivity (l' !! j).
    { case_bool_decide; [by rewrite list_lookup_insert_ne|done]. }
    rewrite Hl. destruct (l !! j) as [q|]; [|done]. cbn.
    do 2 case_bool_decide; (done || lia).
Qed.
Lemma freed_mem_ext s s' (P P' : Z -> Prop) :
  (forall q, P q <-> P' q) -> freed_mem s s' P -> freed_mem s s' P'.
Proof.
  intros HP (He & Hvm & Has). split_and!; auto. intros q v. rewrite <- !HP. apply Has.
Qed.

Lemma user_pid_step i l p : l !! i = Some p ->
  forall q, user_pid (Datatypes.S i) l q <->
    user_pid i l q \/ (q = p_pid p /\ GPID_USER_START <= q /\ p_status p <> PROC_UNUSED).
Proof.
  intros Hp q. split.
  - intros (j & r & Hj & Hr & Hq & Hu & Hs). destruct (decide (j = i)) as [->|].
    + simplify_eq. by right.
    + left. exists j, r. split_and!; auto. lia.
  - intros [(j & r & Hj & Hr)|(-> & Hu & Hs)].
    + exists j, r. split; [lia|done].
    + exists i, p. split_and!; auto.
Qed.

(** What [proc_free(GPID_ALL)] has done below index [n], from [k0]. *)
Record freed_upto (n : nat) k0 k : Prop := {
  fu_tbl : tbl_inv (alloc_pid k0) (proc_set k);
  fu_procs : users_freed n (proc_set k0) (proc_set k);
  fu_mem : freed_mem (mach k0) (mach k) (user_pid n (proc_set k0));
  fu_idx : core_to_proc_idx k = core_to_proc_idx k0;
  fu_core : core_in_kernel k = core_in_kernel k0;
  fu_alloc : alloc_pid k = alloc_pid k0;
  fu_hw : hw k = hw k0;
}.

Lemma wp_free_all_loop E n i k0 k : (i + n = 16)%nat -> freed_upto i k0 k ->
  wp E (free_all_loop e n (Z.of_nat i)) k (fun _ => freed_upto 16 k0).
Proof.
  revert i k. induction n as [|n IH]; intros i k Hn Hk; cbn [free_all_loop].
  { apply wp_ret. by replace 16%nat with i by lia. }
  destruct Hk as [Htbl Hprocs Hmem Hidx Hcore Hal Hhw].
  destruct (lookup_lt_is_Some_2 (proc_set k) i) as [p Hp]; [rewrite (ti_len _ _ Htbl); lia|].
  assert (proc_set k0 !! i = Some p) as Hp0.
  { pose proof (Hprocs i) as Hi. rewrite Hp in Hi. destruct (proc_set k0 !! i); [|done].
    cbn in Hi. rewrite bool_decide_false in Hi by lia. done. }
  pose proof (users_freed_step i _ _ p Hprocs Hp) as Hstep.
  pose proof (user_pid_step i _ p Hp0) as Hup.
  replace (Z.of_nat i + 1) with (Z.of_nat (Datatypes.S i)) by lia.
  apply wp_bind. eapply wp_get_proc; [by rewrite Nat2Z.id|]. apply wp_bind.
  destruct (Z.leb_spec GPID_USER_START (p_pid p)) as [Hu|Hu]; cbn [andb].
  - destruct (decide (p_status p = PROC_UNUSED)) as [Hst|Hst];
      [rewrite (bool_decide_true (p_status p = _)) by done
      |rewrite (bool_decide_false (p_status p = _)) by done]; cbn [negb].
    + apply wp_ret, IH; [lia|]. rewrite bool_decide_true in Hstep by done. split; auto.
      * rewrite list_insert_id in Hstep; [done|]. rewrite Hp. f_equal. destruct p. cbn in *. by subst.
      * eapply freed_mem_ext; [|done]. intros q. rewrite Hup. split; [by left|].
        intros [?|(_ & _ & ?)]; done.
    + apply wp_bind, wp_earth_call. eapply wp_mono.
      { apply free_spec; [apply Hmem|]. unfold GPID_USER_START in Hu. lia. }
      intros [] s' (He' & Hvm & Has). eapply wp_upd_proc; [by rewrite Nat2Z.id|].
      rewrite Nat2Z.id. apply IH; [lia|]. rewrite bool_decide_true in Hstep by done.
      split; auto; [by apply tbl_free; [|lia|]|].
      destruct Hmem as (He & Hvm0 & Has0). split_and!; [done|cbn; congruence|].
      intros q v. rewrite Hup. cbn. rewrite Has. specialize (Has0 q v). case_decide as Hq.
      * split; [done|]. intros Hnq. destruct Hnq. right. by subst.
      * split; [|intros Hnq; apply Has0; tauto]. intros [Hq'|[? _]]; [by apply Has0|done].
  - apply wp_ret, IH; [lia|]. rewrite bool_decide_false in Hstep by lia. split; auto.
    eapply freed_mem_ext; [|done]. intros q. rewrite Hup. split; [by left|].
    intros [?|(-> & ? & _)]; [done|lia].
Qed.

Lemma wp_free_all E k : kinv e k -> wp E (proc_free e GPID_ALL) k (fun _ => freed_upto 16 k).
Proof.
  intros (Hinv & Ha & He). apply (wp_free_all_loop E 16 0 k k); [done|]. split; auto.
  - intros j. destruct (proc_set k !! j); [|done]. cbn. by rewrite bool_decide_false by lia.
  - split_and!; auto. intros q v. split; [|done]. intros (i & p & Hi & _). lia.
Qed.

Lemma free_all_user_mode k c p k' : user_mode e k c p -> p_pid p < GPID_USER_START ->
  proc_free e GPID_ALL k = Ok (tt, k') -> user_mode e k' c p.
Proof.
  intros Hum Hpid Hk. pose proof (wp_free_all (fun _ => True) k (um_inv _ _ _ _ Hum)) as Hwp.
  unfold wp in Hwp. rewrite Hk in Hwp. destruct Hwp as [Htbl Hprocs Hmem Hidx Hcore Hal Hhw].
  eapply (user_mode_procs k k' c p (proc_set k')); try done; [| |apply Hmem..].
  - rewrite Hprocs, (um_slot _ _ _ _ Hum). cbn. by rewrite bool_decide_false by lia.
  - intros i q Hi Hq. rewrite Hprocs in Hq. destruct (proc_set k !! i) as [r|] eqn:Hr; [|done].
    injection Hq as <-. pose proof (um_runs _ _ _ _ Hum i r Hi Hr) as Hrun.
    case_bool_decide as Hd; [|done]. cbn. split; [done|]. intros ->.
    rewrite (um_slot _ _ _ _ Hum) in Hr. injection Hr as <-. lia.
Qed.

(** ** Reachable states *)
Lemma user_runs_mode k c p k' q : user_mode e k c p -> user_runs k q k' -> user_mode e k' c p.
Proof.
  intros [(Hinv & Ha & He) Hlt Hidx Hp Hr Harea Hvm] [Hpr Hi Hc Hal Hh Har He' Hvm' _].
  split; try done; rewrite ?Hpr, ?Hi, ?Hh; try done; [|congruence].
  split; [by rewrite Hal, Hpr|]. split; [by rewrite Hal|done].
Qed.

Lemma user_mode_unique k c c' p p' : user_mode e k c p -> user_mode e k c' p' ->
  c' = c /\ p' = p.
Proof.
  intros [_ _ Hi Hp _ _ _] [_ _ Hi' Hp' _ _ _].
  assert (c' = c) as -> by (apply Nat2Z.inj; congruence). split; [done|congruence].
Qed.

Lemma between_user_mode k k' c p : user_mode e k c p -> between k k' -> user_mode e k' c p.
Proof.
  intros Hum Hb. destruct Hb as [k c' p' k' Hum' Hu|k pid k' Ha Hk|k pid k' Hl Hk
    |k c' p' pid k' Hum' Hpos Hne Hk|k c' p' k' Hum' Hpid Hk].
  - by eapply user_runs_mode.
  - assert (wp (fun _ => True) proc_alloc k (fun _ k' => user_mode e k' c p)) as Hwp.
    { apply (wp_alloc_loop _ 16 0); [|done|intros; lia|done|].
      - rewrite (ti_len _ _ (proj1 (um_inv _ _ _ _ Hum))). lia.
      - intros j q Hq. by apply allocated_user_mode. }
    unfold wp in Hwp. by rewrite Hk in Hwp.
  - by eapply ready_user_mode.
  - assert (c' = c /\ p' = p) as [-> ->] by (by eapply user_mode_unique). by eapply free_user_mode.
  - assert (c' = c /\ p' = p) as [-> ->] by (by eapply user_mode_unique). by eapply free_all_user_mode.
Qed.

Lemma reaches_user_mode k0 k c p : user_mode e k0 c p -> reaches_state k0 k ->
  exists c' p', user_mode e k c' p'.
Proof.
  intros Hum Hreach. induction Hreach as [|k k' _ (c1 & p1 & IH) Ht|k k' _ (c1 & p1 & IH) Hb].
  - eauto.
  - by eapply trap_user_mode.
  - exists c1, p1. by eapply between_user_mode.
Qed.
End trace.
