(* ===== verification/KernelFair.v ===== *)
(** * The kernel: fairness, contexts and messages along runs

    Consequences of the trap lemmas for runs of the system: a waiting process
    is reached by the round-robin scan, a suspended context is kept until it is
    resumed, and the kernel writes user memory only to complete receives. *)

From stdpp Require Import pretty options.
From S2P Require Import Prelude Earth Process Kernel KernelInv KernelIpc KernelSched KernelTrace.

Section fair.
Context {S : Type} (e : earth S) `{!EarthSpec e}.
Implicit Types (k : kernel S).

(** The process at index [m] waits for the processor. *)
Definition waits k (m : nat) : Prop :=
  (m < 16)%nat /\ exists p, proc_set k !! m = Some p /\ schedulable p = true.
(** The process at index [m] is on the processor. *)
Definition runs k (m : nat) : Prop := exists p, user_mode e k m p.

(** A run of the system, with [n] traps, in every state of which the process
    at index [m] waits. *)
Inductive waiting_run (m : nat) (k : kernel S) : nat -> kernel S -> Prop :=
| waiting_refl : waits k m -> waiting_run m k 0 k
| waiting_trap n k1 k2 : waiting_run m k n k1 -> trap e k1 k2 -> waits k2 m ->
    waiting_run m k (Datatypes.S n) k2
| waiting_between n k1 k2 : waiting_run m k n k1 -> between e k1 k2 -> waits k2 m ->
    waiting_run m k n k2.

Lemma enters_slot k c p k0 m : enters e k c p k0 -> m <> c ->
  proc_set k0 !! m = proc_set k !! m.
Proof.
  intros [[_ ->]|(_ & sc & s & _ & _ & ->)] Hne; cbn; by rewrite list_lookup_insert_ne.
Qed.

Lemma slot_after_dist c m : (c < 16)%nat -> (m < 16)%nat -> m <> c ->
  exists d, 1 <= d <= 15 /\ slot_after (Z.of_nat c) d = m.
Proof.
  intros Hc Hm Hne. unfold slot_after, MAX_NPROCESS.
  destruct (decide (c < m)%nat).
  - exists (Z.of_nat m - Z.of_nat c). split; [lia|]. rewrite Z.mod_small; lia.
  - exists (Z.of_nat m - Z.of_nat c + 16). split; [lia|].
    replace (Z.of_nat c + _) with (Z.of_nat m + 1 * 16) by lia.
    rewrite Z.mod_add by lia. rewrite Z.mod_small; lia.
Qed.

Lemma slot_after_add c i d : slot_after (Z.of_nat (slot_after c i)) d = slot_after c (i + d).
Proof.
  unfold slot_after, MAX_NPROCESS. pose proof (Z.mod_pos_bound (c + i) 16).
  rewrite Z2Nat.id by lia. rewrite Zplus_mod_idemp_l. do 2 f_equal. lia.
Qed.

Lemma slot_after_inj c i j : 1 <= i <= 16 -> 1 <= j <= 16 ->
  slot_after c i = slot_after c j -> i = j.
Proof.
  unfold slot_after, MAX_NPROCESS. intros Hi Hj Heq.
  pose proof (Z.mod_pos_bound (c + i) 16). pose proof (Z.mod_pos_bound (c + j) 16).
  pose proof (Z.div_mod (c + i) 16). pose proof (Z.div_mod (c + j) 16). lia.
Qed.

(** A trap brings the scan closer to a waiting process, or reaches it. *)
Lemma trap_progress k c p k' m d : user_mode e k c p -> trap e k k' -> waits k m ->
  1 <= d <= 16 -> slot_after (Z.of_nat c) d = m ->
  runs k' m \/
  (waits k' m /\ exists c' p' d', user_mode e k' c' p' /\ 1 <= d' < d /\
     slot_after (Z.of_nat c') d' = m).
Proof.
  intros Hum Ht [Hm (q & Hq & Hs)] Hd Hdm.
  destruct (trap_returns _ _ _ _ _ Hum Ht) as (k0 & Hent & i0 & k1 & r & k2 & Hy & -> & Hum').
  destruct Hy as [Hinv1 Hf Hi0 Hr Hsr Hidle [Hprocs Hrest]].
  assert (m <> c) as Hmc.
  { intros ->. rewrite (um_slot _ _ _ _ Hum) in Hq. injection Hq as <-.
    pose proof (only_runs_status _ _ _ _ Hum) as Hst. unfold schedulable in Hs.
    by rewrite Hst in Hs. }
  assert (proc_set k0 !! m = Some q) as Hq0 by (by erewrite enters_slot).
  assert (i0 <= d) as Hle.
  { destruct (decide (i0 <= d)) as [|Hgt]; [done|]. exfalso.
    rewrite (Hidle d q) in Hs; [done|lia|by rewrite Hdm]. }
  destruct (decide (i0 = d)) as [->|Hid].
  { left. rewrite Hdm in Hum'. by eexists. }
  right. assert (m <> slot_after (Z.of_nat c) i0) as Hmi.
  { intros Heq. apply Hid. apply (slot_after_inj (Z.of_nat c)); lia || congruence. }
  split.
  - split; [done|]. destruct (kframe_slot _ _ _ _ _ Hf Hq0) as (q1 & Hq1 & Hev).
    exists q1. split; [|by eapply evolves_schedulable]. cbn.
    by rewrite Hprocs, list_lookup_insert_ne.
  - eexists _, _, (d - i0). split; [exact Hum'|]. split; [lia|].
    rewrite slot_after_add. by replace (i0 + (d - i0)) with d by lia.
Qed.

Lemma waiting_run_dist m k n k' c p : user_mode e k c p -> waiting_run m k n k' ->
  exists c' p' d', user_mode e k' c' p' /\ 1 <= d' /\ d' + Z.of_nat n <= 15 /\
    slot_after (Z.of_nat c') d' = m /\ waits k' m.
Proof.
  intros Hum Hrun. induction Hrun as [Hw|n k1 k2 Hrun IH Ht Hw|n k1 k2 Hrun IH Hb Hw].
  - assert (m <> c) as Hmc.
    { intros ->. destruct Hw as [_ (q & Hq & Hs)]. rewrite (um_slot _ _ _ _ Hum) in Hq.
      injection Hq as <-. unfold schedulable in Hs. by rewrite (only_runs_status _ _ _ _ Hum) in Hs. }
    destruct (slot_after_dist c m (um_lt _ _ _ _ Hum) (proj1 Hw) Hmc) as (d & Hd & Hdm).
    exists c, p, d. split_and!; auto; lia.
  - destruct IH as (c' & p' & d' & Hum' & Hd & Hdn & Hdm & Hw').
    destruct (trap_progress _ _ _ _ _ d' Hum' Ht Hw') as [[q Hr]|[_ (c2 & p2 & d2 & Hum2 & Hd2 & Hm2)]];
      [lia|done| |].
    + exfalso. destruct Hw as [_ (r & Hr' & Hs)]. rewrite (um_slot _ _ _ _ Hr) in Hr'.
      injection Hr' as <-. unfold schedulable in Hs. by rewrite (only_runs_status _ _ _ _ Hr) in Hs.
    + exists c2, p2, d2. split_and!; auto; lia.
  - destruct IH as (c' & p' & d' & Hum' & Hd & Hdn & Hdm & Hw').
    exists c', p', d'. split_and!; auto. by eapply between_user_mode.
Qed.
(** ** Messages *)

(** The state in which a trap schedules satisfies the invariant, and its
    address spaces are the user's. *)
Lemma enters_inv k c p k0 : user_mode e k c p -> enters e k c p k0 ->
  kinv e k0 /\ forall q v, aspace (mach k0) q v = aspace (mach k) q v.
Proof.
  intros Hum Hent. pose proof Hum as [Hinv _ _ Hp _ _ _].
  destruct Hent as [[_ ->]|(_ & sc & s & Hca & Hty & ->)]; (split; [|done || apply Hca]).
  - apply (trapped_inv e k c p); [done|apply Hinv|done|done| |done|by intros [? _]].
    apply (ti_sc _ _ (proj1 Hinv) c p Hp).
  - apply (trapped_inv e k c p); [done|apply Hca|done|done|apply Hca|done|].
    intros (_ & _ & Hs). by destruct Hs; apply Hca.
Qed.

(** Dispatching keeps the pids and the system calls of the table. *)
Lemma dispatch_slot (l : list process) (c' i : nat) r y : l !! c' = Some r -> l !! i = Some y ->
  exists y', <[c' := launched r]> l !! i = Some y' /\ p_pid y' = p_pid y /\
    p_syscall y' = p_syscall y.
Proof.
  intros Hr Hy. destruct (decide (i = c')) as [->|Hne].
  - rewrite Hr in Hy. injection Hy as <-. exists (launched r).
    rewrite list_lookup_insert_eq by (by eapply lookup_lt_Some).
    by rewrite launched_pid, launched_syscall.
  - exists y. by rewrite list_lookup_insert_ne.
Qed.

Lemma dispatch_slot_inv (l : list process) (c' i : nat) r y' : l !! c' = Some r -> <[c' := launched r]> l !! i = Some y' ->
  exists y, l !! i = Some y /\ p_pid y' = p_pid y /\ p_syscall y' = p_syscall y.
Proof.
  intros Hr [(<- & <- & _)|[_ Hy]]%list_lookup_insert_Some; [|by exists y'].
  exists r. by rewrite launched_pid, launched_syscall.
Qed.

(** [s] is in, or was freed during, a send of the message of [sc] to [q]. *)
Definition sends (s : process) (q : Z) (sc : syscall) : Prop :=
  sc_type (p_syscall s) = SYS_SEND /\ sc_receiver (p_syscall s) = q /\
  sc_content (p_syscall s) = sc_content sc.

Lemma send_kept l s s' : proc_evolves l s s' -> sc_type (p_syscall s) = SYS_SEND ->
  p_syscall s' = p_syscall s.
Proof. intros Hev Hs. eapply proc_evolves_answered; [done|]. rewrite Hs. by intros [? _]. Qed.

(** A completed receive carries the message its sender is blocked with. *)
Lemma completed_message k0 k1 q sc : kinv e k0 -> kframe e k0 k1 -> completes k0 k1 q sc ->
  0 < sc_sender sc /\
  forall j s, (j < 16)%nat -> proc_set k1 !! j = Some s -> p_pid s = sc_sender sc -> sends s q sc.
Proof.
  intros (Hinv & _) Hf (i & p & p' & Hi & Hp & Hp' & Hq & Hq' & Hpos & Hb & Hr & Ht & Hs & Hsc).
  destruct (kframe_slot _ _ _ _ _ Hf Hp) as (p2 & Hp2 & Hev). rewrite Hp' in Hp2.
  injection Hp2 as <-.
  destruct (pe_syscall _ _ _ Hev) as [Heq|(m & snd & Hm & Hsnd & Hst & Hty & Hrc & Hacc & Heq)].
  - rewrite Heq in Hsc. subst sc. assert (answered p) as Hans by done. split.
    { by apply (ti_sender _ _ Hinv i p). }
    intros j s Hj Hjs Hsp. destruct (kframe_slot_inv _ _ _ _ _ Hf Hjs) as (s0 & Hs0 & Hevs).
    destruct (ti_rdv _ _ Hinv i j p s0) as (_ & H1 & H2 & H3); auto;
      [by rewrite <- (pe_pid _ _ _ Hevs)|].
    unfold sends. rewrite (send_kept _ _ _ Hevs H1), H2. by subst q.
  - rewrite Heq in Hsc. cbn in Hsc. subst sc. cbn. split.
    { apply (ti_used _ _ Hinv m); [done..|]. by rewrite Hst. }
    intros j s Hj Hjs Hsp. destruct (kframe_slot_inv _ _ _ _ _ Hf Hjs) as (s0 & Hs0 & Hevs).
    assert (0 < p_pid snd) by (apply (ti_used _ _ Hinv m); [done..|]; by rewrite Hst).
    assert (j = m) as ->.
    { apply (ti_uniq _ _ Hinv j m s0 snd); auto; rewrite <- (pe_pid _ _ _ Hevs); lia. }
    rewrite Hsnd in Hs0. injection Hs0 as <-. unfold sends.
    rewrite (send_kept _ _ _ Hevs Hty). cbn. split_and!; auto. congruence.
Qed.

(** ** Suspended contexts *)

(** The index of the process on the hart. *)
Definition on_hart k (m : nat) : Prop :=
  core_to_proc_idx k !! Z.to_nat (mhartid (hw k)) = Some (Z.of_nat m).

(** A run that does not return to the process at index [m]. *)
Inductive away (m : nat) (k : kernel S) : kernel S -> Prop :=
| away_refl : away m k k
| away_trap k1 k2 : away m k k1 -> trap e k1 k2 -> ~ on_hart k2 m -> away m k k2
| away_between k1 k2 : away m k k1 -> between e k1 k2 -> away m k k2.

(** If index [m] still belongs to [pid], its process is suspended with the
    program counter [pc] and the registers [regs]. *)
Definition parked (m : nat) (pid pc : Z) (regs : list Z) k : Prop :=
  0 < pid <= alloc_pid k /\
  forall p, proc_set k !! m = Some p -> p_pid p = pid ->
    p_mepc p = pc /\ p_saved_registers p = regs /\
    p_status p <> PROC_READY /\ p_status p <> PROC_LOADING.

(** What a trap keeps of a process that was not on the hart. *)
Lemma parked_trap m pid pc regs k k' c p : user_mode e k c p -> trap e k k' -> c <> m ->
  parked m pid pc regs k ->
  (~ on_hart k' m -> parked m pid pc regs k') /\
  (on_hart k' m -> forall q, proc_set k' !! m = Some q -> p_pid q = pid ->
     csr_mepc (hw k') = pc /\ saved_area (hw k') = regs).
Proof.
  intros Hum Ht Hne [Hpid Hpark].
  destruct (trap_returns _ _ _ _ _ Hum Ht) as (k0 & Hent & i0 & k1 & r & k2 & Hy & -> & Hum').
  destruct Hy as [Hinv1 Hf Hi0 Hr Hsr Hidle [Hprocs Hidx Hcore Hal Hhw _ _ _]].
  assert (alloc_pid k0 = alloc_pid k) as Hal0
    by (by destruct Hent as [[_ ->]|(_ & sc & s & _ & _ & ->)]).
  assert (forall q1, proc_set k1 !! m = Some q1 -> p_pid q1 = pid ->
    p_mepc q1 = pc /\ p_saved_registers q1 = regs /\
    p_status q1 <> PROC_READY /\ p_status q1 <> PROC_LOADING) as Hk1.
  { intros q1 Hq1 Hp1. destruct (kframe_slot_inv _ _ _ _ _ Hf Hq1) as (q0 & Hq0 & Hev).
    rewrite (enters_slot _ _ _ _ _ Hent) in Hq0 by done.
    destruct (Hpark q0 Hq0) as (Hm & Hg & Hr1 & Hl1); [rewrite <- Hp1; symmetry; apply Hev|].
    rewrite (pe_mepc _ _ _ Hev), (pe_regs _ _ _ Hev). split_and!; auto;
      by destruct (pe_status _ _ _ Hev) as [-> | ->]. }
  pose proof (um_slot _ _ _ _ Hum') as Hslot. pose proof (um_idx _ _ _ _ Hum') as Hon.
  split.
  - intros Hoff. split; [cbn; by rewrite Hal, (kf_alloc _ _ _ Hf), Hal0|].
    assert (m <> slot_after (Z.of_nat c) i0) by (intros ->; by apply Hoff).
    intros q. cbn. rewrite Hprocs, list_lookup_insert_ne by done. apply Hk1.
  - intros Hto q Hq Hqp. unfold on_hart in Hto. rewrite Hon in Hto.
    assert (slot_after (Z.of_nat c) i0 = m) as Hm by (injection Hto; lia).
    rewrite Hm in Hr, Hslot. rewrite Hslot in Hq. injection Hq as <-.
    rewrite launched_pid in Hqp. destruct (Hk1 r Hr Hqp) as (<- & <- & Hnr & _).
    cbn. by rewrite decide_False.
Qed.

Lemma parked_status pid pc regs m k k' l : parked m pid pc regs k ->
  alloc_pid k' = alloc_pid k -> proc_set k' = l ->
  (forall q', l !! m = Some q' -> exists q, proc_set k !! m = Some q /\ p_pid q' = p_pid q /\
    p_mepc q' = p_mepc q /\ p_saved_registers q' = p_saved_registers q /\
    (p_status q' = p_status q \/ p_status q' = PROC_UNUSED)) ->
  parked m pid pc regs k'.
Proof.
  intros [Hpid Hpark] Hal <- Hl. split; [by rewrite Hal|]. intros q' Hq' Hp'.
  destruct (Hl q' Hq') as (q & Hq & Hpq & Hm & Hr & Hs). rewrite Hm, Hr.
  destruct (Hpark q Hq) as (? & ? & ? & ?); [congruence|]. split_and!; auto; by destruct Hs as [-> | ->].
Qed.

Lemma parked_between m pid pc regs k k' c p : user_mode e k c p -> between e k k' ->
  (m < 16)%nat -> parked m pid pc regs k -> parked m pid pc regs k'.
Proof.
  intros Hum Hb Hm Hpark. pose proof (um_inv _ _ _ _ Hum) as Hinv.
  destruct Hb as [k c' p' k' Hum' Hu|k pid' k' Ha Hk|k pid' k' Hl Hk
    |k c' p' pid' k' Hum' Hpos Hne Hk|k c' p' k' Hum' Hpid Hk].
  - destruct Hu as [Hpr _ _ Hal _ _ _ _ _]. eapply parked_status; [done..|].
    intros q Hq. exists q. auto 10.
  - destruct Hpark as [Hpid Hpark]. destruct Hinv as (Hinv & Hal & _).
    assert (wp (fun _ => True) proc_alloc k (fun _ => parked m pid pc regs)) as Hwp.
    { apply (wp_alloc_loop _ 16 0); [rewrite (ti_len _ _ Hinv); lia|done|intros; lia|done|].
      intros j q (Hj & Hq & _). unfold allocated. rewrite u32_id, i32_id by lia.
      split; [cbn; lia|]. intros r [(<- & <- & _)|[_ Hr]]%list_lookup_insert_Some Hrp; [|by apply Hpark].
      cbn in Hrp. lia. }
    unfold wp in Hwp. by rewrite Hk in Hwp.
  - injection Hk as <-. destruct Hl as (i & q & Hi & Hq & <- & Hst). destruct Hpark as [Hpid Hpark].
    split; [done|]. intros r. cbn. rewrite status_loop_lookup.
    destruct (proc_set k !! m) as [r0|] eqn:Hr0; [|done]. intros [= <-].
    case_bool_decide as Hd; [|by apply Hpark]. intros Hrp. cbn in Hrp.
    destruct (Hpark r0 eq_refl Hrp) as (_ & _ & _ & Hl). destruct Hl.
    assert (m = i) as ->; [|congruence].
    apply (ti_uniq _ _ (proj1 Hinv) m i r0 q); auto; [apply Hd|]. lia.
  - assert (wp (fun _ => True) (proc_free e pid') k (fun _ => parked m pid pc regs)) as Hwp.
    { apply (wp_free e); [apply Hinv|done|]. intros s' _. eapply parked_status; [done..|].
      intros q'. cbn. rewrite status_loop_lookup. destruct (proc_set k !! m) as [q|]; [|done].
      intros [= <-]. exists q. case_bool_decide; cbn; auto 10. }
    unfold wp in Hwp. by rewrite Hk in Hwp.
  - pose proof (wp_free_all e (fun _ => True) k Hinv) as Hwp. unfold wp in Hwp. rewrite Hk in Hwp.
    destruct Hwp as [_ Hpr _ _ _ Hal _]. eapply parked_status; [done..|].
    intros q'. rewrite Hpr. destruct (proc_set k !! m) as [q|]; [|done].
    intros [= <-]. exists q. case_bool_decide; cbn; auto 10.
Qed.

Lemma parked_away m pid pc regs k k' : (m < 16)%nat -> (exists c p, user_mode e k c p /\ c <> m) ->
  parked m pid pc regs k -> away m k k' ->
  parked m pid pc regs k' /\ exists c p, user_mode e k' c p /\ c <> m.
Proof.
  intros Hm Hum Hpark Haway.
  induction Haway as [|k1 k2 _ [IH (c & p & Humc & Hne)] Ht Hoff|k1 k2 _ [IH (c & p & Humc & Hne)] Hb].
  - done.
  - split; [by eapply parked_trap|].
    destruct (trap_user_mode _ _ _ _ _ Humc Ht) as (c' & p' & Hum'). exists c', p'. split; [done|].
    intros ->. apply Hoff. apply (um_idx _ _ _ _ Hum').
  - split; [by eapply parked_between|]. exists c, p. split; [by eapply between_user_mode|done].
Qed.

(** The trap that suspends a process parks it. *)
Lemma trap_parks k k' c p : user_mode e k c p -> trap e k k' -> ~ on_hart k' c ->
  parked c (p_pid p) (if Z.testbit (mcause (hw k)) 31 then csr_mepc (hw k)
                      else u32 (csr_mepc (hw k) + 4)) (saved_area (hw k)) k'.
Proof.
  intros Hum Ht Hoff. pose proof Hum as [(Hinv & Ha & He) Hlt Hidx Hp Hr Harea Hvm].
  destruct (trap_returns _ _ _ _ _ Hum Ht) as (k0 & Hent & i0 & k1 & r & k2 & Hy & -> & Hum').
  destruct Hy as [Hinv1 Hf Hi0 Hr1 Hsr Hidle [Hprocs Hidx1 Hcore Hal Hhw _ _ _]].
  assert (alloc_pid k0 = alloc_pid k) as Hal0
    by (by destruct Hent as [[_ ->]|(_ & sc & s & _ & _ & ->)]).
  assert (c <> slot_after (Z.of_nat c) i0) as Hne
    by (intros Heq; apply Hoff; pose proof (um_idx _ _ _ _ Hum') as Hi; by rewrite <- Heq in Hi).
  split.
  { cbn. rewrite Hal, (kf_alloc _ _ _ Hf), Hal0. split.
    - apply (ti_used _ _ Hinv c); [done..|]. by rewrite (only_runs_status _ _ _ _ Hum).
    - by apply (ti_pid _ _ Hinv c). }
  intros q. cbn [resume with_hart proc_set].
  rewrite Hprocs, list_lookup_insert_ne by done. intros Hq _.
  destruct (kframe_slot_inv _ _ _ _ _ Hf Hq) as (q0 & Hq0 & Hev).
  rewrite (pe_mepc _ _ _ Hev), (pe_regs _ _ _ Hev).
  assert (c < length (proc_set k))%nat by (by eapply lookup_lt_Some).
  destruct Hent as [[[Hbit _] ->]|(Hec & sc & s & _ & _ & ->)]; cbn in Hq0;
    rewrite list_lookup_insert_eq in Hq0 by done; injection Hq0 as <-;
    cbn [interrupted ecalled p_mepc p_saved_registers].
  - rewrite Hbit. split_and!; auto; by destruct (pe_status _ _ _ Hev) as [-> | ->].
  - rewrite (ecall_not_intr _ Hec). split_and!; auto; by destruct (pe_status _ _ _ Hev) as [-> | ->].
Qed.
End fair.
