(* ===== verification/KernelProps.v ===== *)
(** * The kernel: properties

    The claims about [grass/process.c], [grass/kernel.c] and the start of
    [grass/init.c], proved for any earth layer that implements [EarthSpec].
    Their instances on the software TLB are in the file [KernelWitness]. *)

From stdpp Require Import pretty options.
From S2P Require Import Prelude Earth Process Kernel KernelInv KernelIpc KernelSched KernelTrace KernelFair.

(** ** Starting the grass layer *)

(** A zero-initialised [struct process]. *)
Definition zero_process : process := {|
  p_pid := 0;
  p_syscall := {| sc_type := 0; sc_sender := 0; sc_receiver := 0;
                  sc_content := zeros (Z.to_nat SYSCALL_MSG_LEN); sc_status := 0 |};
  p_status := PROC_UNUSED;
  p_mepc := 0;
  p_saved_registers := replicate (Z.to_nat SAVED_REGISTER_NUM) 0;
|}.

(** The static variables of the grass layer at boot. *)
Definition boot_kernel {S} (h : hart) (s : S) : kernel S := {|
  proc_set := replicate (Z.to_nat (MAX_NPROCESS + 1)) zero_process;
  core_to_proc_idx := replicate (Z.to_nat (NCORES + 1)) 0;
  core_in_kernel := 0;
  alloc_pid := 0;
  hw := h;
  mach := s;
|}.

(** [grass_entry] after GPID_PROCESS was loaded: it becomes the running
    process, in its address space, at its entry point with [a0] = [APPS_ARG]. *)
Definition grass_entry {S} (e : earth S) : M (kernel S) unit :=
  pid ← proc_alloc;
  proc_set_running pid;;
  earth_call (mmu_switch e GPID_PROCESS);;
  earth_call (mmu_flush_cache e);;
  mmodify (fun k => with_hart k {| mhartid := mhartid (hw k); csr_mepc := APPS_ENTRY;
    mcause := mcause (hw k); saved_area := <[0%nat := APPS_ARG]> (saved_area (hw k)) |}).

Section props.
Context {S : Type} (e : earth S) `{!EarthSpec e}.
Implicit Types (k : kernel S).

Lemma zero_syscall_ok : syscall_ok (p_syscall zero_process).
Proof. by split_and!; try (cbn; lia). Qed.

Lemma boot_table : tbl_inv 0 (replicate 17 zero_process).
Proof.
  assert (forall i p, replicate 17 zero_process !! i = Some p -> p = zero_process) as Hl
    by (intros i p Hp; by apply lookup_replicate in Hp as [-> _]).
  assert (~ answered zero_process) as Hans by (intros [? _]; done).
  split.
  - done.
  - intros i p _ ->%Hl. done.
  - intros i j p q _ _ ->%Hl ->%Hl _ Hpos. cbn in Hpos. lia.
  - intros i p _ ->%Hl Hst. done.
  - intros i p _ ->%Hl Hst. done.
  - intros i p _ ->%Hl Ha. done.
  - intros i j p q _ _ ->%Hl _ Ha. done.
  - intros i p ->%Hl. done.
  - intros i p ->%Hl. apply zero_syscall_ok.
Qed.

(** GPID_PROCESS at boot. *)
Definition first_process : process :=
  set_status (set_status (set_pid zero_process 1) PROC_LOADING) PROC_RUNNING.

Lemma grass_entry_boots h s : earth_inv s -> 0 <= mhartid h <= NCORES ->
  length (saved_area h) = 32%nat ->
  exists k, grass_entry e (boot_kernel h s) = Ok (tt, k) /\ user_mode e k 0 first_process /\
    vm_pid (mach k) = GPID_PROCESS /\ csr_mepc (hw k) = APPS_ENTRY /\
    saved_area (hw k) !! 0%nat = Some APPS_ARG /\ (forall q v, aspace (mach k) q v = aspace s q v) /\ alloc_pid k = 1.
Proof.
  intros He Hh Ha. set (k0 := boot_kernel h s).
  set (k1 := allocated k0 0 zero_process).
  assert (proc_alloc k0 = Ok (1, k1)) as Halloc by reflexivity.
  set (l := <[0%nat := first_process]> (replicate 17 zero_process)).
  assert (tbl_inv 1 (<[0%nat := set_status (set_pid zero_process 1) PROC_LOADING]>
    (replicate 17 zero_process))) as Hinv1 by (apply (tbl_alloc 0); [apply boot_table|lia..|done]).
  assert (tbl_inv 1 l) as Hinv.
  { apply (tbl_set_status_active 1 _ 0 (set_status (set_pid zero_process 1) PROC_LOADING)
      PROC_RUNNING) in Hinv1; [|lia|done..]. by rewrite list_insert_insert_eq in Hinv1. }
  set (Q := fun (_ : unit) k => user_mode e k 0 first_process /\
    vm_pid (mach k) = GPID_PROCESS /\ csr_mepc (hw k) = APPS_ENTRY /\
    saved_area (hw k) !! 0%nat = Some APPS_ARG /\ (forall q v, aspace (mach k) q v = aspace s q v) /\ alloc_pid k = 1).
  assert (wp (fun _ => False) (grass_entry e) k0 Q) as Hwp.
  { unfold grass_entry. apply wp_bind. eapply wp_ok; [exact Halloc|]. apply wp_bind, wp_modify.
    change (status_loop 1 PROC_RUNNING (proc_set k1)) with l.
    apply wp_bind, wp_earth_call. eapply wp_mono; [by apply switch_spec|].
    intros [] s1 (He1 & Hvm1 & Has1). apply wp_bind, wp_earth_call.
    eapply wp_mono; [by apply flush_spec|]. intros [] s2 (He2 & Hvm2 & Has2). apply wp_modify.
    split; [|split; [by transitivity (vm_pid s1)|split; [done|split]]]; cycle 1.
    { cbn. apply list_lookup_insert_eq. lia. }
    { split; [|done]. intros q v. by transitivity (aspace s1 q v). }
    split; try done.
    - lia.
    - cbn. apply lookup_replicate. unfold NCORES in *. split; [done|lia].
    - intros [|i] p Hi Hp; [by injection Hp as <-|].
      cbn in Hp. apply (lookup_replicate 16) in Hp as [-> _]. done.
    - cbn. by rewrite length_insert.
    - by transitivity (vm_pid s1). }
  destruct (wp_returns _ _ _ Hwp) as ([] & k & Hk & HQ). by exists k.
Qed.
(** C3: the kernel invariant.  From boot, in every state the system reaches by
    user programs running, timer interrupts and system calls handled by
    [kernel_entry], and GPID_PROCESS allocating, readying and freeing processes,
    exactly one process is RUNNING, the one the hart executes, and its address
    space is the installed one; no two slots hold
    the same pid; every blocked process is in a known system call; and for a
    receiver whose message was delivered, a slot that still has the pid of the sender
    is blocked in a send of that very message to it, or was freed meanwhile and is
    UNUSED. *)
Theorem kernel_invariant (h : hart) (s : S) (k0 k : kernel S) :
  earth_inv s -> 0 <= mhartid h <= NCORES -> length (saved_area h) = 32%nat ->
  grass_entry e (boot_kernel h s) = Ok (tt, k0) -> reaches_state e k0 k ->
  exists c p, user_mode e k c p.
Proof.
  intros He Hh Ha Hk Hreach. destruct (grass_entry_boots h s He Hh Ha) as (k1 & Hk1 & Hum & _).
  rewrite Hk in Hk1. injection Hk1 as <-. by eapply reaches_user_mode.
Qed.

(** C32: a timer interrupt switches to the next process in round-robin order.
    [kernel_entry] saves the context of the running process and puts it back in
    the queue, retries the blocked system calls in its way, and resumes the
    first process after it that is READY or RUNNABLE; it can fail only with
    "unknown receiver", when a blocked send names a process that is gone. *)
Theorem timer_interrupt_schedules (k : kernel S) (c : nat) (p : process) :
  user_mode e k c p -> timer_cause (hw k) ->
  let k0 := trapped k c (interrupted (hw k) p) (mach k) in
  match kernel_entry e k with
  | Ok (_, k') => returns_to e k0 c k'
  | Fatal m => lost_receiver k0 m
  | Stuck | NoFuel => False
  end.
Proof. intros Hum [Hbit Hid]. by apply (wp_kernel_entry_timer e k c p). Qed.

(** C33: a system call.  [kernel_entry] reads the call of the running process
    from its own system-call page, blocks it with its program counter past the
    [ecall], and resumes the first process after it, in round-robin order, that is
    READY or RUNNABLE (the caller itself, if its call is already complete and no
    other is).  It fails exactly with one of: unknown system-call type, unknown
    receiver, no process to run. *)
Theorem ecall_blocks_and_schedules (k : kernel S) (c : nat) (p : process) :
  user_mode e k c p -> ecall_cause (hw k) ->
  match kernel_entry e k with
  | Ok (_, k') => exists sc s, calls e k p sc s /\ known_type sc /\
      returns_to e (trapped k c (ecalled (hw k) p sc) s) c k'
  | Fatal m => ecall_fatal e k c p m
  | Stuck | NoFuel => False
  end.
Proof. intros Hum Hec. by apply (wp_kernel_entry_ecall e k c p). Qed.

(** C4: no starvation.  A READY or RUNNABLE process waits through at most 14
    traps: in any run in which it is never dispatched (nor freed), the number
    of traps is at most 14, and the next one dispatches it, if it was the
    15th, or leaves it waiting. *)
Theorem no_starvation (k k' k'' : kernel S) (c m n : nat) (p : process) :
  user_mode e k c p -> waiting_run e m k n k' -> trap e k' k'' ->
  (n <= 14)%nat /\ (runs e k'' m \/ waits k'' m) /\ (n = 14%nat -> runs e k'' m).
Proof.
  intros Hum Hrun Ht.
  destruct (waiting_run_dist e _ _ _ _ _ _ Hum Hrun) as (c' & p' & d & Hum' & Hd & Hdn & Hdm & Hw).
  split; [lia|].
  destruct (trap_progress e _ _ _ _ _ d Hum' Ht Hw) as [Hr|[Hw' (c2 & p2 & d2 & _ & Hd2 & _)]];
    [lia|done|auto|]. split; [auto|]. intros ->. lia.
Qed.

(** A suspended context is restored exactly.  If a trap takes the hart
    away from the process at index [c] and, after any run in which it is not
    resumed, another trap gives it back, the program counter and all 32 saved
    words are those of the first trap (the program counter past the [ecall] for
    a system call). *)
Theorem context_restored (k k1 k2 k3 : kernel S) (c : nat) (p q : process) :
  user_mode e k c p -> trap e k k1 -> ~ on_hart k1 c -> away e c k1 k2 ->
  trap e k2 k3 -> on_hart k3 c -> proc_set k3 !! c = Some q -> p_pid q = p_pid p ->
  csr_mepc (hw k3) = (if Z.testbit (mcause (hw k)) 31 then csr_mepc (hw k)
                      else u32 (csr_mepc (hw k) + 4)) /\
  saved_area (hw k3) = saved_area (hw k).
Proof.
  intros Hum Ht Hoff Haway Ht2 Hon Hq Hpid.
  pose proof (trap_parks e _ _ _ _ Hum Ht Hoff) as Hpark.
  destruct (trap_user_mode e _ _ _ _ Hum Ht) as (c1 & p1 & Hum1).
  assert (c1 <> c) as Hne by (intros ->; apply Hoff, (um_idx _ _ _ _ Hum1)).
  destruct (parked_away e _ _ _ _ _ _ (um_lt _ _ _ _ Hum) (ex_intro _ c1 (ex_intro _ p1 (conj Hum1 Hne)))
    Hpark Haway) as (Hpark2 & c2 & p2 & Hum2 & Hne2).
  eapply (parked_trap e); eauto.
Qed.

(** C6: the kernel touches user memory only to complete receives.  If a trap
    changes a page of some process, it is the system-call page of a process
    whose receive completes, the new contents are exactly the kernel's copy of
    its call, and the message and the sender's pid in it are those of a
    process in a send to it (unless that one was freed). *)
Theorem kernel_writes_messages_only (k k' : kernel S) (c : nat) (p : process) (q v : Z) :
  user_mode e k c p -> trap e k k' -> aspace (mach k') q v <> aspace (mach k) q v ->
  v = SYSCALL_PAGE /\
  exists pg sc i r, aspace (mach k) q v = Some pg /\
    aspace (mach k') q v = Some (put_syscall sc pg) /\
    (i < 16)%nat /\ proc_set k' !! i = Some r /\ p_pid r = q /\ p_syscall r = sc /\
    sc_type sc = SYS_RECV /\ 0 < sc_sender sc /\
    forall j s, (j < 16)%nat -> proc_set k' !! j = Some s -> p_pid s = sc_sender sc -> sends s q sc.
Proof.
  intros Hum Ht Hdiff.
  destruct (trap_returns e _ _ _ _ Hum Ht) as (k0 & Hent & i0 & k1 & r & k2 & Hy & -> & Hum').
  pose proof (enters_inv e _ _ _ _ Hum Hent) as [Hinv0 Hmem0].
  destruct Hy as [Hinv1 Hf _ Hr _ _ [Hprocs _ _ _ _ _ _ Hmem2]]. cbn in Hdiff |- *.
  rewrite Hmem2 in *. destruct (kf_mem _ _ _ Hf q v) as [Heq|(-> & sc & Hc & Heq)];
    [by rewrite Heq, Hmem0 in Hdiff|].
  destruct (completed_message e _ _ _ _ Hinv0 Hf Hc) as [Hpos Hmsg].
  destruct Hc as (i & x & y & Hi & Hx & Hy & _ & Hyq & _ & _ & _ & Hty & _ & Hsc).
  rewrite Heq, Hmem0 in *. destruct (aspace (mach k) q SYSCALL_PAGE) as [pg|]; [|done].
  split; [done|]. set (c' := slot_after (Z.of_nat c) i0) in *.
  destruct (dispatch_slot _ c' i r y Hr Hy) as (y' & Hy' & Hpid' & Hsc').
  exists pg, sc, i, y'. rewrite Hprocs. split_and!; auto; try congruence.
  intros j s Hj Hs Hsp. destruct (dispatch_slot_inv _ c' j r s Hr Hs) as (s1 & Hs1 & Hp1 & Hc1).
  unfold sends. rewrite Hc1. apply (Hmsg j s1); auto. congruence.
Qed.
(** Sending.  [proc_try_send] finds the process the call names; if that
    one is blocked in a receive that takes messages from this sender, it gets
    the message, the sender's pid and status DONE, and nothing else changes;
    if it is not, nothing changes at all.  It fails exactly when no process
    in use has that pid. *)
Theorem proc_try_send_correct (k : kernel S) (j : nat) (p : process) :
  kinv e k -> proc_set k !! j = Some p ->
  match proc_try_send (Z.of_nat j) k with
  | Ok (_, k') => exists i dst, (i < 16)%nat /\ proc_set k !! i = Some dst /\ receives p dst /\
      k' = if accepts dst p then with_procs k (<[i := deliver p dst]> (proc_set k)) else k
  | Fatal m => m = unknown_receiver (sc_receiver (p_syscall p)) /\
      forall i q, (i < 16)%nat -> proc_set k !! i = Some q -> ~ receives p q
  | Stuck | NoFuel => False
  end.
Proof.
  intros Hinv Hp.
  apply (wp_try_send e (fun m => m = unknown_receiver (sc_receiver (p_syscall p)) /\
    forall i q, (i < 16)%nat -> proc_set k !! i = Some q -> ~ receives p q) k j p
    (fun _ k' => exists i dst, (i < 16)%nat /\ proc_set k !! i = Some dst /\ receives p dst /\
      k' = sent k p i dst)); eauto 10.
Qed.

(** Receiving.  [proc_try_recv] of a blocked receiver does nothing while
    the call is pending; once it was answered, the receiver's system-call page,
    and no other page of any process, gets the kernel's copy of the call, and
    the receiver and its sender become RUNNABLE. *)
Theorem proc_try_recv_correct (k : kernel S) (i : nat) (p : process) :
  kinv e k -> (i < 16)%nat -> proc_set k !! i = Some p ->
  p_status p = PROC_PENDING_SYSCALL -> sc_type (p_syscall p) = SYS_RECV ->
  match proc_try_recv e (Z.of_nat i) k with
  | Ok (_, k') =>
      if decide (sc_status (p_syscall p) = PENDING) then k' = k else
      exists s', delivered e (mach k) s' (p_pid p) (p_syscall p) /\
        k' = with_procs (with_mach k s') (received (proc_set k) i p)
  | _ => False
  end.
Proof.
  intros Hinv Hi Hp Hst Hty.
  pose proof (wp_try_recv e (fun _ => False) k i p (fun _ k' =>
    if decide (sc_status (p_syscall p) = PENDING) then k' = k else
      exists s', delivered e (mach k) s' (p_pid p) (p_syscall p) /\
        k' = with_procs (with_mach k s') (received (proc_set k) i p))) as Hwp.
  unfold wp in Hwp. apply Hwp; auto.
  - intros Hs. by rewrite decide_True.
  - intros s' (_ & _ & Hs) Hdel. rewrite decide_False by done. eauto.
Qed.

(** Allocating a process.  [proc_alloc] takes the first unused slot, gives
    it a pid that no slot holds, marks it LOADING and returns that pid; the
    invariant is kept.  It fails exactly when all 16 slots are in use. *)
Theorem proc_alloc_fresh (k : kernel S) :
  kinv e k -> alloc_pid k + 1 < 2 ^ 31 ->
  match proc_alloc k with
  | Ok (pid, k') => pid = alloc_pid k + 1 /\ alloc_pid k' = pid /\ kinv e k' /\
      (forall i p, (i < 16)%nat -> proc_set k !! i = Some p -> p_pid p <> pid) /\
      exists i p, first_unused (proc_set k) i p /\
        proc_set k' = <[i := set_status (set_pid p pid) PROC_LOADING]> (proc_set k)
  | Fatal m => m = full_table /\
      forall i p, (i < 16)%nat -> proc_set k !! i = Some p -> p_status p <> PROC_UNUSED
  | Stuck | NoFuel => False
  end.
Proof.
  intros (Hinv & Ha & He) Hmax.
  apply (wp_alloc_loop (fun m => m = full_table /\ forall i p, (i < 16)%nat ->
    proc_set k !! i = Some p -> p_status p <> PROC_UNUSED) 16 0 k (fun pid k' =>
      pid = alloc_pid k + 1 /\ alloc_pid k' = pid /\ kinv e k' /\
      (forall i p, (i < 16)%nat -> proc_set k !! i = Some p -> p_pid p <> pid) /\
      exists i p, first_unused (proc_set k) i p /\
        proc_set k' = <[i := set_status (set_pid p pid) PROC_LOADING]> (proc_set k)));
    [rewrite (ti_len _ _ Hinv); lia|done|intros; lia|auto|].
  intros i p Hfirst. pose proof Hfirst as (Hi & Hp & _). unfold allocated.
  rewrite u32_id, i32_id by lia. cbn. split_and!; auto.
  - split; [apply tbl_alloc; auto; lia|]. split; [cbn; lia|done].
  - intros j q Hj Hq. pose proof (ti_pid _ _ Hinv j q Hj Hq). lia.
  - by exists i, p.
Qed.

(** C35: freeing all user processes.  [proc_free(GPID_ALL)] marks UNUSED exactly
    the slots with a pid from GPID_USER_START on and frees exactly the address
    spaces of those in use; the system servers, their memory and the rest of
    the kernel state are untouched, and the table invariant is kept. *)
Theorem proc_free_all_correct (k : kernel S) :
  kinv e k ->
  match proc_free e GPID_ALL k with
  | Ok (_, k') => kinv e k' /\
      (forall j, proc_set k' !! j =
        (fun p => if bool_decide ((j < 16)%nat /\ GPID_USER_START <= p_pid p)
                  then set_status p PROC_UNUSED else p) <$> proc_set k !! j) /\
      (forall q v, user_pid 16 (proc_set k) q -> aspace (mach k') q v = None) /\
      (forall q v, ~ user_pid 16 (proc_set k) q -> aspace (mach k') q v = aspace (mach k) q v) /\
      core_to_proc_idx k' = core_to_proc_idx k /\ alloc_pid k' = alloc_pid k /\ hw k' = hw k
  | _ => False
  end.
Proof.
  intros Hk. pose proof (wp_free_all e (fun _ => False) k Hk) as Hwp. unfold wp in Hwp.
  destruct (proc_free e GPID_ALL k) as [[[] k']| | |]; auto.
  destruct Hwp as [Htbl Hprocs (He & _ & Hmem) Hidx _ Hal Hhw]. destruct Hk as (_ & Ha & _).
  split_and!; auto; [|intros q v; apply Hmem..]. split; [by rewrite Hal|]. by rewrite Hal.
Qed.

(** The system-call structure round-trips through user memory: decoding
    the bytes the kernel writes gives back the structure, and encoding what it
    read gives back the bytes, for every structure of the C type and every
    sequence of [sizeof(struct syscall)] bytes. *)
Theorem syscall_roundtrip (sc : syscall) (b : list byte) :
  syscall_ok sc -> length b = sizeof_syscall ->
  syscall_decode (syscall_encode sc) = sc /\ length (syscall_encode sc) = sizeof_syscall /\
  syscall_encode (syscall_decode b) = b /\ syscall_ok (syscall_decode b).
Proof.
  intros Hsc Hb. split_and!;
    [by apply decode_encode|by apply length_syscall_encode|by apply encode_decode
    |by apply syscall_decode_ok].
Qed.
End props.
