(* ===== verification/KernelWitness.v ===== *)
(** * The kernel on the software TLB

    Concrete runs of the kernel on the machine of [earth/cpu_mmu.c]: witnesses
    that the hypotheses of the kernel's properties hold, and two runs that show
    what [proc_free] leaves behind. *)

From stdpp Require Import pretty options.
From S2P Require Import Prelude Earth Timer Mmu SoftTlb Process Kernel KernelInv KernelIpc KernelSched KernelTrace KernelFair KernelProps.

(** ** A machine with the system-call pages of processes 1 to 5 *)
Definition w_earth : earth machine := mmu_init (tick 0) QEMU SOFT_TLB.
#[global] Instance w_spec : EarthSpec w_earth.
Proof. apply soft_tlb_spec, tick_ok. done. Defined.

Definition w_page (pid : Z) : page_info :=
  {| use := 1; pi_pid := pid; vpage_no := SYSCALL_ARG / PAGE_SIZE |}.
Definition w_machine : machine := {|
  page_info_table := (w_page <$> [1; 2; 3; 4; 5]) ++ replicate 2043 zero_info;
  curr_vm_pid := -1;
  mem := ∅;
  timer := {| reads := 0; mtimecmp := ∅ |};
|}.
Definition w_hart : hart :=
  {| mhartid := 1; csr_mepc := 0; mcause := 0; saved_area := replicate 32 0 |}.

Lemma w_machine_inv : earth_inv w_machine.
Proof.
  assert (forall i p, page_info_table w_machine !! i = Some p -> use p <> 0 ->
    vpage_no p = SYSCALL_ARG / PAGE_SIZE /\ pi_pid p = Z.of_nat i + 1) as Htbl.
  { intros i p Hp Hu. apply lookup_app_Some in Hp as [Hp|[_ Hp]].
    - do 5 (destruct i as [|i]; [by injection Hp as <-|]). done.
    - apply lookup_replicate in Hp as [-> _]. done. }
  split.
  - reflexivity.
  - intros i p Hp Hu _. destruct (Htbl i p Hp Hu) as [-> _]. done.
  - intros i j p q Hp Hq Hu Hv _ Heq _. destruct (Htbl i p Hp Hu), (Htbl j q Hq Hv). lia.
  - intros n. apply length_zeros.
  - done.
  - intros i p Hp Hu. apply lookup_app_Some in Hp as [Hp|[_ Hp]].
    + do 5 (destruct i as [|i]; [by injection Hp as <-|]). done.
    + apply lookup_replicate in Hp as [-> _]. done.
Qed.

(** ** Steps of user programs *)

(** The running program writes the call [sc] and executes [ecall]; or the timer
    interrupts it. *)
Definition user_call (sc : syscall) (k : kernel machine) : kernel machine :=
  with_hart (with_mach k (run_state (mem_store SYSCALL_ARG (syscall_encode sc)) (mach k) (mach k)))
    {| mhartid := mhartid (hw k); csr_mepc := 0x80400010; mcause := 8;
       saved_area := replicate 32 7 |}.
Definition user_tick (k : kernel machine) : kernel machine :=
  with_hart k {| mhartid := mhartid (hw k); csr_mepc := 0x80400020; mcause := 2 ^ 31 + 7;
                 saved_area := replicate 32 9 |}.
Definition do_trap (k : kernel machine) : kernel machine := run_state (kernel_entry w_earth) k k.

Lemma user_tick_between k c p : user_mode w_earth k c p -> between w_earth k (user_tick k).
Proof.
  intros Hum. eapply between_user; [exact Hum|]. split; try done. apply Hum.
Qed.

Lemma user_call_between sc k c p : syscall_ok sc -> user_mode w_earth k c p ->
  between w_earth k (user_call sc k).
Proof.
  intros Hsc Hum. eapply between_user; [exact Hum|].
  pose proof (um_vm _ _ _ _ Hum) as Hvm.
  pose proof (store_spec (mach k) SYSCALL_ARG (p_pid p) SYSCALL_ARG (syscall_encode sc)
    (proj2 (proj2 (um_inv _ _ _ _ Hum)))) as Hst.
  unfold wp in Hst. change (earth_store w_earth) with mem_store in Hst.
  unfold user_call, run_state.
  destruct (mem_store SYSCALL_ARG (syscall_encode sc) (mach k)) as [[[] s]| | |] eqn:Heq.
  2-4: destruct Hst; [by split|by rewrite length_syscall_encode].
  destruct Hst as [He Has]; [by split|by rewrite length_syscall_encode|].
  assert (curr_vm_pid s = curr_vm_pid (mach k)) as Hsv.
  { revert Heq. unfold mem_store. case_bool_decide; [|done]. by intros [= <-]. }
  split; try done. intros q v Hq _. cbn. rewrite Has. rewrite decide_False; [done|]. tauto.
Qed.

Lemma do_trap_trap k : (timer_cause (hw k) \/ ecall_cause (hw k)) ->
  is_ok (kernel_entry w_earth k) = true -> trap w_earth k (do_trap k).
Proof. intros Hc Hok. split; [done|]. by apply run_state_unit. Qed.

(** ** Runs as lists of actions *)
Inductive action : Type :=
| Spawn (pid : Z)        (** GPID_PROCESS allocates and readies the process [pid] *)
| Tick                   (** a timer interrupt is raised *)
| Call (sc : syscall)    (** the running program makes a system call *)
| Trap                   (** [kernel_entry] handles the trap *)
| Killall.               (** GPID_PROCESS calls [proc_free(GPID_ALL)] *)

Definition alloc_state (k : kernel machine) : kernel machine := run_state proc_alloc k k.
Definition act (k : kernel machine) (a : action) : kernel machine :=
  match a with
  | Spawn pid => run_state (proc_set_ready pid) (alloc_state k) k
  | Tick => user_tick k
  | Call sc => user_call sc k
  | Trap => do_trap k
  | Killall => run_state (proc_free w_earth GPID_ALL) k k
  end.

Definition syscall_okb (sc : syscall) : bool :=
  (0 <=? sc_type sc) && (sc_type sc <? 2 ^ 32) &&
  (- 2 ^ 31 <=? sc_sender sc) && (sc_sender sc <? 2 ^ 31) &&
  (- 2 ^ 31 <=? sc_receiver sc) && (sc_receiver sc <? 2 ^ 31) &&
  (length (sc_content sc) =? 1024)%nat && (0 <=? sc_status sc) && (sc_status sc <? 2 ^ 32).
Definition causeb (h : hart) : bool :=
  (Z.testbit (mcause h) 31 && (Z.land (mcause h) 0x3FF =? INTR_ID_TIMER)) ||
  ((EXCP_ID_ECALL_U <=? mcause h) && (mcause h <=? EXCP_ID_ECALL_M)).
Definition loadingb (k : kernel machine) (pid : Z) : bool :=
  existsb (fun p => (p_pid p =? pid) && bool_decide (p_status p = PROC_LOADING))
    (take 16 (proc_set k)).
Definition act_ok (k : kernel machine) (a : action) : bool :=
  match a with
  | Spawn pid => (alloc_pid k + 1 <? 2 ^ 31) && is_ok (proc_alloc k) && loadingb (alloc_state k) pid
  | Tick => true
  | Call sc => syscall_okb sc
  | Trap => causeb (hw k) && is_ok (kernel_entry w_earth k)
  | Killall => (curr_vm_pid (mach k) <? GPID_USER_START) && is_ok (proc_free w_earth GPID_ALL k)
  end.

Fixpoint acts (k : kernel machine) (l : list action) : kernel machine :=
  match l with [] => k | a :: l => acts (act k a) l end.
Fixpoint acts_ok (k : kernel machine) (l : list action) : bool :=
  match l with [] => true | a :: l => act_ok k a && acts_ok (act k a) l end.

Lemma syscall_okb_ok sc : syscall_okb sc = true -> syscall_ok sc.
Proof.
  unfold syscall_okb, syscall_ok. rewrite !andb_true_iff, !Z.leb_le, !Z.ltb_lt, Nat.eqb_eq.
  intros ((((((((? & ?) & ?) & ?) & ?) & ?) & Hl) & ?) & ?). split_and!; lia || done.
Qed.

Lemma causeb_ok h : causeb h = true -> timer_cause h \/ ecall_cause h.
Proof.
  unfold causeb, timer_cause, ecall_cause.
  rewrite orb_true_iff, !andb_true_iff, Z.eqb_eq, !Z.leb_le. tauto.
Qed.

Lemma loadingb_ok k pid : loadingb k pid = true -> loading k pid.
Proof.
  unfold loadingb. intros (p & Hin & Hp)%existsb_exists.
  apply andb_true_iff in Hp as [->%Z.eqb_eq%eq_sym Hst%bool_decide_eq_true].
  apply list_elem_of_In, list_elem_of_lookup in Hin as [i Hi].
  apply lookup_take_Some in Hi as [Hi Hlt]. exists i, p. done.
Qed.

(** One action is one trap, or one or two steps between traps. *)
Lemma act_steps k a c p : user_mode w_earth k c p -> act_ok k a = true ->
  (a = Trap /\ trap w_earth k (act k a)) \/
  (a <> Trap /\ exists k1, between w_earth k k1 /\ (act k a = k1 \/ between w_earth k1 (act k a))).
Proof.
  intros Hum Hok. destruct a as [pid| |sc| |]; cbn [act act_ok] in *;
    [right; split; [done|]..|left; split; [done|]|right; split; [done|]].
  - apply andb_true_iff in Hok as [Hok Hl]. apply andb_true_iff in Hok as [Ha%Z.ltb_lt Hok].
    destruct (proc_alloc k) as [[pid' k1]| | |] eqn:Hk1; try done.
    assert (alloc_state k = k1) as Hk by (unfold alloc_state, run_state; by rewrite Hk1).
    rewrite Hk in *. exists k1. split; [by eapply between_alloc|]. right.
    eapply between_ready; [by apply loadingb_ok|]. by apply run_state_unit.
  - eexists. split; [by eapply user_tick_between|by left].
  - eexists. split; [by eapply user_call_between; [apply syscall_okb_ok|]|by left].
  - apply andb_true_iff in Hok as [Hc Hok]. apply do_trap_trap; [by apply causeb_ok|done].
  - apply andb_true_iff in Hok as [Hc%Z.ltb_lt Hok]. eexists. split; [|by left].
    eapply between_free_all; [exact Hum| |by apply run_state_unit].
    pose proof (um_vm _ _ _ _ Hum) as Hvm. cbn in Hvm. lia.
Qed.

Lemma act_reaches k0 k a c p : user_mode w_earth k0 c p -> reaches_state w_earth k0 k ->
  act_ok k a = true -> reaches_state w_earth k0 (act k a).
Proof.
  intros Hum0 Hr Hok. destruct (reaches_user_mode w_earth k0 k c p Hum0 Hr) as (c' & p' & Hum).
  destruct (act_steps k a c' p' Hum Hok) as [[_ Ht]|[_ (k1 & Hb & Hb')]].
  - by eapply reaches_trap.
  - assert (reaches_state w_earth k0 k1) as Hr1 by (by eapply reaches_between).
    destruct Hb' as [<-|Hb']; [done|]. by eapply reaches_between.
Qed.

(** Actions between traps keep the running process. *)
Lemma act_mode k a c p : user_mode w_earth k c p -> act_ok k a = true -> a <> Trap ->
  user_mode w_earth (act k a) c p.
Proof.
  intros Hum Hok Hne. destruct (act_steps k a c p Hum Hok) as [[? _]|[_ (k1 & Hb & Hb')]]; [done|].
  pose proof (between_user_mode _ _ _ _ _ Hum Hb) as Hum1.
  destruct Hb' as [<-|Hb']; [done|]. by eapply between_user_mode.
Qed.

Lemma acts_reaches k0 k l c p : user_mode w_earth k0 c p -> reaches_state w_earth k0 k ->
  acts_ok k l = true -> reaches_state w_earth k0 (acts k l).
Proof.
  intros Hum. revert k. induction l as [|a l IH]; intros k Hr Hok; [done|]. cbn in *.
  apply andb_true_iff in Hok as [Ha Hok]. apply IH; [by eapply act_reaches|done].
Qed.

(** The state after boot. *)
Definition w_boot : kernel machine :=
  run_state (grass_entry w_earth) (boot_kernel w_hart w_machine) (boot_kernel w_hart w_machine).

Lemma w_boot_eq : grass_entry w_earth (boot_kernel w_hart w_machine) = Ok (tt, w_boot).
Proof. apply run_state_unit. vm_compute. reflexivity. Qed.

Lemma w_boot_mode : user_mode w_earth w_boot 0 first_process.
Proof.
  destruct (grass_entry_boots w_earth w_hart w_machine w_machine_inv) as (k & Hk & Hum & _);
    [unfold NCORES; cbn; lia|reflexivity|].
  rewrite w_boot_eq in Hk. injection Hk as <-. exact Hum.
Qed.

Definition recv_any : syscall :=
  {| sc_type := SYS_RECV; sc_sender := GPID_ALL; sc_receiver := 0;
     sc_content := zeros 1024; sc_status := 0 |}.
Definition send_to (r : Z) : syscall :=
  {| sc_type := SYS_SEND; sc_sender := 0; sc_receiver := r;
     sc_content := replicate 1024 Byte.x41; sc_status := 0 |}.
Definition spawn_all : list action := [Spawn 2; Spawn 3; Spawn 4; Spawn 5].
Definition slot_status (k : kernel machine) (i : nat) : option (Z * proc_status) :=
  (fun p => (p_pid p, p_status p)) <$> proc_set k !! i.

Lemma no_frames s pid v : forallb (fun p => negb (owned pid p)) (page_info_table s) = true ->
  tlb_aspace s pid v = None.
Proof.
  intros Hall. unfold tlb_aspace. case_decide; [done|].
  destruct (frame_of (page_info_table s) pid v) as [i|] eqn:Hf; [|done].
  destruct (frame_of_Some _ _ _ _ Hf) as (p & Hp & Ho & _).
  rewrite forallb_forall in Hall. apply list_elem_of_lookup_2, list_elem_of_In, Hall in Hp.
  by rewrite Ho in Hp.
Qed.

(** A user process (pid 5) sends to a server (pid 2) that waits; before the
    server is resumed, GPID_PROCESS kills all user processes. *)
Definition before_killall : list action :=
  spawn_all ++ [Tick; Trap; Call recv_any; Trap; Tick; Trap; Tick; Trap; Call (send_to 2); Trap].

(** C36: a killed process can come back.  In a run from boot, process 5 is freed
    by [proc_free(GPID_ALL)] while its message, delivered to process 2, was not
    yet received: the next trap marks the free slot RUNNABLE again, although the
    process has no address space left. *)
Theorem killall_revives_sender :
  let k := acts w_boot (before_killall ++ [Killall]) in
  let k' := acts w_boot (before_killall ++ [Killall; Tick; Trap]) in
  reaches_state w_earth w_boot k /\ reaches_state w_earth w_boot k' /\
  slot_status k 4 = Some (5, PROC_UNUSED) /\ slot_status k' 4 = Some (5, PROC_RUNNABLE) /\
  forall v, aspace (mach k') 5 v = None.
Proof.
  intros k k'. split; [|split; [|split; [|split]]].
  - apply (acts_reaches _ _ _ _ _ w_boot_mode); [constructor|]. vm_compute. reflexivity.
  - apply (acts_reaches _ _ _ _ _ w_boot_mode); [constructor|]. vm_compute. reflexivity.
  - vm_compute. reflexivity.
  - vm_compute. reflexivity.
  - intros v. apply no_frames. vm_compute. reflexivity.
Qed.

(** C37: killing user processes can halt the system.  In a run from boot, a
    server (pid 3) is blocked in a reply to process 5, which is then freed by
    [proc_free(GPID_ALL)]; the next time the scheduler retries the reply, the
    kernel stops with "unknown receiver". *)
Theorem killall_can_halt :
  let k := acts w_boot (spawn_all ++ [Tick; Trap; Tick; Trap; Call (send_to 5); Trap; Tick; Trap;
                                      Tick; Trap; Killall; Tick; Trap; Tick]) in
  reaches_state w_earth w_boot k /\ timer_cause (hw k) /\
  kernel_entry w_earth k = Fatal (unknown_receiver 5).
Proof.
  intros k. split; [|split].
  - apply (acts_reaches _ _ _ _ _ w_boot_mode); [constructor|]. vm_compute. reflexivity.
  - vm_compute. done.
  - vm_compute. reflexivity.
Qed.

(** ** Witnesses *)
Lemma acts_mode l : acts_ok w_boot l = true -> exists c p, user_mode w_earth (acts w_boot l) c p.
Proof.
  intros Hok. eapply reaches_user_mode; [apply w_boot_mode|].
  eapply acts_reaches; [apply w_boot_mode|constructor|done].
Qed.

Lemma acts_kinv l : acts_ok w_boot l = true -> kinv w_earth (acts w_boot l).
Proof. intros (c & p & Hum)%acts_mode. apply Hum. Qed.

Lemma kernel_invariant_witness :
  exists c p, user_mode w_earth (acts w_boot before_killall) c p.
Proof.
  apply (kernel_invariant w_earth w_hart w_machine w_boot).
  - apply w_machine_inv.
  - unfold NCORES. cbn. lia.
  - reflexivity.
  - apply w_boot_eq.
  - apply (acts_reaches _ _ _ _ _ w_boot_mode); [constructor|]. vm_compute. reflexivity.
Defined.

(** GPID_PROCESS runs, process 2 is ready, and the timer interrupts. *)
Definition w_tick : kernel machine := acts w_boot [Spawn 2; Tick].

Lemma w_tick_mode : user_mode w_earth w_tick 0 first_process.
Proof.
  apply (act_mode _ Tick); [|reflexivity|done].
  apply (act_mode _ (Spawn 2)); [apply w_boot_mode|vm_compute; reflexivity|done].
Qed.

Lemma w_tick_trap : trap w_earth w_tick (do_trap w_tick).
Proof. apply do_trap_trap; [left; vm_compute; done|vm_compute; reflexivity]. Qed.

Lemma timer_interrupt_schedules_witness :
  match kernel_entry w_earth w_tick with
  | Ok (_, k') => returns_to w_earth
      (trapped w_tick 0 (interrupted (hw w_tick) first_process) (mach w_tick)) 0 k'
  | Fatal m => lost_receiver (trapped w_tick 0 (interrupted (hw w_tick) first_process) (mach w_tick)) m
  | Stuck | NoFuel => False
  end.
Proof.
  apply (timer_interrupt_schedules w_earth w_tick 0 first_process w_tick_mode). vm_compute. done.
Defined.

Definition w_call : kernel machine := acts w_boot [Spawn 2; Call recv_any].

Lemma w_call_mode : user_mode w_earth w_call 0 first_process.
Proof.
  apply (act_mode _ (Call recv_any)); [|vm_compute; reflexivity|done].
  apply (act_mode _ (Spawn 2)); [apply w_boot_mode|vm_compute; reflexivity|done].
Qed.

Lemma ecall_blocks_and_schedules_witness :
  match kernel_entry w_earth w_call with
  | Ok (_, k') => exists sc s, calls w_earth w_call first_process sc s /\ known_type sc /\
      returns_to w_earth (trapped w_call 0 (ecalled (hw w_call) first_process sc) s) 0 k'
  | Fatal m => ecall_fatal w_earth w_call 0 first_process m
  | Stuck | NoFuel => False
  end.
Proof.
  apply (ecall_blocks_and_schedules w_earth w_call 0 first_process w_call_mode).
  unfold ecall_cause, EXCP_ID_ECALL_U, EXCP_ID_ECALL_M. cbn. lia.
Defined.

Lemma no_starvation_witness :
  (0 <= 14)%nat /\ (runs w_earth (do_trap w_tick) 1 \/ waits (do_trap w_tick) 1) /\
  (0%nat = 14%nat -> runs w_earth (do_trap w_tick) 1).
Proof.
  apply (no_starvation w_earth w_tick w_tick (do_trap w_tick) 0 1 0 first_process w_tick_mode).
  - constructor. split; [lia|]. eexists. split; [vm_compute; reflexivity|vm_compute; reflexivity].
  - apply w_tick_trap.
Defined.

(** GPID_PROCESS is interrupted, process 2 runs and is interrupted in turn. *)
Definition w_away : kernel machine := user_tick (do_trap w_tick).

Lemma w_away_trap : trap w_earth w_away (do_trap w_away).
Proof.
  apply (do_trap_trap w_away).
  - left. vm_compute. split; reflexivity.
  - vm_compute. reflexivity.
Qed.

Lemma context_restored_witness :
  csr_mepc (hw (do_trap w_away)) = 0x80400020 /\
  saved_area (hw (do_trap w_away)) = replicate 32 9.
Proof.
  destruct (trap_user_mode _ _ _ _ _ w_tick_mode w_tick_trap) as (c1 & p1 & Hum1).
  destruct (proc_set (do_trap w_away) !! 0%nat) as [q|] eqn:Hq; [|vm_compute in Hq; discriminate].
  apply (context_restored w_earth w_tick (do_trap w_tick) w_away (do_trap w_away) 0 first_process q).
  - apply w_tick_mode.
  - apply w_tick_trap.
  - unfold on_hart. vm_compute. discriminate.
  - eapply away_between; [constructor|]. by eapply user_tick_between.
  - apply w_away_trap.
  - vm_compute. reflexivity.
  - exact Hq.
  - assert (slot_status (do_trap w_away) 0 = Some (1, PROC_RUNNING)) as Hs by (vm_compute; reflexivity).
    unfold slot_status in Hs. rewrite Hq in Hs. injection Hs as Hs _. exact Hs.
Defined.

(** GPID_PROCESS waits for a message and process 2 sends one. *)
Definition w_send : kernel machine := acts w_boot [Spawn 2; Call recv_any; Trap; Call (send_to 1)].

(** The sender in the system-call page of GPID_PROCESS. *)
Definition sender_word (k : kernel machine) : Z :=
  get32 (default [] (aspace (mach k) 1 SYSCALL_PAGE)) 1.

Lemma w_send_writes : sender_word (do_trap w_send) <> sender_word w_send.
Proof. vm_compute. discriminate. Qed.

Lemma kernel_writes_messages_only_witness :
  SYSCALL_PAGE = SYSCALL_PAGE /\
  exists pg sc i r, aspace (mach w_send) 1 SYSCALL_PAGE = Some pg /\
    aspace (mach (do_trap w_send)) 1 SYSCALL_PAGE = Some (put_syscall sc pg) /\
    (i < 16)%nat /\ proc_set (do_trap w_send) !! i = Some r /\ p_pid r = 1 /\ p_syscall r = sc /\
    sc_type sc = SYS_RECV /\ 0 < sc_sender sc /\
    forall j s, (j < 16)%nat -> proc_set (do_trap w_send) !! j = Some s ->
      p_pid s = sc_sender sc -> sends s 1 sc.
Proof.
  destruct (acts_mode [Spawn 2; Call recv_any; Trap; Call (send_to 1)]) as (c & p & Hum);
    [vm_compute; reflexivity|].
  apply (kernel_writes_messages_only w_earth w_send (do_trap w_send) c p).
  - exact Hum.
  - apply do_trap_trap; [right; unfold ecall_cause, EXCP_ID_ECALL_U, EXCP_ID_ECALL_M; cbn; lia|].
    vm_compute. reflexivity.
  - intros Heq. apply w_send_writes. unfold sender_word. rewrite Heq. reflexivity.
Defined.

(** Process 2 is blocked in a send to process 3. *)
Definition w_blocked : kernel machine :=
  acts w_boot [Spawn 2; Spawn 3; Tick; Trap; Call (send_to 3); Trap].

Lemma proc_try_send_correct_witness :
  exists p, proc_set w_blocked !! 1%nat = Some p /\
  match proc_try_send 1 w_blocked with
  | Ok (_, k') => exists i dst, (i < 16)%nat /\ proc_set w_blocked !! i = Some dst /\
      receives p dst /\ k' = if accepts dst p
        then with_procs w_blocked (<[i := deliver p dst]> (proc_set w_blocked)) else w_blocked
  | Fatal m => m = unknown_receiver (sc_receiver (p_syscall p)) /\
      forall i q, (i < 16)%nat -> proc_set w_blocked !! i = Some q -> ~ receives p q
  | Stuck | NoFuel => False
  end.
Proof.
  destruct (proc_set w_blocked !! 1%nat) as [p|] eqn:Hp; [|vm_compute in Hp; discriminate].
  exists p. split; [reflexivity|].
  apply (proc_try_send_correct w_earth w_blocked 1 p); [|exact Hp].
  apply (acts_kinv [Spawn 2; Spawn 3; Tick; Trap; Call (send_to 3); Trap]). vm_compute. reflexivity.
Defined.

(** Process 2 was sent a message and is not yet resumed. *)
Definition w_answered : kernel machine := acts w_boot before_killall.

Lemma w_answered_kinv : kinv w_earth w_answered.
Proof. apply (acts_kinv before_killall). vm_compute. reflexivity. Qed.

Lemma proc_try_recv_correct_witness :
  exists p, proc_set w_answered !! 1%nat = Some p /\
  match proc_try_recv w_earth 1 w_answered with
  | Ok (_, k') =>
      if decide (sc_status (p_syscall p) = PENDING) then k' = w_answered else
      exists s', delivered w_earth (mach w_answered) s' (p_pid p) (p_syscall p) /\
        k' = with_procs (with_mach w_answered s') (received (proc_set w_answered) 1 p)
  | _ => False
  end.
Proof.
  destruct (proc_set w_answered !! 1%nat) as [p|] eqn:Hp; [|vm_compute in Hp; discriminate].
  exists p. split; [reflexivity|].
  assert ((fun p => (p_status p, sc_type (p_syscall p))) <$> proc_set w_answered !! 1%nat =
    Some (PROC_PENDING_SYSCALL, SYS_RECV)) as Hs by (vm_compute; reflexivity).
  rewrite Hp in Hs. injection Hs as Hst Hty.
  apply (proc_try_recv_correct w_earth w_answered 1 p w_answered_kinv); [lia|exact Hp|exact Hst|exact Hty].
Defined.

Lemma proc_alloc_fresh_witness :
  match proc_alloc w_boot with
  | Ok (pid, k') => pid = alloc_pid w_boot + 1 /\ alloc_pid k' = pid /\ kinv w_earth k' /\
      (forall i p, (i < 16)%nat -> proc_set w_boot !! i = Some p -> p_pid p <> pid) /\
      exists i p, first_unused (proc_set w_boot) i p /\
        proc_set k' = <[i := set_status (set_pid p pid) PROC_LOADING]> (proc_set w_boot)
  | Fatal m => m = full_table /\
      forall i p, (i < 16)%nat -> proc_set w_boot !! i = Some p -> p_status p <> PROC_UNUSED
  | Stuck | NoFuel => False
  end.
Proof.
  apply (proc_alloc_fresh w_earth w_boot).
  - apply (um_inv _ _ _ _ w_boot_mode).
  - vm_compute. reflexivity.
Defined.

Lemma proc_free_all_correct_witness :
  match proc_free w_earth GPID_ALL w_answered with
  | Ok (_, k') => kinv w_earth k' /\
      (forall j, proc_set k' !! j =
        (fun p => if bool_decide ((j < 16)%nat /\ GPID_USER_START <= p_pid p)
                  then set_status p PROC_UNUSED else p) <$> proc_set w_answered !! j) /\
      (forall q v, user_pid 16 (proc_set w_answered) q -> aspace (mach k') q v = None) /\
      (forall q v, ~ user_pid 16 (proc_set w_answered) q ->
        aspace (mach k') q v = aspace (mach w_answered) q v) /\
      core_to_proc_idx k' = core_to_proc_idx w_answered /\
      alloc_pid k' = alloc_pid w_answered /\ hw k' = hw w_answered
  | _ => False
  end.
Proof. apply (proc_free_all_correct w_earth w_answered w_answered_kinv). Defined.

Lemma syscall_roundtrip_witness :
  syscall_decode (syscall_encode recv_any) = recv_any /\
  length (syscall_encode recv_any) = sizeof_syscall /\
  syscall_encode (syscall_decode (zeros 1040)) = zeros 1040 /\
  syscall_ok (syscall_decode (zeros 1040)).
Proof.
  apply (syscall_roundtrip recv_any (zeros 1040)).
  - apply syscall_okb_ok. vm_compute. reflexivity.
  - reflexivity.
Defined.
