(* ===== verification/Syscall.v ===== *)
(** * The system call library

    [sys_send] and [sys_recv] of [library/syscall/syscall.c]: what they write to
    the page of the system-call arguments before the [ecall], and what they read
    from it afterwards; and the composition with the kernel's message passing. *)

From stdpp Require Import options.
From S2P Require Import Prelude Earth Timer Mmu SoftTlb Process Kernel KernelInv KernelIpc KernelSched KernelTrace KernelFair KernelProps KernelWitness.

(** ** syscall.c

    [sc] points to the start of the page [SYSCALL_ARG].  Accesses beyond the page
    are outside the structure and undefined. *)

(** [sys_send] up to the [ecall]. *)
Definition sys_send (receiver : Z) (msg : list byte) (size : Z) (pg : page) : outcome page :=
  if (size <=? Z.of_nat (length msg)) && (12 + size <=? PAGE_SIZE) then
    let pg := put32 pg 0 SYS_SEND in
    let pg := put32 pg 2 receiver in
    Ok (splice pg 12 (take (Z.to_nat size) msg))
  else Stuck.

(** [sys_recv] up to the [ecall]. *)
Definition sys_recv (from : Z) (pg : page) : page :=
  let pg := put32 pg 0 SYS_RECV in
  put32 pg 1 from.

(** [sys_recv] after it: [*sender] and the bytes of [buf]. *)
Definition sys_recv_result (size : Z) (pg : page) : outcome (Z * list byte) :=
  if 12 + size <=? PAGE_SIZE then Ok (i32 (get32 pg 1), take (Z.to_nat size) (drop 12 pg)) else Stuck.

(** The call that the kernel reads from the page ([excp_entry]). *)
Definition call_of (pg : page) : syscall :=
  sc_set_status (syscall_decode (slice pg 0 sizeof_syscall)) PENDING.

Lemma call_of_send receiver msg size pg pg' : is_page pg -> - 2 ^ 31 <= receiver < 2 ^ 31 ->
  0 <= size <= SYSCALL_MSG_LEN -> sys_send receiver msg size pg = Ok pg' ->
  is_page pg' /\ sc_type (call_of pg') = SYS_SEND /\ sc_receiver (call_of pg') = receiver /\
  take (Z.to_nat size) (sc_content (call_of pg')) = take (Z.to_nat size) msg.
Proof.
  unfold SYSCALL_MSG_LEN, sys_send. intros Hpg Hr Hsz. destruct (_ && _) eqn:Hb; [|done].
  apply andb_true_iff in Hb as [Hm _]. apply Z.leb_le in Hm. intros [= <-].
  set (pg1 := put32 pg 0 SYS_SEND). assert (is_page pg1) as Hp1 by (apply put32_is_page; [done|lia]).
  set (pg2 := put32 pg1 2 receiver). assert (is_page pg2) as Hp2 by (apply put32_is_page; [done|lia]).
  assert (length pg2 = 4096%nat) as Hl2 by exact Hp2.
  assert (is_page (splice pg2 12 (take (Z.to_nat size) msg))) as Hp3.
  { apply splice_is_page; [|done]. rewrite length_take. lia. }
  unfold call_of, slice, sizeof_syscall. cbn [sc_set_status syscall_decode sc_type sc_receiver sc_content].
  rewrite drop_0, !get32_take, !get32_splice by lia. split_and!; [done|..].
  - unfold pg2. rewrite get32_page_ne by (done || lia). unfold pg1. by apply get32_page_eq; [lia|..].
  - unfold pg2. rewrite get32_put32_eq by (assert (length pg1 = 4096%nat) by exact Hp1; lia).
    rewrite i32_u32. by apply i32_id.
  - change (Z.to_nat SYSCALL_MSG_LEN) with 1024%nat. unfold splice.
    rewrite take_take, take_drop_commute, take_take.
    replace ((12 + Z.to_nat size `min` 1024) `min` 1040)%nat with (12 + Z.to_nat size)%nat by lia.
    rewrite <- take_drop_commute.
    rewrite drop_app_length' by (rewrite length_take; lia). rewrite take_app_le by (rewrite length_take; lia).
    rewrite take_take. f_equal. lia.
Qed.

Lemma call_of_recv from pg : is_page pg -> - 2 ^ 31 <= from < 2 ^ 31 ->
  is_page (sys_recv from pg) /\ sc_type (call_of (sys_recv from pg)) = SYS_RECV /\
  sc_sender (call_of (sys_recv from pg)) = from.
Proof.
  intros Hpg Hf. unfold sys_recv. set (pg1 := put32 pg 0 SYS_RECV).
  assert (is_page pg1) as Hp1 by (apply put32_is_page; [done|lia]).
  unfold call_of, slice, sizeof_syscall. cbn [sc_set_status syscall_decode sc_type sc_sender].
  rewrite drop_0, !get32_take by lia. split_and!.
  - apply put32_is_page; [done|lia].
  - rewrite get32_page_ne by (done || lia). unfold pg1. by apply get32_page_eq; [lia|..].
  - rewrite get32_put32_eq by (assert (length pg1 = 4096%nat) by exact Hp1; lia).
    rewrite i32_u32. by apply i32_id.
Qed.

(** What [sys_recv] returns from a page that the kernel wrote a call to. *)
Lemma sys_recv_result_put sc pg size : is_page pg -> syscall_ok sc -> 0 <= size <= SYSCALL_MSG_LEN ->
  sys_recv_result size (put_syscall sc pg) = Ok (sc_sender sc, take (Z.to_nat size) (sc_content sc)).
Proof.
  unfold SYSCALL_MSG_LEN. intros Hpg (Ht & Hs & Hr & Hc & Hst) Hsz. unfold sys_recv_result, put_syscall, splice, syscall_encode, PAGE_SIZE.
  rewrite (proj2 (Z.leb_le (12 + size) 4096)) by lia. rewrite take_0. cbn [app]. rewrite <- !app_assoc.
  set (rest := drop _ pg). f_equal. f_equal.
  - rewrite (get32_app (le_split 4 (sc_type sc))) by apply length_le_split. rewrite i32_u32. by apply i32_id.
  - rewrite (app_assoc (le_split 4 (sc_type sc))), (app_assoc (_ ++ _) (le_split 4 (sc_receiver sc))).
    rewrite drop_app_length' by (by rewrite !length_app, !length_le_split).
    rewrite take_app_le by (rewrite Hc; unfold SYSCALL_MSG_LEN; lia). done.
Qed.

(** ** A message from a process to another *)
Section message.
Context {S : Type} (e : earth S) `{!EarthSpec e}.

(** C34: a message.  When a process is blocked in [sys_send] of the bytes [msg] to
    a process that is blocked in [sys_recv] from it or from anyone, the kernel's
    two steps succeed, write the receiver's system-call page and no other page of
    any process, and [sys_recv] returns the pid of the sender and the message. *)
Theorem message_delivered (k : kernel S) (i j : nat) (p q : process) (msg : list byte) (size n from : Z)
    (pgs pgs' pgr : page) :
  kinv e k -> (i < 16)%nat -> (j < 16)%nat -> proc_set k !! j = Some p -> proc_set k !! i = Some q ->
  is_page pgs -> 0 <= size <= SYSCALL_MSG_LEN -> sys_send (p_pid q) msg size pgs = Ok pgs' ->
  p_status p = PROC_PENDING_SYSCALL -> p_syscall p = call_of pgs' ->
  is_page pgr -> (from = GPID_ALL \/ from = p_pid p) -> - 2 ^ 31 <= from < 2 ^ 31 ->
  p_status q = PROC_PENDING_SYSCALL -> p_syscall q = call_of (sys_recv from pgr) ->
  aspace (mach k) (p_pid q) SYSCALL_PAGE = Some (sys_recv from pgr) -> 0 <= n <= size ->
  exists k' pg, (proc_try_send (Z.of_nat j);; proc_try_recv e (Z.of_nat i)) k = Ok (tt, k') /\
    aspace (mach k') (p_pid q) SYSCALL_PAGE = Some pg /\
    sys_recv_result n pg = Ok (p_pid p, take (Z.to_nat n) msg) /\
    forall r v, ~ (r = p_pid q /\ v = SYSCALL_PAGE) -> aspace (mach k') r v = aspace (mach k) r v.
Proof.
  intros Hk Hi Hj Hp Hq Hpgs Hsz Hsend Hsp Hcp Hpgr Hfrom Hfr Hsq Hcq Hpage Hn.
  pose proof Hk as (Hinv & Hal & He).
  assert (0 <= p_pid q < 2 ^ 31 /\ 0 <= p_pid p < 2 ^ 31) as [Hqr Hpr].
  { pose proof (ti_pid _ _ Hinv i q Hi Hq). pose proof (ti_pid _ _ Hinv j p Hj Hp). lia. }
  destruct (call_of_send (p_pid q) msg size pgs pgs' Hpgs ltac:(lia) Hsz Hsend) as (_ & Hty & Hrc & Hct).
  destruct (call_of_recv from pgr Hpgr Hfr) as (Hpgr' & Htq & Hsq').
  rewrite <- Hcp in Hty, Hrc, Hct. rewrite <- Hcq in Htq, Hsq'.
  assert (receives p q) as Hrecv by (split; [by rewrite Hrc|by rewrite Hsq]).
  assert (accepts q p = true) as Hacc.
  { unfold accepts. rewrite Htq, Hsq', Hcq. cbn. apply orb_true_iff. rewrite !Z.eqb_eq. done. }
  pose proof (sent_inv e k j p i q Hk Hi Hj Hp Hsp Hty Hq Hrecv) as Hk1.
  set (q' := deliver p q). set (k1 := with_procs k (<[i := q']> (proc_set k))).
  assert (sent k p i q = k1) as Hs1 by (unfold sent; by rewrite Hacc). rewrite Hs1 in Hk1.
  assert (proc_set k1 !! i = Some q') as Hq1 by (apply list_lookup_insert_eq; by eapply lookup_lt_Some).
  assert (syscall_ok (p_syscall q')) as Hok by (apply (ti_sc _ _ (proj1 Hk1) i q' Hq1)).
  assert (wp (fun _ => False) (proc_try_send (Z.of_nat j);; proc_try_recv e (Z.of_nat i)) k (fun _ k' => exists pg,
    aspace (mach k') (p_pid q) SYSCALL_PAGE = Some pg /\
    sys_recv_result n pg = Ok (p_pid p, take (Z.to_nat n) msg) /\
    forall r v, ~ (r = p_pid q /\ v = SYSCALL_PAGE) -> aspace (mach k') r v = aspace (mach k) r v)) as Hwp.
  2:{ apply wp_returns in Hwp as ([] & k' & Hr & pg & H). by exists k', pg. }
  apply wp_bind. eapply wp_try_send; [done|done|intros Hno; by destruct (Hno i q Hi Hq)|].
  intros i' dst Hi' Hdst Hrd. assert (i' = i) as ->.
  { apply (ti_uniq _ _ Hinv i' i dst q); auto; [destruct Hrd, Hrecv; congruence|].
    destruct Hrd as [_ Hu]. by apply (ti_used _ _ Hinv i' dst). }
  assert (dst = q) as -> by congruence. rewrite Hs1.
  eapply wp_try_recv; [done|done|exact Hq1|done|by rewrite <- Htq| |].
  - by intros.
  - intros s' _ [_ Hdel]. cbn [mach with_procs with_mach]. exists (put_syscall (p_syscall q') (sys_recv from pgr)).
    change (mach k1) with (mach k) in Hdel. change (p_pid q') with (p_pid q) in Hdel. split_and!.
    + rewrite Hdel, decide_True, Hpage by done. done.
    + rewrite sys_recv_result_put by (done || lia). cbn [q' deliver set_syscall p_syscall sc_sender sc_content].
      f_equal. f_equal. apply (f_equal (take (Z.to_nat n))) in Hct. rewrite !take_take in Hct.
      by replace (Z.to_nat n `min` Z.to_nat size)%nat with (Z.to_nat n) in Hct by lia.
    + intros r v Hne. by rewrite Hdel, decide_False by done.
Qed.
End message.

(** ** Process 2 is blocked in a send to process 3, which waits for a message *)
Definition w_meet_acts : list action :=
  [Spawn 2; Spawn 3; Spawn 4; Tick; Trap; Call (send_to 3); Trap; Call recv_any; Trap].
Definition w_meet : kernel machine := acts w_boot w_meet_acts.
Definition w_msg : list byte := replicate 1024 Byte.x41.
Definition w_sender_page : page :=
  match sys_send 3 w_msg 1024 zero_page with Ok pg => pg | _ => [] end.

Lemma w_meet_kinv : kinv w_earth w_meet.
Proof. apply acts_kinv. vm_compute. reflexivity. Qed.

Lemma w_meet_sender p : proc_set w_meet !! 1%nat = Some p ->
  p_pid p = 2 /\ p_status p = PROC_PENDING_SYSCALL /\ p_syscall p = call_of w_sender_page.
Proof.
  intros Hp. assert ((fun p => (p_pid p, p_status p, p_syscall p)) <$> proc_set w_meet !! 1%nat =
    Some (2, PROC_PENDING_SYSCALL, call_of w_sender_page)) as H by (vm_compute; reflexivity).
  rewrite Hp in H. injection H as H1 H2 H3. exact (conj H1 (conj H2 H3)).
Qed.

Lemma w_meet_receiver q : proc_set w_meet !! 2%nat = Some q ->
  p_pid q = 3 /\ p_status q = PROC_PENDING_SYSCALL /\ p_syscall q = call_of (sys_recv GPID_ALL zero_page).
Proof.
  intros Hq. assert ((fun p => (p_pid p, p_status p, p_syscall p)) <$> proc_set w_meet !! 2%nat =
    Some (3, PROC_PENDING_SYSCALL, call_of (sys_recv GPID_ALL zero_page))) as H by (vm_compute; reflexivity).
  rewrite Hq in H. injection H as H1 H2 H3. exact (conj H1 (conj H2 H3)).
Qed.

Lemma message_delivered_witness : exists k' pg,
  (proc_try_send 1;; proc_try_recv w_earth 2) w_meet = Ok (tt, k') /\
  aspace (mach k') 3 SYSCALL_PAGE = Some pg /\ sys_recv_result 10 pg = Ok (2, replicate 10 Byte.x41).
Proof.
  destruct (proc_set w_meet !! 1%nat) as [p|] eqn:Hp; [|vm_compute in Hp; discriminate].
  destruct (proc_set w_meet !! 2%nat) as [q|] eqn:Hq; [|vm_compute in Hq; discriminate].
  destruct (w_meet_sender p Hp) as (Hpp & Hps & Hpc). destruct (w_meet_receiver q Hq) as (Hqp & Hqs & Hqc).
  destruct (message_delivered w_earth w_meet 2 1 p q w_msg 1024 10 GPID_ALL zero_page w_sender_page zero_page)
    as (k' & pg & Hrun & Hpg & Hres & _).
  - apply w_meet_kinv.
  - lia.
  - lia.
  - exact Hp.
  - exact Hq.
  - reflexivity.
  - unfold SYSCALL_MSG_LEN. lia.
  - rewrite Hqp. vm_compute. reflexivity.
  - exact Hps.
  - exact Hpc.
  - reflexivity.
  - by left.
  - unfold GPID_ALL. lia.
  - exact Hqs.
  - exact Hqc.
  - rewrite Hqp. vm_compute. reflexivity.
  - lia.
  - rewrite Hqp in Hpg. rewrite Hpp in Hres. exists k', pg. split; [exact Hrun|]. split; [exact Hpg|exact Hres].
Defined.
