(* ===== verification/CString.v ===== *)
(** * C strings

    The functions of [string.h] and [stdlib.h] that the sources call, on
    buffers of bytes: a pointer is the rest of its object, and reading past the
    end is [None].  A [char] of this target is unsigned. *)

From stdpp Require Import options.
From coqutil Require Import Byte.
From S2P Require Import Prelude.

(** String literals. *)
Definition lit (s : string) : list byte := String.list_byte_of_string s.

Abbreviation SPC := Byte.x20.
Abbreviation NUL := Byte.x00.

Fixpoint strlen (b : list byte) : option nat :=
  match b with
  | [] => None
  | c :: b => if decide (c = NUL) then Some 0%nat else S <$> strlen b
  end.

(** [!strncmp(a, b, n)] *)
Fixpoint strncmp_eq (a b : list byte) (n : nat) {struct n} : option bool :=
  match n with
  | O => Some true
  | S n =>
    match a, b with
    | x :: a, y :: b =>
      if decide (x = y) then if decide (x = NUL) then Some true else strncmp_eq a b n
      else Some false
    | _, _ => None
    end
  end.

Definition is_digit (c : byte) : bool :=
  (48 <=? byte.unsigned c) && (byte.unsigned c <=? 57).
Definition is_space (c : byte) : bool :=
  bool_decide (c = SPC) || ((9 <=? byte.unsigned c) && (byte.unsigned c <=? 13)).
Definition digit_val (c : byte) : Z := byte.unsigned c - 48.

(** The digits of [atoi]; they end at another character. *)
Fixpoint atoi_digits (acc : Z) (b : list byte) : option Z :=
  match b with
  | [] => None
  | c :: b => if is_digit c then atoi_digits (acc * 10 + digit_val c) b else Some acc
  end.
Fixpoint atoi (b : list byte) : option Z :=
  match b with
  | [] => None
  | c :: b' =>
    if is_space c then atoi b'
    else if bool_decide (c = Byte.x2d) then (fun v => i32 (- v)) <$> atoi_digits 0 b'
    else if bool_decide (c = Byte.x2b) then i32 <$> atoi_digits 0 b'
    else i32 <$> atoi_digits 0 b
  end.

(** The digits of a natural number in a base up to 16, most significant first;
    [fuel] is the number of digits that fit. *)
Definition digit (d : Z) : byte := byte.of_Z (if d <? 10 then 48 + d else 87 + d).
Fixpoint digits_aux (base : Z) (fuel : nat) (n : Z) (acc : list byte) : list byte :=
  match fuel with
  | O => acc
  | S fuel =>
    let acc := digit (n mod base) :: acc in
    if n <? base then acc else digits_aux base fuel (n / base) acc
  end.
Definition decimal (n : Z) : list byte := digits_aux 10 10 n [].
Definition hexadecimal (n : Z) : list byte := digits_aux 16 8 n [].

(** [itoa(v, str, base)]: signed in base 10, unsigned in base 16. *)
Definition itoa (v base : Z) : list byte :=
  if base =? 10 then (if v <? 0 then Byte.x2d :: decimal (- v) else decimal v)
  else hexadecimal (u32 v).

(** [strcpy(dst, s)] and [strcat(dst, s)] of a string [s] (without its null
    character) into an object [dst]; what does not fit is undefined. *)
Definition strcpy (dst s : list byte) : outcome (list byte) :=
  if bool_decide (length s < length dst)%nat then Ok (s ++ NUL :: drop (S (length s)) dst) else Stuck.
Definition strcat (dst s : list byte) : outcome (list byte) :=
  match strlen dst with
  | Some n =>
    match strcpy (drop n dst) s with
    | Ok r => Ok (take n dst ++ r)
    | _ => Stuck
    end
  | None => Stuck
  end.
(** The string at a pointer. *)
Definition cstr (p : list byte) : outcome (list byte) :=
  match strlen p with Some n => Ok (take n p) | None => Stuck end.

(** ** Lemmas *)
Definition no_nul (s : list byte) : Prop := NUL ∉ s.

Lemma no_nul_cons c s : no_nul (c :: s) <-> c <> NUL /\ no_nul s.
Proof. unfold no_nul. rewrite not_elem_of_cons. split; intros [? ?]; split; auto. Qed.

Lemma no_nul_app a b : no_nul (a ++ b) <-> no_nul a /\ no_nul b.
Proof. unfold no_nul. rewrite elem_of_app. tauto. Qed.

Lemma strlen_app s r : no_nul s -> strlen (s ++ NUL :: r) = Some (length s).
Proof.
  induction s as [|c s IH]; [done|]. intros [Hc Hs]%no_nul_cons. cbn [strlen app].
  rewrite decide_False by done. by rewrite IH.
Qed.

Lemma strlen_Some b n : strlen b = Some n ->
  exists r, b = take n b ++ NUL :: r /\ no_nul (take n b) /\ (n < length b)%nat.
Proof.
  revert n. induction b as [|c b IH]; intros n; cbn [strlen]; [done|]. case_decide as Hc.
  - intros [= <-]. subst. exists b. split; [done|]. split; [apply not_elem_of_nil|cbn; lia].
  - destruct (strlen b) as [k|] eqn:Hk; [|done]. intros [= <-].
    destruct (IH k eq_refl) as (r & Hr & Hn & Hl). exists r. cbn [take app length].
    split; [by f_equal|]. split; [|lia]. by apply no_nul_cons.
Qed.

Lemma strcat_app a s tl : no_nul a ->
  strcat (a ++ NUL :: tl) s =
  if bool_decide (length s <= length tl)%nat then Ok ((a ++ s) ++ NUL :: drop (length s) tl) else Stuck.
Proof.
  intros Ha. unfold strcat. rewrite strlen_app, drop_app_length, take_app_length by done.
  unfold strcpy. cbn [length]. rewrite (bool_decide_ext (length s < S (length tl))%nat (length s <= length tl)%nat) by lia.
  case_bool_decide; [|done]. by rewrite <- app_assoc.
Qed.

Definition starts_with (a b : list byte) : bool := bool_decide (take (length a) b = a).

Lemma strncmp_eq_spec a r b : no_nul a -> (length a <= length b)%nat ->
  strncmp_eq (a ++ r) b (length a) = Some (starts_with a b).
Proof.
  unfold starts_with. revert b. induction a as [|x a IH]; intros b Hn Hl;
    [by rewrite bool_decide_true by done|].
  apply no_nul_cons in Hn as [Hx Hn]. destruct b as [|y b]; [cbn in Hl; lia|].
  cbn [length] in Hl. cbn [strncmp_eq app length take]. case_decide as Hxy.
  - subst. rewrite decide_False by done. rewrite IH by (done || lia). f_equal.
    apply bool_decide_ext. split; [by intros ->|by intros [= ->]].
  - rewrite bool_decide_false; [done|]. intros [= ? ?]. congruence.
Qed.

(** [atoi] of a field padded with spaces. *)
Lemma atoi_spaces k b : atoi (replicate k SPC ++ b) = atoi b.
Proof. induction k as [|k IH]; [done|]. exact IH. Qed.

Lemma atoi_digits_app acc ds c r : forallb is_digit ds = true -> is_digit c = false ->
  atoi_digits acc (ds ++ c :: r) = Some (fold_left (fun a d => a * 10 + digit_val d) ds acc).
Proof.
  revert acc. induction ds as [|d ds IH]; intros acc; cbn [forallb atoi_digits app fold_left].
  - by intros _ ->.
  - intros [-> Hds]%andb_true_iff Hc. by apply IH.
Qed.

(** *** Digits *)
Section digits.
Context (base : Z) (val : byte -> Z) (Hbase : 1 < base <= 16).
Context (Hval : forall d, 0 <= d < base -> val (digit d) = d).

Lemma digits_aux_acc fuel n acc : digits_aux base fuel n acc = digits_aux base fuel n [] ++ acc.
Proof using Type.
  revert n acc. induction fuel as [|fuel IH]; intros n acc; [done|]. cbn [digits_aux].
  destruct (n <? base); [done|]. rewrite (IH _ [_]), (IH _ (_ :: acc)), <- app_assoc. done.
Qed.

(** The digits of a number, by recursion on the last one. *)
Lemma digits_aux_step fuel n : digits_aux base (S fuel) n [] =
  (if n <? base then [] else digits_aux base fuel (n / base) []) ++ [digit (n mod base)].
Proof using Type. cbn [digits_aux]. destruct (n <? base); [done|]. apply digits_aux_acc. Qed.

Lemma digits_value fuel n : 0 <= n < base ^ Z.of_nat fuel -> (0 < fuel)%nat ->
  fold_left (fun a d => a * base + val d) (digits_aux base fuel n []) 0 = n.
Proof using Hbase Hval.
  revert n. induction fuel as [|fuel IH]; intros n Hn Hf; [lia|]. rewrite digits_aux_step, fold_left_app.
  cbn [fold_left]. pose proof (Z.mod_pos_bound n base ltac:(lia)). rewrite Hval by done.
  destruct (Z.ltb_spec n base); [rewrite Z.mod_small by lia; cbn; lia|].
  assert (n / base < base ^ Z.of_nat fuel).
  { apply Z.div_lt_upper_bound; [lia|]. rewrite <- Z.pow_succ_r, <- Nat2Z.inj_succ by lia. lia. }
  assert (0 < n / base) by (apply Z.div_str_pos; lia).
  rewrite IH; [pose proof (Z.div_mod n base ltac:(lia)); lia|lia|]. destruct fuel; [cbn in *; lia|lia].
Qed.

Lemma digits_forall (P : byte -> Prop) fuel n : (forall d, 0 <= d < base -> P (digit d)) ->
  0 <= n -> Forall P (digits_aux base fuel n []).
Proof using Hbase.
  intros HP. revert n. induction fuel as [|fuel IH]; intros n Hn; [constructor|]. rewrite digits_aux_step.
  apply Forall_app. split; [|apply Forall_singleton, HP, Z.mod_pos_bound; lia].
  destruct (n <? base); [constructor|]. apply IH, Z.div_pos; lia.
Qed.

Lemma digits_nonempty fuel n : digits_aux base (S fuel) n [] <> [].
Proof using Type. rewrite digits_aux_step. by destruct (if n <? base then _ else _). Qed.

Lemma digits_length fuel k n : 0 <= n < base ^ Z.of_nat k -> (0 < k)%nat -> (length (digits_aux base fuel n []) <= k)%nat.
Proof using Hbase.
  revert k n. induction fuel as [|fuel IH]; intros k n Hn Hk; [cbn; lia|]. rewrite digits_aux_step, length_app. cbn [length].
  destruct (Z.ltb_spec n base); [cbn; lia|]. destruct k as [|[|k]]; [lia|cbn in Hn; lia|].
  assert (length (digits_aux base fuel (n / base) []) <= S k)%nat; [|lia]. apply IH; [|lia].
  split; [apply Z.div_pos; lia|]. apply Z.div_lt_upper_bound; [lia|].
  rewrite <- Z.pow_succ_r, <- Nat2Z.inj_succ by lia. lia.
Qed.
End digits.

Lemma digit_is_digit d : 0 <= d < 10 -> is_digit (digit d) = true /\ digit_val (digit d) = d.
Proof.
  intros Hd. unfold digit_val, is_digit, digit. rewrite (proj2 (Z.ltb_lt d 10)) by lia.
  rewrite byte.unsigned_of_Z. unfold byte.wrap. rewrite Z.mod_small by lia.
  rewrite andb_true_iff, !Z.leb_le. lia.
Qed.

Lemma digit_not_sign c : is_digit c = true ->
  is_space c = false /\ c <> Byte.x2d /\ c <> Byte.x2b /\ c <> NUL /\ c <> SPC.
Proof. by destruct c. Qed.

Lemma decimal_digits n : 0 <= n < 10 ^ 10 ->
  forallb is_digit (decimal n) = true /\ decimal n <> [] /\
  fold_left (fun a d => a * 10 + digit_val d) (decimal n) 0 = n.
Proof.
  intros Hn. split_and!.
  - apply forallb_forall. intros c Hc%list_elem_of_In.
    pose proof (digits_forall 10 ltac:(lia) (fun c => is_digit c = true) 10 n) as Hall. rewrite Forall_forall in Hall.
    apply Hall; [intros d Hd; by apply digit_is_digit|lia|done].
  - apply digits_nonempty.
  - apply (digits_value 10 digit_val); [lia|intros d Hd; by apply digit_is_digit|exact Hn|lia].
Qed.

Lemma decimal_facts n : 0 <= n < 1000 ->
  forallb is_digit (decimal n) = true /\ decimal n <> [] /\ (length (decimal n) <= 3)%nat /\
  fold_left (fun a d => a * 10 + digit_val d) (decimal n) 0 = n.
Proof.
  intros Hn. destruct (decimal_digits n ltac:(lia)) as (? & ? & ?). split_and!; try done.
  apply digits_length; [lia|exact Hn|lia].
Qed.

Lemma atoi_decimal n r : 0 <= n < 1000 -> atoi (decimal n ++ SPC :: r) = Some n.
Proof.
  intros Hn. destruct (decimal_facts n Hn) as (Hd & Hne & _ & Hv).
  destruct (decimal n) as [|c ds] eqn:Heq; [done|]. cbn [app atoi].
  pose proof Hd as Hd'. cbn [forallb] in Hd'. apply andb_true_iff in Hd' as [Hc _].
  destruct (digit_not_sign c Hc) as (-> & H1 & H2 & _). rewrite !bool_decide_false by done.
  change (c :: ds ++ SPC :: r) with ((c :: ds) ++ SPC :: r).
  rewrite atoi_digits_app by done. rewrite Hv. cbn. f_equal. apply i32_id. lia.
Qed.
