(* ===== verification/Shell.v ===== *)
(** * The shell

    [apps/system/sys_shell.c]: [parse_request] splits a command line into the
    arguments of a request, and one round of [main] decides what to do with a
    line.  Messages have the layout of [struct proc_request] and
    [struct proc_reply] of [library/syscall/servers.h]. *)

From stdpp Require Import options.
From coqutil Require Import Byte.
From S2P Require Import Prelude CString.

(** ** servers.h *)
Definition CMD_NARGS : Z := 16.
Definition CMD_ARG_LEN : Z := 32.
Definition PROC_SPAWN : Z := 0.
Definition PROC_EXIT : Z := 1.
Definition PROC_KILLALL : Z := 2.
Definition CMD_OK : Z := 0.
Definition CMD_ERROR : Z := 1.

(** [struct proc_request]: [char argv[CMD_NARGS][CMD_ARG_LEN]] as its rows. *)
Record proc_request : Type := {
  pr_type : Z;
  pr_argc : Z;
  pr_argv : list (list byte);
}.

(** [req->argv[n][i] = c] *)
Definition set_char (argv : list (list byte)) (n i : nat) (c : byte) : outcome (list (list byte)) :=
  match argv !! n with
  | Some row => if bool_decide (i < length row)%nat then Ok (<[n := <[i := c]> row]> argv) else Stuck
  | None => Stuck
  end.

(** [req->argv[req->argc - 1][0]]; outside the array it is undefined. *)
Definition last_arg_char (req : proc_request) : outcome byte :=
  if 0 <=? pr_argc req - 1 then
    match pr_argv req !! Z.to_nat (pr_argc req - 1) with
    | Some (c :: _) => Ok c
    | _ => Stuck
    end
  else Stuck.

(** ** parse_request *)

(** The loop over the characters of the line: the result, and [idx], [nargs]
    and [req->argv] at its end. *)
Fixpoint parse_loop (s : list byte) (idx nargs : nat) (argv : list (list byte)) :
    outcome (Z * nat * nat * list (list byte)) :=
  match s with
  | [] => Ok (0, idx, nargs, argv)
  | c :: s =>
    if negb (bool_decide (c = SPC)) then
      match set_char argv nargs idx c with
      | Ok argv => if CMD_ARG_LEN <=? Z.of_nat (S idx) then Ok (-1, S idx, nargs, argv)
                   else parse_loop s (S idx) nargs argv
      | _ => Stuck
      end
    else if negb (idx =? 0)%nat then
      match set_char argv nargs idx NUL with
      | Ok argv => if CMD_NARGS <=? Z.of_nat (S nargs) then Ok (-1, 0%nat, S nargs, argv)
                   else parse_loop s 0 (S nargs) argv
      | _ => Stuck
      end
    else parse_loop s idx nargs argv
  end.

Definition blank_argv : list (list byte) :=
  replicate (Z.to_nat CMD_NARGS) (zeros (Z.to_nat CMD_ARG_LEN)).

Definition parse_request (buf : list byte) (req : proc_request) : outcome (Z * proc_request) :=
  match strlen buf with
  | None => Stuck
  | Some n =>
    match parse_loop (take n buf) 0 0 blank_argv with
    | Ok (r, idx, nargs, argv) =>
      if r =? 0 then
        Ok (0, {| pr_type := pr_type req; pr_argv := argv;
                  pr_argc := if (idx =? 0)%nat then Z.of_nat nargs else Z.of_nat nargs + 1 |})
      else Ok (-1, {| pr_type := pr_type req; pr_argc := pr_argc req; pr_argv := argv |})
    | Fatal e => Fatal e
    | Stuck => Stuck
    | NoFuel => NoFuel
    end
  end.

(** ** One round of main *)

(** What the shell does with a line before it reads the next one. *)
Inductive shell_action : Type :=
| Coresinfo
| Killall (req : proc_request)
| Clear
| Pwd
| TooLong
| Spawn (req : proc_request).

Definition strcmp_lit (buf : list byte) (s : string) : bool := starts_with (lit s ++ [NUL]) buf.

Definition shell_round (buf : list byte) (req : proc_request) : outcome shell_action :=
  let with_type t := {| pr_type := t; pr_argc := pr_argc req; pr_argv := pr_argv req |} in
  if strcmp_lit buf "coresinfo" then Ok Coresinfo
  else if strcmp_lit buf "killall" then Ok (Killall (with_type PROC_KILLALL))
  else if strcmp_lit buf "clear" then Ok Clear
  else if strcmp_lit buf "pwd" then Ok Pwd
  else match parse_request buf (with_type PROC_SPAWN) with
       | Ok (r, req) => Ok (if r =? 0 then Spawn req else TooLong)
       | Fatal e => Fatal e
       | Stuck => Stuck
       | NoFuel => NoFuel
       end.

(** Whether the shell waits for a second message after the reply to a spawn. *)
Definition shell_waits (req : proc_request) (reply_type : Z) : outcome bool :=
  if negb (reply_type =? CMD_OK) then Ok false
  else match last_arg_char req with
       | Ok c => Ok (negb (bool_decide (c = Byte.x26)))
       | Fatal e => Fatal e
       | Stuck => Stuck
       | NoFuel => NoFuel
       end.

(** ** The words of a line *)

(** [cur] is the word that the text before [s] ends with. *)
Fixpoint words (cur : list byte) (s : list byte) : list (list byte) :=
  match s with
  | [] => if decide (cur = []) then [] else [cur]
  | c :: s =>
    if decide (c = SPC) then (if decide (cur = []) then words [] s else cur :: words [] s)
    else words (cur ++ [c]) s
  end.

(** The number of words that a space ends. *)
Definition closed_words (s : list byte) : nat :=
  if decide (last s = Some SPC) then length (words [] s) else length (words [] s) - 1.

(** A row of the argument array, and the whole array. *)
Definition arg_row (w : list byte) : list byte := w ++ zeros (Z.to_nat CMD_ARG_LEN - length w).
Definition arg_rows (ws : list (list byte)) : list (list byte) :=
  (arg_row <$> ws) ++ replicate (Z.to_nat CMD_NARGS - length ws) (zeros (Z.to_nat CMD_ARG_LEN)).

(** Every word and its terminator fit in a row, and there is a row after every
    word that a space ends. *)
Definition fits (s : list byte) : Prop :=
  Forall (fun w => (length w < 32)%nat) (words [] s) /\ (closed_words s < 16)%nat.
#[global] Instance fits_dec s : Decision (fits s).
Proof. unfold fits. apply _. Defined.

(** ** The parser *)
Fixpoint closed (cur s : list byte) : nat :=
  match s with
  | [] => 0
  | c :: s =>
    if decide (c = SPC) then (if decide (cur = []) then closed [] s else S (closed [] s))
    else closed (cur ++ [c]) s
  end.

Lemma words_open cur s : cur <> [] ->
  exists w ws, words cur s = w :: ws /\ (length cur <= length w)%nat.
Proof.
  revert cur. induction s as [|c s IH]; intros cur Hcur; cbn [words].
  - rewrite decide_False by done. by exists cur, [].
  - case_decide; [rewrite decide_False by done; by eexists _, _|].
    destruct (IH (cur ++ [c])) as (w & ws & -> & Hl); [by destruct cur|].
    exists w, ws. split; [done|]. rewrite length_app in Hl. lia.
Qed.

Lemma words_last cur s x : last s = Some x -> x <> SPC -> words cur s <> [].
Proof.
  revert cur. induction s as [|c s IH]; intros cur Hl Hx; [done|]. cbn [words].
  destruct s as [|c' s'].
  - injection Hl as ->. rewrite decide_False by done. cbn [words].
    rewrite decide_False; [done|]. by destruct cur.
  - rewrite last_cons_cons in Hl. case_decide; [|by apply IH].
    case_decide; [by apply IH|done].
Qed.

Lemma closed_spec cur c s : closed cur (c :: s) =
  if decide (last (c :: s) = Some SPC) then length (words cur (c :: s))
  else (length (words cur (c :: s)) - 1)%nat.
Proof.
  revert cur c. induction s as [|c' s IH]; intros cur c.
  - cbn [closed words last]. destruct (decide (c = SPC)) as [->|Hc].
    + by destruct (decide (cur = [])); rewrite decide_True by done.
    + rewrite decide_False by congruence. rewrite decide_False by (by destruct cur). done.
  - rewrite last_cons_cons. change (closed cur (c :: c' :: s)) with
      (if decide (c = SPC) then (if decide (cur = []) then closed [] (c' :: s) else S (closed [] (c' :: s)))
       else closed (cur ++ [c]) (c' :: s)).
    change (words cur (c :: c' :: s)) with
      (if decide (c = SPC) then (if decide (cur = []) then words [] (c' :: s) else cur :: words [] (c' :: s))
       else words (cur ++ [c]) (c' :: s)).
    rewrite !IH. destruct (decide (c = SPC)); [|done]. destruct (decide (cur = [])); [done|].
    case_decide as Hlast; cbn [length]; [done|].
    destruct (last (c' :: s)) as [x|] eqn:Hx; [|by apply last_None in Hx].
    pose proof (words_last [] (c' :: s) x Hx ltac:(congruence)) as Hne.
    destruct (words [] (c' :: s)); [done|]. cbn [length]. lia.
Qed.

Lemma closed_words_eq s : closed [] s = closed_words s.
Proof. unfold closed_words. destruct s as [|c s]; [done|]. apply closed_spec. Qed.

(** The array while the loop runs: complete arguments [ws], then [cur]. *)
Definition partial (ws : list (list byte)) (cur : list byte) : list (list byte) :=
  (arg_row <$> ws) ++ arg_row cur :: replicate (15 - length ws) (zeros 32).

Lemma length_arg_row w : (length w <= 32)%nat -> length (arg_row w) = 32%nat.
Proof.
  intros Hw. unfold arg_row. rewrite length_app, length_zeros. change (Z.to_nat CMD_ARG_LEN) with 32%nat. lia.
Qed.

Lemma arg_row_put w c : (length w < 32)%nat -> <[length w := c]> (arg_row w) = arg_row (w ++ [c]).
Proof.
  intros Hw. unfold arg_row. change (Z.to_nat CMD_ARG_LEN) with 32%nat. rewrite insert_app_r_alt by lia.
  rewrite Nat.sub_diag, length_app. destruct (32 - length w)%nat as [|k] eqn:Hk; [lia|].
  replace (32 - (length w + length [c]))%nat with k by (cbn; lia). cbn. by rewrite <- app_assoc.
Qed.

Lemma arg_row_nul w : (length w < 32)%nat -> <[length w := NUL]> (arg_row w) = arg_row w.
Proof.
  intros Hw. apply list_insert_id. unfold arg_row. rewrite lookup_app_r, Nat.sub_diag by done.
  change (Z.to_nat CMD_ARG_LEN) with 32%nat. unfold zeros. by apply lookup_replicate_2; lia.
Qed.

Lemma set_char_partial ws cur c : (length cur < 32)%nat ->
  set_char (partial ws cur) (length ws) (length cur) c =
  Ok ((arg_row <$> ws) ++ <[length cur := c]> (arg_row cur) :: replicate (15 - length ws) (zeros 32)).
Proof.
  intros Hc. unfold set_char, partial.
  rewrite lookup_app_r, length_fmap, Nat.sub_diag by (by rewrite length_fmap). cbn.
  rewrite bool_decide_true by (by rewrite length_arg_row by lia).
  rewrite insert_app_r_alt by (by rewrite length_fmap). by rewrite length_fmap, Nat.sub_diag.
Qed.

Lemma partial_close ws cur : (length ws < 15)%nat -> partial ws cur = partial (ws ++ [cur]) [].
Proof.
  intros Hws. unfold partial. rewrite fmap_app, length_app, <- app_assoc. cbn [fmap list_fmap app length].
  f_equal. f_equal. replace (15 - length ws)%nat with (S (15 - (length ws + 1)))%nat by lia. done.
Qed.

Definition finish (ws : list (list byte)) (cur : list byte) : list (list byte) :=
  ws ++ (if decide (cur = []) then [] else [cur]).

Lemma parse_loop_spec s ws cur : (length ws <= 15)%nat -> (length cur <= 31)%nat ->
  if decide (Forall (fun w => (length w < 32)%nat) (words cur s) /\ (closed cur s + length ws < 16)%nat)
  then exists ws' cur', parse_loop s (length cur) (length ws) (partial ws cur) =
      Ok (0, length cur', length ws', partial ws' cur') /\
    ws ++ words cur s = finish ws' cur' /\ (length ws' <= 15)%nat
  else exists i n a, parse_loop s (length cur) (length ws) (partial ws cur) = Ok (-1, i, n, a).
Proof.
  revert ws cur. induction s as [|c s IH]; intros ws cur Hws Hcur.
  - cbn [words closed parse_loop]. rewrite decide_True.
    + exists ws, cur. unfold finish. done.
    + split; [|lia]. destruct (decide (cur = [])); [done|]. apply Forall_singleton. lia.
  - cbn [words closed parse_loop]. destruct (decide (c = SPC)) as [->|Hc].
    + rewrite bool_decide_true by done. cbn [negb].
      destruct (decide (cur = [])) as [->|Hne]; [exact (IH ws [] Hws ltac:(cbn; lia))|].
      assert ((length cur =? 0)%nat = false) as -> by (apply Nat.eqb_neq; by destruct cur).
      cbn [negb]. rewrite set_char_partial by lia. rewrite arg_row_nul by lia. fold (partial ws cur).
      destruct (Z.leb_spec CMD_NARGS (Z.of_nat (S (length ws)))) as [Hn|Hn]; unfold CMD_NARGS in Hn.
      * rewrite decide_False by (intros [_ ?]; lia). by eexists _, _, _.
      * rewrite partial_close by lia. specialize (IH (ws ++ [cur]) [] ltac:(rewrite length_app; cbn; lia) ltac:(cbn; lia)).
        rewrite length_app in IH. cbn [length] in IH. rewrite Nat.add_1_r in IH.
        case_decide as H1; case_decide as H2.
        -- destruct IH as (ws' & cur' & -> & Heq & Hl). exists ws', cur'. split_and!; [done| |done].
           by rewrite <- Heq, <- app_assoc.
        -- exfalso. apply H2. destruct H1 as [Hf Hk]. split; [|lia]. apply Forall_cons. split; [lia|done].
        -- exfalso. apply H1. destruct H2 as [[_ Hf]%Forall_cons Hk]. split; [done|lia].
        -- done.
    + rewrite bool_decide_false by done. cbn [negb]. rewrite set_char_partial, arg_row_put by lia.
      fold (partial ws (cur ++ [c])).
      destruct (Z.leb_spec CMD_ARG_LEN (Z.of_nat (S (length cur)))) as [Hn|Hn]; unfold CMD_ARG_LEN in Hn.
      * rewrite decide_False; [by eexists _, _, _|]. intros [Hf _].
        destruct (words_open (cur ++ [c]) s) as (w & l & Hw & Hlen); [by destruct cur|].
        rewrite Hw in Hf. apply Forall_cons in Hf as [Hlt _]. rewrite length_app in Hlen. cbn in Hlen. lia.
      * specialize (IH ws (cur ++ [c]) Hws ltac:(rewrite length_app; cbn; lia)).
        rewrite length_app, Nat.add_1_r in IH. exact IH.
Qed.

Lemma finish_rows ws cur : (length ws <= 15)%nat -> arg_rows (finish ws cur) = partial ws cur /\
  Z.of_nat (length (finish ws cur)) =
    (if (length cur =? 0)%nat then Z.of_nat (length ws) else Z.of_nat (length ws) + 1).
Proof.
  intros Hws. unfold finish, arg_rows, partial. change (Z.to_nat CMD_NARGS) with 16%nat.
  change (Z.to_nat CMD_ARG_LEN) with 32%nat. destruct (decide (cur = [])) as [->|Hne].
  - rewrite app_nil_r. split; [|done]. f_equal.
    replace (16 - length ws)%nat with (S (15 - length ws))%nat by lia. done.
  - assert ((length cur =? 0)%nat = false) as -> by (apply Nat.eqb_neq; by destruct cur).
    rewrite fmap_app, length_app, <- app_assoc. cbn [length]. split; [|lia]. cbn.
    replace (16 - (length ws + 1))%nat with (15 - length ws)%nat by lia. done.
Qed.

Lemma parse_request_spec (s tail : list byte) (req : proc_request) : no_nul s ->
  if decide (fits s)
  then parse_request (s ++ NUL :: tail) req =
    Ok (0, {| pr_type := pr_type req; pr_argc := Z.of_nat (length (words [] s));
              pr_argv := arg_rows (words [] s) |})
  else exists argv, parse_request (s ++ NUL :: tail) req =
    Ok (-1, {| pr_type := pr_type req; pr_argc := pr_argc req; pr_argv := argv |}).
Proof.
  intros Hs. unfold parse_request. rewrite strlen_app, take_app_length by done.
  pose proof (parse_loop_spec s [] [] ltac:(cbn; lia) ltac:(cbn; lia)) as H.
  change (partial [] []) with blank_argv in H. cbn [length app] in H.
  rewrite closed_words_eq, Nat.add_0_r in H. fold (fits s) in H.
  destruct (decide (fits s)).
  - destruct H as (ws & cur & -> & Heq & Hl).
    destruct (finish_rows ws cur Hl) as [Hrows Hargc]. rewrite Heq, Hrows, Hargc. done.
  - destruct H as (i & k & a & ->). by exists a.
Qed.

(** C30: parsing a command line.  [parse_request] accepts a line exactly when its
    words have at most 31 characters and at most 15 of them are ended by a
    space; then [argc] is the number of words and [argv] their array, padded
    with null bytes.  Otherwise it returns -1 and leaves [argc] alone.  It never
    writes outside [argv]. *)
Theorem parse_request_correct (s tail : list byte) (req : proc_request) : no_nul s ->
  if decide (fits s)
  then parse_request (s ++ NUL :: tail) req =
    Ok (0, {| pr_type := pr_type req; pr_argc := Z.of_nat (length (words [] s));
              pr_argv := arg_rows (words [] s) |})
  else exists argv, parse_request (s ++ NUL :: tail) req =
    Ok (-1, {| pr_type := pr_type req; pr_argc := pr_argc req; pr_argv := argv |}).
Proof. apply parse_request_spec. Qed.

Definition no_request : proc_request := {| pr_type := 0; pr_argc := 0; pr_argv := [] |}.

Lemma parse_request_correct_witness :
  parse_request (lit " cat  README " ++ NUL :: []) no_request =
  Ok (0, {| pr_type := 0; pr_argc := 2; pr_argv := arg_rows [lit "cat"; lit "README"] |}).
Proof.
  assert (no_nul (lit " cat  README ")) as Hn.
  { apply (bool_decide_unpack _). vm_compute. exact I. }
  pose proof (parse_request_correct (lit " cat  README ") [] no_request Hn) as H.
  rewrite decide_True in H; [exact H|]. apply (bool_decide_unpack _). vm_compute. exact I.
Defined.

(** A line of spaces is a request without arguments, and the shell then reads
    the character before its argument array. *)
Lemma blank_line_reads_before_argv : exists req,
  shell_round (lit " " ++ [NUL]) no_request = Ok (Spawn req) /\ pr_argc req = 0 /\
  shell_waits req CMD_OK = Stuck.
Proof. eexists. split; [vm_compute; reflexivity|]. split; reflexivity. Qed.

(** Sixteen words are accepted, but not with a space after the last one. *)
Lemma sixteen_words :
  is_ok (parse_request (lit "a b c d e f g h i j k l m n o p" ++ [NUL]) no_request) = true /\
  fits (lit "a b c d e f g h i j k l m n o p") /\
  ~ fits (lit "a b c d e f g h i j k l m n o p ").
Proof.
  split_and!; [vm_compute; reflexivity| |].
  - apply (bool_decide_unpack _). vm_compute. exact I.
  - intros H. apply (bool_decide_pack _) in H. vm_compute in H. exact H.
Qed.
