(* ===== verification/Disk.v ===== *)
(** * The disk driver: definitions

    [earth/dev_disk.c]: bytes over the SPI controller, commands of the SD card
    protocol, and [disk_read] and [disk_write]; [sd_init] and [disk_init], which also
    print, are in [DiskInit].  The hardware behind the
    registers is a parameter, a record of reads and writes of device words; the
    loops that poll it have a fuel, and what the hardware guarantees is stated
    in [DiskSpec].  A [char] of this RISC-V target is unsigned. *)

From stdpp Require Import options.
From coqutil Require Import Byte.
From S2P Require Import Prelude InodeStore Earth.

(** ** Memory-mapped devices *)

(** The device registers: a read may change the device. *)
Record mmio (D : Type) : Type := {
  reg_read : Z -> D -> Z * D;
  reg_write : Z -> Z -> D -> D;
}.
Arguments reg_read {D} _ a d.
Arguments reg_write {D} _ a v d.

(** [REGW(base, offset)] as a value, and [REGW(base, offset) = v]. *)
Definition REGW {D} (dev : mmio D) (base offset : Z) : M D Z := fun d =>
  Ok (reg_read dev (base + offset) d).
Definition set_REGW {D} (dev : mmio D) (base offset v : Z) : M D unit := fun d =>
  Ok (tt, reg_write dev (base + offset) v d).

(** [while (!stop(v = m()));]: the value on which the loop ends. *)
Fixpoint wait_until {S A} (fuel : nat) (m : M S A) (stop : A -> bool) : M S A :=
  match fuel with
  | O => mnofuel
  | Datatypes.S fuel => v ← m; if stop v then mret v else wait_until fuel m stop
  end.

(** [for (i < n) m();] collecting the values. *)
Fixpoint times {S A} (n : nat) (m : M S A) : M S (list A) :=
  match n with
  | O => mret []
  | Datatypes.S n => v ← m; l ← times n m; mret (v :: l)
  end.

(** ** Register offsets *)
Definition LITEX_SPI_CONTROL : Z := 0.
Definition LITEX_SPI_STATUS : Z := 4.
Definition LITEX_SPI_MOSI : Z := 8.
Definition LITEX_SPI_MISO : Z := 12.
Definition LITEX_SPI_CS : Z := 16.
Definition LITEX_SPI_CLKDIV : Z := 24.
Definition SIFIVE_SPI_CSDEF : Z := 20.
Definition SIFIVE_SPI_CSMODE : Z := 24.
Definition SIFIVE_SPI_TXDATA : Z := 72.
Definition SIFIVE_SPI_RXDATA : Z := 76.
Definition CPU_CLOCK_RATE : Z := 100000000.

Inductive disk_type : Type := SD_CARD | FLASH_ROM.
#[global] Instance disk_type_eq_dec : EqDecision disk_type.
Proof. solve_decision. Defined.

(** The static variable [type] and the device. *)
Record disk_state (D : Type) : Type := {
  dtype : disk_type;
  dhw : D;
}.
Arguments dtype {D} _.
Arguments dhw {D} _.

Section Driver.
Context {D : Type} (dev : mmio D) (plat : platform) (fuel : nat).

Abbreviation SPI := (SPI_BASE plat).

(** [v & (1 << 31)] *)
Definition bit31 (v : Z) : bool := negb (Z.land v 0x80000000 =? 0).

Definition spi_exchange (b : byte) : M D byte :=
  rxdata ←
    (if decide (plat = ARTY) then
       set_REGW dev SPI LITEX_SPI_MOSI (byte.unsigned b);;
       set_REGW dev SPI LITEX_SPI_CONTROL (Z.lor (8 * Z.shiftl 1 8) 1);;
       wait_until fuel (REGW dev SPI LITEX_SPI_STATUS) (fun v => Z.land v 1 =? 1);;
       REGW dev SPI LITEX_SPI_MISO
     else
       wait_until fuel (REGW dev SPI SIFIVE_SPI_TXDATA) (fun v => negb (bit31 v));;
       set_REGW dev SPI SIFIVE_SPI_TXDATA (byte.unsigned b);;
       wait_until fuel (REGW dev SPI SIFIVE_SPI_RXDATA) (fun v => negb (bit31 v)));
  mret (byte.of_Z (Z.land rxdata 0xFF)).

Definition spi_set_clock (freq : Z) : M D unit :=
  let div := u32 (CPU_CLOCK_RATE / freq + 1) in
  set_REGW dev SPI LITEX_SPI_CLKDIV div.

(** [while (spi_exchange(0xFF) != b);] *)
Definition spi_await (b : byte) : M D unit :=
  wait_until fuel (spi_exchange Byte.xff) (fun r => bool_decide (r = b));; mret tt.

(** [for (i < 8000) if ((reply = spi_exchange(0xFF)) != 0xFF) return reply;
     return 0xFF;] *)
Fixpoint reply_loop (n : nat) : M D byte :=
  match n with
  | O => mret Byte.xff
  | S n => reply ← spi_exchange Byte.xff;
           if bool_decide (reply = Byte.xff) then reply_loop n else mret reply
  end.

(** [for (i < n) spi_exchange(bytes[i]);] *)
Fixpoint spi_send (bs : list byte) : M D unit :=
  match bs with
  | [] => mret tt
  | b :: bs => spi_exchange b;; spi_send bs
  end.

Definition sd_exec_cmd (cmd : list byte) : M D byte :=
  spi_send cmd;;
  reply_loop (Z.to_nat 8000).

Definition cmd55 : list byte := [Byte.x77; Byte.x00; Byte.x00; Byte.x00; Byte.x00; Byte.xff].

Definition sd_exec_acmd (cmd : list byte) : M D byte :=
  spi_await Byte.xff;;
  sd_exec_cmd cmd55;;
  spi_await Byte.xff;;
  sd_exec_cmd cmd.

(** [if (earth->platform == QEMU) offset *= BLOCK_SIZE;] *)
Definition sd_offset (offset : Z) : Z :=
  if decide (plat = QEMU) then u32 (offset * BLOCK_SIZE) else offset.

(** [{op, arg[3], arg[2], arg[1], arg[0], 0xFF}] with [arg = (char* )&offset] *)
Definition sd_cmd (op : byte) (offset : Z) : list byte :=
  op :: reverse (le_split 4 offset) ++ [Byte.xff].
Definition cmd17 (offset : Z) : list byte := sd_cmd Byte.x51 offset.
Definition cmd24 (offset : Z) : list byte := sd_cmd Byte.x58 offset.

Definition sd_read (offset : Z) : M D block :=
  let offset := sd_offset offset in
  spi_await Byte.xff;;
  reply ← sd_exec_cmd (cmd17 offset);
  panic_if (negb (byte.unsigned reply =? 0)) "SD card replies cmd17 with status 0x2x";;
  spi_await Byte.xfe;;
  dst ← times (Z.to_nat BLOCK_SIZE) (spi_exchange Byte.xff);
  spi_exchange Byte.xff;;
  spi_exchange Byte.xff;;
  mret dst.

Definition sd_write (offset : Z) (src : block) : M D unit :=
  let offset := sd_offset offset in
  spi_await Byte.xff;;
  reply ← sd_exec_cmd (cmd24 offset);
  panic_if (negb (byte.unsigned reply =? 0)) "SD card replies cmd24 with status 2x";;
  spi_exchange Byte.xff;;
  spi_exchange Byte.xfe;;
  spi_send src;;
  spi_exchange Byte.xff;;
  spi_exchange Byte.xff;;
  reply ← wait_until fuel (spi_exchange Byte.xff) (fun r => negb (bool_decide (r = Byte.xff)));
  panic_if (negb (Z.land (byte.unsigned reply) 0x1F =? 0x05)) "SD card write ack with status 0x2x".

Definition cmd0 : list byte := [Byte.x40; Byte.x00; Byte.x00; Byte.x00; Byte.x00; Byte.x95].
Definition cmd8 : list byte := [Byte.x48; Byte.x00; Byte.x00; Byte.x01; Byte.xaa; Byte.x87].
Definition acmd41 : list byte := [Byte.x69; Byte.x40; Byte.x00; Byte.x00; Byte.x00; Byte.xff].

(** The part of [sd_init] that sets the controller up and clocks the card. *)
Definition spi_setup : M D unit :=
  if decide (plat = ARTY) then
    spi_set_clock 400000;;
    set_REGW dev SPI LITEX_SPI_CS 0;;
    times (Z.to_nat 1000) (spi_exchange Byte.xff);;
    set_REGW dev SPI LITEX_SPI_CS 1
  else
    set_REGW dev SPI SIFIVE_SPI_CSMODE 1;;
    times (Z.to_nat 1000) (spi_exchange Byte.xff);;
    set_REGW dev SPI SIFIVE_SPI_CSDEF 1.

(** ** The operations of the earth interface

    [rom] is the memory-mapped flash, by address. *)
Context (rom : Z -> byte).

Definition hw_call {A} (m : M D A) : M (disk_state D) A := fun s =>
  match m (dhw s) with
  | Ok (a, d) => Ok (a, {| dtype := dtype s; dhw := d |})
  | Fatal e => Fatal e
  | Stuck => Stuck
  | NoFuel => NoFuel
  end.

Fixpoint sd_read_loop (n : nat) (block_no : Z) : M D (list byte) :=
  match n with
  | O => mret []
  | S n => b ← sd_read block_no; l ← sd_read_loop n (u32 (block_no + 1)); mret (b ++ l)
  end.

Definition disk_read (block_no nblocks : Z) : M (disk_state D) (list byte) :=
  s ← mget;
  if decide (dtype s = FLASH_ROM) then
    let src := u32 (BOARD_FLASH_ROM + block_no * BLOCK_SIZE) in
    mret ((fun i => rom (u32 (src + Z.of_nat i))) <$> seq 0 (Z.to_nat (u32 (nblocks * BLOCK_SIZE))))
  else hw_call (sd_read_loop (Z.to_nat nblocks) block_no).

Fixpoint sd_write_loop (n : nat) (block_no : Z) (src : list byte) : M D unit :=
  match n with
  | O => mret tt
  | S n => sd_write block_no (take (Z.to_nat BLOCK_SIZE) src);;
           sd_write_loop n (u32 (block_no + 1)) (drop (Z.to_nat BLOCK_SIZE) src)
  end.

Definition disk_write (block_no nblocks : Z) (src : list byte) : M (disk_state D) unit :=
  s ← mget;
  panic_if (bool_decide (dtype s = FLASH_ROM)) "disk_write: Writing to ROM";;
  hw_call (sd_write_loop (Z.to_nat nblocks) block_no src).
End Driver.
