(* ===== verification/DiskSpec.v ===== *)
(** * The disk driver: what the hardware guarantees, and the driver's lemmas

    [SpiSpec] states what the registers of the two SPI controllers do, with the
    device on the bus seen as a function from a byte received to a byte sent;
    [SdCard] states the SD card protocol in SPI mode on such a device.  The
    driver is proved against both; [SdSim] has a card and controllers that
    satisfy them. *)

From stdpp Require Import options.
From coqutil Require Import Byte.
From S2P Require Import Prelude InodeStore Earth Disk.

(** ** The bus *)

(** A device on the bus: the reply to a byte, and the effect of the registers
    that drive its chip-select pin. *)
Record slave (C : Type) : Type := {
  exch : C -> byte -> byte * C;
  chip_select : Z -> Z -> C -> C;
}.
Arguments exch {C} _ c b.
Arguments chip_select {C} _ reg v c.

(** Registers that control the chip-select pin. *)
Definition cs_regs (plat : platform) : list Z :=
  if decide (plat = ARTY) then [LITEX_SPI_CS] else [SIFIVE_SPI_CSMODE; SIFIVE_SPI_CSDEF].

(** The controller of platform [plat] with the device [sl] on its bus; a
    transfer ends within [patience] polls.  [spi_busy n d r c]: a transfer is
    going on, which leaves the reply [r] and the device in state [c]. *)
Class SpiSpec {D C : Type} (dev : mmio D) (plat : platform) (sl : slave C) (patience : nat) : Type := {
  spi_idle : D -> Prop;
  spi_slave : D -> C;
  spi_space : nat -> D -> Prop;
  spi_busy : nat -> D -> byte -> C -> Prop;
  spi_done : D -> byte -> C -> Prop;
  spi_clkdiv : plat = ARTY -> forall d v, spi_idle d ->
    spi_idle (reg_write dev (SPI_BASE plat + LITEX_SPI_CLKDIV) v d) /\
    spi_slave (reg_write dev (SPI_BASE plat + LITEX_SPI_CLKDIV) v d) = spi_slave d;
  spi_config : forall d reg v, spi_idle d -> reg ∈ cs_regs plat ->
    spi_idle (reg_write dev (SPI_BASE plat + reg) v d) /\
    spi_slave (reg_write dev (SPI_BASE plat + reg) v d) = chip_select sl reg v (spi_slave d);
  (** LiteX: a write to CONTROL starts the transfer of the byte in MOSI; bit 0
      of STATUS is set when it is done, and the reply is in MISO. *)
  litex_start : plat = ARTY -> forall d b, spi_idle d ->
    spi_busy patience (reg_write dev (SPI_BASE plat + LITEX_SPI_CONTROL) 0x801
        (reg_write dev (SPI_BASE plat + LITEX_SPI_MOSI) (byte.unsigned b) d))
      (exch sl (spi_slave d) b).1 (exch sl (spi_slave d) b).2;
  litex_status : plat = ARTY -> forall n d r c, spi_busy n d r c ->
    let '(v, d') := reg_read dev (SPI_BASE plat + LITEX_SPI_STATUS) d in
    if Z.testbit v 0 then spi_done d' r c else exists n', n = S n' /\ spi_busy n' d' r c;
  litex_miso : plat = ARTY -> forall d r c, spi_done d r c ->
    let '(v, d') := reg_read dev (SPI_BASE plat + LITEX_SPI_MISO) d in
    v mod 256 = byte.unsigned r /\ spi_idle d' /\ spi_slave d' = c;
  (** SiFive: bit 31 of TXDATA is set while the transmit queue is full, bit 31
      of RXDATA while the receive queue is empty. *)
  sifive_idle : plat = QEMU -> forall d, spi_idle d -> spi_space patience d;
  sifive_full : plat = QEMU -> forall n d, spi_space n d ->
    let '(v, d') := reg_read dev (SPI_BASE plat + SIFIVE_SPI_TXDATA) d in
    spi_slave d' = spi_slave d /\
    if Z.testbit v 31 then exists n', n = S n' /\ spi_space n' d'
    else forall b, spi_busy patience
      (reg_write dev (SPI_BASE plat + SIFIVE_SPI_TXDATA) (byte.unsigned b) d')
      (exch sl (spi_slave d') b).1 (exch sl (spi_slave d') b).2;
  sifive_empty : plat = QEMU -> forall n d r c, spi_busy n d r c ->
    let '(v, d') := reg_read dev (SPI_BASE plat + SIFIVE_SPI_RXDATA) d in
    if Z.testbit v 31 then exists n', n = S n' /\ spi_busy n' d' r c
    else v mod 256 = byte.unsigned r /\ spi_idle d' /\ spi_slave d' = c;
}.

(** ** The card *)

Section bus.
Context {C : Type} (sl : slave C).

(** The replies [out] to as many 0xFF bytes, and the effect of the bytes [bs]. *)
Inductive clocks : C -> list byte -> C -> Prop :=
| clocks_nil c : clocks c [] c
| clocks_cons c r c' out c'' : exch sl c Byte.xff = (r, c') -> clocks c' out c'' ->
    clocks c (r :: out) c''.
Fixpoint sent (c : C) (bs : list byte) : C :=
  match bs with
  | [] => c
  | b :: bs => sent (exch sl c b).2 bs
  end.

Lemma clocks_app c l1 l2 c' :
  clocks c (l1 ++ l2) c' <-> exists c1, clocks c l1 c1 /\ clocks c1 l2 c'.
Proof.
  revert c. induction l1 as [|r l1 IH]; intros c; cbn.
  - split; [intros; exists c; split; [constructor|done]|].
    intros (c1 & H1 & H2). by inversion H1; subst.
  - split.
    + inversion 1 as [|? ? ? ? ? He Hc]; subst. apply IH in Hc as (c1 & H1 & H2).
      exists c1. split; [by econstructor|done].
    + intros (c1 & H1 & H2). inversion H1 as [|? ? ? ? ? He Hc]; subst.
      econstructor; [done|]. apply IH. eauto.
Qed.

Lemma sent_app c l1 l2 : sent c (l1 ++ l2) = sent (sent c l1) l2.
Proof. revert c. induction l1 as [|b l1 IH]; intros c; cbn; [done|apply IH]. Qed.
End bus.

(** The address of block [a] as the card of each platform takes it. *)
Definition card_addr (plat : platform) (a : Z) : Z :=
  if decide (plat = QEMU) then a * BLOCK_SIZE else a.

(** [P n c]: the device holds its line low for at most [n] more bytes. *)
Definition releases {C} (sl : slave C) (P : nat -> C -> Prop) : Prop := forall n c, P n c ->
  let '(r, c') := exch sl c Byte.xff in
  if decide (r = Byte.xff) then P 0%nat c' else exists n', n = S n' /\ P n' c'.

(** An SD card (version 2) of [cap] blocks in SPI mode.  It answers, and is busy,
    for at most [delay] bytes.  [card_powered m]: after power-up, with
    contents [m]; [card_idle m n t]:
    in the idle state, at most [t] rounds of ACMD41 away from leaving it;
    [card_app m n t]: the same, after CMD55; [card_ready n]: in the transfer
    state. *)
Class SdCard {C : Type} (sl : slave C) (plat : platform) (cap : Z) (delay : nat) : Type := {
  contents : C -> Z -> block;
  card_powered : (Z -> block) -> C -> Prop;
  card_idle : (Z -> block) -> nat -> nat -> C -> Prop;
  card_app : (Z -> block) -> nat -> nat -> C -> Prop;
  card_ready : nat -> C -> Prop;
  sd_blocks : forall n c a, card_ready n c -> is_block (contents c a);
  (** Power-up: clocks and the chip-select pin do not matter until CMD0. *)
  sd_select : forall m c reg v, card_powered m c -> card_powered m (chip_select sl reg v c);
  sd_clock : forall m c, card_powered m c -> card_powered m (exch sl c Byte.xff).2;
  (** CMD0: reset, answered by R1 = idle. *)
  sd_reset : forall m c, card_powered m c -> exists k c', (k <= delay)%nat /\
    clocks sl (sent sl c cmd0) (replicate k Byte.xff ++ [Byte.x01]) c' /\ card_idle m delay delay c';
  sd_idle_releases : forall m t, releases sl (fun n => card_idle m n t);
  (** CMD8: R1, then the voltage range and the check pattern echoed. *)
  sd_if_cond : forall m t c, card_idle m 0 t c -> exists k c', (k <= delay)%nat /\
    clocks sl (sent sl c cmd8)
      (replicate k Byte.xff ++ [Byte.x01; Byte.x00; Byte.x00; Byte.x01; Byte.xaa]) c' /\
    card_idle m delay t c';
  (** CMD55 and ACMD41: R1 = idle until the card has initialised itself. *)
  sd_app_cmd : forall m t c, card_idle m 0 t c -> exists k c', (k <= delay)%nat /\
    clocks sl (sent sl c cmd55) (replicate k Byte.xff ++ [Byte.x01]) c' /\ card_app m delay t c';
  sd_app_releases : forall m t, releases sl (fun n => card_app m n t);
  sd_op_cond : forall m t c, card_app m 0 t c -> exists k r c', (k <= delay)%nat /\
    clocks sl (sent sl c acmd41) (replicate k Byte.xff ++ [r]) c' /\
    (r = Byte.x01 /\ (exists t', t = S t' /\ card_idle m delay t' c') \/
     r = Byte.x00 /\ card_ready delay c' /\ contents c' = m);
  sd_ready_releases : forall m, releases sl (fun n c => card_ready n c /\ contents c = m);
  (** CMD17: R1, the start token 0xFE, the block and a checksum. *)
  sd_read_block : forall c a, card_ready 0 c -> 0 <= a < cap -> exists k j crc1 crc2 c',
    (k <= delay)%nat /\ (j <= delay)%nat /\
    clocks sl (sent sl c (cmd17 (card_addr plat a)))
      ((replicate k Byte.xff ++ [Byte.x00]) ++ (replicate j Byte.xff ++ [Byte.xfe]) ++
       contents c a ++ [crc1; crc2]) c' /\
    card_ready delay c' /\ contents c' = contents c;
  (** CMD24: R1; after a byte, the start token, the block and a checksum, the
      data response; then the card is busy writing. *)
  sd_write_block : forall c a b, card_ready 0 c -> 0 <= a < cap -> is_block b -> exists k c1,
    (k <= delay)%nat /\
    clocks sl (sent sl c (cmd24 (card_addr plat a))) (replicate k Byte.xff ++ [Byte.x00]) c1 /\
    exists j ack c2, (j <= delay)%nat /\ Z.land (byte.unsigned ack) 0x1F = 0x05 /\ ack <> Byte.xff /\
      clocks sl (sent sl c1 ([Byte.xff; Byte.xfe] ++ b ++ [Byte.xff; Byte.xff]))
        (replicate j Byte.xff ++ [ack]) c2 /\
      card_ready delay c2 /\
      contents c2 = fun x => if decide (x = a) then b else contents c x;
}.

(** ** Bytes over the bus *)
Lemma wp_wait {D A} (E : string -> Prop) (m : M D A) (stop : A -> bool) (P : nat -> D -> Prop) n f d Q :
  (n < f)%nat -> P n d ->
  (forall n d, P n d -> wp E m d (fun v d' =>
    if stop v then Q v d' else exists n', n = S n' /\ P n' d')) ->
  wp E (wait_until f m stop) d Q.
Proof.
  revert f d. induction n as [n IH] using lt_wf_ind; intros f d Hn HP Hstep.
  destruct f as [|f]; [lia|]. cbn [wait_until]. apply wp_bind.
  eapply wp_mono; [by apply Hstep|]. intros v d'. cbv beta.
  destruct (stop v); [apply wp_ret|]. intros (n' & -> & HP'). apply (IH n'); [lia|lia|done|done].
Qed.

Lemma not_arty p : p <> ARTY -> p = QEMU.
Proof. by destruct p. Qed.

Lemma bit31_testbit v : bit31 v = Z.testbit v 31.
Proof.
  unfold bit31. destruct (Z.testbit v 31) eqn:Hb.
  - apply negb_true_iff, Z.eqb_neq. intros H0.
    assert (Z.testbit (Z.land v 0x80000000) 31 = true) as Ht by (by rewrite Z.land_spec, Hb).
    by rewrite H0 in Ht.
  - apply negb_false_iff, Z.eqb_eq, Z.bits_inj_0. intros i. rewrite Z.land_spec.
    change 0x80000000 with (2 ^ 31). destruct (decide (i = 31)) as [->|Hi]; [by rewrite Hb|].
    rewrite Z.pow2_bits_false by lia. apply andb_false_r.
Qed.

Lemma byte_mod r : byte.unsigned r mod 256 = byte.unsigned r.
Proof. apply Z.mod_small, byte.unsigned_range. Qed.

Lemma byte_bit31 r : Z.testbit (byte.unsigned r) 31 = false.
Proof.
  pose proof (byte.unsigned_range r). rewrite Z.testbit_false by lia.
  rewrite Z.div_small by lia. done.
Qed.

Lemma low_byte v r : v mod 256 = byte.unsigned r -> byte.of_Z (Z.land v 0xFF) = r.
Proof.
  intros Hv. change 0xFF with (Z.ones 8). rewrite Z.land_ones by lia.
  change (2 ^ 8) with 256. rewrite Hv. apply byte.of_Z_unsigned.
Qed.

Section exchange.
Context {D C : Type} (dev : mmio D) (plat : platform) (sl : slave C) (patience fuel : nat).
Context `{!SpiSpec dev plat sl patience} (Hfuel : (patience < fuel)%nat) (E : string -> Prop).

(** The controller is idle, with the device in state [c]. *)
Definition bus (d : D) (c : C) : Prop := spi_idle d /\ spi_slave d = c.

Lemma wp_exchange d c b r c' Q : bus d c -> exch sl c b = (r, c') ->
  (forall d', bus d' c' -> Q r d') -> wp E (spi_exchange dev plat fuel b) d Q.
Proof using Hfuel SpiSpec0.
  intros [Hidle <-] Hex HQ. unfold spi_exchange. destruct (decide (plat = ARTY)) as [Hp|Hp].
  - pose proof (litex_start Hp d b Hidle) as Hbusy. rewrite Hex in Hbusy. cbn [fst snd] in Hbusy.
    apply wp_bind, wp_bind. eapply wp_ok; [reflexivity|].
    apply wp_bind. eapply wp_ok; [reflexivity|].
    apply wp_bind. apply (wp_wait E _ _ (fun n d => spi_busy n d r c') patience); [done|exact Hbusy|].
    intros n d1 Hn. pose proof (litex_status Hp n d1 r c' Hn) as Hst. unfold wp, REGW.
    destruct (reg_read dev _ d1) as [v d2].
    assert ((Z.land v 1 =? 1) = Z.testbit v 0) as ->.
    { change 1 with (Z.ones 1). rewrite Z.land_ones, Z.bit0_odd by lia. change (2 ^ 1) with 2.
      rewrite Zmod_odd. by destruct (Z.odd v). }
    destruct (Z.testbit v 0); [|done].
    pose proof (litex_miso Hp d2 r c' Hst) as Hmiso. unfold REGW.
    destruct (reg_read dev _ d2) as [v' d3]. destruct Hmiso as (Hv & Hi & Hs).
    apply wp_ret. rewrite (low_byte _ _ Hv). by apply HQ.
  - pose proof (not_arty _ Hp) as Hq. apply wp_bind, wp_bind.
    apply (wp_wait E _ _ (fun n d' => spi_space n d' /\ spi_slave d' = spi_slave d) patience);
      [done|split; [by apply sifive_idle|done]|].
    intros n d1 [Hn Hs1]. pose proof (sifive_full Hq n d1 Hn) as Hst. unfold wp at 1, REGW at 1.
    destruct (reg_read dev _ d1) as [v d2]. destruct Hst as [Hs2 Hst]. rewrite bit31_testbit.
    destruct (Z.testbit v 31); cbn [negb].
    { destruct Hst as (n' & -> & Hn'). exists n'. split; [done|]. split; [done|congruence]. }
    specialize (Hst b). rewrite Hs2, Hs1, Hex in Hst. cbn [fst snd] in Hst.
    apply wp_bind. eapply wp_ok; [reflexivity|].
    apply (wp_wait E _ _ (fun n d => spi_busy n d r c') patience); [done|exact Hst|].
    intros m d3 Hm. pose proof (sifive_empty Hq m d3 r c' Hm) as He. unfold wp, REGW.
    destruct (reg_read dev _ d3) as [w d4]. rewrite bit31_testbit.
    destruct (Z.testbit w 31); cbn [negb]; [done|]. destruct He as (Hv & Hi & Hs).
    apply wp_ret. rewrite (low_byte _ _ Hv). by apply HQ.
Qed.

Lemma wp_spi_send d c bs Q : bus d c -> (forall d', bus d' (sent sl c bs) -> Q tt d') ->
  wp E (spi_send dev plat fuel bs) d Q.
Proof using Hfuel SpiSpec0.
  revert d c. induction bs as [|b bs IH]; intros d c Hb HQ; cbn [spi_send].
  - apply wp_ret. by apply HQ.
  - apply wp_bind. destruct (exch sl c b) as [r c'] eqn:Hex.
    eapply wp_exchange; [done|done|]. intros d' Hd'. apply (IH d' c'); [done|].
    intros d2 Hd2. apply HQ. cbn. by rewrite Hex.
Qed.

Lemma wp_times_clocks d c out c' Q : clocks sl c out c' -> bus d c ->
  (forall d', bus d' c' -> Q out d') ->
  wp E (times (length out) (spi_exchange dev plat fuel Byte.xff)) d Q.
Proof using Hfuel SpiSpec0.
  intros Hc. revert d Q. induction Hc as [c|c r c1 out c' Hex Hc IH]; intros d Q Hb HQ.
  - by apply wp_ret, HQ.
  - cbn [length times]. apply wp_bind. eapply wp_exchange; [done|done|]. intros d1 H1.
    apply wp_bind. apply IH; [done|]. intros d2 H2. by apply wp_ret, HQ.
Qed.

Lemma wp_reply d c k r c' n Q : clocks sl c (replicate k Byte.xff ++ [r]) c' -> r <> Byte.xff ->
  (k < n)%nat -> bus d c -> (forall d', bus d' c' -> Q r d') ->
  wp E (reply_loop dev plat fuel n) d Q.
Proof using Hfuel SpiSpec0.
  intros Hc Hr. revert d c n Hc. induction k as [|k IH]; intros d c n Hc Hn Hb HQ;
    (destruct n as [|n]; [lia|]); cbn [reply_loop]; inversion Hc as [|? ? c1 ? ? Hex Hc']; subst;
    apply wp_bind; (eapply wp_exchange; [done|done|]); intros d1 H1.
  - rewrite bool_decide_false by done. apply wp_ret, HQ. by inversion Hc'; subst.
  - rewrite bool_decide_true by done. eapply IH; [done|lia|done|done].
Qed.

(** A command and its R1 response. *)
Lemma wp_sd_exec_cmd d c cmd k r c' Q :
  clocks sl (sent sl c cmd) (replicate k Byte.xff ++ [r]) c' -> r <> Byte.xff ->
  Z.of_nat k < 8000 -> bus d c -> (forall d', bus d' c' -> Q r d') ->
  wp E (sd_exec_cmd dev plat fuel cmd) d Q.
Proof using Hfuel SpiSpec0.
  intros Hc Hr Hk Hb HQ. apply wp_bind. eapply wp_spi_send; [done|]. intros d1 H1.
  eapply wp_reply; [done|done|lia|done|done].
Qed.

(** Waiting for a byte that the device sends. *)
Lemma wp_spi_await_byte d c k b c' Q : clocks sl c (replicate k Byte.xff ++ [b]) c' -> b <> Byte.xff ->
  (k < fuel)%nat -> bus d c -> (forall d', bus d' c' -> Q tt d') ->
  wp E (spi_await dev plat fuel b) d Q.
Proof using Hfuel SpiSpec0.
  intros Hc Hb Hk Hbus HQ. apply wp_bind.
  apply (wp_wait E _ _ (fun n d => exists c, bus d c /\ clocks sl c (replicate n Byte.xff ++ [b]) c') k);
    [done|by exists c|].
  intros n d1 (c1 & Hb1 & Hc1).
  destruct n as [|n]; inversion Hc1 as [|? ? c2 ? ? Hex Hc2]; subst;
    (eapply wp_exchange; [done|done|]); intros d2 H2.
  - rewrite bool_decide_true by done. inversion Hc2; subst. by apply wp_ret, HQ.
  - rewrite bool_decide_false by done. exists n. split; [done|]. by exists c2.
Qed.

(** Waiting until the device releases its line. *)
Lemma wp_spi_await_ff P n d c Q : releases sl P -> P n c -> (n < fuel)%nat -> bus d c ->
  (forall d' c', bus d' c' -> P 0%nat c' -> Q tt d') ->
  wp E (spi_await dev plat fuel Byte.xff) d Q.
Proof using Hfuel SpiSpec0.
  intros Hrel Hn Hlt Hb HQ. apply wp_bind.
  apply (wp_wait E _ _ (fun n d => exists c, bus d c /\ P n c) n); [done|by exists c|].
  intros m d1 (c1 & Hb1 & Hm). specialize (Hrel m c1 Hm).
  destruct (exch sl c1 Byte.xff) as [r c2] eqn:Hex. eapply wp_exchange; [done|done|].
  intros d2 H2. case_decide as Hr.
  - rewrite bool_decide_true by done. apply wp_ret. by eapply HQ.
  - rewrite bool_decide_false by done. destruct Hrel as (m' & -> & Hm'). exists m'.
    split; [done|]. by exists c2.
Qed.

Lemma wp_config d c reg v Q : bus d c -> reg ∈ cs_regs plat ->
  (forall d', bus d' (chip_select sl reg v c) -> Q tt d') ->
  wp E (set_REGW dev (SPI_BASE plat) reg v) d Q.
Proof using SpiSpec0.
  intros [Hi <-] Hreg HQ. destruct (spi_config d reg v Hi Hreg). by apply HQ.
Qed.

Lemma wp_set_clock d c freq Q : plat = ARTY -> bus d c -> (forall d', bus d' c -> Q tt d') ->
  wp E (spi_set_clock dev plat freq) d Q.
Proof using SpiSpec0.
  intros Hp [Hi <-] HQ. destruct (spi_clkdiv Hp d (u32 (CPU_CLOCK_RATE / freq + 1)) Hi). by apply HQ.
Qed.
End exchange.
