(* ===== verification/SdSim.v ===== *)
(** * A simulated SD card and its controllers

    A card and, for each platform, a controller that satisfy the assumptions of
    [DiskSpec]: they are consistent, and the theorems about the driver have
    concrete instances. *)

From stdpp Require Import options.
From coqutil Require Import Byte.
From S2P Require Import Prelude InodeStore Earth Disk DiskSpec.

(** ** The card

    Bytes of a command, or of a data packet for the block [s_data], are collected
    in [s_in]; replies wait in [s_out]. *)
Inductive stage : Type := Powered | Idle | Transfer.

Record sim : Type := {
  s_mem : Z -> block;
  s_stage : stage;
  s_in : list byte;
  s_out : list byte;
  s_data : option Z;
}.

Definition with_io (c : sim) (i o : list byte) : sim :=
  {| s_mem := s_mem c; s_stage := s_stage c; s_in := i; s_out := o; s_data := s_data c |}.

Section sim.
Context (plat : platform).

Definition decode_addr (args : list byte) : Z :=
  let off := le_combine (reverse args) in
  if decide (plat = QEMU) then off / BLOCK_SIZE else off.

(** The card after a whole command. *)
Definition execute (c : sim) (cmd : list byte) : sim :=
  let reply st out data :=
    {| s_mem := s_mem c; s_stage := st; s_in := []; s_out := Byte.xff :: out; s_data := data |} in
  match cmd with
  | op :: cmd =>
    let a := decode_addr (take 4 cmd) in
    match op with
    | Byte.x40 => reply Idle [Byte.x01] None
    | Byte.x48 => reply Idle [Byte.x01; Byte.x00; Byte.x00; Byte.x01; Byte.xaa] None
    | Byte.x77 => reply (s_stage c) [Byte.x01] None
    | Byte.x69 => reply Transfer [Byte.x00] None
    | Byte.x51 => reply (s_stage c)
        ([Byte.x00] ++ [Byte.xff; Byte.xfe] ++ s_mem c a ++ [Byte.x00; Byte.x00]) None
    | Byte.x58 => reply (s_stage c) [Byte.x00] (Some a)
    | _ => reply (s_stage c) [Byte.x04] None
    end
  | [] => c
  end.

(** The card after a data packet of 516 bytes for block [a]. *)
Definition store_packet (c : sim) (a : Z) (packet : list byte) : sim :=
  let b := take (Z.to_nat BLOCK_SIZE) (drop 2 packet) in
  {| s_mem := fun x => if decide (x = a) then b else s_mem c x; s_stage := s_stage c;
     s_in := []; s_out := [Byte.xff; Byte.x05]; s_data := None |}.

(** Whether a byte starts a command: bits 7 and 6 are 0 and 1. *)
Definition is_start (b : byte) : bool := byte.unsigned b / 64 =? 1.

Definition sim_exch (c : sim) (b : byte) : byte * sim :=
  match s_out c with
  | r :: out => (r, with_io c (s_in c) out)
  | [] =>
    let i := s_in c ++ [b] in
    (Byte.xff,
     match s_data c with
     | Some a => if decide (length i = 516%nat) then store_packet c a i else with_io c i []
     | None => if bool_decide (s_in c = []) && negb (is_start b) then c
               else if decide (length i = 6%nat) then execute c i else with_io c i []
     end)
  end.

Definition sim_slave : slave sim := {|
  exch := sim_exch;
  chip_select := fun _ _ c => c;
|}.

(** *** The protocol *)
Definition sim_ok (m : Z -> block) (st : stage) (c : sim) : Prop :=
  s_mem c = m /\ s_stage c = st /\ s_in c = [] /\ s_out c = [] /\ s_data c = None /\
  forall a, is_block (m a).

Lemma sim_clock_idle m st c : sim_ok m st c -> sim_exch c Byte.xff = (Byte.xff, c).
Proof. intros (Hm & Hs & Hi & Ho & Hd & Hb). unfold sim_exch. by rewrite Ho, Hd, Hi. Qed.

Lemma sim_releases m st : releases sim_slave (fun _ => sim_ok m st).
Proof.
  intros n c Hc. cbn [exch sim_slave]. by rewrite (sim_clock_idle _ _ _ Hc).
Qed.

(** The queued replies come out. *)
Lemma sim_clocks c out : s_out c = out -> clocks sim_slave c out (with_io c (s_in c) []).
Proof.
  revert c. induction out as [|r out IH]; intros [m st i o dt]; cbn; intros ->.
  - constructor.
  - econstructor; [reflexivity|].
    apply (IH {| s_mem := m; s_stage := st; s_in := i; s_out := out; s_data := dt |} eq_refl).
Qed.

(** A command reaches the card. *)
Lemma sim_command m st c op args : sim_ok m st c -> is_start op = true -> length args = 5%nat ->
  sent sim_slave c (op :: args) = execute c (op :: args).
Proof.
  intros (Hm & Hs & Hi & Ho & Hd & Hb) Hop Hargs. destruct c as [m' st' i o dt].
  cbn in Hm, Hs, Hi, Ho, Hd. subst.
  destruct args as [|a1 [|a2 [|a3 [|a4 [|a5 [|a6 args]]]]]]; try discriminate Hargs.
  cbn [sent exch sim_slave sim_exch s_out s_in s_data app bool_decide snd]. rewrite Hop. reflexivity.
Qed.

Lemma sim_reply m st c op args k out : sim_ok m st c -> is_start op = true -> length args = 5%nat ->
  s_out (execute c (op :: args)) = replicate k Byte.xff ++ out ->
  clocks sim_slave (sent sim_slave c (op :: args)) (replicate k Byte.xff ++ out)
    (with_io (execute c (op :: args)) (s_in (execute c (op :: args))) []).
Proof. intros Hc Hop Hargs Hout. rewrite (sim_command m st) by done. by apply sim_clocks. Qed.

Lemma decode_card_addr a rest : 0 <= a < 8192 ->
  decode_addr (take 4 (reverse (le_split 4 (card_addr plat a)) ++ rest)) = a.
Proof.
  intros Ha. rewrite take_app_le by (by rewrite length_reverse, length_le_split).
  rewrite take_ge by (by rewrite length_reverse, length_le_split).
  unfold decode_addr. rewrite reverse_involutive, le_combine_split.
  unfold card_addr, BLOCK_SIZE. destruct (decide (plat = QEMU)).
  - rewrite Z.mod_small by lia. apply Z.div_mul. lia.
  - rewrite Z.mod_small by lia. done.
Qed.

Lemma length_sd_args off : length (reverse (le_split 4 off) ++ [Byte.xff]) = 5%nat.
Proof. by rewrite length_app, length_reverse, length_le_split. Qed.

(** The bytes of a data packet are collected. *)
Lemma sim_collect bs c a : s_data c = Some a -> s_out c = [] ->
  (length (s_in c) + length bs < 516)%nat ->
  sent sim_slave c bs = with_io c (s_in c ++ bs) [].
Proof.
  revert c. induction bs as [|b bs IH]; intros [m st i o dt]; cbn [s_data s_out s_in];
    intros -> -> Hlen; cbn [sent].
  - by rewrite app_nil_r.
  - cbn [exch sim_slave]. unfold sim_exch. cbn [s_out s_in s_data]. rewrite length_app. cbn [length] in *.
    rewrite decide_False by lia. cbn [snd]. rewrite IH; [|done|done|].
    + unfold with_io. cbn. by rewrite <- app_assoc.
    + cbn. rewrite length_app. cbn. lia.
Qed.

Lemma sim_packet c a b : s_data c = Some a -> s_out c = [] -> s_in c = [] -> is_block b ->
  sent sim_slave c ([Byte.xff; Byte.xfe] ++ b ++ [Byte.xff; Byte.xff]) =
  {| s_mem := fun x => if decide (x = a) then b else s_mem c x; s_stage := s_stage c;
     s_in := []; s_out := [Byte.xff; Byte.x05]; s_data := None |}.
Proof.
  intros Hd Ho Hi Hb. unfold is_block in Hb.
  change (Z.to_nat BLOCK_SIZE) with 512%nat in Hb.
  change [Byte.xff; Byte.xff] with ([Byte.xff] ++ [Byte.xff]). rewrite !app_assoc, sent_app.
  rewrite (sim_collect _ c a); [|done|done|rewrite Hi, !length_app, Hb; cbn; lia].
  rewrite Hi. cbn [sent exch sim_slave]. unfold sim_exch, with_io. cbn [s_out s_in s_data s_mem s_stage].
  rewrite Hd. rewrite decide_True by (rewrite !length_app, Hb; done). cbn [snd].
  unfold store_packet. cbn [s_mem s_stage]. f_equal. change ([] ++ ?l) with l.
  assert (take (Z.to_nat BLOCK_SIZE)
    (drop 2 ((([Byte.xff; Byte.xfe] ++ b) ++ [Byte.xff]) ++ [Byte.xff])) = b) as ->; [|done].
  rewrite <- !app_assoc. cbn [app drop]. change (Z.to_nat BLOCK_SIZE) with 512%nat.
  by rewrite drop_0, <- Hb, take_app_length.
Qed.

#[global, program] Instance sim_card : SdCard sim_slave plat 8192 1 := {|
  contents := s_mem;
  card_powered := fun m => sim_ok m Powered;
  card_idle := fun m _ _ => sim_ok m Idle;
  card_app := fun m _ _ => sim_ok m Idle;
  card_ready := fun _ c => sim_ok (s_mem c) Transfer c;
|}.
Next Obligation. by intros n c a (_ & _ & _ & _ & _ & Hb). Qed.
Next Obligation. done. Qed.
Next Obligation. intros m c Hc. cbn [exch sim_slave]. by rewrite (sim_clock_idle _ _ _ Hc). Qed.
Next Obligation.
  intros m c Hc. exists 1%nat. eexists. split; [done|]. split.
  - by apply (sim_reply m Powered c _ _ 1).
  - destruct Hc as (? & ? & ? & ? & ? & ?). by split_and!.
Qed.
Next Obligation. intros m t. apply sim_releases. Qed.
Next Obligation.
  intros m t c Hc. exists 1%nat. eexists. split; [done|]. split.
  - by apply (sim_reply m Idle c _ _ 1).
  - destruct Hc as (? & ? & ? & ? & ? & ?). by split_and!.
Qed.
Next Obligation.
  intros m t c Hc. exists 1%nat. eexists. split; [done|]. split.
  - by apply (sim_reply m Idle c _ _ 1).
  - destruct Hc as (? & ? & ? & ? & ? & ?). by split_and!.
Qed.
Next Obligation. intros m t. apply sim_releases. Qed.
Next Obligation.
  intros m t c Hc. exists 1%nat, Byte.x00. eexists. split; [done|]. split.
  - by apply (sim_reply m Idle c _ _ 1).
  - right. destruct Hc as (? & ? & ? & ? & ? & Hb). subst. by split_and!.
Qed.
Next Obligation.
  intros m n c [Hc <-]. cbn [exch sim_slave]. rewrite (sim_clock_idle _ _ _ Hc).
  by rewrite decide_True.
Qed.
Next Obligation.
  intros c a Hc Ha. exists 1%nat, 1%nat, Byte.x00, Byte.x00. eexists. split_and!; [done|done|..].
  - rewrite <- !app_assoc. unfold cmd17, sd_cmd.
    apply (sim_reply _ _ c Byte.x51 (reverse (le_split 4 (card_addr plat a)) ++ [Byte.xff]) 1 _ Hc);
      [done|apply length_sd_args|].
    cbn [execute s_out]. rewrite decode_card_addr by done. done.
  - destruct Hc as (? & ? & ? & ? & ? & ?). by split_and!.
  - done.
Qed.
Next Obligation.
  intros c a b Hc Ha Hb. exists 1%nat. eexists. split_and!; [done| |].
  - unfold cmd24, sd_cmd.
    apply (sim_reply _ _ c Byte.x58 (reverse (le_split 4 (card_addr plat a)) ++ [Byte.xff]) 1 [Byte.x00] Hc);
      [done|apply length_sd_args|done].
  - exists 1%nat, Byte.x05. eexists. split_and!; [done|done|done|..].
    + rewrite (sim_packet _ a); [|cbn; by rewrite decode_card_addr|done|done|done].
      by apply sim_clocks.
    + destruct Hc as (? & ? & ? & ? & ? & Hblk). split_and!; try done. cbn. intros x. by case_decide.
    + done.
Qed.

(** ** The controllers *)
Record ctrl : Type := {
  on_bus : sim;
  mosi : Z;
  rx : option byte;
}.

Definition transfer (d : ctrl) (v : Z) : ctrl :=
  let '(r, c) := sim_exch (on_bus d) (byte.of_Z v) in
  {| on_bus := c; mosi := v; rx := Some r |}.
Definition take_rx (d : ctrl) : Z * ctrl :=
  (match rx d with Some r => byte.unsigned r | None => 0x80000000 end,
   {| on_bus := on_bus d; mosi := mosi d; rx := None |}).

Definition sim_dev : mmio ctrl := {|
  reg_read := fun a d =>
    if decide (plat = ARTY) then
      if a =? SPI_BASE plat + LITEX_SPI_STATUS then (match rx d with Some _ => 1 | None => 0 end, d)
      else if a =? SPI_BASE plat + LITEX_SPI_MISO then take_rx d else (0, d)
    else if a =? SPI_BASE plat + SIFIVE_SPI_RXDATA then take_rx d else (0, d);
  reg_write := fun a v d =>
    if decide (plat = ARTY) then
      if a =? SPI_BASE plat + LITEX_SPI_MOSI then {| on_bus := on_bus d; mosi := v; rx := rx d |}
      else if a =? SPI_BASE plat + LITEX_SPI_CONTROL then transfer d (mosi d) else d
    else if a =? SPI_BASE plat + SIFIVE_SPI_TXDATA then transfer d v else d;
|}.

Lemma transfer_spec d v b : byte.of_Z v = b ->
  rx (transfer d v) = Some (sim_exch (on_bus d) b).1 /\
  on_bus (transfer d v) = (sim_exch (on_bus d) b).2.
Proof. intros <-. unfold transfer. by destruct (sim_exch (on_bus d) (byte.of_Z v)). Qed.

#[global, program] Instance sim_spi : SpiSpec sim_dev plat sim_slave 0 := {|
  spi_idle := fun d => rx d = None;
  spi_slave := on_bus;
  spi_space := fun _ d => rx d = None;
  spi_busy := fun _ d r c => rx d = Some r /\ on_bus d = c;
  spi_done := fun d r c => rx d = Some r /\ on_bus d = c;
|}.
Next Obligation.
  intros Hp d v Hd. cbn [reg_write sim_dev]. rewrite decide_True by done.
  rewrite !(proj2 (Z.eqb_neq _ _)) by (unfold LITEX_SPI_CLKDIV, LITEX_SPI_MOSI, LITEX_SPI_CONTROL; lia).
  done.
Qed.
Next Obligation.
  intros d reg v Hd Hreg. unfold cs_regs in Hreg. cbn [reg_write sim_dev].
  destruct (decide (plat = ARTY)); set_unfold in Hreg; destruct_or! Hreg; subst; try done;
    rewrite !(proj2 (Z.eqb_neq _ _)) by (unfold LITEX_SPI_CS, LITEX_SPI_MOSI, LITEX_SPI_CONTROL,
      SIFIVE_SPI_CSMODE, SIFIVE_SPI_CSDEF, SIFIVE_SPI_TXDATA; lia); done.
Qed.
Next Obligation.
  intros Hp d b Hd. cbn [reg_write sim_dev]. rewrite !decide_True by done. rewrite Z.eqb_refl.
  rewrite (proj2 (Z.eqb_neq _ _)) by (unfold LITEX_SPI_CONTROL, LITEX_SPI_MOSI; lia).
  rewrite Z.eqb_refl. apply (transfer_spec {| on_bus := on_bus d; mosi := byte.unsigned b; rx := rx d |}).
  apply byte.of_Z_unsigned.
Qed.
Next Obligation.
  intros Hp n d r c [Hrx Hc]. cbn [reg_read sim_dev]. rewrite decide_True by done.
  rewrite Z.eqb_refl, Hrx. done.
Qed.
Next Obligation.
  intros Hp d r c [Hrx Hc]. cbn [reg_read sim_dev]. rewrite decide_True by done.
  rewrite (proj2 (Z.eqb_neq _ _)) by (unfold LITEX_SPI_MISO, LITEX_SPI_STATUS; lia).
  rewrite Z.eqb_refl. unfold take_rx. rewrite Hrx. cbn. rewrite byte_mod. done.
Qed.
Next Obligation. done. Qed.
Next Obligation.
  intros Hp n d Hd. cbn [reg_read sim_dev].
  rewrite decide_False by (rewrite Hp; done).
  rewrite (proj2 (Z.eqb_neq _ _)) by (unfold SIFIVE_SPI_TXDATA, SIFIVE_SPI_RXDATA; lia).
  split; [done|]. cbn [Z.testbit]. intros b. cbn [reg_write sim_dev].
  rewrite decide_False by (rewrite Hp; done). rewrite Z.eqb_refl.
  apply transfer_spec, byte.of_Z_unsigned.
Qed.
Next Obligation.
  intros Hp n d r c [Hrx Hc]. cbn [reg_read sim_dev].
  rewrite decide_False by (rewrite Hp; done). rewrite Z.eqb_refl. unfold take_rx. rewrite Hrx.
  rewrite byte_bit31, byte_mod. done.
Qed.
End sim.
