(* ===== verification/DiskProps.v ===== *)
(** * The disk driver: its correctness

    [disk_read] and [disk_write] of [earth/dev_disk.c] over every
    controller and card that satisfy [SpiSpec] and [SdCard]. *)

From stdpp Require Import options.
From coqutil Require Import Byte.
From S2P Require Import Prelude InodeStore Earth Disk DiskSpec SdSim.

Section card.
Context {D C : Type} (dev : mmio D) (plat : platform) (sl : slave C).
Context (patience fuel delay : nat) (cap : Z).
Context `{!SpiSpec dev plat sl patience, !SdCard sl plat cap delay}.

(** The fuel is enough for the hardware's delays, and the card's addresses fit in
    the argument of a command. *)
Record fuel_ok : Prop := {
  fuel_patience : (patience < fuel)%nat;
  fuel_delay : (delay < fuel)%nat;
  delay_reply : Z.of_nat delay < 8000;
  cap_addr : card_addr plat cap <= 2 ^ 32;
}.
Context (Hfuel : fuel_ok).

(** An initialised card with contents [m] behind the controller. *)
Definition card_holds (m : Z -> block) (d : D) : Prop :=
  exists n c, bus dev plat sl patience d c /\ card_ready n c /\ (n <= delay)%nat /\ contents c = m.

Lemma sd_offset_addr a : 0 <= a < cap -> sd_offset plat a = card_addr plat a.
Proof using Hfuel.
  intros Ha. pose proof (cap_addr Hfuel) as Hcap. unfold sd_offset, card_addr, BLOCK_SIZE in *.
  destruct (decide (plat = QEMU)); [|done]. apply u32_id. lia.
Qed.

(** Between commands: the wait for the card not to be busy. *)
Lemma wp_await_ready E m d Q : card_holds m d ->
  (forall d' c, bus dev plat sl patience d' c -> card_ready 0 c -> contents c = m -> Q tt d') ->
  wp E (spi_await dev plat fuel Byte.xff) d Q.
Proof using Hfuel.
  intros (n & c & Hb & Hr & Hn & Hm) HQ. destruct Hfuel as [Hf1 Hf2 Hf3 Hf4].
  eapply (wp_spi_await_ff dev plat sl patience fuel Hf1 E); [apply (sd_ready_releases m)|by split|lia|done|].
  intros d' c' Hb' [Hr' Hm']. by eapply HQ.
Qed.

Lemma wp_sd_read E m d a Q : card_holds m d -> 0 <= a < cap ->
  (forall d', card_holds m d' -> Q (m a) d') -> wp E (sd_read dev plat fuel a) d Q.
Proof using Hfuel.
  intros Hd Ha HQ. unfold sd_read. rewrite sd_offset_addr by done. apply wp_bind.
  apply (wp_await_ready E m); [done|]. intros d1 c Hb Hr Hm.
  destruct (sd_read_block c a Hr Ha) as (k & j & crc1 & crc2 & c' & Hk & Hj & Hclk & Hr' & Hc').
  apply clocks_app in Hclk as (c1 & Hc1 & Hclk). apply clocks_app in Hclk as (c2 & Hc2 & Hclk).
  apply clocks_app in Hclk as (c3 & Hc3 & Hclk).
  inversion Hclk as [|? ? c4 ? ? Hx1 Hclk']; subst. inversion Hclk' as [|? ? c5 ? ? Hx2 Hnil]; subst.
  inversion Hnil; subst. pose proof Hfuel as [Hf1 Hf2 Hf3 Hf4].
  apply wp_bind. eapply (wp_sd_exec_cmd dev plat sl patience fuel Hf1); [exact Hc1|done|lia|done|].
  intros d2 H2. apply wp_bind, wp_panic_if; [done|intros _].
  apply wp_bind. eapply (wp_spi_await_byte dev plat sl patience fuel Hf1); [exact Hc2|done|lia|done|].
  intros d3 H3. apply wp_bind. pose proof (sd_blocks _ _ a Hr) as Hblk. unfold is_block in Hblk.
  rewrite <- Hblk. eapply (wp_times_clocks dev plat sl patience fuel Hf1); [exact Hc3|done|].
  intros d4 H4. apply wp_bind. eapply (wp_exchange dev plat sl patience fuel Hf1); [done|done|].
  intros d5 H5. apply wp_bind. eapply (wp_exchange dev plat sl patience fuel Hf1); [done|done|].
  intros d6 H6. apply wp_ret, HQ. by exists delay, c'.
Qed.

(** The contents with block [a] replaced. *)
Definition put_block (m : Z -> block) (a : Z) (b : block) : Z -> block :=
  fun x => if decide (x = a) then b else m x.

Lemma wp_sd_write E m d a b Q : card_holds m d -> 0 <= a < cap -> is_block b ->
  (forall d', card_holds (put_block m a b) d' -> Q tt d') -> wp E (sd_write dev plat fuel a b) d Q.
Proof using Hfuel.
  intros Hd Ha Hblk HQ. unfold sd_write. rewrite sd_offset_addr by done. apply wp_bind.
  apply (wp_await_ready E m); [done|]. intros d1 c Hb Hr Hm.
  destruct (sd_write_block c a b Hr Ha Hblk) as (k & c1 & Hk & Hc1 & j & ack & c2 & Hj & Hack & Hff & Hc2 & Hr2 & Hm2).
  pose proof Hfuel as [Hf1 Hf2 Hf3 Hf4].
  apply wp_bind. eapply (wp_sd_exec_cmd dev plat sl patience fuel Hf1); [exact Hc1|done|lia|done|].
  intros d2 H2. apply wp_bind, wp_panic_if; [done|intros _].
  assert (forall bs d c (K : byte -> M D unit) Q, bus dev plat sl patience d c ->
    (forall r d', bus dev plat sl patience d' (exch sl c bs).2 -> wp E (K r) d' Q) ->
    wp E (spi_exchange dev plat fuel bs ≫= K) d Q) as Hex.
  { intros bs d' c' K Q' Hb' HK. apply wp_bind. destruct (exch sl c' bs) as [r c''] eqn:He.
    eapply (wp_exchange dev plat sl patience fuel Hf1); [done|done|]. intros d'' Hd''. by apply HK. }
  apply (Hex _ _ c1); [done|]. intros _ d3 H3. eapply Hex; [exact H3|]. intros _ d4 H4.
  apply wp_bind. eapply (wp_spi_send dev plat sl patience fuel Hf1); [exact H4|]. intros d5 H5.
  eapply Hex; [exact H5|]. intros _ d6 H6. eapply Hex; [exact H6|]. intros _ d7 H7.
  cbn [sent app] in Hc2. rewrite sent_app in Hc2. apply wp_bind.
  apply (wp_wait E _ _ (fun n d => exists c, bus dev plat sl patience d c /\
    clocks sl c (replicate n Byte.xff ++ [ack]) c2) j); [lia|by eexists|].
  intros n d8 (c8 & H8 & Hc8). destruct n as [|n]; inversion Hc8 as [|? ? c9 ? ? Hx9 Hc9]; subst;
    (eapply (wp_exchange dev plat sl patience fuel Hf1); [done|done|]); intros d9 H9.
  - rewrite bool_decide_false by done. cbn [negb]. apply wp_panic_if; [by rewrite Hack|intros _].
    apply HQ. inversion Hc9; subst. by exists delay, c2.
  - rewrite bool_decide_true by done. exists n. split; [done|]. by exists c9.
Qed.

(** ** Initialisation *)
Lemma wp_times_powered E m n d c Q : bus dev plat sl patience d c -> card_powered m c ->
  (forall l d' c', bus dev plat sl patience d' c' -> card_powered m c' -> Q l d') ->
  wp E (times n (spi_exchange dev plat fuel Byte.xff)) d Q.
Proof using Hfuel.
  revert d c Q. induction n as [|n IH]; intros d c Q Hb Hp HQ; cbn [times].
  - apply wp_ret. by eapply HQ.
  - apply wp_bind. destruct (exch sl c Byte.xff) as [r c'] eqn:Hex.
    eapply (wp_exchange dev plat sl patience fuel (fuel_patience Hfuel)); [done|done|].
    intros d' Hd'. apply wp_bind. eapply IH; [done| |].
    + pose proof (sd_clock m c Hp) as Hc. by rewrite Hex in Hc.
    + intros l d2 c2 H2 Hp2. apply wp_ret. by eapply HQ.
Qed.

Lemma wp_spi_setup E m d c Q : bus dev plat sl patience d c -> card_powered m c ->
  (forall d' c', bus dev plat sl patience d' c' -> card_powered m c' -> Q tt d') ->
  wp E (spi_setup dev plat fuel) d Q.
Proof using Hfuel.
  intros Hb Hp HQ. pose proof (sd_select m) as Hsel. unfold spi_setup.
  assert (forall reg v d c Q, reg ∈ cs_regs plat -> bus dev plat sl patience d c -> card_powered m c ->
    (forall d' c', bus dev plat sl patience d' c' -> card_powered m c' -> Q tt d') ->
    wp E (set_REGW dev (SPI_BASE plat) reg v) d Q) as Hcfg.
  { intros reg v d' c' Q' Hreg Hb' Hp' HQ'. eapply (wp_config dev plat sl patience); [done|done|].
    intros d2 H2. eapply HQ'; [done|]. by apply Hsel. }
  unfold cs_regs in Hcfg. destruct (decide (plat = ARTY)) as [Hpl|Hpl].
  - apply wp_bind. eapply (wp_set_clock dev plat sl patience); [done|done|]. intros d1 H1.
    apply wp_bind. eapply Hcfg; [set_unfold; tauto|done|done|]. intros d2 c2 H2 Hp2.
    apply wp_bind. eapply wp_times_powered; [done|done|]. intros l d3 c3 H3 Hp3.
    eapply Hcfg; [set_unfold; tauto|done|done|done].
  - apply wp_bind. eapply Hcfg; [set_unfold; tauto|done|done|]. intros d2 c2 H2 Hp2.
    apply wp_bind. eapply wp_times_powered; [done|done|]. intros l d3 c3 H3 Hp3.
    eapply Hcfg; [set_unfold; tauto|done|done|done].
Qed.

(** One round of ACMD41. *)
Lemma wp_sd_exec_acmd E m n t d c Q : bus dev plat sl patience d c -> card_idle m n t c -> (n <= delay)%nat ->
  (forall t' d' c', t = S t' -> bus dev plat sl patience d' c' -> card_idle m delay t' c' -> Q Byte.x01 d') ->
  (forall d' c', bus dev plat sl patience d' c' -> card_ready delay c' -> contents c' = m -> Q Byte.x00 d') ->
  wp E (sd_exec_acmd dev plat fuel acmd41) d Q.
Proof using Hfuel.
  intros Hb Hc Hn HQ1 HQ0. pose proof Hfuel as [Hf1 Hf2 Hf3 Hf4]. unfold sd_exec_acmd. apply wp_bind.
  eapply (wp_spi_await_ff dev plat sl patience fuel Hf1 E); [apply (sd_idle_releases m t)|exact Hc|lia|done|].
  intros d1 c1 H1 Hc1. cbv beta in Hc1.
  destruct (sd_app_cmd m t c1 Hc1) as (k & c2 & Hk & Hclk & Happ).
  apply wp_bind. eapply (wp_sd_exec_cmd dev plat sl patience fuel Hf1); [exact Hclk|done|lia|done|].
  intros d2 H2. apply wp_bind.
  eapply (wp_spi_await_ff dev plat sl patience fuel Hf1 E); [apply (sd_app_releases m t)|exact Happ|lia|done|].
  intros d3 c3 H3 Hc3. cbv beta in Hc3.
  destruct (sd_op_cond m t c3 Hc3) as (k' & r & c4 & Hk' & Hclk' & Hr).
  eapply (wp_sd_exec_cmd dev plat sl patience fuel Hf1); [exact Hclk'| |lia|done|].
  - destruct Hr as [[-> _] | (-> & _)]; done.
  - intros d4 H4. destruct Hr as [[-> (t' & -> & Ht')] | (-> & Hr & Hm)]; eauto.
Qed.

(** ** The operations of the earth interface *)
Lemma cap_bound : 0 <= cap -> cap <= 2 ^ 32.
Proof using Hfuel.
  pose proof (cap_addr Hfuel) as Hc. unfold card_addr, BLOCK_SIZE in Hc. case_decide; lia.
Qed.

Lemma wp_sd_read_loop E m n d a Q : card_holds m d -> 0 <= a -> ((0 < n)%nat -> a + Z.of_nat n <= cap) ->
  (forall d', card_holds m d' -> Q (mjoin (m <$> seqZ a (Z.of_nat n))) d') ->
  wp E (sd_read_loop dev plat fuel n a) d Q.
Proof using Hfuel.
  revert d a Q. induction n as [|n IH]; intros d a Q Hd Ha Hn HQ; cbn [sd_read_loop].
  - by apply wp_ret, HQ.
  - specialize (Hn ltac:(lia)). pose proof (cap_bound ltac:(lia)) as Hcap. rewrite Nat2Z.inj_succ in Hn.
    apply wp_bind, (wp_sd_read E m); [done|lia|]. intros d1 H1.
    assert (forall d', card_holds m d' -> Q (m a ++ mjoin (m <$> seqZ (a + 1) (Z.of_nat n))) d') as HQ'.
    { intros d' Hd'. specialize (HQ d' Hd'). rewrite Nat2Z.inj_succ in HQ.
      rewrite seqZ_cons in HQ by lia. cbn in HQ. rewrite Z.pred_succ, <- Z.add_1_r in HQ. exact HQ. }
    apply wp_bind. destruct n as [|n].
    + cbn [sd_read_loop]. by apply wp_ret, wp_ret, HQ'.
    + apply IH; [done|apply u32_range|rewrite u32_id; lia|].
      intros d2 H2. apply wp_ret. rewrite u32_id by lia. by apply HQ'.
Qed.

(** The contents with the blocks of [src] from [a] on. *)
Fixpoint put_blocks (m : Z -> block) (a : Z) (bs : list block) : Z -> block :=
  match bs with
  | [] => m
  | b :: bs => put_blocks (put_block m a b) (a + 1) bs
  end.

Lemma wp_sd_write_loop E m bs d a Q : card_holds m d -> 0 <= a ->
  ((0 < length bs)%nat -> a + Z.of_nat (length bs) <= cap) -> Forall is_block bs ->
  (forall d', card_holds (put_blocks m a bs) d' -> Q tt d') ->
  wp E (sd_write_loop dev plat fuel (length bs) a (mjoin bs)) d Q.
Proof using Hfuel.
  revert m d a Q. induction bs as [|b bs IH]; intros m d a Q Hd Ha Hn Hbs HQ;
    cbn [sd_write_loop length].
  - by apply wp_ret, HQ.
  - apply Forall_cons in Hbs as [Hb Hbs]. specialize (Hn ltac:(cbn; lia)).
    cbn [length] in Hn. pose proof (cap_bound ltac:(lia)) as Hcap. rewrite Nat2Z.inj_succ in Hn.
    change (mjoin (b :: bs)) with (b ++ mjoin bs). rewrite <- Hb, take_app_length, drop_app_length.
    apply wp_bind, (wp_sd_write E m); [done|lia|done|]. intros d1 H1. destruct bs as [|b' bs].
    + by apply wp_ret, HQ.
    + rewrite u32_id by (cbn [length] in Hn; lia). apply (IH (put_block m a b)); [done|lia| |done|done].
      intros _. lia.
Qed.

Lemma hw_call_ok {A} (m : M D A) s a d : m (dhw s) = Ok (a, d) ->
  hw_call m s = Ok (a, {| dtype := dtype s; dhw := d |}).
Proof using Type. unfold hw_call. by intros ->. Qed.

Lemma disk_read_card (rom : Z -> byte) (s : disk_state D) (m : Z -> block) (block_no nblocks : Z) :
  dtype s = SD_CARD -> card_holds m (dhw s) ->
  0 <= block_no -> 0 <= nblocks -> block_no + nblocks <= cap ->
  exists s', disk_read dev plat fuel rom block_no nblocks s =
      Ok (mjoin (m <$> seqZ block_no nblocks), s') /\
    dtype s' = SD_CARD /\ card_holds m (dhw s').
Proof using Hfuel.
  intros Ht Hm Hb Hn Hcap.
  destruct (wp_returns _ _ _ (wp_sd_read_loop _ m (Z.to_nat nblocks) (dhw s) block_no
    (fun r d => r = mjoin (m <$> seqZ block_no nblocks) /\ card_holds m d) Hm Hb ltac:(lia)
    ltac:(rewrite Z2Nat.id by lia; done))) as (r & d & Hr & -> & Hd).
  exists {| dtype := SD_CARD; dhw := d |}. split; [|split; [done|exact Hd]].
  unfold disk_read. rewrite (mbind_ok _ _ s s s) by done. rewrite decide_False by (rewrite Ht; done).
  rewrite (hw_call_ok _ _ _ _ Hr). by rewrite Ht.
Qed.

(** C17: reading blocks.  With an SD card of contents [m], [disk_read] of
    [nblocks] blocks in range returns their bytes in order, and the card is
    ready again with its contents unchanged, on both platforms' controllers and
    addressing. *)
Theorem disk_read_correct (rom : Z -> byte) (s : disk_state D) (m : Z -> block) (block_no nblocks : Z) :
  dtype s = SD_CARD -> card_holds m (dhw s) ->
  0 <= block_no -> 0 <= nblocks -> block_no + nblocks <= cap ->
  exists s', disk_read dev plat fuel rom block_no nblocks s =
      Ok (mjoin (m <$> seqZ block_no nblocks), s') /\
    dtype s' = SD_CARD /\ card_holds m (dhw s').
Proof using Hfuel. apply disk_read_card. Qed.

(** C18: writing blocks.  With an SD card of contents [m], [disk_write] of the
    blocks [bs] in range returns, and the card is ready with these blocks
    replaced and every other one unchanged; when the flash was chosen it stops
    with a message. *)
Theorem disk_write_correct (s : disk_state D) (m : Z -> block) (block_no : Z) (bs : list block) :
  card_holds m (dhw s) -> 0 <= block_no -> block_no + Z.of_nat (length bs) <= cap ->
  Forall is_block bs ->
  if decide (dtype s = FLASH_ROM)
  then disk_write dev plat fuel block_no (Z.of_nat (length bs)) (mjoin bs) s =
         Fatal "disk_write: Writing to ROM"
  else exists s', disk_write dev plat fuel block_no (Z.of_nat (length bs)) (mjoin bs) s = Ok (tt, s') /\
    dtype s' = SD_CARD /\ card_holds (put_blocks m block_no bs) (dhw s').
Proof using Hfuel.
  intros Hm Hb Hcap Hbs. case_decide as Ht.
  - unfold disk_write. rewrite (mbind_ok _ _ s s s) by done. by rewrite bool_decide_true.
  - assert (dtype s = SD_CARD) as Hsd by (by destruct (dtype s)).
    destruct (wp_returns _ _ _ (wp_sd_write_loop _ m bs (dhw s) block_no
      (fun _ d => card_holds (put_blocks m block_no bs) d) Hm Hb (fun _ => Hcap) Hbs
      (fun d Hd => Hd))) as ([] & d & Hr & Hd).
    exists {| dtype := SD_CARD; dhw := d |}. split; [|split; [done|exact Hd]].
    unfold disk_write. rewrite (mbind_ok _ _ s s s) by done. rewrite bool_decide_false by done.
    cbn [panic_if]. rewrite (mbind_ok _ _ s tt s) by done. rewrite Nat2Z.id.
    rewrite (hw_call_ok _ _ _ _ Hr). by rewrite Hsd.
Qed.
End card.

(** ** Instances on the simulated card *)
Definition blank_card : sim :=
  {| s_mem := fun _ => null_block; s_stage := Powered; s_in := []; s_out := []; s_data := None |}.
Definition sim_disk (st : stage) : disk_state ctrl :=
  {| dtype := SD_CARD; dhw := {| on_bus := {| s_mem := fun _ => null_block; s_stage := st; s_in := [];
                                              s_out := []; s_data := None |};
                                 mosi := 0; rx := None |} |}.

Lemma sim_fuel plat : fuel_ok plat 0 2 1 8192.
Proof. split; [lia|lia|lia|]. unfold card_addr, BLOCK_SIZE. case_decide; lia. Qed.

Lemma sim_disk_holds plat : card_holds (sim_dev plat) plat (sim_slave plat) 0 1 8192
  (fun _ => null_block) (dhw (sim_disk Transfer)).
Proof.
  exists 0%nat, (on_bus (dhw (sim_disk Transfer))). split; [by split|]. split; [|split; [lia|done]].
  by split_and!.
Qed.

Lemma disk_read_correct_witness :
  exists s', disk_read (sim_dev QEMU) QEMU 2 (fun _ => Byte.x00) 4096 2 (sim_disk Transfer) =
      Ok (null_block ++ null_block ++ [], s') /\
    dtype s' = SD_CARD /\
    card_holds (sim_dev QEMU) QEMU (sim_slave QEMU) 0 1 8192 (fun _ => null_block) (dhw s').
Proof.
  apply (disk_read_correct (sim_dev QEMU) QEMU (sim_slave QEMU) 0 2 1 8192 (sim_fuel QEMU)
    (fun _ => Byte.x00) (sim_disk Transfer) (fun _ => null_block) 4096 2); try done.
  apply sim_disk_holds.
Defined.

Lemma disk_write_correct_witness :
  exists s', disk_write (sim_dev QEMU) QEMU 2 5 1 (replicate 512 Byte.x01 ++ []) (sim_disk Transfer) =
      Ok (tt, s') /\
    dtype s' = SD_CARD /\
    card_holds (sim_dev QEMU) QEMU (sim_slave QEMU) 0 1 8192
      (put_block (fun _ => null_block) 5 (replicate 512 Byte.x01)) (dhw s').
Proof.
  apply (disk_write_correct (sim_dev QEMU) QEMU (sim_slave QEMU) 0 2 1 8192 (sim_fuel QEMU)
    (sim_disk Transfer) (fun _ => null_block) 5 [replicate 512 Byte.x01]); try done.
  - apply sim_disk_holds.
  - by apply Forall_singleton.
Defined.
