(* ===== verification/Tty.v ===== *)
(** * The tty driver

    [earth/dev_tty.c] over the registers of the two UARTs, the part of
    [struct earth] that its clients use, as a record of operations with the
    class [TtySpec] as its contract, and the proof that the driver satisfies the
    contract over a UART that satisfies [UartSpec]. *)

From stdpp Require Import options.
From coqutil Require Import Byte.
From S2P Require Import Prelude Earth Disk DiskSpec.

(** ** The interface *)

(** The terminal operations of [struct earth]. *)
Record tty (S : Type) : Type := {
  tty_read : M S byte;
  tty_write : byte -> M S unit;
  tty_input_empty : M S Z;
}.
Arguments tty_read {S} _.
Arguments tty_write {S} _ c.
Arguments tty_input_empty {S} _.

(** A terminal: the characters that the user is going to type, and those that
    were printed.  Reading waits for the next character. *)
Class TtySpec {S : Type} (t : tty S) : Type := {
  tty_inv : S -> Prop;
  typed : S -> list byte;
  printed : S -> list byte;
  tty_read_spec : forall s c r, tty_inv s -> typed s = c :: r ->
    exists s', tty_read t s = Ok (c, s') /\ tty_inv s' /\ typed s' = r /\ printed s' = printed s;
  tty_write_spec : forall s c, tty_inv s ->
    exists s', tty_write t c s = Ok (tt, s') /\ tty_inv s' /\ typed s' = typed s /\
      printed s' = printed s ++ [c];
}.

(** ** dev_tty.c *)
Definition LITEX_UART_TXFULL : Z := 4.
Definition LITEX_UART_RXEMPTY : Z := 8.
Definition LITEX_UART_EVPEND : Z := 16.
Definition SIFIVE_UART_TXDATA : Z := 0.
Definition SIFIVE_UART_RXDATA : Z := 4.
Definition SIFIVE_UART_IP : Z := 20.

Section Driver.
Context {D : Type} (dev : mmio D) (plat : platform) (fuel : nat).

Abbreviation UART := (UART_BASE plat).

Definition uart_rx_empty : M D Z :=
  if decide (plat = ARTY) then REGW dev UART LITEX_UART_RXEMPTY
  else v ← REGW dev UART SIFIVE_UART_IP; mret (if Z.land v 2 =? 0 then 1 else 0).

Definition uart_getc : M D byte :=
  if decide (plat = ARTY) then
    wait_until fuel (REGW dev UART LITEX_UART_RXEMPTY) (fun v => v =? 0);;
    v ← REGW dev UART 0;
    let c := byte.of_Z (Z.land v 0xFF) in
    set_REGW dev UART LITEX_UART_EVPEND 2;;
    mret c
  else
    ch ← wait_until fuel (REGW dev UART SIFIVE_UART_RXDATA) (fun v => negb (bit31 v));
    mret (byte.of_Z (Z.land ch 0xFF)).

Definition uart_putc (c : byte) : M D unit :=
  if decide (plat = ARTY) then
    wait_until fuel (REGW dev UART LITEX_UART_TXFULL) (fun v => v =? 0);;
    set_REGW dev UART 0 (byte.unsigned c);;
    set_REGW dev UART LITEX_UART_EVPEND 1
  else
    wait_until fuel (REGW dev UART SIFIVE_UART_TXDATA) (fun v => negb (bit31 v));;
    set_REGW dev UART SIFIVE_UART_TXDATA (byte.unsigned c).

Definition tty_init : tty D := {|
  tty_read := uart_getc;
  tty_write := uart_putc;
  tty_input_empty := uart_rx_empty;
|}.
End Driver.

(** ** What the UARTs guarantee

    [uart_rx] are the characters that are going to arrive, [uart_tx] those that
    were sent.  [uart_awaits n d]: there is a next character, and it arrives
    within [n] polls; [uart_sends n d]: there is space to send within [n]
    polls. *)
Class UartSpec {D : Type} (dev : mmio D) (plat : platform) (patience : nat) : Type := {
  uart_idle : D -> Prop;
  uart_rx : D -> list byte;
  uart_tx : D -> list byte;
  uart_awaits : nat -> D -> Prop;
  uart_ready : D -> Prop;
  uart_sends : nat -> D -> Prop;
  uart_input : forall d, uart_idle d -> uart_rx d <> [] -> uart_awaits patience d;
  uart_output : forall d, uart_idle d -> uart_sends patience d;
  (** LiteX: RXEMPTY is 0 when a character has arrived; it stays in the data
      register until the event is acknowledged. *)
  litex_rxempty : plat = ARTY -> forall n d, uart_awaits n d ->
    let '(v, d') := reg_read dev (UART_BASE plat + LITEX_UART_RXEMPTY) d in
    uart_rx d' = uart_rx d /\ uart_tx d' = uart_tx d /\
    if v =? 0 then uart_ready d' else exists n', n = S n' /\ uart_awaits n' d';
  litex_rx : plat = ARTY -> forall d c r, uart_ready d -> uart_rx d = c :: r ->
    let '(v, d1) := reg_read dev (UART_BASE plat + 0) d in
    let d' := reg_write dev (UART_BASE plat + LITEX_UART_EVPEND) 2 d1 in
    v mod 256 = byte.unsigned c /\ uart_idle d' /\ uart_rx d' = r /\ uart_tx d' = uart_tx d;
  litex_txfull : plat = ARTY -> forall n d, uart_sends n d ->
    let '(v, d') := reg_read dev (UART_BASE plat + LITEX_UART_TXFULL) d in
    uart_rx d' = uart_rx d /\ uart_tx d' = uart_tx d /\
    if v =? 0 then forall c,
      let d'' := reg_write dev (UART_BASE plat + LITEX_UART_EVPEND) 1
                   (reg_write dev (UART_BASE plat + 0) (byte.unsigned c) d') in
      uart_idle d'' /\ uart_rx d'' = uart_rx d /\ uart_tx d'' = uart_tx d ++ [c]
    else exists n', n = S n' /\ uart_sends n' d';
  (** SiFive: bit 31 of RXDATA is set when nothing has arrived, bit 31 of TXDATA
      when the queue is full. *)
  sifive_rxdata : plat = QEMU -> forall n d c r, uart_awaits n d -> uart_rx d = c :: r ->
    let '(v, d') := reg_read dev (UART_BASE plat + SIFIVE_UART_RXDATA) d in
    uart_tx d' = uart_tx d /\
    if Z.testbit v 31 then uart_rx d' = uart_rx d /\ exists n', n = S n' /\ uart_awaits n' d'
    else v mod 256 = byte.unsigned c /\ uart_idle d' /\ uart_rx d' = r;
  sifive_txdata : plat = QEMU -> forall n d, uart_sends n d ->
    let '(v, d') := reg_read dev (UART_BASE plat + SIFIVE_UART_TXDATA) d in
    uart_rx d' = uart_rx d /\ uart_tx d' = uart_tx d /\
    if Z.testbit v 31 then exists n', n = S n' /\ uart_sends n' d'
    else forall c,
      let d'' := reg_write dev (UART_BASE plat + SIFIVE_UART_TXDATA) (byte.unsigned c) d' in
      uart_idle d'' /\ uart_rx d'' = uart_rx d /\ uart_tx d'' = uart_tx d ++ [c];
}.

(** ** The driver satisfies its contract *)
Section spec.
Context {D : Type} (dev : mmio D) (plat : platform) (patience fuel : nat).
Context `{!UartSpec dev plat patience} (Hfuel : (patience < fuel)%nat).

(** Polling: the states of a wait keep both streams. *)
Lemma uart_poll (P : nat -> D -> Prop) (R : Z -> D -> Prop) reg stop d :
  P patience d ->
  (forall n d1, P n d1 -> uart_rx d1 = uart_rx d -> uart_tx d1 = uart_tx d ->
     let '(v, d') := reg_read dev (UART_BASE plat + reg) d1 in
     if (stop v : bool) then R v d'
     else uart_rx d' = uart_rx d1 /\ uart_tx d' = uart_tx d1 /\ exists n', n = S n' /\ P n' d') ->
  exists v d', wait_until fuel (REGW dev (UART_BASE plat) reg) stop d = Ok (v, d') /\ R v d'.
Proof using Hfuel.
  intros HP Hstep. apply (wp_returns _ _ R).
  apply (wp_wait _ _ _ (fun n d1 => P n d1 /\ uart_rx d1 = uart_rx d /\ uart_tx d1 = uart_tx d) patience);
    [done|by split|].
  intros n d1 (HP1 & Hr & Ht). specialize (Hstep n d1 HP1 Hr Ht). unfold wp, REGW.
  destruct (reg_read dev _ d1) as [v d']. destruct (stop v); [done|].
  destruct Hstep as (Hr' & Ht' & n' & -> & HP'). exists n'. split; [done|]. split; [done|]. split; congruence.
Qed.

Lemma uart_getc_ok d c r : uart_idle d -> uart_rx d = c :: r ->
  exists d', uart_getc dev plat fuel d = Ok (c, d') /\ uart_idle d' /\ uart_rx d' = r /\ uart_tx d' = uart_tx d.
Proof using Hfuel.
  intros Hd Hc. pose proof (uart_input d Hd ltac:(by rewrite Hc)) as Haw. unfold uart_getc. case_decide as Hp.
  - destruct (uart_poll uart_awaits (fun _ d' => uart_ready d' /\ uart_rx d' = uart_rx d /\ uart_tx d' = uart_tx d)
      LITEX_UART_RXEMPTY (fun v => v =? 0) d Haw) as (v & d1 & Hw & Hrd & Hr1 & Ht1).
    { intros n d1 Hn Hr Ht. pose proof (litex_rxempty Hp n d1 Hn) as H. destruct (reg_read dev _ d1) as [v d'].
      destruct H as (Hr' & Ht' & H). destruct (v =? 0); [split_and!; congruence|done]. }
    rewrite (mbind_ok _ _ _ _ _ Hw). pose proof (litex_rx Hp d1 c r Hrd ltac:(congruence)) as H.
    unfold REGW, set_REGW. destruct (reg_read dev (UART_BASE plat + 0) d1) as [v2 d2] eqn:H2.
    destruct H as (Hv & Hi & Hr2 & Ht2).
    rewrite (mbind_ok _ _ d1 v2 d2) by (by rewrite H2). rewrite (low_byte _ _ Hv).
    eexists. split; [reflexivity|]. split_and!; [done|done|congruence].
  - apply not_arty in Hp as Hq.
    destruct (uart_poll uart_awaits (fun v d' => v mod 256 = byte.unsigned c /\ uart_idle d' /\ uart_rx d' = r /\ uart_tx d' = uart_tx d)
      SIFIVE_UART_RXDATA (fun v => negb (bit31 v)) d Haw) as (v & d1 & Hw & Hv & Hi & Hr1 & Ht1).
    { intros n d1 Hn Hr Ht. pose proof (sifive_rxdata Hq n d1 c r Hn ltac:(congruence)) as H.
      destruct (reg_read dev _ d1) as [v d']. rewrite bit31_testbit. destruct H as (Ht' & H).
      destruct (Z.testbit v 31); cbn [negb]; [destruct H; done|]. destruct H as (? & ? & ?). split_and!; congruence. }
    rewrite (mbind_ok _ _ _ _ _ Hw), (low_byte _ _ Hv). eexists. split; [reflexivity|done].
Qed.

Lemma uart_putc_ok d c : uart_idle d ->
  exists d', uart_putc dev plat fuel c d = Ok (tt, d') /\ uart_idle d' /\ uart_rx d' = uart_rx d /\
    uart_tx d' = uart_tx d ++ [c].
Proof using Hfuel.
  intros Hd. pose proof (uart_output d Hd) as Hs. unfold uart_putc. case_decide as Hp.
  - destruct (uart_poll uart_sends (fun _ d' =>
        let d'' := reg_write dev (UART_BASE plat + LITEX_UART_EVPEND) 1 (reg_write dev (UART_BASE plat + 0) (byte.unsigned c) d') in
        uart_idle d'' /\ uart_rx d'' = uart_rx d /\ uart_tx d'' = uart_tx d ++ [c])
      LITEX_UART_TXFULL (fun v => v =? 0) d Hs) as (v & d1 & Hw & H).
    { intros n d1 Hn Hr Ht. pose proof (litex_txfull Hp n d1 Hn) as H. destruct (reg_read dev _ d1) as [v d'].
      destruct H as (Hr' & Ht' & H). destruct (v =? 0); [|done]. rewrite <- Hr, <- Ht. apply H. }
    rewrite (mbind_ok _ _ _ _ _ Hw). eexists. split; [reflexivity|exact H].
  - apply not_arty in Hp as Hq.
    destruct (uart_poll uart_sends (fun _ d' =>
        let d'' := reg_write dev (UART_BASE plat + SIFIVE_UART_TXDATA) (byte.unsigned c) d' in
        uart_idle d'' /\ uart_rx d'' = uart_rx d /\ uart_tx d'' = uart_tx d ++ [c])
      SIFIVE_UART_TXDATA (fun v => negb (bit31 v)) d Hs) as (v & d1 & Hw & H).
    { intros n d1 Hn Hr Ht. pose proof (sifive_txdata Hq n d1 Hn) as H. destruct (reg_read dev _ d1) as [v d'].
      rewrite bit31_testbit. destruct H as (Hr' & Ht' & H). destruct (Z.testbit v 31); cbn [negb]; [done|].
      rewrite <- Hr, <- Ht. apply H. }
    rewrite (mbind_ok _ _ _ _ _ Hw). eexists. split; [reflexivity|exact H].
Qed.

Definition uart_tty_spec : TtySpec (tty_init dev plat fuel) :=
  Build_TtySpec D (tty_init dev plat fuel) uart_idle uart_rx uart_tx uart_getc_ok uart_putc_ok.
End spec.

(** ** A simulated UART *)
Record uart : Type := {
  u_rx : list byte;
  u_tx : list byte;
}.

(** The character that waits, as the receive registers show it. *)
Definition head_word (l : list byte) : Z := match l with c :: _ => byte.unsigned c | [] => 0 end.

Definition sim_read (plat : platform) (a : Z) (u : uart) : Z * uart :=
  let o := a - UART_BASE plat in
  if decide (plat = ARTY) then
    (if o =? LITEX_UART_RXEMPTY then (if decide (u_rx u = []) then 1 else 0)
     else if o =? 0 then head_word (u_rx u) else 0, u)
  else if o =? SIFIVE_UART_RXDATA then
    (if decide (u_rx u = []) then 0x80000000 else head_word (u_rx u), {| u_rx := tail (u_rx u); u_tx := u_tx u |})
  else (if o =? SIFIVE_UART_IP then (if decide (u_rx u = []) then 0 else 2) else 0, u).

Definition sim_write (plat : platform) (a v : Z) (u : uart) : uart :=
  let o := a - UART_BASE plat in
  if o =? 0 then {| u_rx := u_rx u; u_tx := u_tx u ++ [byte.of_Z v] |}
  else if decide (plat = ARTY /\ o = LITEX_UART_EVPEND /\ v = 2) then {| u_rx := tail (u_rx u); u_tx := u_tx u |}
  else u.

Definition sim_uart (plat : platform) : mmio uart := {| reg_read := sim_read plat; reg_write := sim_write plat |}.

#[export, program] Instance sim_uart_spec (plat : platform) : UartSpec (sim_uart plat) plat 0 := {|
  uart_idle := fun _ => True;
  uart_rx := u_rx;
  uart_tx := u_tx;
  uart_awaits := fun _ u => u_rx u <> [];
  uart_ready := fun _ => True;
  uart_sends := fun _ _ => True;
|}.
Next Obligation. done. Qed.
Next Obligation. done. Qed.
Next Obligation. intros plat -> n [[|c r] tx] H; [done|]. by split_and!. Qed.
Next Obligation. intros plat -> [rx tx] c r _ H. cbn in H. subst rx. split; [apply byte_mod|done]. Qed.
Next Obligation.
  intros plat -> n [rx tx] _. split_and!; [done..|]. intros c. split_and!; [done..|].
  change (tx ++ [byte.of_Z (byte.unsigned c)] = tx ++ [c]). by rewrite byte.of_Z_unsigned.
Qed.
Next Obligation.
  intros plat -> n [rx tx] c r _ H. cbn in H. subst rx.
  change (tx = tx /\ if Z.testbit (byte.unsigned c) 31
    then r = c :: r /\ exists n', n = S n' /\ r <> []
    else byte.unsigned c mod 256 = byte.unsigned c /\ True /\ r = r).
  rewrite byte_bit31. by split_and!; [|apply byte_mod|..].
Qed.
Next Obligation.
  intros plat -> n [rx tx] _. split_and!; [done..|]. intros c. split_and!; [done..|].
  change (tx ++ [byte.of_Z (byte.unsigned c)] = tx ++ [c]). by rewrite byte.of_Z_unsigned.
Qed.
