(* ===== verification/Terminal.v ===== *)
(** * The terminal server

    [term_read] and [term_write] of [library/syscall/servers.c] as the kernel and
    the system servers use them, the server of [apps/system/sys_terminal.c], and
    the client side of both functions.  They are proved against [TtySpec], which
    the driver of the file [Tty] satisfies. *)

From stdpp Require Import pretty options.
From coqutil Require Import Byte.
From S2P Require Import Prelude CString Earth Disk DiskSpec Tty.

(** ** servers.h *)
Definition TERM_BUF_SIZE : Z := 512.
Definition TERM_INPUT : Z := 0.
Definition TERM_OUTPUT : Z := 1.
(** [sizeof(struct term_reply)]: a word and the buffer. *)
Definition sizeof_term_reply : nat := Z.to_nat (4 + TERM_BUF_SIZE).

(** [buf[i] = c]; outside the buffer it is undefined. *)
Definition store (buf : list byte) (i : Z) (c : byte) : option (list byte) :=
  if (0 <=? i) && (i <? Z.of_nat (length buf)) then Some (<[Z.to_nat i := c]> buf) else None.

Definition CR : byte := Byte.x0d.
Definition DEL : byte := Byte.x7f.
(** ["\n\r"] and ["\b \b"] *)
Definition newline : list byte := [Byte.x0a; Byte.x0d].
Definition rubout : list byte := [Byte.x08; SPC; Byte.x08].

Section Terminal.
Context {S : Type} (t : tty S).

(** ** servers.c, with [KERNEL] *)

(** [for (i < len) earth->tty_write(str[i]);] *)
Fixpoint term_write (str : list byte) (len : nat) {struct len} : M S unit :=
  match len with
  | O => mret tt
  | Datatypes.S len =>
    match str with
    | c :: str => tty_write t c;; term_write str len
    | [] => mstuck
    end
  end.

(** The loop of [term_read] from [i]; [fuel] bounds the number of characters. *)
Fixpoint term_read_loop (fuel : nat) (i : Z) (buf : list byte) (len : Z) : M S (Z * list byte) :=
  if u32 i <? u32 (len - 1) then
    match fuel with
    | O => mnofuel
    | Datatypes.S fuel =>
      c ← tty_read t;
      buf ← mopt (store buf i c);
      if bool_decide (c = CR) then
        buf ← mopt (store buf i NUL);
        term_write newline 2;;
        mret (if i =? 0 then 0 else i + 1, buf)
      else if bool_decide (c = DEL) then
        (if negb (i =? 0) then term_write rubout 3 else mret tt);;
        let i := if negb (i =? 0) then i - 2 else i - 1 in
        term_read_loop fuel (i + 1) buf len
      else
        (if negb (bool_decide (c = NUL)) then term_write [c] 1 else mret tt);;
        term_read_loop fuel (i + 1) buf len
    end
  else
    buf ← mopt (store buf (u32 (len - 1)) NUL);
    mret (i32 len, buf).

Definition term_read (fuel : nat) (buf : list byte) (len : Z) : M S (Z * list byte) :=
  term_read_loop fuel 0 buf len.

(** ** sys_terminal.c *)

(** One round of the server's loop after [sys_recv]: the message it sends, if
    any.  [req->len] and [reply->buf] are at the same place. *)
Definition handle_term_request (fuel : nat) (sender : Z) (buf : list byte) :
    M S (option (Z * list byte)) :=
  let len := get32 buf 1 in
  if TERM_BUF_SIZE <? len then
    mfatal ("sys_terminal: request len " +:+ pretty (i32 len) +:+ ">TERM_BUF_SIZE")
  else if get32 buf 0 =? TERM_INPUT then
    '(r, b) ← term_read fuel (drop 4 buf) len;
    let buf := put32 (take 4 buf ++ b) 0 r in
    mret (Some (sender, take sizeof_term_reply buf))
  else if get32 buf 0 =? TERM_OUTPUT then
    term_write (drop 8 buf) (Z.to_nat len);;
    mret None
  else mfatal ("sys_terminal: invalid request " +:+ pretty (i32 (get32 buf 0))).
End Terminal.

(** ** servers.c, for applications *)

(** The request of [term_read]; its buffer is not initialised. *)
Definition term_read_request (len : Z) (junk : list byte) : list byte :=
  le_split 4 TERM_INPUT ++ le_split 4 len ++ junk.
(** [memcpy(buf, reply.buf, reply.len); return reply.len;]: the result and the
    bytes for the caller's buffer. *)
Definition term_read_result (reply : list byte) : outcome (Z * list byte) :=
  let len := get32 reply 0 in
  if len <=? TERM_BUF_SIZE then Ok (i32 len, take (Z.to_nat len) (drop 4 reply)) else Stuck.
(** The request of [term_write]: the string, then what the buffer held. *)
Definition term_write_request (str : list byte) (len : Z) (junk : list byte) : outcome (list byte) :=
  if (len <=? TERM_BUF_SIZE) && (len <=? Z.of_nat (length str)) then
    Ok (le_split 4 TERM_OUTPUT ++ le_split 4 len ++ take (Z.to_nat len) str ++ drop (Z.to_nat len) junk)
  else Stuck.

(** ** Line editing *)

(** A key other than Enter: the new line, and what is printed. *)
Definition press (line : list byte) (c : byte) : list byte * list byte :=
  if decide (c = DEL) then (removelast line, if decide (line = []) then [] else rubout)
  else (line ++ [c], if decide (c = NUL) then [] else [c]).

(** [edit room line keys]: a user who has [line] on the screen types [keys]; at
    most [room] characters fit.  The result is the line, the keys not used, and
    what is printed; nothing if the line is not finished. *)
Fixpoint edit (room : nat) (line keys : list byte) : option (list byte * list byte * list byte) :=
  if decide (length line = room) then Some (line, keys, []) else
  match keys with
  | [] => None
  | c :: keys =>
    if decide (c = CR) then Some (line, keys, newline)
    else
      let '(line', out) := press line c in
      (fun '(l, k, o) => (l, k, out ++ o)) <$> edit room line' keys
  end.

(** What [term_read] returns for a line: its length with the null character, and
    0 for an empty one. *)
Definition line_result (line : list byte) : Z :=
  if decide (line = []) then 0 else Z.of_nat (length line) + 1.

Section spec.
Context {S : Type} (t : tty S) `{!TtySpec t}.

Lemma term_write_ok str rest s : tty_inv s ->
  exists s', term_write t (str ++ rest) (length str) s = Ok (tt, s') /\ tty_inv s' /\
    typed s' = typed s /\ printed s' = printed s ++ str.
Proof using Type.
  revert s. induction str as [|c str IH]; intros s Hs; cbn [length term_write app].
  { exists s. split_and!; [done..|by rewrite app_nil_r]. }
  destruct (tty_write_spec s c Hs) as (s1 & H1 & Hs1 & Ht1 & Hp1).
  destruct (IH s1 Hs1) as (s2 & H2 & Hs2 & Ht2 & Hp2). exists s2. rewrite (mbind_ok _ _ _ _ _ H1).
  split_and!; [done|done|congruence|]. by rewrite Hp2, Hp1, <- app_assoc.
Qed.

Lemma term_write_if (b : bool) str n s : tty_inv s -> n = length str ->
  exists s', (if b then term_write t str n else mret tt) s = Ok (tt, s') /\ tty_inv s' /\
    typed s' = typed s /\ printed s' = printed s ++ (if b then str else []).
Proof using Type.
  intros Hs ->. destruct b.
  - pose proof (term_write_ok str [] s Hs) as H. by rewrite app_nil_r in H.
  - exists s. split_and!; [done..|by rewrite app_nil_r].
Qed.

Lemma store_ok buf i c : (i < length buf)%nat -> store buf (Z.of_nat i) c = Some (<[i := c]> buf).
Proof using Type.
  intros Hi. unfold store. rewrite (proj2 (Z.leb_le 0 (Z.of_nat i))) by lia.
  rewrite (proj2 (Z.ltb_lt (Z.of_nat i) _)) by lia. cbn. by rewrite Nat2Z.id.
Qed.

Lemma take_insert_snoc {A} (l : list A) i c : (i < length l)%nat -> take (Datatypes.S i) (<[i := c]> l) = take i l ++ [c].
Proof using Type.
  intros Hi. rewrite (take_S_r _ _ c) by (by apply list_lookup_insert_eq). by rewrite take_insert_ge.
Qed.

(** The loop ends when the line is full. *)
Lemma term_read_loop_full fuel len line buf s :
  2 <= len < 2 ^ 31 -> len <= Z.of_nat (length buf) -> Z.of_nat (length line) = len - 1 ->
  take (length line) buf = line ->
  exists buf', term_read_loop t fuel (Z.of_nat (length line)) buf len s = Ok ((line_result line, buf'), s) /\
    length buf' = length buf /\ take (length line + 1) buf' = line ++ [NUL].
Proof using Type.
  intros Hlen Hbuf Hline Htake. exists (<[length line := NUL]> buf). split; [|split; [apply length_insert|]].
  - assert (term_read_loop t fuel (Z.of_nat (length line)) buf len =
      (buf ← mopt (store buf (u32 (len - 1)) NUL); mret (i32 len, buf))) as ->.
    { destruct fuel; cbn [term_read_loop]; rewrite Hline, Z.ltb_irrefl; done. }
    rewrite u32_id by lia. rewrite <- Hline, store_ok by lia. unfold line_result.
    rewrite decide_False by (intros ->; cbn in Hline; lia). rewrite i32_id by lia.
    by replace (Z.of_nat (length line) + 1) with len by lia.
  - rewrite Nat.add_1_r, take_insert_snoc by lia. by rewrite Htake.
Qed.

Lemma line_nil (line : list byte) : (Z.of_nat (length line) =? 0) = bool_decide (line = []).
Proof using Type. destruct line; [done|]. rewrite bool_decide_false by done. apply Z.eqb_neq. cbn. lia. Qed.

(** One key of the loop. *)
Lemma term_read_key fuel len line c buf s : tty_inv s -> take (length line + 1) buf = line ++ [c] ->
  let '(line', out) := press line c in
  exists s', tty_inv s' /\ typed s' = typed s /\ printed s' = printed s ++ out /\
    take (length line') buf = line' /\ (length line' <= length line + 1)%nat /\
    (if bool_decide (c = DEL) then
        (if negb (Z.of_nat (length line) =? 0) then term_write t rubout 3 else mret tt);;
        let i := if negb (Z.of_nat (length line) =? 0) then Z.of_nat (length line) - 2 else Z.of_nat (length line) - 1 in
        term_read_loop t fuel (i + 1) buf len
      else
        (if negb (bool_decide (c = NUL)) then term_write t [c] 1 else mret tt);;
        term_read_loop t fuel (Z.of_nat (length line) + 1) buf len) s =
    term_read_loop t fuel (Z.of_nat (length line')) buf len s'.
Proof using Type.
  intros Hs Hbuf. unfold press. rewrite line_nil. destruct (decide (c = DEL)) as [->|Hdel].
  - rewrite bool_decide_true by done.
    destruct (term_write_if (negb (bool_decide (line = []))) rubout 3 s Hs eq_refl) as (s' & H & Hs' & Ht & Hp).
    exists s'. rewrite (mbind_ok _ _ _ _ _ H). cbv zeta.
    destruct line as [|x line0 _] using rev_ind.
    { split_and!; [done|done|done|done|cbn; lia|done]. }
    rewrite bool_decide_false in * by (by destruct line0). rewrite decide_False by (by destruct line0). cbn [negb] in *.
    rewrite removelast_last, length_app in *. cbn [length] in *. split_and!; [done|done|done| |lia|].
    + apply (f_equal (take (length line0))) in Hbuf. rewrite take_take, <- app_assoc, take_app_length in Hbuf.
      by replace (length line0 `min` (length line0 + 1 + 1))%nat with (length line0) in Hbuf by lia.
    + by replace (Z.of_nat (length line0 + 1) - 2 + 1) with (Z.of_nat (length line0)) by lia.
  - rewrite (bool_decide_false (c = DEL)) by done.
    destruct (term_write_if (negb (bool_decide (c = NUL))) [c] 1 s Hs eq_refl) as (s' & H & Hs' & Ht & Hp).
    exists s'. rewrite (mbind_ok _ _ _ _ _ H). rewrite length_app. cbn [length].
    split_and!; [done|done| |done|lia|by rewrite Nat2Z.inj_add].
    rewrite Hp. by case_decide; case_bool_decide.
Qed.

(** The loop is the line editor: [i] is the length of the line, which is at the
    start of the buffer. *)
Lemma term_read_loop_edit fuel len line keys buf s line' rest out :
  2 <= len < 2 ^ 31 -> len <= Z.of_nat (length buf) -> Z.of_nat (length line) < len ->
  take (length line) buf = line -> tty_inv s -> typed s = keys -> (length keys <= fuel)%nat ->
  edit (Z.to_nat (len - 1)) line keys = Some (line', rest, out) ->
  exists s' buf', term_read_loop t fuel (Z.of_nat (length line)) buf len s = Ok ((line_result line', buf'), s') /\
    tty_inv s' /\ typed s' = rest /\ printed s' = printed s ++ out /\
    length buf' = length buf /\ take (length line' + 1) buf' = line' ++ [NUL].
Proof using Type.
  intros Hlen Hbuf. revert fuel line buf s out Hbuf.
  induction keys as [|c keys IH]; intros fuel line buf s out Hbuf Hline Htake Hs Hkeys Hfuel Hedit;
    cbn [edit] in Hedit; destruct (decide (length line = Z.to_nat (len - 1))) as [Hfull|Hroom];
    try (injection Hedit as <- <- <-; rewrite app_nil_r;
         destruct (term_read_loop_full fuel len line buf s) as (buf' & Hr & Hl & Ht); [lia|done|lia|done|];
         by exists s, buf').
  { done. }
  destruct fuel as [|fuel]; [cbn in Hfuel; lia|]. cbn [term_read_loop].
  rewrite (proj2 (Z.ltb_lt _ _)) by (rewrite !u32_id by lia; lia).
  destruct (tty_read_spec s c keys Hs Hkeys) as (s1 & H1 & Hs1 & Ht1 & Hp1). rewrite (mbind_ok _ _ _ _ _ H1).
  rewrite store_ok by lia. set (buf1 := <[length line := c]> buf).
  assert (length buf1 = length buf) as Hb1 by apply length_insert.
  change (mopt (Some buf1)) with (mret (M := M S) buf1). rewrite (mbind_ok _ _ s1 buf1 s1) by done.
  destruct (decide (c = CR)) as [->|Hcr].
  { injection Hedit as <- <- <-. rewrite bool_decide_true by done. rewrite store_ok by lia.
    set (buf2 := <[length line := NUL]> buf1).
    change (mopt (Some buf2)) with (mret (M := M S) buf2). rewrite (mbind_ok _ _ s1 buf2 s1) by done.
    destruct (term_write_ok newline [] s1 Hs1) as (s2 & H2 & Hs2 & Ht2 & Hp2).
    change (newline ++ []) with newline in H2. change (length newline) with 2%nat in H2.
    rewrite (mbind_ok _ _ _ _ _ H2). exists s2, buf2. split_and!; [|done|congruence|congruence| |].
    - unfold line_result. rewrite line_nil. by case_decide; case_bool_decide.
    - unfold buf2. by rewrite length_insert.
    - unfold buf2. rewrite Nat.add_1_r, take_insert_snoc by lia. unfold buf1. by rewrite take_insert_ge, Htake by done. }
  rewrite (bool_decide_false (c = CR)) by done.
  pose proof (term_read_key fuel len line c buf1 s1 Hs1) as Hkey.
  destruct (press line c) as [line2 out2]. destruct Hkey as (s2 & Hs2 & Ht2 & Hp2 & Htk2 & Hl2 & Hrun).
  { unfold buf1. by rewrite Nat.add_1_r, take_insert_snoc, Htake by lia. }
  apply fmap_Some in Hedit as ([[l k] o] & Hedit & [= -> -> ->]).
  destruct (IH fuel line2 buf1 s2 o ltac:(lia) ltac:(lia) Htk2 Hs2 ltac:(congruence) ltac:(cbn in Hfuel; lia) Hedit)
    as (s' & buf' & Hr & Hs' & Ht' & Hp' & Hlb & Htk).
  exists s', buf'. split_and!; [etransitivity; [exact Hrun|exact Hr]|done|done| |congruence|done].
  by rewrite Hp', Hp2, Hp1, <- app_assoc.
Qed.
End spec.

(** The edited line fits. *)
Lemma edit_fits room line keys line' rest out : (length line <= room)%nat ->
  edit room line keys = Some (line', rest, out) -> (length line' <= room)%nat.
Proof.
  revert line out. induction keys as [|c keys IH]; intros line out Hl; cbn [edit].
  { case_decide; [|done]. by intros [= <- _ _]. }
  case_decide; [by intros [= <- _ _]|]. destruct (decide (c = CR)); [by intros [= <- _ _]|].
  destruct (press line c) as [line1 out1] eqn:Hp. intros ([[l r] o] & He & [= -> -> ->])%fmap_Some.
  eapply IH; [|exact He]. unfold press in Hp. destruct (decide (c = DEL)); injection Hp as <- <-.
  - destruct line as [|x line _] using rev_ind; [cbn; lia|]. rewrite removelast_last, length_app in *. cbn in *. lia.
  - rewrite length_app. cbn. lia.
Qed.

(** ** What the user sees *)

(** A line of a screen with its cursor: backspace moves the cursor, a printable
    character replaces the cell under it. *)
Definition show (scr : list byte * nat) (c : byte) : list byte * nat :=
  let '(cells, cur) := scr in
  if decide (c = Byte.x08) then (cells, pred cur)
  else if decide (c ∈ newline) then scr
  else (take cur cells ++ [c] ++ drop (S cur) cells, S cur).

Definition printable (c : byte) : Prop := 32 <= byte.unsigned c < 127.
(** The keys of a user who types text, Enter and Backspace. *)
Definition text_key (c : byte) : Prop := printable c \/ c = CR \/ c = DEL.

Definition blanks (k : nat) : list byte := replicate k SPC.

Lemma show_char line k c : printable c ->
  show (line ++ blanks k, length line) c = ((line ++ [c]) ++ blanks (k - 1), length (line ++ [c])).
Proof.
  intros Hc. unfold printable in Hc. unfold show. rewrite !decide_False.
  - rewrite take_app_length, length_app. cbn [length]. f_equal; [|lia]. rewrite <- app_assoc. f_equal. f_equal.
    rewrite drop_app_ge by lia. unfold blanks. rewrite drop_replicate. f_equal. lia.
  - unfold newline. rewrite !elem_of_cons, elem_of_nil. intros [->|[->|[]]]; cbn in Hc; lia.
  - intros ->. cbn in Hc. lia.
Qed.

Lemma show_rubout line x k :
  fold_left show rubout ((line ++ [x]) ++ blanks k, length (line ++ [x])) = (line ++ blanks (S k), length line).
Proof.
  unfold rubout. cbn [fold_left]. unfold show at 3. rewrite decide_True by done.
  rewrite length_app, Nat.add_1_r. cbn [length pred].
  unfold show at 2. rewrite !decide_False by (done || by apply (bool_decide_unpack _)).
  unfold show. rewrite decide_True by done. cbn [pred]. f_equal.
  rewrite <- app_assoc, take_app_length. f_equal. cbn [app blanks replicate]. f_equal.
  rewrite drop_app_ge by lia. replace (S (length line) - length line)%nat with 1%nat by lia. done.
Qed.

Lemma show_press line c k : text_key c -> c <> CR -> exists k',
  fold_left show (press line c).2 (line ++ blanks k, length line) = ((press line c).1 ++ blanks k', length (press line c).1).
Proof.
  intros Hc Hcr. unfold press. destruct (decide (c = DEL)) as [->|Hdel]; cbn [fst snd].
  - destruct line as [|x line _] using rev_ind; [by exists k|].
    rewrite decide_False by (by destruct line). rewrite removelast_last. exists (S k). apply show_rubout.
  - destruct Hc as [Hc|[Hc|Hc]]; [|done..]. exists (k - 1)%nat.
    rewrite decide_False by (intros ->; destruct Hc; cbn in *; lia). cbn [fold_left]. by apply show_char.
Qed.

Lemma edit_shorter room line keys line' rest out :
  edit room line keys = Some (line', rest, out) -> (length rest <= length keys)%nat.
Proof.
  revert line out. induction keys as [|c keys IH]; intros line out; cbn [edit].
  { case_decide; [|done]. by intros [= _ <- _]. }
  case_decide; [by intros [= _ <- _]|]. case_decide; [intros [= _ <- _]; cbn; lia|].
  destruct (press line c) as [l o]. destruct (edit room l keys) as [[[l' k] o']|] eqn:He; [|done].
  intros [= -> <- _]. apply IH in He. cbn. lia.
Qed.

(** The line on the screen is the line that [term_read] returns. *)
Lemma edit_shows room line keys line' rest out k : Forall text_key keys ->
  edit room line keys = Some (line', rest, out) ->
  exists k', fold_left show out (line ++ blanks k, length line) = (line' ++ blanks k', length line').
Proof.
  intros Hkeys. revert line out k. induction Hkeys as [|c keys Hc Hkeys IH]; intros line out k; cbn [edit].
  { case_decide; [|done]. intros [= <- <- <-]. by exists k. }
  case_decide; [intros [= <- <- <-]; by exists k|].
  destruct (decide (c = CR)) as [->|Hcr].
  { intros [= <- <- <-]. exists k. done. }
  pose proof (show_press line c k Hc Hcr) as [k1 H1]. destruct (press line c) as [line1 out1]. cbn [fst snd] in H1.
  intros ([[l r] o] & He & [= -> -> ->])%fmap_Some. rewrite fold_left_app, H1. by eapply IH.
Qed.

(** ** Messages *)
Lemma term_request_words ty len r : 0 <= ty < 2 ^ 32 -> 0 <= len < 2 ^ 32 ->
  get32 (le_split 4 ty ++ le_split 4 len ++ r) 0 = ty /\ get32 (le_split 4 ty ++ le_split 4 len ++ r) 1 = len /\
  drop 8 (le_split 4 ty ++ le_split 4 len ++ r) = r.
Proof.
  intros Hty Hlen. split_and!.
  - rewrite get32_head. by apply u32_id.
  - rewrite (get32_app (le_split 4 ty)) by apply length_le_split. by apply u32_id.
  - rewrite app_assoc. apply drop_app_length'. by rewrite length_app, !length_le_split.
Qed.

(** The reply that the client sees. *)
Lemma term_reply_result pre b r stale line : length pre = 4%nat -> (TERM_BUF_SIZE <= Z.of_nat (length b)) ->
  r = line_result line -> r <= TERM_BUF_SIZE -> take (length line + 1) b = line ++ [NUL] ->
  term_read_result (take sizeof_term_reply (put32 (pre ++ b) 0 r) ++ stale) =
    Ok (r, if decide (line = []) then [] else line ++ [NUL]).
Proof.
  unfold TERM_BUF_SIZE. intros Hpre Hb Hr Hle Hline.
  assert (0 <= r) as Hr0 by (subst r; unfold line_result; case_decide; lia).
  rewrite put32_head by done.
  change sizeof_term_reply with (4 + 512)%nat. rewrite <- (length_le_split 4 r) at 1. rewrite take_app_add.
  unfold term_read_result. rewrite <- !app_assoc, get32_head. rewrite u32_id by lia.
  rewrite (proj2 (Z.leb_le r TERM_BUF_SIZE)) by (unfold TERM_BUF_SIZE; lia). rewrite i32_id by lia. f_equal. f_equal.
  rewrite drop_app_length' by (by rewrite length_le_split). rewrite take_app_le by (rewrite length_take; lia).
  rewrite take_take. replace (Z.to_nat r `min` 512)%nat with (Z.to_nat r) by lia. subst r. unfold line_result.
  case_decide; [done|]. replace (Z.to_nat (Z.of_nat (length line) + 1)) with (length line + 1)%nat by lia. done.
Qed.

(** The request of a client's [term_write] prints the string. *)
Lemma term_write_served {S : Type} (t : tty S) `{!TtySpec t} (fuel : nat) (s : S) (sender len : Z) (junk rest str : list byte) :
  tty_inv s -> 0 <= len <= TERM_BUF_SIZE -> len <= Z.of_nat (length str) ->
  exists req s', term_write_request str len junk = Ok req /\
    handle_term_request t fuel sender (req ++ rest) s = Ok (None, s') /\
    tty_inv s' /\ typed s' = typed s /\ printed s' = printed s ++ take (Z.to_nat len) str.
Proof.
  intros Hs Hlen Hstr. unfold TERM_BUF_SIZE in *. unfold term_write_request.
  rewrite (proj2 (Z.leb_le len TERM_BUF_SIZE)) by (unfold TERM_BUF_SIZE; lia).
  rewrite (proj2 (Z.leb_le len (Z.of_nat (length str)))) by lia. cbn [andb].
  destruct (term_write_ok t (take (Z.to_nat len) str) (drop (Z.to_nat len) junk ++ rest) s Hs) as (s' & Hr & Hs' & Ht & Hp).
  eexists _, s'. split; [done|]. split; [|done]. unfold handle_term_request. rewrite <- !app_assoc.
  destruct (term_request_words TERM_OUTPUT len (take (Z.to_nat len) str ++ drop (Z.to_nat len) junk ++ rest)) as (-> & -> & ->);
    [done|lia|]. rewrite (proj2 (Z.ltb_ge TERM_BUF_SIZE len)) by (unfold TERM_BUF_SIZE; lia).
  change (TERM_OUTPUT =? TERM_INPUT) with false. rewrite Z.eqb_refl.
  rewrite length_take in Hr. replace (Z.to_nat len `min` length str)%nat with (Z.to_nat len) in Hr by lia.
  by rewrite (mbind_ok _ _ _ _ _ Hr).
Qed.

(** C25: line editing.  [term_read] into a buffer of [len] characters, at least two,
    is the line editor: when the keys to come finish a line, it uses exactly these keys,
    returns the length of the line with its null character (0 for an empty
    line), has the line in the buffer, and has echoed it; if the user types
    text, the screen shows that line. *)
Theorem term_read_correct {S : Type} (t : tty S) `{!TtySpec t} (fuel : nat) (s : S) (buf : list byte) (len : Z)
    (line rest out : list byte) :
  tty_inv s -> 2 <= len < 2 ^ 31 -> len <= Z.of_nat (length buf) -> (length (typed s) <= fuel)%nat ->
  edit (Z.to_nat (len - 1)) [] (typed s) = Some (line, rest, out) ->
  exists s' buf', term_read t fuel buf len s = Ok ((line_result line, buf'), s') /\
    tty_inv s' /\ typed s' = rest /\ printed s' = printed s ++ out /\
    length buf' = length buf /\ take (length line + 1) buf' = line ++ [NUL] /\
    (Forall text_key (typed s) -> exists k, fold_left show out ([], 0%nat) = (line ++ blanks k, length line)).
Proof.
  intros Hs Hlen Hbuf Hfuel Hedit.
  destruct (term_read_loop_edit t fuel len [] (typed s) buf s line rest out Hlen Hbuf ltac:(cbn; lia) eq_refl Hs eq_refl Hfuel Hedit)
    as (s' & buf' & Hr & Hs' & Ht & Hp & Hl & Htk).
  exists s', buf'. split_and!; [exact Hr|done..|]. intros Hkeys. by apply (edit_shows _ _ _ _ _ _ 0 Hkeys Hedit).
Qed.

(** The request of a client's [term_read] is answered with the edited line. *)
Lemma term_read_served {S : Type} (t : tty S) `{!TtySpec t} (fuel : nat) (s : S) (sender len : Z) (junk rest line keys out : list byte) :
  tty_inv s -> 2 <= len <= TERM_BUF_SIZE -> Z.of_nat (length junk) = TERM_BUF_SIZE -> (length (typed s) <= fuel)%nat ->
  edit (Z.to_nat (len - 1)) [] (typed s) = Some (line, keys, out) ->
  exists s' msg, handle_term_request t fuel sender (term_read_request len junk ++ rest) s = Ok (Some (sender, msg), s') /\
    tty_inv s' /\ typed s' = keys /\ printed s' = printed s ++ out /\
    forall stale, term_read_result (msg ++ stale) =
      Ok (line_result line, if decide (line = []) then [] else line ++ [NUL]).
Proof.
  intros Hs Hlen Hjunk Hfuel Hedit. unfold TERM_BUF_SIZE in *. unfold handle_term_request, term_read_request. rewrite <- !app_assoc.
  destruct (term_request_words TERM_INPUT len (junk ++ rest)) as (Hw0 & Hw1 & _); [done|lia|]. rewrite Hw0, Hw1.
  rewrite (proj2 (Z.ltb_ge TERM_BUF_SIZE len)) by (unfold TERM_BUF_SIZE; lia). rewrite Z.eqb_refl.
  rewrite drop_app_length' by (by rewrite length_le_split). rewrite take_app_length' by (by rewrite length_le_split).
  set (buf := le_split 4 len ++ junk ++ rest).
  assert (516 <= Z.of_nat (length buf)) as Hb by (unfold buf; rewrite !length_app, length_le_split; lia).
  destruct (term_read_loop_edit t fuel len [] (typed s) buf s line keys out ltac:(lia) ltac:(lia) ltac:(cbn; lia) eq_refl Hs eq_refl Hfuel Hedit)
    as (s' & buf' & Hr & Hs' & Ht & Hp & Hl & Htk).
  exists s'. eexists. split; [by rewrite (mbind_ok _ _ _ _ _ Hr)|]. split_and!; [done..|]. intros stale.
  assert (Z.of_nat (length line) < len) as Hll by (eapply edit_fits in Hedit; cbn in *; lia).
  apply term_reply_result; [apply length_le_split|unfold TERM_BUF_SIZE; lia|done| |done].
  unfold line_result, TERM_BUF_SIZE. case_decide; lia.
Qed.

(** C26: the terminal through its server.  The server answers the request of a
    client's [term_read] with a message to the sender from which the client gets
    the edited line; the request of a client's [term_write] prints the string. *)
Theorem term_served {S : Type} (t : tty S) `{!TtySpec t} (fuel : nat) (s : S) (sender len : Z) (junk rest : list byte) :
  tty_inv s -> 0 <= len <= TERM_BUF_SIZE -> Z.of_nat (length junk) = TERM_BUF_SIZE ->
  (forall line keys out, 2 <= len -> (length (typed s) <= fuel)%nat ->
     edit (Z.to_nat (len - 1)) [] (typed s) = Some (line, keys, out) ->
     exists s' msg, handle_term_request t fuel sender (term_read_request len junk ++ rest) s = Ok (Some (sender, msg), s') /\
       tty_inv s' /\ typed s' = keys /\ printed s' = printed s ++ out /\
       forall stale, term_read_result (msg ++ stale) =
         Ok (line_result line, if decide (line = []) then [] else line ++ [NUL])) /\
  (forall str, len <= Z.of_nat (length str) ->
     exists req s', term_write_request str len junk = Ok req /\
       handle_term_request t fuel sender (req ++ rest) s = Ok (None, s') /\
       tty_inv s' /\ typed s' = typed s /\ printed s' = printed s ++ take (Z.to_nat len) str).
Proof.
  intros Hs Hlen Hjunk. unfold TERM_BUF_SIZE in *. split.
  - intros line keys out Hlen2 Hfuel Hedit. apply (term_read_served t fuel s sender len); [done|unfold TERM_BUF_SIZE; lia|done..].
  - intros str Hstr. by apply term_write_served.
Qed.

(** ** A user who types, corrects and enters [ls] *)
Definition t_uart : uart := {| u_rx := lit "lx" ++ [DEL] ++ lit "s" ++ [CR]; u_tx := [] |}.
Definition t_tty (plat : platform) : tty uart := tty_init (sim_uart plat) plat 1.
Definition t_spec (plat : platform) : TtySpec (t_tty plat) :=
  uart_tty_spec (sim_uart plat) plat 0 1 (Nat.lt_0_succ 0).

Lemma term_read_correct_witness : exists s' buf',
  term_read (t_tty ARTY) 5 (zeros 16) 16 t_uart = Ok ((3, buf'), s') /\ take 3 buf' = lit "ls" ++ [NUL] /\
  u_tx s' = lit "lx" ++ rubout ++ lit "s" ++ newline.
Proof.
  destruct (@term_read_correct uart (t_tty ARTY) (t_spec ARTY) 5 t_uart (zeros 16) 16 (lit "ls") []
    (lit "lx" ++ rubout ++ lit "s" ++ newline)) as (s' & buf' & Hr & _ & _ & Hp & _ & Ht & _).
  - exact I.
  - lia.
  - rewrite length_zeros. lia.
  - cbn. lia.
  - vm_compute. reflexivity.
  - exists s', buf'. split; [exact Hr|]. split; [exact Ht|exact Hp].
Defined.

Lemma term_served_witness : exists s' msg,
  handle_term_request (t_tty QEMU) 5 7 (term_read_request 512 (zeros 512) ++ zeros 504) t_uart = Ok (Some (7, msg), s') /\
  term_read_result (msg ++ []) = Ok (3, lit "ls" ++ [NUL]).
Proof.
  destruct (@term_served uart (t_tty QEMU) (t_spec QEMU) 5 t_uart 7 512 (zeros 512) (zeros 504)) as [Hread _].
  - exact I.
  - unfold TERM_BUF_SIZE. lia.
  - reflexivity.
  - destruct (Hread (lit "ls") [] (lit "lx" ++ rubout ++ lit "s" ++ newline)) as (s' & msg & Hr & _ & _ & _ & Hres).
    + lia.
    + cbn. lia.
    + vm_compute. reflexivity.
    + exists s', msg. split; [exact Hr|]. exact (Hres []).
Defined.

(** With [len = 0] the bound [len - 1] is the largest number: the loop writes past
    the end of the buffer. *)
Lemma term_read_len_zero :
  term_read (t_tty QEMU) 5 (zeros 4) 0 {| u_rx := lit "hello"; u_tx := [] |} = Stuck.
Proof. vm_compute. reflexivity. Qed.
