(* ===== verification/Print.v ===== *)
(** * Formatted printing

    [library/libc/print.c]: [format_to_str] on a bounded buffer, and the log
    functions around it.  They print through [term_write], for which the class
    [TermWriter] states what they rely on; the function of the kernel and that
    of the applications, through the terminal server, are its instances. *)

From stdpp Require Import options.
From coqutil Require Import Byte.
From S2P Require Import Prelude CString Earth Tty Terminal.

(** ** print.c *)

(** What [va_arg] finds: a pointer or an [int]. *)
Inductive arg : Type :=
| AStr (p : list byte)
| AInt (v : Z).

Definition PCT : byte := Byte.x25.

(** The loop of [format_to_str] from the pointer [fmt].  After the last
    character of a format that ends in [%], the loop steps over the null
    character as well. *)
Fixpoint format_loop (fmt : list byte) (args : list arg) (out : list byte) : outcome (list byte) :=
  match fmt with
  | [] => Stuck
  | c :: fmt =>
    if bool_decide (c = NUL) then Ok out
    else if negb (bool_decide (c = PCT)) then
      match strcat out [c] with Ok out => format_loop fmt args out | _ => Stuck end
    else
      match fmt with
      | [] => Stuck
      | d :: fmt =>
        if bool_decide (d = Byte.x73) then
          match args with
          | AStr p :: args =>
            match cstr p with
            | Ok s => match strcat out s with Ok out => format_loop fmt args out | _ => Stuck end
            | _ => Stuck
            end
          | _ => Stuck
          end
        else if bool_decide (d = Byte.x64) then
          match args with
          | AInt v :: args => match strcat out (itoa v 10) with Ok out => format_loop fmt args out | _ => Stuck end
          | _ => Stuck
          end
        else if bool_decide (d = Byte.x78) then
          match args with
          | AInt v :: args => match strcat out (itoa v 16) with Ok out => format_loop fmt args out | _ => Stuck end
          | _ => Stuck
          end
        else format_loop fmt args out
      end
  end.

Definition format_to_str (out fmt : list byte) (args : list arg) : outcome (list byte) :=
  match out with
  | [] => Stuck
  | _ :: out => format_loop fmt args (NUL :: out)
  end.

(** The macro [LOG]: the buffer at its end; [junk] is what its 512 bytes hold at
    first. *)
Definition log_buf (prefix suffix fmt : list byte) (args : list arg) (junk : list byte) : outcome (list byte) :=
  match strcpy junk prefix with
  | Ok buf =>
    match format_to_str (drop (length prefix) buf) fmt args with
    | Ok out => strcat (take (length prefix) buf ++ out) suffix
    | _ => Stuck
    end
  | _ => Stuck
  end.

Definition INFO_PREFIX : list byte := lit "[INFO] ".
Definition FATAL_PREFIX : list byte := Byte.x1b :: lit "[1;31m[FATAL] ".
Definition SUCCESS_PREFIX : list byte := Byte.x1b :: lit "[1;32m[SUCCESS] ".
Definition CRITICAL_PREFIX : list byte := Byte.x1b :: lit "[1;33m[CRITICAL] ".
Definition COLOR_SUFFIX : list byte := Byte.x1b :: lit "[1;0m" ++ newline.

Section Log.
Context {S : Type} (term_write : list byte -> nat -> M S unit) (junk : list byte).

Definition LOG (prefix suffix fmt : list byte) (args : list arg) : M S unit :=
  buf ← mlift (log_buf prefix suffix fmt args junk);
  n ← mopt (strlen buf);
  term_write buf n.

Definition my_printf (format : list byte) (args : list arg) : M S unit := LOG [] [] format args.
Definition INFO (format : list byte) (args : list arg) : M S unit := LOG INFO_PREFIX newline format args.
(** The loop that follows never ends. *)
Definition FATAL (format : list byte) (args : list arg) : M S unit :=
  LOG FATAL_PREFIX COLOR_SUFFIX format args;; mfatal "FATAL".
Definition SUCCESS (format : list byte) (args : list arg) : M S unit :=
  LOG SUCCESS_PREFIX COLOR_SUFFIX format args.
Definition CRITICAL (format : list byte) (args : list arg) : M S unit :=
  LOG CRITICAL_PREFIX COLOR_SUFFIX format args.
End Log.

(** ** What formats mean *)

(** A piece of a format with its argument. *)
Inductive piece : Type :=
| Char (c : byte)
| Str (s : list byte) (rest : list byte)
| Dec (v : Z)
| Hex (v : Z)
| Other (d : byte).

Definition piece_fmt (p : piece) : list byte :=
  match p with
  | Char c => [c]
  | Str _ _ => [PCT; Byte.x73]
  | Dec _ => [PCT; Byte.x64]
  | Hex _ => [PCT; Byte.x78]
  | Other d => [PCT; d]
  end.
(** A string is in an object in which [rest] follows its null character. *)
Definition piece_args (p : piece) : list arg :=
  match p with
  | Str s rest => [AStr (s ++ NUL :: rest)]
  | Dec v | Hex v => [AInt v]
  | Char _ | Other _ => []
  end.
(** A directive other than the three is dropped. *)
Definition piece_out (p : piece) : list byte :=
  match p with
  | Char c => [c]
  | Str s _ => s
  | Dec v => itoa v 10
  | Hex v => itoa v 16
  | Other _ => []
  end.
Definition piece_ok (p : piece) : Prop :=
  match p with
  | Char c => c <> NUL /\ c <> PCT
  | Str s _ => no_nul s
  | Dec v | Hex v => - 2 ^ 31 <= v < 2 ^ 31
  | Other d => d ∉ [NUL; Byte.x73; Byte.x64; Byte.x78]
  end.
#[global] Instance piece_ok_dec p : Decision (piece_ok p).
Proof. destruct p; unfold piece_ok, no_nul; apply _. Defined.

Definition fmt_of (ps : list piece) : list byte := ps ≫= piece_fmt.
Definition args_of (ps : list piece) : list arg := ps ≫= piece_args.
Definition render (ps : list piece) : list byte := ps ≫= piece_out.
(** A format without directives. *)
Definition text (s : string) : list piece := Char <$> lit s.

(** A message of the log. *)
Definition msg (prefix suffix : list byte) (ps : list piece) : list byte := prefix ++ render ps ++ suffix.

(** ** The buffer *)
Lemma digits_no_nul base fuel n : 1 < base <= 16 -> 0 <= n -> no_nul (digits_aux base fuel n []).
Proof.
  intros Hb Hn. unfold no_nul. intros Hin.
  pose proof (digits_forall base ltac:(lia) (fun c => c <> NUL) fuel n) as Hall. rewrite Forall_forall in Hall.
  apply (Hall) in Hin; [done| |done]. intros d Hd. unfold digit. intros Heq%(f_equal byte.unsigned).
  rewrite byte.unsigned_of_Z in Heq. unfold byte.wrap in Heq.
  destruct (Z.ltb_spec d 10); rewrite Z.mod_small in Heq by lia; cbn in Heq; lia.
Qed.

Lemma itoa_no_nul v base : no_nul (itoa v base).
Proof.
  unfold itoa. destruct (base =? 10).
  - destruct (Z.ltb_spec v 0); [|by apply digits_no_nul]. apply no_nul_cons. split; [done|]. apply digits_no_nul; lia.
  - apply digits_no_nul; [lia|]. apply u32_range.
Qed.

Lemma piece_no_nul p : piece_ok p -> no_nul (piece_out p).
Proof.
  destruct p; cbn [piece_ok piece_out]; intros H; try apply itoa_no_nul; [|done|apply not_elem_of_nil].
  apply no_nul_cons. split; [apply H|apply not_elem_of_nil].
Qed.

Lemma render_no_nul ps : Forall piece_ok ps -> no_nul (render ps).
Proof.
  induction 1 as [|p ps Hp _ IH]; [apply not_elem_of_nil|].
  change (render (p :: ps)) with (piece_out p ++ render ps). apply no_nul_app. eauto using piece_no_nul.
Qed.

(** One piece is one [strcat] (or nothing). *)
Lemma format_loop_piece p fmt args a tl : piece_ok p -> no_nul a ->
  format_loop (piece_fmt p ++ fmt) (piece_args p ++ args) (a ++ NUL :: tl) =
  match strcat (a ++ NUL :: tl) (piece_out p) with Ok out => format_loop fmt args out | _ => Stuck end.
Proof.
  intros Hp Ha. destruct p as [c|s r|v|v|d]; cbn [piece_ok piece_fmt piece_args piece_out app] in *; cbn [format_loop].
  - destruct Hp. by rewrite !bool_decide_false by done.
  - rewrite bool_decide_false, bool_decide_true by done. cbn [negb]. rewrite bool_decide_true by done.
    unfold cstr. by rewrite strlen_app, take_app_length by done.
  - by rewrite bool_decide_false, bool_decide_true by done.
  - by rewrite bool_decide_false, bool_decide_true by done.
  - rewrite bool_decide_false, bool_decide_true by done. cbn [negb].
    rewrite !not_elem_of_cons in Hp. destruct Hp as (? & ? & ? & ? & _). rewrite !bool_decide_false by done.
    rewrite strcat_app by done. cbn [length]. rewrite bool_decide_true by lia. by rewrite drop_0, app_nil_r.
Qed.

Lemma format_loop_spec ps r a tl : Forall piece_ok ps -> no_nul a ->
  format_loop (fmt_of ps ++ NUL :: r) (args_of ps) (a ++ NUL :: tl) =
  if bool_decide (length (render ps) <= length tl)%nat
  then Ok ((a ++ render ps) ++ NUL :: drop (length (render ps)) tl) else Stuck.
Proof.
  intros Hps. revert a tl. induction Hps as [|p ps Hp Hps IH]; intros a tl Ha.
  { cbn [fmt_of args_of render mbind list_bind app format_loop length]. rewrite !bool_decide_true by (done || lia).
    by rewrite app_nil_r. }
  change (fmt_of (p :: ps)) with (piece_fmt p ++ fmt_of ps). change (args_of (p :: ps)) with (piece_args p ++ args_of ps).
  change (render (p :: ps)) with (piece_out p ++ render ps). rewrite <- app_assoc, format_loop_piece by done.
  rewrite strcat_app, length_app by done. case_bool_decide as Hfit; [|by rewrite bool_decide_false by lia].
  rewrite IH by (apply no_nul_app; eauto using piece_no_nul). rewrite length_drop.
  case_bool_decide; [rewrite bool_decide_true by lia|by rewrite bool_decide_false by lia].
  by rewrite drop_drop, <- !app_assoc.
Qed.

Lemma format_to_str_spec ps r out : Forall piece_ok ps ->
  format_to_str out (fmt_of ps ++ NUL :: r) (args_of ps) =
  if bool_decide (length (render ps) < length out)%nat
  then Ok (render ps ++ NUL :: drop (S (length (render ps))) out) else Stuck.
Proof.
  intros Hps. unfold format_to_str. destruct out as [|c out].
  { by rewrite bool_decide_false by (cbn; lia). }
  change (NUL :: out) with ([] ++ NUL :: out). rewrite format_loop_spec by (done || apply not_elem_of_nil).
  cbn [length drop app].
  by rewrite (bool_decide_ext (length (render ps) < S (length out))%nat (length (render ps) <= length out)%nat) by lia.
Qed.

(** ** The log functions *)

(** What printing needs of [term_write]: it appends the string to what was
    printed and leaves the rest of the state, as [tw_rest] sees it, alone. *)
Class TermWriter {S R : Type} (tw : list byte -> nat -> M S unit) : Type := {
  tw_inv : S -> Prop;
  tw_out : S -> list byte;
  tw_rest : S -> R;
  tw_spec : forall s str tl, tw_inv s -> (length str <= Z.to_nat TERM_BUF_SIZE)%nat ->
    exists s', tw (str ++ tl) (length str) s = Ok (tt, s') /\ tw_inv s' /\
      tw_out s' = tw_out s ++ str /\ tw_rest s' = tw_rest s;
}.

(** The kernel writes to the tty. *)
#[global] Instance kernel_writer {S} (t : tty S) `{!TtySpec t} : TermWriter (R := list byte) (term_write t).
Proof.
  refine {| tw_inv := tty_inv; tw_out := printed; tw_rest := typed; tw_spec := _ |}.
  intros s str tl Hs _. destruct (term_write_ok t str tl s Hs) as (s' & Hr & Hs' & Ht & Hp). by exists s'.
Defined.

(** An application sends the string to the terminal server. *)
Definition app_term_write {S} (t : tty S) (fuel : nat) (sender : Z) (junk rest : list byte)
    (str : list byte) (len : nat) : M S unit :=
  req ← mlift (term_write_request str (Z.of_nat len) junk);
  _ ← handle_term_request t fuel sender (req ++ rest);
  mret tt.

#[global] Instance app_writer {S} (t : tty S) `{!TtySpec t} fuel sender junk rest :
    TermWriter (R := list byte) (app_term_write t fuel sender junk rest).
Proof.
  refine {| tw_inv := tty_inv; tw_out := printed; tw_rest := typed; tw_spec := _ |}.
  intros s str tl Hs Hl. unfold app_term_write.
  destruct (term_write_served t fuel s sender (Z.of_nat (length str)) junk rest (str ++ tl) Hs) as (req & s' & Hq & Hr & Hs' & Ht & Hp).
  - unfold TERM_BUF_SIZE in *. lia.
  - rewrite length_app. lia.
  - exists s'. rewrite Hq. cbn [mlift]. rewrite (mbind_ok _ _ s req s) by done. rewrite (mbind_ok _ _ _ _ _ Hr).
    rewrite Nat2Z.id, take_app_length in Hp. done.
Defined.

Lemma log_buf_spec prefix suffix ps r junk : no_nul prefix -> Forall piece_ok ps ->
  log_buf prefix suffix (fmt_of ps ++ NUL :: r) (args_of ps) junk =
  let s := prefix ++ render ps ++ suffix in
  if bool_decide (length s < length junk)%nat then Ok (s ++ NUL :: drop (S (length s)) junk) else Stuck.
Proof.
  intros Hpre Hps. cbv zeta. rewrite !length_app. unfold log_buf, strcpy.
  case_bool_decide; [|by rewrite bool_decide_false by lia].
  rewrite drop_app_length, take_app_length, format_to_str_spec by done. cbn [length]. rewrite length_drop.
  case_bool_decide; [|by rewrite bool_decide_false by lia].
  cbn [drop]. rewrite drop_drop, app_assoc, strcat_app, length_drop by (apply no_nul_app; eauto using render_no_nul).
  case_bool_decide; [rewrite bool_decide_true by lia|by rewrite bool_decide_false by lia].
  rewrite drop_drop, <- !app_assoc. do 6 f_equal. lia.
Qed.

(** A message that fits is one [term_write]. *)
Lemma log_is_write {S} (tw : list byte -> nat -> M S unit) prefix suffix ps r junk s : no_nul prefix -> no_nul suffix ->
  Forall piece_ok ps -> length junk = Z.to_nat TERM_BUF_SIZE ->
  let str := prefix ++ render ps ++ suffix in
  (length str < 512)%nat -> exists tl,
  LOG tw junk prefix suffix (fmt_of ps ++ NUL :: r) (args_of ps) s = tw (str ++ tl) (length str) s.
Proof.
  intros Hpre Hsuf Hps Hjunk str Hfit. unfold LOG. rewrite log_buf_spec, Hjunk by done. fold str. cbv zeta.
  change (Z.to_nat TERM_BUF_SIZE) with 512%nat. rewrite bool_decide_true by done. set (tl := drop _ _).
  exists (NUL :: tl). change (mlift (Ok (str ++ NUL :: tl))) with (mret (M := M S) (str ++ NUL :: tl)).
  rewrite (mbind_ok _ _ s (str ++ NUL :: tl) s) by done.
  by rewrite strlen_app by (unfold str; rewrite !no_nul_app; eauto using render_no_nul).
Qed.

Section log_spec.
Context {S R : Type} (tw : list byte -> nat -> M S unit) `{!TermWriter (R := R) tw}.

Lemma log_spec prefix suffix ps r junk s : no_nul prefix -> no_nul suffix -> Forall piece_ok ps ->
  length junk = Z.to_nat TERM_BUF_SIZE -> tw_inv s ->
  let str := prefix ++ render ps ++ suffix in
  if decide (length str < 512)%nat
  then exists s', LOG tw junk prefix suffix (fmt_of ps ++ NUL :: r) (args_of ps) s = Ok (tt, s') /\
    tw_inv s' /\ tw_out s' = tw_out s ++ str /\ tw_rest s' = tw_rest s
  else LOG tw junk prefix suffix (fmt_of ps ++ NUL :: r) (args_of ps) s = Stuck.
Proof using Type.
  intros Hpre Hsuf Hps Hjunk Hs str. case_decide as Hfit.
  - destruct (log_is_write tw prefix suffix ps r junk s Hpre Hsuf Hps Hjunk Hfit) as [tl ->].
    apply tw_spec; [done|]. change (Z.to_nat TERM_BUF_SIZE) with 512%nat. fold str. lia.
  - unfold LOG. rewrite log_buf_spec, Hjunk by done. fold str. cbv zeta.
    change (Z.to_nat TERM_BUF_SIZE) with 512%nat. by rewrite bool_decide_false by done.
Qed.

(** [printf] of a format that fits. *)
Lemma printf_ok ps r junk s : Forall piece_ok ps -> length junk = Z.to_nat TERM_BUF_SIZE -> tw_inv s ->
  (length (render ps) < 512)%nat ->
  exists s', my_printf tw junk (fmt_of ps ++ NUL :: r) (args_of ps) s = Ok (tt, s') /\
    tw_inv s' /\ tw_out s' = tw_out s ++ render ps /\ tw_rest s' = tw_rest s.
Proof using Type.
  intros Hps Hj Hs Hl. pose proof (log_spec [] [] ps r junk s) as H. cbv zeta in H. rewrite app_nil_r in H. cbn [app] in H.
  rewrite decide_True in H by done. apply H; try done; apply not_elem_of_nil.
Qed.

Lemma info_ok ps r junk s : Forall piece_ok ps -> length junk = Z.to_nat TERM_BUF_SIZE -> tw_inv s ->
  (length (render ps) < 503)%nat ->
  exists s', INFO tw junk (fmt_of ps ++ NUL :: r) (args_of ps) s = Ok (tt, s') /\
    tw_inv s' /\ tw_out s' = tw_out s ++ INFO_PREFIX ++ render ps ++ newline /\ tw_rest s' = tw_rest s.
Proof using Type.
  intros Hps Hj Hs Hl. pose proof (log_spec INFO_PREFIX newline ps r junk s) as H. cbv zeta in H.
  rewrite decide_True in H by (rewrite !length_app; change (length INFO_PREFIX) with 7%nat; change (length newline) with 2%nat; lia).
  apply H; [by apply (bool_decide_unpack _)..|done|done|done].
Qed.
End log_spec.

(** Constant messages. *)
Lemma fmt_of_text s : fmt_of (text s) = lit s.
Proof. unfold fmt_of, text. induction (lit s) as [|c l IH]; [done|]. cbn. by f_equal. Qed.
Lemma args_of_text s : args_of (text s) = [].
Proof. unfold args_of, text. induction (lit s) as [|c l IH]; [done|]. done. Qed.
Lemma render_text s : render (text s) = lit s.
Proof. unfold render, text. induction (lit s) as [|c l IH]; [done|]. cbn. by f_equal. Qed.

(** ** Printed numbers *)
Lemma atoi_itoa v r : - 2 ^ 31 <= v < 2 ^ 31 -> atoi (itoa v 10 ++ NUL :: r) = Some v.
Proof.
  intros Hv. unfold itoa. cbn [Z.eqb Pos.eqb]. destruct (Z.ltb_spec v 0).
  - destruct (decimal_digits (- v) ltac:(lia)) as (Hd & _ & Hval). cbn [app atoi].
    rewrite bool_decide_true by done. change (is_space Byte.x2d) with false. cbn match.
    rewrite atoi_digits_app, Hval by done. cbn [fmap option_fmap option_map]. f_equal. rewrite i32_id; lia.
  - destruct (decimal_digits v ltac:(lia)) as (Hd & Hne & Hval). destruct (decimal v) as [|c ds]; [done|].
    pose proof Hd as Hd'. cbn [forallb] in Hd'. apply andb_true_iff in Hd' as [Hc _].
    destruct (digit_not_sign c Hc) as (Hsp & H1 & H2 & _). cbn [app atoi]. rewrite Hsp, !bool_decide_false by done.
    change (c :: ds ++ NUL :: r) with ((c :: ds) ++ NUL :: r). rewrite atoi_digits_app, Hval by done.
    cbn [fmap option_fmap option_map]. f_equal. apply i32_id. lia.
Qed.

Lemma itoa_length v base : - 2 ^ 31 <= v < 2 ^ 31 -> (length (itoa v base) <= 11)%nat.
Proof.
  intros Hv. unfold itoa. destruct (base =? 10).
  - destruct (Z.ltb_spec v 0); cbn [length].
    + pose proof (digits_length 10 ltac:(lia) 10 10 (- v) ltac:(lia) ltac:(lia)). unfold decimal. lia.
    + pose proof (digits_length 10 ltac:(lia) 10 10 v ltac:(lia) ltac:(lia)). unfold decimal. lia.
  - pose proof (u32_range v). pose proof (digits_length 16 ltac:(lia) 8 8 (u32 v) ltac:(by change (16 ^ Z.of_nat 8) with (2 ^ 32)) ltac:(lia)). unfold hexadecimal. lia.
Qed.

(** C27: printing.  The log functions never print anything but the prefix, the
    format with its directives replaced by their arguments, and the suffix, in
    this order, through whatever [term_write] they are linked with; when that
    string and its null character do not fit in the 512 bytes of their buffer,
    they overrun it. *)
Theorem log_correct {S R : Type} (tw : list byte -> nat -> M S unit) `{!TermWriter (R := R) tw}
    (prefix suffix : list byte) (ps : list piece) (r junk : list byte) (s : S) :
  no_nul prefix -> no_nul suffix -> Forall piece_ok ps -> length junk = Z.to_nat TERM_BUF_SIZE -> tw_inv s ->
  let str := prefix ++ render ps ++ suffix in
  if decide (length str < 512)%nat
  then exists s', LOG tw junk prefix suffix (fmt_of ps ++ NUL :: r) (args_of ps) s = Ok (tt, s') /\
    tw_inv s' /\ tw_out s' = tw_out s ++ str /\ tw_rest s' = tw_rest s
  else LOG tw junk prefix suffix (fmt_of ps ++ NUL :: r) (args_of ps) s = Stuck.
Proof. apply log_spec. Qed.

(** Numbers.  [format_to_str] with the format ["%d"] prints every [int] so
    that [atoi] reads it back, into any buffer of 12 characters. *)
Theorem format_decimal_roundtrip (v : Z) (out : list byte) :
  - 2 ^ 31 <= v < 2 ^ 31 -> (12 <= length out)%nat ->
  exists out', format_to_str out (lit "%d" ++ [NUL]) [AInt v] = Ok out' /\
    length out' = length out /\ atoi out' = Some v.
Proof.
  intros Hv Hout. pose proof (itoa_length v 10 Hv).
  pose proof (format_to_str_spec [Dec v] [] out ltac:(by constructor)) as Hf.
  change (render [Dec v]) with (itoa v 10 ++ []) in Hf. rewrite app_nil_r in Hf.
  rewrite bool_decide_true in Hf by lia. eexists. split; [exact Hf|]. split; [|by apply atoi_itoa].
  rewrite length_app. cbn [length]. rewrite length_drop. lia.
Qed.

(** ** The example of the header of [print.c]: ["%s-%d"] on the terminal of an
    application *)
Definition e_junk : list byte := zeros 512.
Definition e_pieces : list piece := [Str (lit "egos") []; Char Byte.x2d; Dec 2000; Hex (-1)].

Lemma log_correct_witness : exists s',
  INFO (app_term_write (t_tty QEMU) 5 7 e_junk []) e_junk (lit "%s-%d%x" ++ [NUL])
    [AStr (lit "egos" ++ [NUL]); AInt 2000; AInt (-1)] t_uart = Ok (tt, s') /\
  u_tx s' = lit "[INFO] egos-2000ffffffff" ++ newline.
Proof.
  pose proof (@log_correct uart _ (app_term_write (t_tty QEMU) 5 7 e_junk [])
    (@app_writer uart (t_tty QEMU) (t_spec QEMU) 5 7 e_junk []) INFO_PREFIX newline e_pieces [] e_junk t_uart) as H.
  rewrite decide_True in H by (apply (bool_decide_unpack _); vm_compute; exact I).
  destruct H as (s' & Hr & _ & Ho & _).
  - by apply (bool_decide_unpack _).
  - by apply (bool_decide_unpack _).
  - apply (bool_decide_unpack _). vm_compute. exact I.
  - reflexivity.
  - exact I.
  - exists s'. split; [exact Hr|exact Ho].
Defined.

Lemma format_decimal_roundtrip_witness :
  exists out', format_to_str (zeros 12) (lit "%d" ++ [NUL]) [AInt (- 2 ^ 31)] = Ok out' /\
    length out' = 12%nat /\ atoi out' = Some (- 2 ^ 31).
Proof.
  apply (format_decimal_roundtrip (- 2 ^ 31) (zeros 12)).
  - lia.
  - cbn. lia.
Defined.

(** A format that ends in [%] is read past its end. *)
Lemma format_trailing_percent : format_to_str e_junk (lit "100%" ++ [NUL]) [] = Stuck.
Proof. vm_compute. reflexivity. Qed.
(** The directive of the messages of [dev_disk.c] is dropped. *)
Lemma format_precision_dropped :
  format_to_str (zeros 8) (lit "0x%.2x" ++ [NUL]) [AInt 255] = Ok (lit "0x2x" ++ zeros 4).
Proof. vm_compute. reflexivity. Qed.
