(* ===== verification/DiskInit.v ===== *)
(** * Finding the disk

    [sd_init] and [disk_init] of [earth/dev_disk.c]: the handshake with the SD card,
    the choice between the card and the flash, and what they print meanwhile.  They
    run on the disk next to what [term_write] prints on. *)

From stdpp Require Import options.
From coqutil Require Import Byte.
From S2P Require Import Prelude CString InodeStore Earth Disk DiskSpec SdSim DiskProps Tty Terminal Print.

(** ** dev_disk.c *)
Section Init.
Context {D T : Type} (dev : mmio D) (plat : platform) (fuel : nat).
Context (tw : list byte -> nat -> M T unit) (junk : list byte).

(** Code that drives the hardware, and code that prints. *)
Definition on_hw {A} (m : M D A) : M (disk_state D * T) A := fun s =>
  match hw_call m s.1 with
  | Ok (a, d) => Ok (a, (d, s.2))
  | Fatal e => Fatal e
  | Stuck => Stuck
  | NoFuel => NoFuel
  end.
Definition on_log {A} (m : M T A) : M (disk_state D * T) A := fun s =>
  match m s.2 with
  | Ok (a, t) => Ok (a, (s.1, t))
  | Fatal e => Fatal e
  | Stuck => Stuck
  | NoFuel => NoFuel
  end.
Abbreviation info format args := (on_log (INFO tw junk (lit format ++ [NUL]) args)).

Definition sd_init : M (disk_state D * T) Z :=
  info "Set the CS pin to HIGH and toggle clock" [];;
  on_hw (spi_setup dev plat fuel);;
  info "Set the CS pin to LOW and send cmd0 to SD card" [];;
  reply ← on_hw (sd_exec_cmd dev plat fuel cmd0);
  if bool_decide (reply = Byte.xff) then mret (-1) else
  (if bool_decide (reply = Byte.x01) then mret tt else on_hw (spi_await dev plat fuel Byte.x01));;
  on_hw (spi_await dev plat fuel Byte.xff);;
  info "Check SD card type and voltage with cmd8" [];;
  reply ← on_hw (sd_exec_cmd dev plat fuel cmd8);
  panic_if (negb (Z.land (byte.unsigned reply) 0x04 =? 0)) "Only SD2/SDHC/SDXC cards are supported";;
  payload ← on_hw (times 4 (spi_exchange dev plat fuel Byte.xff));
  info "SD card replies cmd8 with status %d" [AInt (byte.unsigned reply)];;
  panic_if (negb (Z.land (le_combine (reverse payload)) 0xFFF =? 0x1AA))
    "Fail to check SD card type";;
  on_hw (spi_await dev plat fuel Byte.xff);;
  on_hw (wait_until fuel (sd_exec_acmd dev plat fuel acmd41) (fun r => byte.unsigned r =? 0));;
  on_hw (spi_await dev plat fuel Byte.xff);;
  (if decide (plat = ARTY) then
     info "Set the SPI clock to 20MHz for the SD card" [];;
     on_hw (spi_set_clock dev plat 20000000)
   else mret tt);;
  mret 0.

Definition disk_init : M (disk_state D * T) unit :=
  r ← sd_init;
  mmodify (fun s => ({| dtype := if r =? 0 then SD_CARD else FLASH_ROM; dhw := dhw s.1 |}, s.2));;
  s ← mget;
  if decide (dtype s.1 = FLASH_ROM)
  then on_log (CRITICAL tw junk (lit "Using FLASH_ROM instead of SD_CARD" ++ [NUL]) [])
  else mret tt.
End Init.

(** ** What is printed *)
Definition info_line (s : string) : list byte := msg INFO_PREFIX newline (text s).
(** With a card; and without one. *)
Definition probe_log : list byte :=
  info_line "Set the CS pin to HIGH and toggle clock" ++
  info_line "Set the CS pin to LOW and send cmd0 to SD card".
Definition card_log (plat : platform) : list byte :=
  probe_log ++
  info_line "Check SD card type and voltage with cmd8" ++
  info_line "SD card replies cmd8 with status 1" ++
  if decide (plat = ARTY) then info_line "Set the SPI clock to 20MHz for the SD card" else [].
Definition flash_log : list byte :=
  probe_log ++ msg CRITICAL_PREFIX COLOR_SUFFIX (text "Using FLASH_ROM instead of SD_CARD").
Definition disk_log (plat : platform) (type : disk_type) : list byte :=
  if decide (type = SD_CARD) then card_log plat else flash_log.

Section init.
Context {D T C R : Type} (dev : mmio D) (plat : platform) (sl : slave C).
Context (patience fuel delay : nat) (cap : Z).
Context `{!SpiSpec dev plat sl patience, !SdCard sl plat cap delay}.
Context (Hfuel : fuel_ok plat patience fuel delay cap).
Context (tw : list byte -> nat -> M T unit) (junk : list byte) `{!TermWriter (R := R) tw}.
Context (Hjunk : length junk = Z.to_nat TERM_BUF_SIZE).
Abbreviation bus := (bus dev plat sl patience).
Abbreviation card_holds := (card_holds dev plat sl patience delay cap).
Abbreviation st ty d t := ({| dtype := ty; dhw := d |} : disk_state D, t : T).

(** [o] was printed, and nothing else changed. *)
Definition said (t : T) (o : list byte) (t' : T) : Prop :=
  tw_inv t' /\ tw_out t' = tw_out t ++ o /\ tw_rest t' = tw_rest t.
Lemma said_trans t o t' o' t'' : said t o t' -> said t' o' t'' -> said t (o ++ o') t''.
Proof using Type. intros (_ & H1 & H2) (H3 & H4 & H5). split_and!; [done|by rewrite H4, H1, app_assoc|congruence]. Qed.

Lemma wp_on_hw {A} E (m : M D A) ty d t (Q : A -> disk_state D * T -> Prop) :
  wp E m d (fun a d' => Q a (st ty d' t)) -> wp E (on_hw m) (st ty d t) Q.
Proof using Type. unfold wp, on_hw, hw_call. cbn. by destruct (m d) as [[a d']| | |]. Qed.

(** A message. *)
Lemma wp_message E prefix suffix fmt args ps (s : disk_state D) t0 o t (Q : unit -> disk_state D * T -> Prop) :
  fmt = fmt_of ps ++ [NUL] -> args = args_of ps -> Forall piece_ok ps -> no_nul prefix -> no_nul suffix ->
  (length (msg prefix suffix ps) < 512)%nat -> said t0 o t ->
  (forall t', said t0 (o ++ msg prefix suffix ps) t' -> Q tt (s, t')) ->
  wp E (on_log (LOG tw junk prefix suffix fmt args)) (s, t) Q.
Proof using Hjunk.
  intros -> -> Hps Hpre Hsuf Hl Ht HQ. pose proof (log_spec tw prefix suffix ps [] junk t Hpre Hsuf Hps Hjunk (proj1 Ht)) as H.
  cbv zeta in H. rewrite decide_True in H by exact Hl. destruct H as (t' & Hr & Ht').
  unfold wp, on_log. cbn [fst snd]. rewrite Hr. apply HQ. by eapply said_trans.
Qed.

(** A line without directives. *)
Lemma wp_info_line E (l : string) (s : disk_state D) t0 o t (Q : unit -> disk_state D * T -> Prop) :
  Forall piece_ok (text l) -> (length (info_line l) < 512)%nat -> said t0 o t ->
  (forall t', said t0 (o ++ info_line l) t' -> Q tt (s, t')) ->
  wp E (on_log (INFO tw junk (lit l ++ [NUL]) [])) (s, t) Q.
Proof using Hjunk.
  intros Hps Hl Ht HQ. eapply (wp_message _ _ _ _ _ (text l)); [by rewrite fmt_of_text|by rewrite args_of_text|done|by apply (bool_decide_unpack _)..|done|done|done].
Qed.
(** [wp_info_line] for a line whose conditions are evaluated. *)
#[local] Ltac wp_line := eapply wp_info_line; [by apply (bool_decide_unpack _)|apply (bool_decide_unpack _); vm_compute; exact I|eassumption|].

(** ** With a card *)
Lemma wp_sd_init E m ty d t c (Q : Z -> disk_state D * T -> Prop) : bus d c -> card_powered m c -> tw_inv t ->
  (forall d' t', card_holds m d' -> said t (card_log plat) t' -> Q 0 (st ty d' t')) -> wp E (sd_init dev plat fuel tw junk) (st ty d t) Q.
Proof using Hfuel Hjunk.
  intros Hb Hp Ht HQ. pose proof Hfuel as [Hf1 Hf2 Hf3 Hf4]. clear Hfuel.
  assert (said t [] t) as Hs0 by (split_and!; [done|by rewrite app_nil_r|done]).
  unfold sd_init. apply wp_bind. wp_line. intros t1 Hs1. apply wp_bind, wp_on_hw.
  eapply (wp_spi_setup dev plat sl patience fuel delay cap); [done|done|done|]. intros d1 c1 H1 Hp1.
  apply wp_bind. wp_line. intros t2 Hs2.
  destruct (sd_reset m c1 Hp1) as (k & c2 & Hk & Hclk & Hc2).
  apply wp_bind, wp_on_hw. eapply (wp_sd_exec_cmd dev plat sl patience fuel Hf1); [exact Hclk|done|lia|done|].
  intros d2 H2. rewrite bool_decide_false by done. apply wp_bind. rewrite bool_decide_true by done.
  apply wp_ret, wp_bind, wp_on_hw.
  eapply (wp_spi_await_ff dev plat sl patience fuel Hf1 E); [apply (sd_idle_releases m delay)|exact Hc2|lia|done|].
  intros d3 c3 H3 Hc3. cbv beta in Hc3. apply wp_bind. wp_line. intros t3 Hs3.
  destruct (sd_if_cond m delay c3 Hc3) as (k8 & c4 & Hk8 & Hclk8 & Hc4).
  change [Byte.x01; Byte.x00; Byte.x00; Byte.x01; Byte.xaa] with
    ([Byte.x01] ++ [Byte.x00; Byte.x00; Byte.x01; Byte.xaa]) in Hclk8.
  rewrite app_assoc in Hclk8. apply clocks_app in Hclk8 as (c5 & Hclk8 & Hpay).
  apply wp_bind, wp_on_hw. eapply (wp_sd_exec_cmd dev plat sl patience fuel Hf1); [exact Hclk8|done|lia|done|].
  intros d5 H5. apply wp_bind, wp_panic_if; [done|intros _]. apply wp_bind, wp_on_hw.
  eapply (wp_times_clocks dev plat sl patience fuel Hf1 _ _ _
    [Byte.x00; Byte.x00; Byte.x01; Byte.xaa]); [exact Hpay|done|].
  intros d6 H6. apply wp_bind.
  eapply (wp_message _ _ _ _ _ (text "SD card replies cmd8 with status " ++ [Dec 1]));
    [done|done|by apply (bool_decide_unpack _)..|apply (bool_decide_unpack _); vm_compute; exact I|exact Hs3|].
  intros t4 Hs4. apply wp_bind, wp_panic_if; [done|intros _]. apply wp_bind, wp_on_hw.
  eapply (wp_spi_await_ff dev plat sl patience fuel Hf1 E); [apply (sd_idle_releases m delay)|exact Hc4|lia|done|].
  intros d7 c7 H7 Hc7. cbv beta in Hc7. apply wp_bind, wp_on_hw.
  apply (wp_wait E _ _ (fun t d => exists n c, bus d c /\ card_idle m n t c /\
    (n <= delay)%nat) delay); [lia|by eexists 0%nat, c7; split_and!; [done|done|lia]|].
  intros n8 d8 (n & c8 & H8 & Hc8 & Hn). eapply (wp_sd_exec_acmd dev plat sl patience fuel delay cap); [done|done|done|done|..].
  - intros t' d9 c9 -> H9 Hc9. exists t'. split; [done|]. by exists delay, c9.
  - intros d9 c9 H9 Hc9 Hm9. change (byte.unsigned Byte.x00 =? 0) with true. cbn iota.
    apply wp_bind, wp_on_hw. apply (wp_await_ready dev plat sl patience fuel delay cap ltac:(done) E m); [by exists delay, c9|].
    intros d10 c10 H10 Hc10 Hm. apply wp_bind.
    assert (forall d', bus d' c10 -> card_holds m d') as Hh.
    { intros d' Hd'. exists 0%nat, c10. split_and!; [done|done|lia|done]. }
    unfold card_log, probe_log in HQ. rewrite <- !app_assoc in HQ. cbn [app] in Hs4. rewrite <- !app_assoc in Hs4. case_decide as Hpl.
    + apply wp_bind. wp_line. intros t5 Hs5. rewrite <- !app_assoc in Hs5.
      apply wp_on_hw. eapply (wp_set_clock dev plat sl patience); [done|done|]. intros d11 H11. apply wp_ret, HQ; [by apply Hh|exact Hs5].
    + apply wp_ret, wp_ret, HQ; [by apply Hh|]. rewrite app_nil_r. exact Hs4.
Qed.

(** ** Without a card the line stays high *)
Section no_card.
Context (Hff : forall c b, (exch sl c b).1 = Byte.xff) (E : string -> Prop).

Lemma wp_exchange_high b d c Q : bus d c -> (forall d' c', bus d' c' -> Q Byte.xff d') ->
  wp E (spi_exchange dev plat fuel b) d Q.
Proof using Hfuel Hff.
  intros Hb HQ. pose proof (Hff c b) as Hr. destruct (exch sl c b) as [r c'] eqn:He. cbn in Hr. subst.
  eapply (wp_exchange dev plat sl patience fuel (fuel_patience _ _ _ _ _ Hfuel)); [done|done|]. intros. by eapply HQ.
Qed.
Lemma wp_times_high n d c Q : bus d c -> (forall l d' c', bus d' c' -> Q l d') ->
  wp E (times n (spi_exchange dev plat fuel Byte.xff)) d Q.
Proof using Hfuel Hff.
  revert d c Q. induction n as [|n IH]; intros d c Q Hb HQ; cbn [times]; [apply wp_ret; by eapply HQ|].
  apply wp_bind. eapply wp_exchange_high; [done|]. intros d2 c2 H2. apply wp_bind. eapply IH; [done|].
  intros l d3 c3 H3. apply wp_ret. by eapply HQ.
Qed.
Lemma wp_reply_high n d c Q : bus d c -> (forall d', Q Byte.xff d') -> wp E (reply_loop dev plat fuel n) d Q.
Proof using Hfuel Hff.
  revert d c. induction n as [|n IH]; intros d c Hb HQ; cbn [reply_loop]; [by apply wp_ret|].
  apply wp_bind. eapply wp_exchange_high; [done|]. intros d2 c2 H2. rewrite bool_decide_true by done. by eapply IH.
Qed.
Lemma wp_setup_high d c (Q : unit -> D -> Prop) : bus d c -> (forall d' c', bus d' c' -> Q tt d') -> wp E (spi_setup dev plat fuel) d Q.
Proof using Hfuel Hff.
  clear Hjunk. intros Hb HQ. unfold spi_setup. destruct (decide (plat = ARTY)) as [Hp|Hp] eqn:Hdec.
  - apply wp_bind. eapply (wp_set_clock dev plat sl patience); [done|done|]. intros d1 H1.
    apply wp_bind. eapply (wp_config dev plat sl patience); [done|unfold cs_regs; rewrite Hdec; set_unfold; tauto|].
    intros d2 H2. apply wp_bind. eapply wp_times_high; [done|]. intros l d3 c3 H3.
    eapply (wp_config dev plat sl patience); [done|unfold cs_regs; rewrite Hdec; set_unfold; tauto|]. intros d4. apply HQ.
  - apply wp_bind. eapply (wp_config dev plat sl patience); [done|unfold cs_regs; rewrite Hdec; set_unfold; tauto|].
    intros d2 H2. apply wp_bind. eapply wp_times_high; [done|]. intros l d3 c3 H3.
    eapply (wp_config dev plat sl patience); [done|unfold cs_regs; rewrite Hdec; set_unfold; tauto|]. intros d4. apply HQ.
Qed.

Lemma wp_no_card ty d t c (Q : Z -> disk_state D * T -> Prop) : bus d c -> tw_inv t ->
  (forall d' t', said t probe_log t' -> Q (-1) (st ty d' t')) -> wp E (sd_init dev plat fuel tw junk) (st ty d t) Q.
Proof using Hfuel Hff Hjunk.
  intros Hb Ht HQ. assert (said t [] t) as Hs0 by (split_and!; [done|by rewrite app_nil_r|done]).
  unfold sd_init. apply wp_bind. wp_line. intros t1 Hs1. apply wp_bind, wp_on_hw. eapply wp_setup_high; [done|]. intros d1 c1 H1.
  apply wp_bind. wp_line. intros t2 Hs2. apply wp_bind, wp_on_hw, wp_bind.
  eapply (wp_spi_send dev plat sl patience fuel (fuel_patience _ _ _ _ _ Hfuel)); [done|]. intros d2 H2.
  eapply wp_reply_high; [done|]. intros d3. rewrite bool_decide_true by done. by apply wp_ret, HQ.
Qed.
End no_card.

(** ** [disk_init] *)
Lemma disk_init_card (s : disk_state D) t c m : bus (dhw s) c -> card_powered m c -> tw_inv t ->
  exists s' t', disk_init dev plat fuel tw junk (s, t) = Ok (tt, (s', t')) /\ dtype s' = SD_CARD /\ card_holds m (dhw s') /\
    said t (card_log plat) t'.
Proof using Hfuel Hjunk.
  intros Hb Hm Ht. destruct s as [ty d].
  destruct (wp_returns (disk_init dev plat fuel tw junk) (st ty d t) (fun _ x => dtype x.1 = SD_CARD /\ card_holds m (dhw x.1) /\
    said t (card_log plat) x.2)) as ([] & [s' t'] & Hr & HQ); [|by exists s', t'].
  unfold disk_init. apply wp_bind. eapply wp_sd_init; [done|done|done|]. intros d' t' Hd Hs.
  apply wp_bind. eapply wp_ok; [reflexivity|]. apply wp_bind. eapply wp_ok; [reflexivity|].
  cbn [fst snd dtype Z.eqb dhw]. rewrite decide_False by done. by apply wp_ret.
Qed.

Lemma disk_init_flash (s : disk_state D) t c : bus (dhw s) c -> (forall c b, (exch sl c b).1 = Byte.xff) -> tw_inv t ->
  exists s' t', disk_init dev plat fuel tw junk (s, t) = Ok (tt, (s', t')) /\ dtype s' = FLASH_ROM /\ said t flash_log t'.
Proof using Hfuel Hjunk.
  intros Hb Hff Ht. destruct s as [ty d].
  destruct (wp_returns (disk_init dev plat fuel tw junk) (st ty d t) (fun _ x => dtype x.1 = FLASH_ROM /\ said t flash_log x.2))
    as ([] & [s' t'] & Hr & HQ); [|by exists s', t'].
  unfold disk_init. apply wp_bind. eapply wp_no_card; [done|done|done|]. intros d' t' Hs.
  apply wp_bind. eapply wp_ok; [reflexivity|]. apply wp_bind. eapply wp_ok; [reflexivity|].
  cbn [fst snd dtype Z.eqb dhw]. rewrite decide_True by done.
  eapply (wp_message _ _ _ _ _ (text "Using FLASH_ROM instead of SD_CARD")); [by rewrite fmt_of_text|done|by apply (bool_decide_unpack _)..| |exact Hs|].
  - apply (bool_decide_unpack _). vm_compute. exact I.
  - by intros t2 Hs2.
Qed.

(** Initialising the disk.  With an SD card (version 2) on the bus,
    [disk_init] returns, has chosen the card, leaves it ready with its
    contents unchanged, and has printed the lines of the handshake; with no card on
    the bus it returns, having chosen the flash and said so. *)
Theorem disk_init_correct (s : disk_state D) (t : T) (c : C) : bus (dhw s) c -> tw_inv t ->
  (forall m, card_powered m c -> exists s' t', disk_init dev plat fuel tw junk (s, t) = Ok (tt, (s', t')) /\
     dtype s' = SD_CARD /\ card_holds m (dhw s') /\ said t (card_log plat) t') /\
  ((forall c b, (exch sl c b).1 = Byte.xff) ->
     exists s' t', disk_init dev plat fuel tw junk (s, t) = Ok (tt, (s', t')) /\ dtype s' = FLASH_ROM /\ said t flash_log t').
Proof using Hfuel Hjunk.
  intros Hb Ht. split.
  - intros m Hm. by eapply disk_init_card.
  - intros Hff. by eapply disk_init_flash.
Qed.
End init.

(** The log of the driver on QEMU as [USAGES.md] has it, up to the end of its fourth
    line: the code prints the status only, and as a decimal number. *)
Lemma card_log_qemu : card_log QEMU =
  lit "[INFO] Set the CS pin to HIGH and toggle clock" ++ newline ++
  lit "[INFO] Set the CS pin to LOW and send cmd0 to SD card" ++ newline ++
  lit "[INFO] Check SD card type and voltage with cmd8" ++ newline ++
  lit "[INFO] SD card replies cmd8 with status 1" ++ newline.
Proof. vm_compute. reflexivity. Qed.

Lemma disk_init_correct_witness :
  exists s' t', disk_init (sim_dev ARTY) ARTY 2 (term_write (t_tty ARTY)) e_junk (sim_disk Powered, t_uart) = Ok (tt, (s', t')) /\
    dtype s' = SD_CARD /\ u_tx t' = card_log ARTY.
Proof.
  destruct (proj1 (@disk_init_correct _ _ _ _ (sim_dev ARTY) ARTY (sim_slave ARTY) 0 2 1 8192 _ _ (sim_fuel ARTY)
    (term_write (t_tty ARTY)) e_junk (@kernel_writer uart (t_tty ARTY) (t_spec ARTY)) (length_zeros 512) (sim_disk Powered) t_uart blank_card
    ltac:(by split) I) (fun _ => null_block) ltac:(by split_and!)) as (s' & t' & Hr & Ht & _ & _ & Ho & _).
  exists s', t'. split; [exact Hr|]. split; [exact Ht|exact Ho].
Defined.
