(* ===== verification/Dir.v ===== *)
(** * Directories

    [dir_lookup] of [library/syscall/servers.c], and the directory format that
    [tools/mkfs.c] writes: a directory is one block with the string of its
    entries, each a name followed by the inode number printed with ["%4d "]. *)

From stdpp Require Import options.
From coqutil Require Import Byte.
From S2P Require Import Prelude InodeStore CString.

(** ** servers.c *)

Definition of_opt {A} (o : option A) : outcome A :=
  match o with Some a => Ok a | None => Stuck end.

(** The loop of [dir_lookup] from index [i], [bound] being
    [strlen(buf) - namelen]; reading outside [buf] is undefined. *)
Fixpoint dir_loop (fuel : nat) (i : nat) (bound : Z) (name buf : list byte) (namelen : nat) :
    outcome Z :=
  if Z.of_nat i <? bound then
    match fuel with
    | O => NoFuel
    | S fuel =>
      match strncmp_eq name (drop i buf) namelen with
      | None => Stuck
      | Some false => dir_loop fuel (S i) bound name buf namelen
      | Some true =>
        match buf !! (i + namelen)%nat with
        | None => Stuck
        | Some c =>
          if bool_decide (c = SPC) &&
             ((i =? 0)%nat || bool_decide (buf !! (i - 1)%nat = Some SPC))
          then of_opt (atoi (drop (i + namelen) buf))
          else dir_loop fuel (S i) bound name buf namelen
        end
      end
    end
  else Ok (-1).

(** [dir_lookup] after the directory was read into [buf].  The subtraction of
    the two [size_t] wraps around. *)
Definition dir_scan (buf name : list byte) : outcome Z :=
  match strlen name, strlen buf with
  | Some namelen, Some len =>
    dir_loop (S (length buf)) 0 (u32 (Z.of_nat len - Z.of_nat namelen)) name buf namelen
  | _, _ => Stuck
  end.

(** [dir_lookup], over [file_read]: its result is ignored. *)
Definition dir_lookup {S} (file_read : Z -> Z -> M S (Z * block)) (dir_ino : Z) (name : list byte) :
    M S Z :=
  '(_, buf) ← file_read dir_ino 0;
  mlift (dir_scan buf name).

(** ** The directory format of mkfs.c *)
Record entry : Type := { e_name : list byte; e_ino : Z }.

(** [sprintf(tmp, "%s%4d ", name, ino)] *)
Definition print_entry (e : entry) : list byte :=
  e_name e ++ replicate (4 - length (decimal (e_ino e))) SPC ++ decimal (e_ino e) ++ [SPC].
Definition print_dir (es : list entry) : list byte := es ≫= print_entry.
(** [strncpy(inode, contents, BLOCK_SIZE)]: padded with null bytes. *)
Definition dir_block (es : list entry) : block :=
  print_dir es ++ zeros (Z.to_nat BLOCK_SIZE - length (print_dir es)).

(** A block that holds a directory: the string of its entries, then anything. *)
Definition is_dir (b : block) (es : list entry) : Prop :=
  is_block b /\ exists tl, b = print_dir es ++ NUL :: tl.

(** File names: not empty, without spaces and null bytes. *)
Definition is_name (n : list byte) : Prop := n <> [] /\ no_nul n /\ SPC ∉ n.
Definition entry_ok (e : entry) : Prop := is_name (e_name e) /\ 0 <= e_ino e < 1000.

(** What a lookup in a directory means. *)
Definition dir_find (es : list entry) (name : list byte) : Z :=
  match list_find (fun e => e_name e = name) es with
  | Some (_, e) => e_ino e
  | None => -1
  end.

(** ** The loop as a search for a word *)
Fixpoint find_word (name : list byte) (after_space : bool) (s : list byte) : option (list byte) :=
  match s with
  | [] => None
  | c :: s' =>
    if after_space && starts_with (name ++ [SPC]) s then Some (drop (length name) s)
    else find_word name (bool_decide (c = SPC)) s'
  end.

Lemma find_word_short name p s : (length s <= length name)%nat -> find_word name p s = None.
Proof.
  revert p. induction s as [|c s IH]; intros p Hl; [done|]. cbn [find_word].
  assert (starts_with (name ++ [SPC]) (c :: s) = false) as ->.
  { apply bool_decide_false. intros Heq%(f_equal length). rewrite length_take, length_app in Heq.
    cbn in Heq, Hl. lia. }
  rewrite andb_false_r. apply IH. cbn in Hl. lia.
Qed.

Lemma starts_with_app a x s : starts_with (a ++ [x]) s =
  starts_with a s && bool_decide (s !! length a = Some x).
Proof.
  unfold starts_with. rewrite length_app. cbn [length]. rewrite Nat.add_1_r.
  apply eq_true_iff_eq. rewrite andb_true_iff, !bool_decide_eq_true. split.
  - intros Heq. assert (s !! length a = Some x) as Hx.
    { rewrite <- (lookup_take_lt s (S (length a))) by lia. rewrite Heq.
      rewrite lookup_app_r by lia. by rewrite Nat.sub_diag. }
    split; [|done]. rewrite (take_S_r _ _ _ Hx) in Heq. by apply app_inj_tail in Heq as [? _].
  - intros [Heq Hx]. by rewrite (take_S_r _ _ _ Hx), Heq.
Qed.

Section loop.
Context (name rest text tail : list byte).
Context (Hname : no_nul name) (Hne : name <> []).
Abbreviation buf := (text ++ NUL :: tail).

Lemma dir_loop_find fuel i : (i <= length text)%nat -> (length name <= length text)%nat ->
  (length text - i < fuel)%nat ->
  dir_loop fuel i (Z.of_nat (length text - length name)) (name ++ rest) buf (length name) =
  match find_word name ((i =? 0)%nat || bool_decide (text !! (i - 1)%nat = Some SPC)) (drop i text) with
  | Some f => of_opt (atoi (f ++ NUL :: tail))
  | None => Ok (-1)
  end.
Proof using Hname Hne.
  revert i. induction fuel as [|fuel IH]; intros i Hi Hl Hf; [lia|]. cbn [dir_loop].
  destruct (Z.ltb_spec (Z.of_nat i) (Z.of_nat (length text - length name))) as [Hlt|Hge].
  2:{ rewrite find_word_short; [done|]. rewrite length_drop. lia. }
  rewrite drop_app_le by lia.
  rewrite strncmp_eq_spec by (done || rewrite length_app, length_drop; lia).
  assert (starts_with name (drop i text ++ NUL :: tail) = starts_with name (drop i text)) as ->.
  { unfold starts_with. by rewrite take_app_le by (rewrite length_drop; lia). }
  destruct (lookup_lt_is_Some_2 text (i + length name)) as [x Hx]; [lia|].
  destruct (lookup_lt_is_Some_2 text i) as [y Hy]; [lia|].
  rewrite lookup_app_l by lia. rewrite Hx.
  assert (((i =? 0)%nat || bool_decide (buf !! (i - 1)%nat = Some SPC)) =
          ((i =? 0)%nat || bool_decide (text !! (i - 1)%nat = Some SPC))) as ->.
  { destruct i; [done|]. cbn [Nat.eqb orb]. by rewrite lookup_app_l by lia. }
  set (p := (i =? 0)%nat || _).
  assert (dir_loop fuel (S i) (Z.of_nat (length text - length name)) (name ++ rest) buf (length name) =
    match find_word name (bool_decide (y = SPC)) (drop (S i) text) with
    | Some f => of_opt (atoi (f ++ NUL :: tail))
    | None => Ok (-1)
    end) as Hnext.
  { rewrite IH by lia. cbn [Nat.eqb orb]. replace (S i - 1)%nat with i by lia. rewrite Hy.
    rewrite (bool_decide_ext (Some y = Some SPC) (y = SPC)) by (split; congruence). done. }
  rewrite (drop_S _ _ _ Hy). cbn [find_word]. rewrite <- (drop_S _ _ _ Hy).
  rewrite starts_with_app, lookup_drop, Hx.
  rewrite (bool_decide_ext (Some x = Some SPC) (x = SPC)) by (split; congruence).
  destruct (starts_with name (drop i text)); cbn [andb]; [|by rewrite andb_false_r].
  rewrite (andb_comm (bool_decide _)). destruct (p && bool_decide (x = SPC)); [|done].
  rewrite drop_drop, drop_app_le by lia. done.
Qed.
End loop.

(** ** Words of a directory *)
Lemma starts_word name w s : SPC ∉ name -> SPC ∉ w ->
  starts_with (name ++ [SPC]) (w ++ SPC :: s) = bool_decide (w = name).
Proof.
  intros Hn Hw. unfold starts_with. apply bool_decide_ext. rewrite length_app. cbn [length]. split.
  - revert w Hw. induction name as [|x name IH]; intros w Hw Heq.
    + destruct w as [|y w]; [done|]. cbn in Heq. injection Heq as ->. apply not_elem_of_cons in Hw. tauto.
    + apply not_elem_of_cons in Hn as [Hx Hn]. destruct w as [|y w]; cbn in Heq; [by injection Heq as <-|].
      apply not_elem_of_cons in Hw as [Hy Hw]. injection Heq as -> Heq. f_equal. by apply IH.
  - intros ->. change (SPC :: s) with ([SPC] ++ s). rewrite app_assoc.
    rewrite take_app_le by (rewrite length_app; cbn; lia). apply take_ge. rewrite length_app. cbn. lia.
Qed.

Lemma find_word_rest name w s : SPC ∉ w ->
  find_word name false (w ++ SPC :: s) = find_word name true s.
Proof.
  induction w as [|c w IH]; intros Hw; cbn [app find_word andb]; [by rewrite bool_decide_true|].
  apply not_elem_of_cons in Hw as [Hc Hw]. rewrite bool_decide_false by done. by apply IH.
Qed.

Lemma find_word_word name w s : is_name name -> SPC ∉ w ->
  find_word name true (w ++ SPC :: s) = if decide (w = name) then Some (SPC :: s) else find_word name true s.
Proof.
  intros (Hne & _ & Hn) Hw. pose proof (starts_word name w s Hn Hw) as Hst.
  destruct w as [|c w].
  - rewrite decide_False by done. cbn [app find_word]. change (SPC :: s) with ([] ++ SPC :: s) at 1.
    rewrite Hst, bool_decide_false by done. cbn [andb]. by rewrite bool_decide_true.
  - cbn [app find_word] in *. rewrite Hst. case_decide as Heq.
    + rewrite bool_decide_true by done. cbn [andb]. rewrite <- Heq.
      change (c :: w ++ SPC :: s) with ((c :: w) ++ SPC :: s). by rewrite drop_app_length.
    + rewrite bool_decide_false by done. cbn [andb]. apply not_elem_of_cons in Hw as [Hc Hw].
      rewrite bool_decide_false by done. by apply find_word_rest.
Qed.

Lemma find_word_spaces name k s : is_name name ->
  find_word name true (replicate k SPC ++ s) = find_word name true s.
Proof.
  intros Hn. induction k as [|k IH]; [done|]. cbn [replicate app].
  change (SPC :: replicate k SPC ++ s) with ([] ++ SPC :: (replicate k SPC ++ s)).
  rewrite find_word_word by (done || apply not_elem_of_nil).
  rewrite decide_False; [done|]. by destruct Hn as [? _].
Qed.

Lemma digits_no_space ds : forallb is_digit ds = true -> (SPC ∉ ds) /\ no_nul ds.
Proof.
  induction ds as [|d ds IH]; cbn [forallb].
  - intros _. split; apply not_elem_of_nil.
  - intros [Hd Hds]%andb_true_iff. destruct (digit_not_sign d Hd) as (_ & _ & _ & ? & ?).
    destruct (IH Hds). split; [|by apply no_nul_cons]. by apply not_elem_of_cons.
Qed.

(** A name with a character that is not a digit. *)
Definition not_number (n : list byte) : Prop := forallb is_digit n = false.

Lemma find_word_entry name e s : is_name name -> not_number name -> entry_ok e ->
  find_word name true (print_entry e ++ s) =
  if decide (e_name e = name)
  then Some (replicate (4 - length (decimal (e_ino e))) SPC ++ decimal (e_ino e) ++ SPC :: s)
  else find_word name true s.
Proof.
  intros Hn Hnum [(_ & _ & Hsp) Hino]. destruct (decimal_facts _ Hino) as (Hd & _ & Hlen & _).
  unfold print_entry. destruct (4 - length (decimal (e_ino e)))%nat as [|k] eqn:Hk; [lia|].
  cbn [replicate]. rewrite <- !app_assoc. cbn [app].
  rewrite find_word_word by done. case_decide; [done|].
  rewrite find_word_spaces by done.
  rewrite find_word_word; [|done|by apply digits_no_space].
  rewrite decide_False; [done|]. intros Heq. unfold not_number in Hnum. rewrite <- Heq in Hnum. congruence.
Qed.

(** The first entry of the name, in the text that [atoi] gets. *)
Lemma find_word_dir name es tl : is_name name -> not_number name -> Forall entry_ok es ->
  match find_word name true (print_dir es) with
  | Some f => of_opt (atoi (f ++ tl))
  | None => Ok (-1)
  end = Ok (dir_find es name).
Proof.
  intros Hn Hnum. unfold dir_find. induction 1 as [|e es He Hes IH]; [done|].
  change (print_dir (e :: es)) with (print_entry e ++ print_dir es).
  rewrite find_word_entry by done. cbn [list_find]. case_decide.
  - rewrite <- !app_assoc, atoi_spaces. cbn [app]. by rewrite atoi_decimal by apply He.
  - rewrite IH. by destruct (list_find _ es) as [[? ?]|].
Qed.

Lemma print_entry_no_nul e : entry_ok e -> no_nul (print_entry e).
Proof.
  intros [(_ & Hn & _) Hi]. destruct (decimal_facts _ Hi) as (Hd & _).
  unfold print_entry. rewrite !no_nul_app. split_and!; [done| |by apply digits_no_space|].
  - intros [? _]%elem_of_replicate. done.
  - by rewrite no_nul_cons; split; [|apply not_elem_of_nil].
Qed.

Lemma print_dir_no_nul es : Forall entry_ok es -> no_nul (print_dir es).
Proof.
  induction 1 as [|e es He Hes IH]; [apply not_elem_of_nil|].
  change (print_dir (e :: es)) with (print_entry e ++ print_dir es).
  apply no_nul_app. split; [by apply print_entry_no_nul|done].
Qed.

Lemma dir_scan_find (b : block) (es : list entry) (name rest : list byte) :
  is_dir b es -> Forall entry_ok es -> is_name name -> not_number name ->
  (length name <= length (print_dir es))%nat ->
  dir_scan b (name ++ NUL :: rest) = Ok (dir_find es name).
Proof.
  intros (Hb & tl & ->) Hes Hn Hnum Hl1. pose proof Hn as (Hne & Hnul & _).
  unfold is_block in Hb. change (Z.to_nat BLOCK_SIZE) with 512%nat in Hb. rewrite length_app in Hb. cbn [length] in Hb.
  unfold dir_scan. rewrite !strlen_app by (done || by apply print_dir_no_nul). rewrite u32_id by lia.
  replace (Z.of_nat (length (print_dir es)) - Z.of_nat (length name))
    with (Z.of_nat (length (print_dir es) - length name)) by lia.
  rewrite dir_loop_find; [|done|done|lia|lia|rewrite length_app; lia].
  cbn [Nat.eqb orb]. rewrite drop_0. by apply find_word_dir.
Qed.

Lemma dir_block_is_dir es : (length (print_dir es) < 512)%nat -> is_dir (dir_block es) es.
Proof.
  intros Hl. unfold dir_block. change (Z.to_nat BLOCK_SIZE) with 512%nat. split.
  - unfold is_block. rewrite length_app, length_zeros. change (Z.to_nat BLOCK_SIZE) with 512%nat. lia.
  - destruct (512 - length (print_dir es))%nat as [|k] eqn:Hk; [lia|]. by exists (zeros k).
Qed.

(** [dir_lookup] when [file_read] gives a directory. *)
Lemma dir_lookup_find {S} (file_read : Z -> Z -> M S (Z * block)) (dir_ino r : Z) (s s' : S)
    (b : block) (es : list entry) (name rest : list byte) :
  file_read dir_ino 0 s = Ok ((r, b), s') ->
  is_dir b es -> Forall entry_ok es -> is_name name -> not_number name -> (length name <= length (print_dir es))%nat ->
  dir_lookup file_read dir_ino (name ++ NUL :: rest) s = Ok (dir_find es name, s').
Proof.
  intros Hr Hb Hes Hn Hnum Hl. unfold dir_lookup. rewrite (mbind_ok _ _ _ _ _ Hr). cbv beta iota.
  unfold mlift. by rewrite (dir_scan_find b es).
Qed.

(** C24: looking a name up.  When [file_read] gives, as block 0 of the directory, a
    directory as [mkfs] prints it, with inode numbers below 1000 and a string that
    ends within the block, [dir_lookup] of a name that is not a number and not longer
    than this string returns the inode number of the first entry of that name, or -1
    when there is none, and has done nothing but read the block.  (A number can be
    taken for a name, and a longer name makes the bound of the loop wrap around:
    [dir_lookup_matches_numbers] and [dir_lookup_wraps] below.) *)
Theorem dir_lookup_correct {S} (file_read : Z -> Z -> M S (Z * block)) (dir_ino r : Z) (s s' : S)
    (b : block) (es : list entry) (name rest : list byte) :
  file_read dir_ino 0 s = Ok ((r, b), s') ->
  is_dir b es -> Forall entry_ok es -> is_name name -> not_number name -> (length name <= length (print_dir es))%nat ->
  dir_lookup file_read dir_ino (name ++ NUL :: rest) s = Ok (dir_find es name, s').
Proof. apply dir_lookup_find. Qed.

(** The root directory of [mkfs.c]. *)
Definition root_dir : list entry :=
  [{| e_name := lit "./"; e_ino := 0 |}; {| e_name := lit "../"; e_ino := 0 |};
   {| e_name := lit "home/"; e_ino := 1 |}; {| e_name := lit "bin/"; e_ino := 6 |}].

Lemma root_dir_text : print_dir root_dir = lit "./   0 ../   0 home/   1 bin/   6 ".
Proof. vm_compute. reflexivity. Qed.

#[global] Instance is_name_dec n : Decision (is_name n).
Proof. unfold is_name, no_nul. apply _. Defined.
#[global] Instance entry_ok_dec e : Decision (entry_ok e).
Proof. unfold entry_ok. apply _. Defined.

(** A file server that answers every read with the root directory, and counts. *)
Definition root_read (ino off : Z) : M nat (Z * block) := fun n => Ok ((0, dir_block root_dir), Datatypes.S n).

Lemma dir_lookup_correct_witness :
  dir_lookup root_read 0 (lit "bin/" ++ NUL :: []) 0%nat = Ok (6, 1%nat).
Proof.
  apply (dir_lookup_correct root_read 0 0 0%nat 1%nat (dir_block root_dir) root_dir (lit "bin/") []).
  - reflexivity.
  - apply dir_block_is_dir. rewrite root_dir_text. cbn. lia.
  - apply (bool_decide_unpack _). vm_compute. exact I.
  - apply (bool_decide_unpack _). vm_compute. exact I.
  - reflexivity.
  - rewrite root_dir_text. cbn. lia.
Defined.

(** An inode number is taken for a name: looking "6" up in the root directory
    finds the number of [bin/] and returns 0, the root's inode. *)
Lemma dir_lookup_matches_numbers :
  dir_find root_dir (lit "6") = -1 /\ dir_lookup root_read 0 (lit "6" ++ [NUL]) 0%nat = Ok (0, 1%nat).
Proof. split; vm_compute; reflexivity. Qed.

(** A name longer than the directory makes the bound wrap around, and the loop
    read outside the buffer. *)
Lemma dir_lookup_wraps :
  dir_scan (dir_block [{| e_name := lit "./"; e_ino := 3 |}; {| e_name := lit "../"; e_ino := 1 |}])
    (lit "a_name_of_sixteen" ++ [NUL]) = Stuck.
Proof. vm_compute. reflexivity. Qed.
