(* ===== verification/FileServer.v ===== *)
(** * The file server

    [apps/system/sys_file.c] over the disk driver and a file system, the
    message structures of [library/syscall/servers.h] that it uses, and the
    client side, [file_read] of [library/syscall/servers.c].

    Messages are bytes: the server's request and reply share one buffer, as in
    the source, and structures that the source leaves uninitialised contain
    arbitrary bytes.  The kernel's message passing lies between the two sides;
    it delivers the bytes of the message ([Kernel]). *)

From stdpp Require Import pretty options.
From coqutil Require Import Byte.
From S2P Require Import Prelude InodeStore Treedisk TreediskSpec TreediskRead TreediskWrite TreediskProps Mydisk Earth Disk DiskSpec SdSim DiskProps Process.

(** ** Messages *)

(** [enum { FILE_UNUSED, FILE_READ, FILE_WRITE }] and [enum file_status]. *)
Definition FILE_UNUSED : Z := 0.
Definition FILE_READ : Z := 1.
Definition FILE_WRITE : Z := 2.
Definition FILE_OK : Z := 0.
Definition FILE_ERROR : Z := 1.

(** [struct file_request]: three words and a block. *)
Record file_request : Type := {
  fr_type : Z;
  fr_ino : Z;
  fr_offset : Z;
  fr_block : block;
}.
Definition request_bytes (req : file_request) : list byte :=
  le_split 4 (fr_type req) ++ le_split 4 (fr_ino req) ++ le_split 4 (fr_offset req) ++ fr_block req.
Definition request_of (buf : list byte) : file_request :=
  {| fr_type := get32 buf 0; fr_ino := get32 buf 1; fr_offset := get32 buf 2;
     fr_block := take (Z.to_nat BLOCK_SIZE) (drop 12 buf) |}.

(** [struct file_reply]: a word and a block. *)
Definition reply_status (buf : list byte) : Z := get32 buf 0.
Definition reply_block (buf : list byte) : block := take (Z.to_nat BLOCK_SIZE) (drop 4 buf).
Definition set_reply_status (buf : list byte) (v : Z) : list byte := put32 buf 0 v.
Definition set_reply_block (buf : list byte) (b : block) : list byte :=
  take 4 buf ++ b ++ drop (4 + length b) buf.
Definition sizeof_file_reply : nat := Z.to_nat (4 + BLOCK_SIZE).

(** ** sys_file.c *)
Section Server.
Context {D : Type} (dev : mmio D) (plat : platform) (fuel : nat) (rom : Z -> byte).

Definition file_getsize (ino : Z) : M (disk_state D) Z := mret (FILE_SYS_DISK_SIZE / BLOCK_SIZE).
Definition file_setsize (ino newsize : Z) : M (disk_state D) Z := mfatal "cannot set size".
Definition file_read_block (ino offset : Z) (b : block) : M (disk_state D) (Z * block) :=
  b ← disk_read dev plat fuel rom (u32 (FILE_SYS_DISK_START + offset)) 1;
  mret (0, b).
Definition file_write_block (ino offset : Z) (b : block) : M (disk_state D) Z :=
  disk_write dev plat fuel (u32 (FILE_SYS_DISK_START + offset)) 1 b;;
  mret 0.

Definition disk : inode_store (disk_state D) := {|
  getsize := file_getsize;
  setsize := file_setsize;
  read := file_read_block;
  write := file_write_block;
|}.

(** The interface [fs]: [FILESYS] is a macro of the build. *)
Definition file_system (FILESYS : Z) : outcome (inode_store (disk_state D)) :=
  if FILESYS =? 0 then Ok (mydisk_init disk 0)
  else match treedisk_init 0 0 with
       | Ok (log_rpb, ts) => Ok (treedisk_store disk log_rpb ts)
       | Fatal e => Fatal e
       | Stuck => Stuck
       | NoFuel => NoFuel
       end.

(** One round of the server's loop after [sys_recv]: the reply is sent to the
    sender. *)
Definition handle_request (fs : inode_store (disk_state D)) (sender : Z) (buf : list byte) :
    M (disk_state D) (Z * list byte) :=
  if get32 buf 0 =? FILE_READ then
    '(r, b) ← read fs (get32 buf 1) (get32 buf 2) (reply_block buf);
    let buf := set_reply_block buf b in
    let buf := set_reply_status buf (if (r : Z) =? 0 then FILE_OK else FILE_ERROR) in
    mret (sender, take sizeof_file_reply buf)
  else mfatal ("sys_file: invalid request " +:+ pretty (i32 (get32 buf 0))).
End Server.

(** ** servers.c: the client *)

(** The request of [file_read]; its block is not initialised. *)
Definition file_read_request (file_ino offset : Z) (junk : block) : list byte :=
  request_bytes {| fr_type := FILE_READ; fr_ino := file_ino; fr_offset := offset; fr_block := junk |}.
(** The block and the result of [file_read], from the reply. *)
Definition file_read_result (buf : list byte) : Z * block :=
  (if reply_status buf =? FILE_OK then 0 else -1, reply_block buf).

(** ** The disk of the server is a store

    Over a card of at least 8192 blocks, the file system half of the disk
    satisfies the contract on which the file systems are proved. *)
Section spec.
Context {D C : Type} (dev : mmio D) (plat : platform) (sl : slave C).
Context (patience fuel delay : nat) (cap : Z) (rom : Z -> byte).
Context `{!SpiSpec dev plat sl patience, !SdCard sl plat cap delay}.
Context (Hfuel : fuel_ok plat patience fuel delay cap) (Hcap : 8192 <= cap).

(** The blocks of the card that hold the file system. *)
Definition fs_blocks (m : Z -> block) : list block := m <$> seqZ 4096 4096.

Definition disk_inv (s : disk_state D) : Prop :=
  dtype s = SD_CARD /\ exists m, card_holds dev plat sl patience delay cap m (dhw s).
Definition disk_view (s : disk_state D) : list block := fs_blocks (contents (spi_slave (dhw s))).

Lemma card_holds_slave m d : card_holds dev plat sl patience delay cap m d ->
  contents (spi_slave d) = m /\ forall a, is_block (m a).
Proof using Type.
  intros (n & c & [_ <-] & Hr & _ & <-). split; [done|]. intros a. by eapply sd_blocks.
Qed.

Lemma fs_blocks_lookup m (i : nat) : (i < Z.to_nat 4096)%nat ->
  fs_blocks m !! i = Some (m (4096 + Z.of_nat i)).
Proof using Type.
  intros Hi. unfold fs_blocks. rewrite list_lookup_fmap.
  rewrite lookup_seqZ_lt by lia. done.
Qed.

Lemma fs_blocks_put m i b : (i < Z.to_nat 4096)%nat ->
  fs_blocks (put_block m (4096 + Z.of_nat i) b) = <[i := b]> (fs_blocks m).
Proof using Type.
  intros Hi. apply list_eq. intros j.
  destruct (decide (j < Z.to_nat 4096)%nat) as [Hj|Hj].
  - rewrite fs_blocks_lookup by done. unfold put_block. destruct (decide (i = j)) as [<-|Hne].
    + rewrite decide_True by done. rewrite list_lookup_insert_eq; [done|].
      unfold fs_blocks. rewrite length_fmap, length_seqZ. done.
    + rewrite decide_False by lia. rewrite list_lookup_insert_ne by done. by rewrite fs_blocks_lookup.
  - rewrite !lookup_ge_None_2; [done|..]; rewrite ?length_insert; unfold fs_blocks;
      rewrite length_fmap, length_seqZ; lia.
Qed.

#[program] Definition disk_store_spec ino : StoreSpec (disk dev plat fuel rom) ino := {|
  st_inv := disk_inv;
  st_view := disk_view;
|}.
Next Obligation.
  intros _ s [_ [m Hm]]. destruct (card_holds_slave _ _ Hm) as [Hc Hb].
  unfold disk_view. rewrite Hc. unfold fs_blocks. rewrite Forall_fmap. apply Forall_true. intros x. apply Hb.
Qed.
Next Obligation.
  intros _ s _. unfold disk_view, fs_blocks. rewrite length_fmap, length_seqZ. lia.
Qed.
Next Obligation.
  intros ino s Hs. exists s. split; [|done]. cbn. unfold disk_view, fs_blocks.
  by rewrite length_fmap, length_seqZ.
Qed.
Next Obligation.
  intros ino s off buf b [Ht [m Hm]] Hoff Hb. destruct (card_holds_slave _ _ Hm) as [Hc _].
  unfold disk_view in Hb. rewrite Hc in Hb.
  assert (Z.to_nat off < Z.to_nat 4096)%nat as Hlt.
  { apply lookup_lt_Some in Hb. unfold fs_blocks in Hb. by rewrite length_fmap, length_seqZ in Hb. }
  rewrite fs_blocks_lookup, Z2Nat.id in Hb by lia. injection Hb as <-.
  destruct (wp_returns _ _ _ (wp_sd_read_loop dev plat sl patience fuel delay cap Hfuel (fun _ => False) m 1 (dhw s)
    (4096 + off) (fun r d => r = m (4096 + off) ++ [] /\ card_holds dev plat sl patience delay cap m d)
    Hm ltac:(lia) ltac:(lia) ltac:(done))) as (r & d & Hr & -> & Hd).
  exists {| dtype := dtype s; dhw := d |}. split; [|split].
  - cbn [read disk]. unfold file_read_block. change FILE_SYS_DISK_START with 4096.
    rewrite u32_id by lia. unfold disk_read.
    rewrite (mbind_ok _ _ s (m (4096 + off)) {| dtype := dtype s; dhw := d |}); [done|].
    rewrite (mbind_ok _ _ s s s) by done. rewrite decide_False by (rewrite Ht; done).
    change (Z.to_nat 1) with 1%nat. rewrite (hw_call_ok _ _ _ _ Hr). by rewrite app_nil_r.
  - split; [done|]. by exists m.
  - unfold disk_view. cbn. destruct (card_holds_slave _ _ Hd) as [-> _]. by rewrite Hc.
Qed.
Next Obligation.
  intros ino s off b [Ht [m Hm]] Hoff Hb. destruct (card_holds_slave _ _ Hm) as [Hc _].
  unfold disk_view in Hoff. unfold fs_blocks in Hoff. rewrite length_fmap, length_seqZ in Hoff.
  destruct (wp_returns _ _ _ (wp_sd_write_loop dev plat sl patience fuel delay cap Hfuel (fun _ => False) m [b] (dhw s)
    (4096 + off) (fun _ d => card_holds dev plat sl patience delay cap (put_block m (4096 + off) b) d)
    Hm ltac:(lia) ltac:(cbn; lia) ltac:(by apply Forall_singleton) ltac:(done)))
    as ([] & d & Hr & Hd).
  exists {| dtype := dtype s; dhw := d |}. split; [|split].
  - cbn [write disk]. unfold file_write_block. change FILE_SYS_DISK_START with 4096.
    rewrite u32_id by lia. unfold disk_write.
    rewrite (mbind_ok _ _ s tt {| dtype := dtype s; dhw := d |}); [done|].
    rewrite (mbind_ok _ _ s s s) by done. rewrite bool_decide_false by (rewrite Ht; done).
    cbn [panic_if]. rewrite (mbind_ok _ _ s tt s) by done. change (Z.to_nat 1) with (length [b]).
    replace (mjoin [b]) with b in Hr by (symmetry; apply app_nil_r). by rewrite (hw_call_ok _ _ _ _ Hr).
  - split; [done|]. by eexists.
  - unfold disk_view. cbn. destruct (card_holds_slave _ _ Hd) as [-> _]. rewrite Hc.
    rewrite <- fs_blocks_put by lia. by rewrite Z2Nat.id by lia.
Qed.

(** ** A read, from the request to the result *)
Lemma request_words ino off junk rest : 0 <= ino < 2 ^ 32 -> 0 <= off < 2 ^ 32 ->
  get32 (file_read_request ino off junk ++ rest) 0 = FILE_READ /\
  get32 (file_read_request ino off junk ++ rest) 1 = ino /\
  get32 (file_read_request ino off junk ++ rest) 2 = off.
Proof using Type.
  intros Hi Ho. unfold file_read_request, request_bytes. cbn [fr_type fr_ino fr_offset fr_block].
  rewrite <- !app_assoc. split_and!.
  - apply get32_head.
  - rewrite (get32_app (le_split 4 FILE_READ)) by apply length_le_split. by apply u32_id.
  - rewrite (app_assoc (le_split 4 FILE_READ)).
    rewrite (get32_app (le_split 4 FILE_READ ++ le_split 4 ino));
      [by apply u32_id|by rewrite length_app, !length_le_split].
Qed.

Lemma reply_result buf b v stale : (516 <= length buf)%nat -> is_block b -> 0 <= v < 2 ^ 32 ->
  file_read_result (take sizeof_file_reply (set_reply_status (set_reply_block buf b) v) ++ stale) =
  (if v =? FILE_OK then 0 else -1, b).
Proof using Type.
  intros Hl Hb Hv. unfold is_block in Hb. change (Z.to_nat BLOCK_SIZE) with 512%nat in Hb.
  unfold set_reply_block, set_reply_status. rewrite put32_head by (rewrite length_take; lia).
  rewrite app_assoc. change sizeof_file_reply with 516%nat.
  assert (length (le_split 4 v ++ b) = 516%nat) as Hlen
    by (rewrite length_app, length_le_split, Hb; done).
  rewrite <- Hlen at 1. rewrite take_app_length.
  unfold file_read_result, reply_status, reply_block. rewrite <- app_assoc. f_equal.
  - by rewrite get32_head, u32_id by done.
  - rewrite drop_app_ge by (by rewrite length_le_split). rewrite length_le_split, Nat.sub_diag, drop_0.
    change (Z.to_nat BLOCK_SIZE) with 512%nat. by rewrite <- Hb, take_app_length.
Qed.

Lemma file_of_block d ino o b : Forall is_block d -> file_of d ino !! o = Some b -> is_block b.
Proof using Type.
  intros Hd. unfold file_of. rewrite list_lookup_fmap. destruct (seqZ 0 _ !! o) as [x|]; [|done].
  intros [= <-]. unfold ino_get.
  assert (forall l r, is_block (default null_block (tree_get d l r x))) as H; [|by apply H].
  induction l as [|l IH]; intros r; cbn [tree_get]; destruct (r =? 0);
    [apply null_block_is_block|by apply blk_is_block|apply null_block_is_block|apply IH].
Qed.

(** The round of the server for a read, and the client's view of the reply. *)
Lemma handle_read_ok (s : disk_state D) (F : list Z) (sender ino off : Z) (junk : block)
    (rest : list byte) :
  disk_inv s -> fs_inv (disk_view s) F -> 0 <= ino < 2 ^ 32 -> 0 <= off < 2 ^ 32 -> is_block junk ->
  exists fs s' msg, file_system dev plat fuel rom 1 = Ok fs /\
    handle_request fs sender (file_read_request ino off junk ++ rest) s = Ok ((sender, msg), s') /\
    disk_inv s' /\ disk_view s' = disk_view s /\
    forall stale,
      match (if decide (ino < ninodes (disk_view s)) then file_of (disk_view s) ino !! Z.to_nat off
             else None) with
      | Some b => file_read_result (msg ++ stale) = (0, b)
      | None => (file_read_result (msg ++ stale)).1 = -1
      end.
Proof using Hfuel Hcap.
  intros Hs HF Hi Ho Hj. set (buf := file_read_request ino off junk ++ rest).
  destruct (request_words ino off junk rest Hi Ho) as (Hw0 & Hw1 & Hw2). fold buf in Hw0, Hw1, Hw2.
  assert (516 <= length buf)%nat as Hbuf.
  { unfold buf, file_read_request, request_bytes. cbn [fr_type fr_ino fr_offset fr_block].
    rewrite !length_app, !length_le_split, Hj. change (Z.to_nat BLOCK_SIZE) with 512%nat. lia. }
  assert (is_block (reply_block buf)) as Hrb.
  { unfold is_block, reply_block. change (Z.to_nat BLOCK_SIZE) with 512%nat.
    rewrite length_take, length_drop. lia. }
  pose proof (@wp_treedisk_read _ (disk dev plat fuel rom) {| below_ino := 0 |} (disk_store_spec 0)
    (fun _ => False) (disk_view s) F s ino off (reply_block buf) (conj Hs eq_refl) HF ltac:(lia) Ho) as Hwp.
  apply wp_returns in Hwp as ([r b] & s' & Hr & [Hinv Hview] & Hres).
  exists (treedisk_store (disk dev plat fuel rom) 7 {| below_ino := 0 |}), s'. eexists.
  split; [unfold file_system; by rewrite treedisk_init_log_rpb|]. split.
  { unfold handle_request. rewrite Hw0. cbn [Z.eqb]. rewrite Hw1, Hw2.
    change (FILE_READ =? FILE_READ) with true. cbn iota. cbn [read treedisk_store].
    rewrite (mbind_ok _ _ _ _ _ Hr). reflexivity. }
  split; [exact Hinv|]. split; [exact Hview|]. intros stale.
  assert (is_block b) as Hb.
  { pose proof (@st_blocks _ _ _ (disk_store_spec 0) s Hs) as Hblks. case_decide; [|congruence].
    destruct (file_of (disk_view s) ino !! Z.to_nat off) as [b'|] eqn:Hlook; [|congruence].
    injection Hres as _ ->. by eapply file_of_block. }
  assert (0 <= (if r =? 0 then FILE_OK else FILE_ERROR) < 2 ^ 32) as Hst
    by (destruct (r =? 0); unfold FILE_OK, FILE_ERROR; lia).
  rewrite (reply_result buf b _ stale Hbuf Hb Hst).
  case_decide; [destruct (file_of (disk_view s) ino !! Z.to_nat off)|]; injection Hres as -> ->; done.
Qed.
(** C22: reading a file through the server.  With a well-formed file system on
    the card, the server answers the request that [file_read] builds with a
    message to the sender from which [file_read] returns 0 and the block of the
    file at the offset, or -1 when the inode or the block does not exist; the
    card is not modified and the server can go on. *)
Theorem file_read_served (s : disk_state D) (F : list Z) (sender ino off : Z) (junk : block)
    (rest : list byte) :
  disk_inv s -> fs_inv (disk_view s) F -> 0 <= ino < 2 ^ 32 -> 0 <= off < 2 ^ 32 -> is_block junk ->
  exists fs s' msg, file_system dev plat fuel rom 1 = Ok fs /\
    handle_request fs sender (file_read_request ino off junk ++ rest) s = Ok ((sender, msg), s') /\
    disk_inv s' /\ disk_view s' = disk_view s /\
    forall stale,
      match (if decide (ino < ninodes (disk_view s)) then file_of (disk_view s) ino !! Z.to_nat off
             else None) with
      | Some b => file_read_result (msg ++ stale) = (0, b)
      | None => (file_read_result (msg ++ stale)).1 = -1
      end.
Proof using Hfuel Hcap. apply handle_read_ok. Qed.
End spec.

(** ** An instance on the simulated card *)

(** A card whose file system half is [d]. *)
Definition card_of (d : list block) : disk_state ctrl :=
  {| dtype := SD_CARD; dhw := {| on_bus := {| s_mem := fun a => blk d (a - 4096); s_stage := Transfer;
                                              s_in := []; s_out := []; s_data := None |};
                                 mosi := 0; rx := None |} |}.

Lemma card_of_inv plat d : Forall is_block d -> length d = Z.to_nat 4096 ->
  disk_inv (sim_dev plat) plat (sim_slave plat) 0 1 8192 (card_of d) /\
  @disk_view _ _ (sim_dev plat) plat (sim_slave plat) 0 1 8192 _ _ (card_of d) = d.
Proof.
  intros Hd Hlen. split.
  - split; [done|]. exists (fun a => blk d (a - 4096)). exists 0%nat, (on_bus (dhw (card_of d))).
    split; [by split|]. split; [|split; [lia|done]]. split_and!; try done.
    intros a. by apply blk_is_block.
  - unfold disk_view. cbn. apply list_eq. intros i. destruct (decide (i < Z.to_nat 4096)%nat) as [Hi|Hi].
    + rewrite fs_blocks_lookup by done. unfold blk.
      replace (Z.to_nat (4096 + Z.of_nat i - 4096)) with i by lia.
      destruct (lookup_lt_is_Some_2 d i) as [x Hx]; [lia|]. by rewrite Hx.
    + rewrite !lookup_ge_None_2; [done|lia|]. unfold fs_blocks. rewrite length_fmap, length_seqZ. lia.
Qed.

(** The disk after a block is written to inode 0 of a file system of empty files. *)
Lemma first_write d F data : holds Ramdisk.ramdisk 0 d d -> fs_inv d F -> ninodes d = 128 ->
  file_of d 0 = [] -> (11 <= length F)%nat -> is_block data ->
  exists d' F', Ramdisk.ram_ok d' /\ fs_inv d' F' /\ ninodes d' = 128 /\ file_of d' 0 = [data].
Proof.
  intros Hd Hinv Hn Hf HF Hblk.
  pose proof (wp_write_spec Ramdisk.ramdisk ram_ts d F d 0 0 data Hd Hinv ltac:(lia) ltac:(lia) Hblk) as Hwp.
  assert (blocks_needed d 0 0 <= length F)%nat as Hneed.
  { unfold blocks_needed. cbv zeta. pose proof (levels_le (Z.max (size_of d 0) (0 + 1))). lia. }
  unfold wp in Hwp. destruct (treedisk_write _ _ _ _ _ _ _) as [[r s1]| | |]; [|lia|done|done].
  destruct Hwp as (_ & d' & F' & [Hok Hview] & Hinv' & Hn' & Hfile & _).
  change (s1 = d') in Hview. subst d'. exists s1, F'. split_and!; [exact Hok|done|congruence|].
  by rewrite Hfile, Hf.
Qed.

(** A fresh file system with a byte in the file of inode 0, on the card and read
    through the server. *)
Lemma file_read_served_witness : exists d fs s' msg,
  file_system (sim_dev QEMU) QEMU 2 (fun _ => Byte.x00) 1 = Ok fs /\
  handle_request fs 7 (file_read_request 0 0 null_block ++ []) (card_of d) = Ok ((7, msg), s') /\
  file_read_result (msg ++ []) = (0, Byte.x41 :: zeros 511).
Proof.
  destruct fresh_ram_ok as (_ & Hd & Hn & Hf & F & Hinv & HF).
  destruct (first_write fresh_ram F (Byte.x41 :: zeros 511) Hd Hinv Hn (Hf 0 ltac:(lia)) ltac:(lia) eq_refl)
    as (d & F' & [Hlen Hblks] & Hinv' & Hn' & Hfile).
  destruct (card_of_inv QEMU d Hblks Hlen) as [Hci Hcv].
  destruct (file_read_served (sim_dev QEMU) QEMU (sim_slave QEMU) 0 2 1 8192 (fun _ => Byte.x00)
    (sim_fuel QEMU) ltac:(lia) (card_of d) F' 7 0 0 null_block [] Hci) as (fs & s' & msg & Hfs & Hh & _ & _ & Hres).
  - by rewrite Hcv.
  - lia.
  - lia.
  - apply null_block_is_block.
  - exists d, fs, s', msg. split; [done|]. split; [done|].
    specialize (Hres []). by rewrite Hcv, decide_True, Hfile in Hres by lia.
Defined.
