(* ===== verification/Net.v ===== *)
(** * The UDP demo: definitions

    [apps/user/udp_demo.c]: the Internet checksum, the Ethernet CRC, and the
    frame that [main] builds and hands to the Ethernet controller of the board.
    Structures are packed and little-endian. *)

From stdpp Require Import options.
From coqutil Require Import Byte.
From S2P Require Import Prelude CString Earth Disk.

(** ** Checksums *)

(** [mask = -(crc & 1); crc = (crc >> 1) ^ (0xEDB88320 & mask);] *)
Definition crc_bit (crc : Z) : Z :=
  let mask := u32 (- Z.land crc 1) in
  Z.lxor (Z.shiftr crc 1) (Z.land 0xEDB88320 mask).
(** One byte of [crc32]: eight rounds of the inner loop. *)
Definition crc_byte (crc : Z) (b : byte) : Z :=
  Nat.iter 8 crc_bit (Z.lxor crc (byte.unsigned b)).
Definition crc32 (message : list byte) : Z :=
  u32 (Z.lnot (fold_left crc_byte message 0xFFFFFFFF)).

(** The loop of [checksum] over the words of the buffer. *)
Fixpoint sum_words (n : nat) (ptr : list byte) (r : Z) : outcome Z :=
  match n with
  | O => Ok r
  | S n =>
    match ptr with
    | a :: b :: ptr =>
      sum_words n ptr (u32 (r + Z.lor (Z.shiftl (byte.unsigned a) 8) (byte.unsigned b)))
    | _ => Stuck
    end
  end.
(** [while (r >> 16) r = (r & 0xffff) + (r >> 16);] *)
Fixpoint add_overflows (fuel : nat) (r : Z) : outcome Z :=
  if Z.shiftr r 16 =? 0 then Ok r
  else match fuel with
       | O => NoFuel
       | S fuel => add_overflows fuel (u32 (Z.land r 0xFFFF + Z.shiftr r 16))
       end.
Definition checksum (r : Z) (ptr : list byte) (length : Z) (complete : bool) : outcome Z :=
  let length := Z.shiftr length 1 in
  match sum_words (Z.to_nat length) ptr r with
  | Ok r =>
    match add_overflows 2 r with
    | Ok r =>
      let r := if complete then
                 let r := Z.land (u32 (Z.lnot r)) 0xFFFF in
                 if r =? 0 then 0xFFFF else r
               else r in
      Ok (r mod 2 ^ 16)
    | o => o
    end
  | o => o
  end.

(** ** Frames *)
Definition bswap16 (v : Z) : Z := Z.lor (Z.shiftl (Z.land v 0xFF) 8) (Z.land (Z.shiftr v 8) 0xFF).
Definition bswap32 (v : Z) : Z :=
  Z.lor (Z.shiftl (bswap16 (Z.land v 0xFFFF)) 16) (bswap16 (Z.land (Z.shiftr v 16) 0xFFFF)).
Definition IPTOINT (a b c d : Z) : Z :=
  Z.lor (Z.lor (Z.lor (Z.shiftl a 24) (Z.shiftl b 16)) (Z.shiftl c 8)) d.

Record ethernet_header : Type := {
  destmac : list byte;
  srcmac : list byte;
  ethertype : Z;
}.
Record ip_header : Type := {
  version : Z; diff_services : Z; total_length : Z; identification : Z; fragment_offset : Z;
  ttl : Z; proto : Z; ip_checksum : Z; src_ip : Z; dst_ip : Z;
}.
Record udp_header : Type := {
  src_port : Z; dst_port : Z; udp_length : Z; udp_checksum : Z;
}.
Record ethernet_frame : Type := {
  eth : ethernet_header;
  ip : ip_header;
  udp : udp_header;
  payload : list byte;
}.

Definition eth_bytes (h : ethernet_header) : list byte :=
  destmac h ++ srcmac h ++ le_split 2 (ethertype h).
Definition ip_bytes (h : ip_header) : list byte :=
  le_split 1 (version h) ++ le_split 1 (diff_services h) ++ le_split 2 (total_length h) ++
  le_split 2 (identification h) ++ le_split 2 (fragment_offset h) ++ le_split 1 (ttl h) ++
  le_split 1 (proto h) ++ le_split 2 (ip_checksum h) ++ le_split 4 (src_ip h) ++ le_split 4 (dst_ip h).
Definition udp_bytes (h : udp_header) : list byte :=
  le_split 2 (src_port h) ++ le_split 2 (dst_port h) ++ le_split 2 (udp_length h) ++
  le_split 2 (udp_checksum h).
Definition frame_bytes (f : ethernet_frame) : list byte :=
  eth_bytes (eth f) ++ ip_bytes (ip f) ++ udp_bytes (udp f) ++ payload f.

(** [struct checksum_fields]: the pseudo header of UDP. *)
Definition check_bytes (src dst proto length : Z) : list byte :=
  le_split 4 src ++ le_split 4 dst ++ le_split 1 0 ++ le_split 1 proto ++ le_split 2 length.

Definition HELLO_MSG : list byte := lit "Hello from egos-2000!" ++ [Byte.x0a; Byte.x0d; Byte.x00].
Definition LOCAL_MAC : list byte := [Byte.x10; Byte.xe2; Byte.xd5; Byte.x00; Byte.x00; Byte.x00].
Definition DEST_MAC : list byte := [Byte.x98; Byte.x48; Byte.x27; Byte.x51; Byte.x53; Byte.x1e].
Definition local_ip : Z := IPTOINT 192 168 1 50.
Definition local_udp_port : Z := 8001.
Definition dest_ip : Z := IPTOINT 192 168 0 212.
Definition dest_udp_port : Z := 8002.
Definition sizeof_ip : Z := 20.
Definition sizeof_udp : Z := 8.

Definition set_ip_checksum (f : ethernet_frame) (v : Z) : ethernet_frame :=
  {| eth := eth f; payload := payload f; udp := udp f;
     ip := {| version := version (ip f); diff_services := diff_services (ip f);
              total_length := total_length (ip f); identification := identification (ip f);
              fragment_offset := fragment_offset (ip f); ttl := ttl (ip f); proto := proto (ip f);
              ip_checksum := v; src_ip := src_ip (ip f); dst_ip := dst_ip (ip f) |} |}.
Definition set_udp_checksum (f : ethernet_frame) (v : Z) : ethernet_frame :=
  {| eth := eth f; ip := ip f; payload := payload f;
     udp := {| src_port := src_port (udp f); dst_port := dst_port (udp f);
               udp_length := udp_length (udp f); udp_checksum := v |} |}.

(** The initialiser of [eth_frame], with the message in place. *)
Definition eth_frame (lip dip lport dport : Z) (msg : list byte) : ethernet_frame := {|
  eth := {| srcmac := LOCAL_MAC; destmac := DEST_MAC; ethertype := bswap16 0x0800 |};
  ip := {| version := 0x45; diff_services := 0;
           total_length := bswap16 (sizeof_ip + sizeof_udp + Z.of_nat (length msg));
           identification := bswap16 0; fragment_offset := bswap16 0x4000; ttl := 64; proto := 0x11;
           ip_checksum := 0; src_ip := bswap32 lip; dst_ip := bswap32 dip |};
  udp := {| src_port := bswap16 lport; dst_port := bswap16 dport;
            udp_length := bswap16 (sizeof_udp + Z.of_nat (length msg)); udp_checksum := 0 |};
  payload := msg;
|}.

(** The frame with its two checksums. *)
Definition udp_frame (lip dip lport dport : Z) (msg : list byte) : outcome ethernet_frame :=
  let f := eth_frame lip dip lport dport msg in
  match checksum 0 (ip_bytes (ip f)) sizeof_ip true with
  | Ok c =>
    let f := set_ip_checksum f (bswap16 c) in
    let check := check_bytes (src_ip (ip f)) (dst_ip (ip f)) (proto (ip f)) (udp_length (udp f)) in
    match checksum 0 check 12 false with
    | Ok r =>
      match checksum r (udp_bytes (udp f) ++ payload f) (sizeof_udp + Z.of_nat (length msg)) true with
      | Ok c => Ok (set_udp_checksum f (bswap16 c))
      | Fatal e => Fatal e
      | Stuck => Stuck
      | NoFuel => NoFuel
      end
    | Fatal e => Fatal e
    | Stuck => Stuck
    | NoFuel => NoFuel
    end
  | Fatal e => Fatal e
  | Stuck => Stuck
  | NoFuel => NoFuel
  end.

(** The bytes from [txbuffer] on: the frame and its CRC. *)
Definition tx_bytes (f : ethernet_frame) : list byte :=
  let tx := frame_bytes f in
  let crc := crc32 (drop 8 tx) in
  tx ++ [byte.of_Z (Z.land crc 0xFF); byte.of_Z (Z.shiftr (Z.land crc 0xFF00) 8);
         byte.of_Z (Z.shiftr (Z.land crc 0xFF0000) 16); byte.of_Z (Z.shiftr (Z.land crc 0xFF000000) 24)].

Definition ETHMAC_CSR_START_WRITE : Z := 0x18.
Definition ETHMAC_CSR_READY : Z := 0x1C.
Definition ETHMAC_CSR_SLOT_WRITE : Z := 0x24.
Definition ETHMAC_CSR_SLOT_LEN_WRITE : Z := 0x28.

(** The transmit buffer and the registers of the controller. *)
Record ethmac (D : Type) : Type := {
  txbuffer : list byte;
  csr : D;
}.
Arguments txbuffer {D} _.
Arguments csr {D} _.

Section Demo.
Context {D : Type} (dev : mmio D) (plat : platform) (fuel : nat).

Definition csr_call {A} (m : M D A) : M (ethmac D) A := fun s =>
  match m (csr s) with
  | Ok (a, d) => Ok (a, {| txbuffer := txbuffer s; csr := d |})
  | Fatal e => Fatal e
  | Stuck => Stuck
  | NoFuel => NoFuel
  end.
(** [memcpy(txbuffer, bytes, n)] *)
Definition fill_txbuffer (bs : list byte) : M (ethmac D) unit :=
  mmodify (fun s => {| txbuffer := bs ++ drop (length bs) (txbuffer s); csr := csr s |}).

Definition udp_main : M (ethmac D) Z :=
  panic_if (Z.odd (Z.of_nat (length HELLO_MSG))) "Please send a message with even length";;
  f ← mlift (udp_frame local_ip dest_ip local_udp_port dest_udp_port HELLO_MSG);
  (if decide (plat = QEMU) then mret tt
   else
     fill_txbuffer (tx_bytes f);;
     csr_call (wait_until fuel (REGW dev ETHMAC_CSR_BASE ETHMAC_CSR_READY) (fun v => negb (v =? 0)));;
     csr_call (set_REGW dev ETHMAC_CSR_BASE ETHMAC_CSR_SLOT_WRITE 0);;
     csr_call (set_REGW dev ETHMAC_CSR_BASE ETHMAC_CSR_SLOT_LEN_WRITE (Z.of_nat (length (tx_bytes f))));;
     csr_call (set_REGW dev ETHMAC_CSR_BASE ETHMAC_CSR_START_WRITE 1));;
  mret 0.
End Demo.
