(* ===== verification/NetProps.v ===== *)
(** * The UDP demo: its correctness

    The CRC and the Internet checksums of [apps/user/udp_demo.c] pass the checks
    of a receiver. *)

From stdpp Require Import options.
From coqutil Require Import Byte.
From S2P Require Import Prelude CString Earth Disk Net.

(** ** Little-endian bytes *)
#[local] Transparent le_split.
Lemma le_split_S n z : le_split (S n) z = byte.of_Z (z mod 256) :: le_split n (z / 256).
Proof.
  unfold le_split. rewrite Nat2Z.inj_succ, Z_to_little_endian_succ by lia. cbn [fmap list_fmap].
  rewrite Z.land_ones, Z.shiftr_div_pow2 by lia. done.
Qed.
Lemma le_split_0 z : le_split 0 z = [].
Proof. done. Qed.
#[local] Opaque le_split.

(** ** The CRC *)
Lemma crc_bit_eq x : 0 <= x ->
  crc_bit x = Z.lxor (Z.shiftr x 1) (if Z.testbit x 0 then 0xEDB88320 else 0).
Proof.
  intros Hx. unfold crc_bit. f_equal. change 1 with (Z.ones 1) at 1. rewrite Z.land_ones by lia.
  rewrite Z.bit0_odd. change (2 ^ 1) with 2. rewrite Zmod_odd. by destruct (Z.odd x).
Qed.

Lemma crc_bit_lxor x y : 0 <= x -> 0 <= y -> crc_bit (Z.lxor x y) = Z.lxor (crc_bit x) (crc_bit y).
Proof.
  intros Hx Hy. rewrite !crc_bit_eq by (done || by apply Z.lxor_nonneg).
  rewrite Z.shiftr_lxor, Z.lxor_spec. apply Z.bits_inj'. intros n Hn. rewrite !Z.lxor_spec.
  destruct (Z.testbit x 0), (Z.testbit y 0); cbn [xorb]; rewrite ?Z.bits_0;
    destruct (Z.testbit (Z.shiftr x 1) n), (Z.testbit (Z.shiftr y 1) n), (Z.testbit 0xEDB88320 n); done.
Qed.

Lemma crc_bit_nonneg x : 0 <= x -> 0 <= crc_bit x.
Proof.
  intros Hx. rewrite crc_bit_eq by done. apply Z.lxor_nonneg.
  rewrite Z.shiftr_nonneg. destruct (Z.testbit x 0); split; lia.
Qed.

Lemma crc_iter_nonneg n x : 0 <= x -> 0 <= Nat.iter n crc_bit x.
Proof. intros Hx. induction n as [|n IH]; [done|]. by apply crc_bit_nonneg. Qed.

Lemma crc_iter_lxor n x y : 0 <= x -> 0 <= y ->
  Nat.iter n crc_bit (Z.lxor x y) = Z.lxor (Nat.iter n crc_bit x) (Nat.iter n crc_bit y).
Proof.
  intros Hx Hy. induction n as [|n IH]; [done|].
  change (Nat.iter (S n) crc_bit ?z) with (crc_bit (Nat.iter n crc_bit z)). rewrite IH.
  apply crc_bit_lxor; by apply crc_iter_nonneg.
Qed.

(** Bits above the register only move down. *)
Lemma crc_iter_shift n z : 0 <= z -> Nat.iter n crc_bit (z * 2 ^ Z.of_nat n) = z.
Proof.
  intros Hz. revert z Hz. induction n as [|n IH]; intros z Hz; [cbn; lia|].
  rewrite Nat.iter_succ_r. rewrite Nat2Z.inj_succ, Z.pow_succ_r by lia.
  replace (z * (2 * 2 ^ Z.of_nat n)) with (2 * (z * 2 ^ Z.of_nat n)) by lia.
  assert (0 <= z * 2 ^ Z.of_nat n) by (apply Z.mul_nonneg_nonneg; lia).
  rewrite crc_bit_eq by lia. rewrite Z.testbit_even_0, Z.lxor_0_r, Z.shiftr_div_pow2 by lia.
  change (2 ^ 1) with 2. rewrite Z.mul_comm, Z.div_mul by lia. by apply IH.
Qed.

(** The bytes of [y] from register [x], as one shift of [x ^ y]. *)
Lemma crc_bytes n x y : 0 <= x -> 0 <= y < 256 ^ Z.of_nat n ->
  fold_left crc_byte (le_split n y) x = Nat.iter (8 * n) crc_bit (Z.lxor x y).
Proof.
  revert x y. induction n as [|n IH]; intros x y Hx Hy.
  - rewrite le_split_0. replace y with 0 by lia. cbn. by rewrite Z.lxor_0_r.
  - rewrite le_split_S. cbn [fold_left].
    rewrite Nat2Z.inj_succ, Z.pow_succ_r in Hy by lia.
    pose proof (Z.mod_pos_bound y 256 ltac:(lia)) as Hm.
    assert (0 <= y / 256 < 256 ^ Z.of_nat n) as Hd.
    { split; [apply Z.div_pos; lia|apply Z.div_lt_upper_bound; lia]. }
    assert (Z.lxor x y = Z.lxor (Z.lxor x (y mod 256)) (y / 256 * 2 ^ Z.of_nat 8)) as ->.
    { rewrite Z.lxor_assoc. f_equal. rewrite Z.lxor_comm.
      change (2 ^ Z.of_nat 8) with (2 ^ 8). rewrite <- Z.shiftl_mul_pow2 by lia.
      rewrite <- Z.add_nocarry_lxor by (apply land_shiftl_low; lia).
      rewrite Z.shiftl_mul_pow2 by lia. change (2 ^ 8) with 256.
      pose proof (Z.div_mod y 256 ltac:(lia)). lia. }
    replace (8 * S n)%nat with (8 * n + 8)%nat by lia. rewrite Nat.iter_add.
    rewrite crc_iter_lxor by (try apply Z.lxor_nonneg; lia).
    rewrite crc_iter_shift by lia.
    assert (crc_byte x (byte.of_Z (y mod 256)) = Nat.iter 8 crc_bit (Z.lxor x (y mod 256))) as Hb.
    { unfold crc_byte. rewrite byte.unsigned_of_Z. unfold byte.wrap.
      by rewrite (Z.mod_small (y mod 256)) by lia. }
    rewrite IH; [by rewrite Hb| |done]. rewrite Hb. apply crc_iter_nonneg, Z.lxor_nonneg. lia.
Qed.

Lemma lxor_range x y : 0 <= x < 2 ^ 32 -> 0 <= y < 2 ^ 32 -> 0 <= Z.lxor x y < 2 ^ 32.
Proof.
  intros Hx Hy. assert (Z.lxor x y = Z.lxor x y mod 2 ^ 32) as ->; [|apply Z.mod_pos_bound; lia].
  apply Z.bits_inj'. intros n Hn. destruct (decide (n < 32)).
  - by rewrite Z.mod_pow2_bits_low by lia.
  - rewrite Z.mod_pow2_bits_high, Z.lxor_spec by lia.
    rewrite <- (Z.mod_small x (2 ^ 32)), <- (Z.mod_small y (2 ^ 32)) by lia.
    by rewrite !Z.mod_pow2_bits_high by lia.
Qed.

Lemma crc_bit_range x : 0 <= x < 2 ^ 32 -> 0 <= crc_bit x < 2 ^ 32.
Proof.
  intros Hx. split; [apply crc_bit_nonneg; lia|]. rewrite crc_bit_eq by lia.
  assert (0 <= Z.shiftr x 1 < 2 ^ 32) as Hs.
  { rewrite Z.shiftr_div_pow2 by lia. split; [apply Z.div_pos; lia|apply Z.div_lt_upper_bound; lia]. }
  set (p := if Z.testbit x 0 then 0xEDB88320 else 0).
  assert (0 <= p < 2 ^ 32) as Hp by (unfold p; destruct (Z.testbit x 0); lia).
  by apply lxor_range.
Qed.

Lemma crc_fold_range msg x : 0 <= x < 2 ^ 32 -> 0 <= fold_left crc_byte msg x < 2 ^ 32.
Proof.
  revert x. induction msg as [|b msg IH]; intros x Hx; [done|]. cbn [fold_left]. apply IH.
  unfold crc_byte. assert (0 <= Z.lxor x (byte.unsigned b) < 2 ^ 32) as H.
  { pose proof (byte.unsigned_range b). apply lxor_range; lia. }
  do 8 apply crc_bit_range. exact H.
Qed.

Lemma crc32_eq msg : crc32 msg = Z.lxor (fold_left crc_byte msg 0xFFFFFFFF) 0xFFFFFFFF.
Proof.
  unfold crc32, u32. pose proof (crc_fold_range msg 0xFFFFFFFF ltac:(lia)) as Hr.
  set (x := fold_left _ _ _) in *. rewrite <- Z.land_ones by lia. apply Z.bits_inj'. intros n Hn.
  rewrite Z.land_spec, Z.lxor_spec, Z.lnot_spec by lia. change 0xFFFFFFFF with (Z.ones 32).
  destruct (decide (n < 32)).
  - rewrite !Z.ones_spec_low by lia. by destruct (Z.testbit x n).
  - rewrite !Z.ones_spec_high by lia. rewrite <- (Z.mod_small x (2 ^ 32)) by lia.
    by rewrite Z.mod_pow2_bits_high by lia.
Qed.

(** The CRC of a message followed by its CRC, least significant byte first. *)
Lemma crc_residue msg : crc32 (msg ++ le_split 4 (crc32 msg)) = 0x2144DF1C.
Proof.
  pose proof (crc_fold_range msg 0xFFFFFFFF ltac:(lia)) as Hr.
  rewrite (crc32_eq (msg ++ _)), fold_left_app, crc32_eq.
  set (x := fold_left crc_byte msg 0xFFFFFFFF) in *.
  assert (0 <= Z.lxor x 0xFFFFFFFF < 2 ^ 32) as Hy by (apply lxor_range; lia).
  rewrite crc_bytes by (change (256 ^ Z.of_nat 4) with (2 ^ 32); lia).
  rewrite <- Z.lxor_assoc, Z.lxor_nilpotent, Z.lxor_0_l. vm_compute. reflexivity.
Qed.

(** The polynomial and the conventions are those of CRC-32. *)
Lemma crc32_check_value : crc32 (lit "123456789") = 0xCBF43926.
Proof. vm_compute. reflexivity. Qed.

(** ** The Internet checksum *)

(** The sum of the big-endian words of a buffer. *)
Fixpoint wsum (bs : list byte) : Z :=
  match bs with
  | a :: b :: bs => byte.unsigned a * 256 + byte.unsigned b + wsum bs
  | _ => 0
  end.

Lemma wsum_range bs : 0 <= wsum bs /\ 2 * wsum bs <= Z.of_nat (length bs) * 65535.
Proof.
  induction bs as [bs IH] using (induction_ltof1 _ (@length byte)). unfold ltof in IH.
  destruct bs as [|a [|b bs]]; [cbn; lia|cbn; lia|].
  specialize (IH bs ltac:(cbn; lia)). cbn [wsum length].
  pose proof (byte.unsigned_range a). pose proof (byte.unsigned_range b). lia.
Qed.

Lemma wsum_app a b : Nat.even (length a) = true -> wsum (a ++ b) = wsum a + wsum b.
Proof.
  induction a as [a IH] using (induction_ltof1 _ (@length byte)). unfold ltof in IH.
  destruct a as [|x [|y a]]; [done|done|]. intros He. cbn [app wsum].
  rewrite IH; [lia|cbn; lia|exact He].
Qed.

Lemma sum_words_spec n ptr rest r : length ptr = (2 * n)%nat -> 0 <= r ->
  r + wsum ptr < 2 ^ 32 -> sum_words n (ptr ++ rest) r = Ok (r + wsum ptr).
Proof.
  revert ptr r. induction n as [|n IH]; intros ptr r Hlen Hr Hlt.
  - destruct ptr; [|done]. cbn. f_equal. lia.
  - destruct ptr as [|a [|b ptr]]; [cbn in Hlen; lia|cbn in Hlen; lia|].
    cbn [app sum_words wsum] in *. pose proof (byte.unsigned_range a). pose proof (byte.unsigned_range b).
    pose proof (wsum_range ptr). rewrite lor_shiftl_low by lia. change (2 ^ 8) with 256.
    rewrite u32_id by lia. rewrite IH; [f_equal; lia|cbn in Hlen; lia|lia|lia].
Qed.

(** The one's complement sum: congruent modulo 65535, and 0 only for 0. *)
Definition oc (r : Z) : Z := if r =? 0 then 0 else (r - 1) mod 65535 + 1.

Lemma oc_range r : 0 <= r -> 0 <= oc r <= 65535.
Proof. intros Hr. unfold oc. destruct (r =? 0); [lia|]. pose proof (Z.mod_pos_bound (r - 1) 65535). lia. Qed.

Lemma oc_small r : 0 <= r <= 65535 -> oc r = r.
Proof. intros Hr. unfold oc. destruct (Z.eqb_spec r 0); [done|]. rewrite Z.mod_small; lia. Qed.

Lemma oc_step r : 0 <= r -> oc (r mod 65536 + r / 65536) = oc r.
Proof.
  intros Hr. pose proof (Z.div_mod r 65536 ltac:(lia)) as Hdm.
  pose proof (Z.mod_pos_bound r 65536 ltac:(lia)). pose proof (Z.div_pos r 65536 Hr ltac:(lia)).
  unfold oc. destruct (Z.eqb_spec r 0) as [->|Hne]; [done|].
  destruct (Z.eqb_spec (r mod 65536 + r / 65536) 0); [lia|].
  f_equal. replace (r - 1) with (r mod 65536 + r / 65536 - 1 + r / 65536 * 65535) by lia.
  by rewrite Z.mod_add by lia.
Qed.

Lemma add_overflows_small f r : 0 <= r < 65536 -> add_overflows f r = Ok (oc r).
Proof.
  intros Hr. rewrite oc_small by lia.
  destruct f; cbn [add_overflows]; rewrite Z.shiftr_div_pow2, Z.div_small by lia; done.
Qed.

Lemma add_overflows_step f r : 65536 <= r < 2 ^ 32 ->
  add_overflows (S f) r = add_overflows f (r mod 65536 + r / 65536).
Proof.
  intros Hr. cbn [add_overflows]. change 0xFFFF with (Z.ones 16).
  rewrite Z.land_ones, Z.shiftr_div_pow2 by lia. change (2 ^ 16) with 65536.
  pose proof (Z.mod_pos_bound r 65536 ltac:(lia)).
  assert (1 <= r / 65536 < 65536) as Hq.
  { split; [apply Z.div_le_lower_bound; lia|apply Z.div_lt_upper_bound; lia]. }
  destruct (Z.eqb_spec (r / 65536) 0); [lia|]. by rewrite u32_id by lia.
Qed.

Lemma add_overflows_spec r : 0 <= r < 2 ^ 32 -> add_overflows 2 r = Ok (oc r).
Proof.
  intros Hr. destruct (decide (r < 65536)); [apply add_overflows_small; lia|].
  rewrite add_overflows_step, <- oc_step by lia.
  pose proof (Z.mod_pos_bound r 65536 ltac:(lia)).
  assert (1 <= r / 65536 < 65536) as Hq.
  { split; [apply Z.div_le_lower_bound; lia|apply Z.div_lt_upper_bound; lia]. }
  set (x := r mod 65536 + r / 65536) in *.
  destruct (decide (x < 65536)); [apply add_overflows_small; lia|].
  rewrite add_overflows_step, <- (oc_step x) by lia.
  assert (x / 65536 = 1 /\ x mod 65536 = x - 65536) as [-> ->].
  { split; [symmetry; apply (Z.div_unique x 65536 1 (x - 65536)); lia
           |symmetry; apply (Z.mod_unique x 65536 1 (x - 65536)); lia]. }
  apply add_overflows_small. lia.
Qed.

(** What [checksum] returns. *)
Definition cksum (r : Z) (complete : bool) : Z :=
  if complete then (if oc r =? 65535 then 65535 else 65535 - oc r) else oc r.

Lemma checksum_spec r ptr rest complete : Nat.even (length ptr) = true -> 0 <= r ->
  r + wsum ptr < 2 ^ 32 ->
  checksum r (ptr ++ rest) (Z.of_nat (length ptr)) complete = Ok (cksum (r + wsum ptr) complete).
Proof.
  intros He Hr Hlt. pose proof (wsum_range ptr) as Hw. unfold checksum.
  apply Nat.even_spec in He as [n Hn].
  assert (Z.to_nat (Z.shiftr (Z.of_nat (length ptr)) 1) = n) as ->.
  { rewrite Z.shiftr_div_pow2, Hn by lia. change (2 ^ 1) with 2.
    replace (Z.of_nat (2 * n)) with (Z.of_nat n * 2) by lia. rewrite Z.div_mul by lia. lia. }
  rewrite sum_words_spec by lia. rewrite add_overflows_spec by lia. cbv zeta.
  pose proof (oc_range (r + wsum ptr) ltac:(lia)) as Hoc. unfold cksum. f_equal.
  destruct complete; [|apply Z.mod_small; lia].
  set (o := oc _) in *. assert (Z.land (u32 (Z.lnot o)) 0xFFFF = 65535 - o) as ->.
  { change (Z.land ?z 0xFFFF) with (Z.land z (Z.ones 16)). rewrite Z.land_ones by lia. unfold u32, Z.lnot.
    replace (Z.pred (- o)) with (2 ^ 32 - 1 - o + (-1) * 2 ^ 32) by lia.
    rewrite Z.mod_add, (Z.mod_small _ (2 ^ 32)) by lia.
    replace (2 ^ 32 - 1 - o) with (65535 - o + 65535 * 2 ^ 16) by lia.
    rewrite Z.mod_add by lia. apply Z.mod_small. lia. }
  destruct (Z.eqb_spec (65535 - o) 0), (Z.eqb_spec o 65535); try lia; apply Z.mod_small; lia.
Qed.

(** Adding the complement makes the sum all ones. *)
Lemma oc_cksum r : 0 <= r -> oc (r + cksum r true) = 65535.
Proof.
  intros Hr. pose proof (oc_range r Hr) as Hoc. unfold cksum.
  assert (oc r mod 65535 = r mod 65535) as Hmod.
  { unfold oc. destruct (Z.eqb_spec r 0) as [->|]; [done|].
    rewrite Zplus_mod_idemp_l. f_equal. lia. }
  set (c := if oc r =? 65535 then 65535 else 65535 - oc r).
  assert (0 < r + c /\ (r + c) mod 65535 = 0) as [Hpos Hz].
  { unfold c. destruct (Z.eqb_spec (oc r) 65535) as [He|He].
    - split; [lia|]. rewrite He in Hmod. rewrite <- Zplus_mod_idemp_l, <- Hmod. done.
    - split; [lia|].
      replace (r + (65535 - oc r)) with (r - oc r + 1 * 65535) by lia. rewrite Z.mod_add by lia.
      rewrite Zminus_mod, Hmod, Z.sub_diag. done. }
  unfold oc. destruct (Z.eqb_spec (r + c) 0); [lia|].
  apply Z.mod_divide in Hz as [k Hk]; [|lia]. rewrite Hk.
  replace (k * 65535 - 1) with (65534 + (k - 1) * 65535) by lia. by rewrite Z.mod_add by lia.
Qed.

Lemma oc_add a b : 0 <= a -> 0 <= b -> oc (oc a + b) = oc (a + b).
Proof.
  intros Ha Hb. unfold oc at 2. destruct (Z.eqb_spec a 0) as [->|Hne]; [done|].
  pose proof (Z.mod_pos_bound (a - 1) 65535 ltac:(lia)). pose proof (Z.div_mod (a - 1) 65535 ltac:(lia)).
  unfold oc. destruct (Z.eqb_spec ((a - 1) mod 65535 + 1 + b) 0); [lia|].
  destruct (Z.eqb_spec (a + b) 0); [lia|]. f_equal.
  replace (a + b - 1) with ((a - 1) mod 65535 + 1 + b - 1 + (a - 1) / 65535 * 65535) by lia.
  by rewrite Z.mod_add by lia.
Qed.

(** ** The frame *)
Lemma le_split_2 v : le_split 2 v = [byte.of_Z (v mod 256); byte.of_Z (v / 256 mod 256)].
Proof. by rewrite !le_split_S, le_split_0. Qed.

Lemma unsigned_low z : byte.unsigned (byte.of_Z (z mod 256)) = z mod 256.
Proof. rewrite byte.unsigned_of_Z. unfold byte.wrap. apply Z.mod_mod. lia. Qed.

Lemma bswap16_eq c : 0 <= c < 65536 -> bswap16 c = c mod 256 * 256 + c / 256.
Proof.
  intros Hc. unfold bswap16. change 0xFF with (Z.ones 8). rewrite !Z.land_ones by lia.
  rewrite Z.shiftr_div_pow2 by lia. change (2 ^ 8) with 256.
  assert (c / 256 < 256) by (apply Z.div_lt_upper_bound; lia). pose proof (Z.div_pos c 256).
  rewrite (Z.mod_small (c / 256)) by lia. rewrite lor_shiftl_low by lia. done.
Qed.

Lemma wsum_bswap16 c : 0 <= c < 65536 -> wsum (le_split 2 (bswap16 c)) = c.
Proof.
  intros Hc. rewrite le_split_2, bswap16_eq by done. cbn [wsum]. rewrite !unsigned_low.
  assert (0 <= c / 256 < 256) as Hq by (split; [apply Z.div_pos; lia|apply Z.div_lt_upper_bound; lia]).
  pose proof (Z.mod_pos_bound c 256 ltac:(lia)). pose proof (Z.div_mod c 256 ltac:(lia)).
  rewrite (Z.add_comm (c mod 256 * 256)), Z.mod_add, Z.div_add by lia.
  rewrite (Z.mod_small (c / 256)), (Z.div_small (c / 256)) by lia.
  rewrite Z.mod_small by lia. lia.
Qed.

Lemma cksum_range r : 0 <= r -> 0 <= cksum r true < 65536.
Proof.
  intros Hr. pose proof (oc_range r Hr). unfold cksum. destruct (oc r =? 65535); lia.
Qed.

(** The words of the headers, with the checksum apart. *)
Lemma wsum_ip f c : 0 <= c < 65536 ->
  length (ip_bytes (ip f)) = 20%nat /\
  wsum (ip_bytes (ip (set_ip_checksum f (bswap16 c)))) =
  wsum (ip_bytes (ip (set_ip_checksum f 0))) + c.
Proof.
  intros Hc. split; [unfold ip_bytes; by rewrite !length_app, !length_le_split|].
  set (A := le_split 1 (version (ip f)) ++ le_split 1 (diff_services (ip f)) ++
    le_split 2 (total_length (ip f)) ++ le_split 2 (identification (ip f)) ++
    le_split 2 (fragment_offset (ip f)) ++ le_split 1 (ttl (ip f)) ++ le_split 1 (proto (ip f))).
  assert (forall v, ip_bytes (ip (set_ip_checksum f v)) =
    A ++ le_split 2 v ++ le_split 4 (src_ip (ip f)) ++ le_split 4 (dst_ip (ip f))) as Heq.
  { intros v. unfold A, ip_bytes. cbn [ip set_ip_checksum version diff_services total_length
      identification fragment_offset ttl proto ip_checksum src_ip dst_ip]. by rewrite <- !app_assoc. }
  assert (Nat.even (length A) = true) as HA by (unfold A; by rewrite !length_app, !length_le_split).
  rewrite !Heq, !(wsum_app A) by done.
  rewrite !(wsum_app (le_split 2 _)) by (by rewrite length_le_split).
  rewrite wsum_bswap16 by done. change (wsum (le_split 2 0)) with 0. lia.
Qed.

Lemma wsum_udp f c : 0 <= c < 65536 ->
  length (udp_bytes (udp f)) = 8%nat /\
  wsum (udp_bytes (udp (set_udp_checksum f (bswap16 c)))) =
  wsum (udp_bytes (udp (set_udp_checksum f 0))) + c.
Proof.
  intros Hc. split; [unfold udp_bytes; by rewrite !length_app, !length_le_split|].
  unfold udp_bytes. cbn [udp set_udp_checksum src_port dst_port udp_length udp_checksum].
  rewrite !(wsum_app (le_split 2 _)) by (by rewrite length_le_split).
  rewrite wsum_bswap16 by done. change (wsum (le_split 2 0)) with 0. lia.
Qed.

Lemma tx_crc f : exists tx, tx_bytes f = frame_bytes f ++ tx /\ tx = le_split 4 (crc32 (drop 8 (frame_bytes f))).
Proof.
  unfold tx_bytes. eexists. split; [reflexivity|]. set (c := crc32 _).
  assert (0 <= c < 2 ^ 32) as Hc by apply u32_range. clearbody c.
  assert (forall k, 0 <= k -> Z.shiftr (Z.land c (Z.shiftl (Z.ones 8) k)) k = c / 2 ^ k mod 256) as Hbyte.
  { intros k Hk. rewrite Z.shiftr_land, Z.shiftr_shiftl_l by lia. rewrite Z.sub_diag, Z.shiftl_0_r.
    rewrite Z.land_ones, Z.shiftr_div_pow2 by lia. done. }
  rewrite !le_split_S, le_split_0. repeat f_equal.
  - change 0xFF with (Z.ones 8). by rewrite Z.land_ones by lia.
  - exact (Hbyte 8 ltac:(lia)).
  - rewrite Z.div_div by lia. exact (Hbyte 16 ltac:(lia)).
  - rewrite !Z.div_div by lia. exact (Hbyte 24 ltac:(lia)).
Qed.

Lemma checksum_whole r b complete n : Nat.even (length b) = true -> 0 <= r ->
  r + wsum b < 2 ^ 32 -> n = Z.of_nat (length b) ->
  checksum r b n complete = Ok (cksum (r + wsum b) complete).
Proof.
  intros He Hr Hlt ->. pose proof (checksum_spec r b [] complete He Hr Hlt) as H.
  by rewrite app_nil_r in H.
Qed.

(** Filling in the checksum of the IP header. *)
Lemma ip_checksum_valid f : set_ip_checksum f 0 = f -> exists c,
  checksum 0 (ip_bytes (ip f)) sizeof_ip true = Ok c /\
  checksum 0 (ip_bytes (ip (set_ip_checksum f (bswap16 c)))) 20 false = Ok 0xFFFF.
Proof.
  intros Hf. pose proof (wsum_range (ip_bytes (ip f))) as Hw.
  destruct (wsum_ip f 0 ltac:(lia)) as [Hl _]. rewrite Hl in Hw.
  set (w := wsum (ip_bytes (ip f))) in *. pose proof (cksum_range w ltac:(lia)) as Hc.
  destruct (wsum_ip f (cksum w true) Hc) as [_ Hs]. rewrite Hf in Hs. fold w in Hs.
  set (f1 := set_ip_checksum f (bswap16 (cksum w true))) in *.
  assert (length (ip_bytes (ip f1)) = 20%nat) as Hl1 by apply (wsum_ip f1 0 ltac:(lia)).
  exists (cksum w true). split.
  - rewrite checksum_whole; [by rewrite Z.add_0_l|by rewrite Hl|lia|fold w; lia|by rewrite Hl].
  - fold f1. rewrite checksum_whole; [|by rewrite Hl1|lia|rewrite Hs; lia|by rewrite Hl1].
    rewrite Z.add_0_l, Hs. f_equal. apply oc_cksum. lia.
Qed.

(** Filling in the checksum of the UDP header, from the sum of the words [chk] of
    the pseudo header. *)
Lemma udp_checksum_valid f chk : set_udp_checksum f 0 = f -> length chk = 12%nat ->
  Nat.even (length (payload f)) = true -> Z.of_nat (length (payload f)) <= 65507 -> exists r c,
  checksum 0 chk 12 false = Ok r /\
  checksum r (udp_bytes (udp f) ++ payload f) (sizeof_udp + Z.of_nat (length (payload f))) true = Ok c /\
  checksum 0 (chk ++ udp_bytes (udp (set_udp_checksum f (bswap16 c))) ++ payload f)
    (20 + Z.of_nat (length (payload f))) false = Ok 0xFFFF.
Proof.
  intros Hf Hlc Heven Hlen. pose proof (wsum_range chk) as Hwc. rewrite Hlc in Hwc.
  destruct (wsum_udp f 0 ltac:(lia)) as [Hl _]. set (seg := udp_bytes (udp f) ++ payload f).
  assert (Z.of_nat (length seg) = 8 + Z.of_nat (length (payload f))) as Hls
    by (unfold seg; rewrite length_app, Hl; lia).
  assert (Nat.even (length seg) = true) as Hes by (unfold seg; rewrite length_app, Hl; exact Heven).
  pose proof (wsum_range seg) as Hws. rewrite Hls in Hws. pose proof (oc_range (wsum chk) ltac:(lia)) as Hoc.
  set (c := cksum (oc (wsum chk) + wsum seg) true).
  pose proof (cksum_range (oc (wsum chk) + wsum seg) ltac:(lia)) as Hc. fold c in Hc.
  destruct (wsum_udp f c Hc) as [_ Hs]. rewrite Hf in Hs. set (f2 := set_udp_checksum f (bswap16 c)) in *.
  assert (length (udp_bytes (udp f2)) = 8%nat) as Hl2 by apply (wsum_udp f2 0 ltac:(lia)).
  assert (wsum (udp_bytes (udp f2) ++ payload f) = wsum seg + c) as Hseg
    by (unfold seg; rewrite !wsum_app by (by rewrite ?Hl, ?Hl2); lia).
  exists (oc (wsum chk)), c. split_and!.
  - rewrite checksum_whole; [by rewrite Z.add_0_l|by rewrite Hlc|lia|lia|by rewrite Hlc].
  - rewrite checksum_whole; [done|done|lia|lia|unfold sizeof_udp; lia].
  - fold f2. rewrite checksum_whole; [|by rewrite !length_app, Hlc, Hl2|lia| |].
    + rewrite Z.add_0_l, wsum_app, Hseg by (by rewrite Hlc). cbn [cksum]. f_equal.
      rewrite <- oc_add by lia. rewrite Z.add_assoc. apply oc_cksum. lia.
    + rewrite wsum_app, Hseg by (by rewrite Hlc). lia.
    + rewrite !length_app, Hlc, Hl2. lia.
Qed.

(** C31: the frame of the demo.  For all addresses, ports and messages of even
    length that fit in a packet, [udp_demo] builds the frame of its initialiser
    with two checksums filled in, such that the words of the IP header, and those
    of the UDP pseudo header, header and message, add up to all ones, and the
    bytes from the ninth on that it hands to the controller have the residue of
    CRC-32: a receiver's three checks over these bytes succeed. *)
Theorem udp_frame_valid (lip dip lport dport : Z) (msg : list byte) :
  Nat.even (length msg) = true -> Z.of_nat (length msg) <= 65507 ->
  exists f c1 c2, udp_frame lip dip lport dport msg = Ok f /\
    f = set_udp_checksum (set_ip_checksum (eth_frame lip dip lport dport msg) c1) c2 /\
    checksum 0 (ip_bytes (ip f)) 20 false = Ok 0xFFFF /\
    checksum 0 (check_bytes (src_ip (ip f)) (dst_ip (ip f)) (proto (ip f)) (udp_length (udp f)) ++
                udp_bytes (udp f) ++ payload f) (20 + Z.of_nat (length msg)) false = Ok 0xFFFF /\
    crc32 (drop 8 (tx_bytes f)) = 0x2144DF1C.
Proof.
  intros Heven Hlen. set (f0 := eth_frame lip dip lport dport msg).
  destruct (ip_checksum_valid f0 eq_refl) as (c1 & Hc1 & Hv1). set (f1 := set_ip_checksum f0 (bswap16 c1)) in *.
  set (chk := check_bytes (src_ip (ip f1)) (dst_ip (ip f1)) (proto (ip f1)) (udp_length (udp f1))).
  assert (length chk = 12%nat) as Hlc by (unfold chk, check_bytes; by rewrite !length_app, !length_le_split).
  destruct (udp_checksum_valid f1 chk eq_refl Hlc Heven Hlen) as (r & c2 & Hr & Hc2 & Hv2).
  exists (set_udp_checksum f1 (bswap16 c2)), (bswap16 c1), (bswap16 c2). split_and!; [|done|exact Hv1|exact Hv2|].
  - unfold udp_frame. fold f0. rewrite Hc1. fold f1. fold chk. rewrite Hr.
    change (length msg) with (length (payload f1)). by rewrite Hc2.
  - destruct (tx_crc (set_udp_checksum f1 (bswap16 c2))) as (tx & -> & ->).
    rewrite drop_app_le; [apply crc_residue|]. unfold frame_bytes. rewrite !length_app.
    destruct (wsum_ip (set_udp_checksum f1 (bswap16 c2)) 0 ltac:(lia)) as [-> _]. lia.
Qed.

Lemma udp_frame_valid_witness : exists f,
  udp_frame local_ip dest_ip local_udp_port dest_udp_port HELLO_MSG = Ok f /\
  checksum 0 (ip_bytes (ip f)) 20 false = Ok 0xFFFF /\ crc32 (drop 8 (tx_bytes f)) = 0x2144DF1C.
Proof.
  destruct (udp_frame_valid local_ip dest_ip local_udp_port dest_udp_port HELLO_MSG) as
    (f & c1 & c2 & Hf & _ & Hip & _ & Hcrc); [vm_compute; reflexivity|vm_compute; discriminate|].
  by exists f.
Defined.
