(* ===== verification/Elf.v ===== *)
(** * The ELF loader: definitions

    [library/elf/elf.h] and [elf.c]: [elf_load] reads an executable block by
    block and builds the address space of a process from frames.  The reader is
    a parameter: the kernel's one reads the disk, those of the process server the
    disk and the file server.  So is the [term_write] that the loader prints with.
    It runs on any state with a machine in it. *)

From stdpp Require Import options.
From S2P Require Import Prelude CString InodeStore Earth Timer Mmu Process Tty Terminal Print Shell.

(** ** elf.h *)

(** Fields of [struct elf32_header], at their offsets in the first block. *)
Definition e_phoff (hbuf : list byte) : Z := le_combine (take 4 (drop 28 hbuf)).
Definition e_phnum (hbuf : list byte) : Z := le_combine (take 2 (drop 44 hbuf)).

(** [struct elf32_program_header] *)
Record elf32_program_header : Type := {
  p_type : Z; p_offset : Z; p_vaddr : Z; p_paddr : Z;
  p_filesz : Z; p_memsz : Z; p_flags : Z; p_align : Z;
}.
Definition sizeof_pheader : Z := 32.

(** [pheader[i]] with [pheader = hbuf + e_phoff]; outside [hbuf] it is
    undefined. *)
Definition pheader (hbuf : list byte) (i : Z) : option elf32_program_header :=
  let o := e_phoff hbuf + sizeof_pheader * i in
  if o + sizeof_pheader <=? Z.of_nat (length hbuf) then
    let b := drop (Z.to_nat o) hbuf in
    Some {| p_type := get32 b 0; p_offset := get32 b 1; p_vaddr := get32 b 2; p_paddr := get32 b 3;
            p_filesz := get32 b 4; p_memsz := get32 b 5; p_flags := get32 b 6; p_align := get32 b 7 |}
  else None.

(** ** elf.c

    The loader runs on a state that contains the machine: the machine itself, or a
    state in which the reader's device is next to it. *)
Class HasMachine (X : Type) : Type := {
  get_machine : X -> machine;
  set_machine : X -> machine -> X;
  get_set_machine x s : get_machine (set_machine x s) = s;
  set_get_machine x : set_machine x (get_machine x) = x;
}.
#[global] Instance machine_self : HasMachine machine :=
  {| get_machine s := s; set_machine _ s := s; get_set_machine _ _ := eq_refl; set_get_machine _ := eq_refl |}.

Definition on_machine {X A} `{!HasMachine X} (m : M machine A) : M X A := fun x =>
  match m (get_machine x) with
  | Ok (a, s) => Ok (a, set_machine x s)
  | Fatal e => Fatal e
  | Stuck => Stuck
  | NoFuel => NoFuel
  end.

Section Loader.
Context {X : Type} `{!HasMachine X} (e : earth machine) (tw : list byte -> nat -> M X unit) (junk : list byte).
Context (reader : Z -> M X block) (pid : Z).

(** Writes to the memory of a frame. *)
Definition frame_write (ppage_id off : Z) (bs : list byte) : M machine unit :=
  mmodify (fun s => with_mem s (
    let a := PAGE_ID_TO_ADDR ppage_id in
    <[a / PAGE_SIZE := splice (page_at (mem s) (a / PAGE_SIZE)) (Z.to_nat off) bs]> (mem s))).
(** [memset(PAGE_ID_TO_ADDR(ppage_id), 0, PAGE_SIZE)] *)
Definition frame_clear (ppage_id : Z) : M machine unit :=
  frame_write ppage_id 0 zero_page.

(** [ppage_id = earth->mmu_alloc(); earth->mmu_map(pid, vpage, ppage_id);] *)
Definition alloc_map (vpage : Z) : M machine Z :=
  ppage_id ← Earth.mmu_alloc e;
  Earth.mmu_map e pid vpage ppage_id;;
  mret ppage_id.

(** [for (off = 0; off < filesz; off += BLOCK_SIZE)]: the result is
    [curr_pageno]. *)
Fixpoint file_loop (fuel : nat) (filesz off curr_pageno curr_blockno ppage_id : Z) : M X Z :=
  if off <? filesz then
    match fuel with
    | O => mnofuel
    | S fuel =>
      '(curr_pageno, ppage_id) ←
        (if off mod PAGE_SIZE =? 0 then
           ppage_id ← on_machine (alloc_map curr_pageno);
           on_machine (frame_clear ppage_id);;
           mret (u32 (curr_pageno + 1), ppage_id)
         else mret (curr_pageno, ppage_id));
      let size := if u32 (off + BLOCK_SIZE) <? filesz then BLOCK_SIZE else filesz - off in
      buf ← reader curr_blockno;
      on_machine (frame_write ppage_id (off mod PAGE_SIZE) (take (Z.to_nat size) buf));;
      file_loop fuel filesz (u32 (off + BLOCK_SIZE)) curr_pageno (u32 (curr_blockno + 1)) ppage_id
    end
  else mret curr_pageno.

(** [while (curr_pageno < end_pageno)] *)
Fixpoint bss_loop (fuel : nat) (curr_pageno end_pageno : Z) : M X unit :=
  if curr_pageno <? end_pageno then
    match fuel with
    | O => mnofuel
    | S fuel =>
      ppage_id ← on_machine (alloc_map curr_pageno);
      on_machine (frame_clear ppage_id);;
      bss_loop fuel (u32 (curr_pageno + 1)) end_pageno
    end
  else mret tt.

(** One program header.  The fuel of the loops is their number of rounds: at
    most one per block of the file, and one per page.  The arguments of [INFO] are
    [uint]s that [va_arg] reads as [int]s. *)
Definition load_segment (ph : elf32_program_header) : M X unit :=
  let addr := p_vaddr ph in
  if addr <? RAM_START then mret tt else
  let memsz := p_memsz ph in
  let filesz := p_filesz ph in
  let curr_pageno := addr / PAGE_SIZE in
  let end_pageno := u32 (addr + memsz) / PAGE_SIZE in
  let curr_blockno := p_offset ph / BLOCK_SIZE in
  curr_pageno ← file_loop (Z.to_nat (filesz / BLOCK_SIZE + 1)) filesz 0 curr_pageno curr_blockno 0;
  bss_loop (Z.to_nat end_pageno) curr_pageno end_pageno;;
  if pid <=? GPID_SHELL
  then INFO tw junk (lit "Load 0x%x bytes to 0x%x" ++ [NUL]) [AInt (i32 filesz); AInt (i32 addr)]
  else mret tt.

(** [for (i < header->e_phnum)] from [i] with [n] headers left. *)
Fixpoint segments_loop (n : nat) (i : Z) (hbuf : list byte) : M X unit :=
  match n with
  | O => mret tt
  | S n =>
    ph ← mopt (pheader hbuf i);
    load_segment ph;;
    segments_loop n (i + 1) hbuf
  end.

(** [for (i < argc) argv_addr[i] = ...;] as the words of the page. *)
Fixpoint argv_loop (n : nat) (i : Z) (pg : page) : page :=
  match n with
  | O => pg
  | S n => argv_loop n (i + 1) (put32 pg (Z.to_nat (1 + i))
      (APPS_ARG + 4 + 4 * CMD_NARGS + i * CMD_ARG_LEN))
  end.
(** The page for [argc] and [argv]: [argv] is the bytes of the argument array,
    or nothing for a null pointer. *)
Definition write_args (argc : Z) (argv : option (list byte)) (pg : page) : page :=
  let pg := put32 pg 0 argc in
  let pg := match argv with
            | Some bs => splice pg (Z.to_nat (4 + 4 * CMD_NARGS)) (take (Z.to_nat (argc * CMD_ARG_LEN)) bs)
            | None => pg
            end in
  argv_loop (Z.to_nat argc) 0 pg.

Definition elf_load (argc : Z) (argv : option (list byte)) : M X unit :=
  hbuf ← reader 0;
  segments_loop (Z.to_nat (e_phnum hbuf)) 0 hbuf;;
  ppage_id ← on_machine (alloc_map (APPS_ARG / PAGE_SIZE));
  on_machine (mmodify (fun s => with_mem s (
    let a := PAGE_ID_TO_ADDR ppage_id in
    <[a / PAGE_SIZE := write_args argc argv (page_at (mem s) (a / PAGE_SIZE))]> (mem s))));;
  on_machine (alloc_map (SYSCALL_ARG / PAGE_SIZE));;
  on_machine (alloc_map (APPS_STACK_TOP / PAGE_SIZE - 1));;
  on_machine (alloc_map (APPS_STACK_TOP / PAGE_SIZE - 2));;
  mret tt.
End Loader.
