(* ===== verification/Devices.v ===== *)
(** * The machine with its devices

    The state that a kernel process runs on: the memory and the MMU next to the
    devices it drives through the earth interface.  The process server prints on the
    terminal and reads the disk while it loads processes into memory; this file is
    what its correctness needs of such a state. *)

From stdpp Require Import options.
From S2P Require Import Prelude CString Earth Timer Mmu Tty Terminal Print Elf.

(** A call on the machine. *)
Lemma wp_on_machine {X A} `{!HasMachine X} E (m : M machine A) (x : X) Q :
  wp E m (get_machine x) (fun a s => Q a (set_machine x s)) -> wp E (on_machine m) x Q.
Proof. unfold wp, on_machine. by destruct (m (get_machine x)) as [[a s]| | |]. Qed.

(** The earth interface on the larger state. *)
Definition lift_earth {X} `{!HasMachine X} (e : earth machine) : earth X := {|
  Earth.mmu_alloc := on_machine (Earth.mmu_alloc e);
  Earth.mmu_free pid := on_machine (Earth.mmu_free e pid);
  Earth.mmu_flush_cache := on_machine (Earth.mmu_flush_cache e);
  Earth.timer_reset core := on_machine (Earth.timer_reset e core);
  Earth.mmu_map pid v id := on_machine (Earth.mmu_map e pid v id);
  Earth.mmu_translate pid va := on_machine (Earth.mmu_translate e pid va);
  Earth.mmu_switch pid := on_machine (Earth.mmu_switch e pid);
  Earth.earth_load a n := on_machine (Earth.earth_load e a n);
  Earth.earth_store a bs := on_machine (Earth.earth_store e a bs);
|}.

(** The lifted interface keeps the contract, and what the devices need. *)
Section lift.
Context {X : Type} `{!HasMachine X} (e : earth machine) `{!EarthSpec e}.
Context (I : X -> Prop) (HI : forall x s, I x -> I (set_machine x s)).

Lemma wp_lift {A} (m : M machine A) x (P : A -> machine -> Prop) (Q : A -> X -> Prop) :
  wp (fun _ => False) m (get_machine x) P -> (forall a x', x' = set_machine x (get_machine x') -> P a (get_machine x') -> Q a x') ->
  wp (fun _ => False) (on_machine m) x Q.
Proof using Type.
  intros Hm HQ. apply wp_on_machine. eapply wp_mono; [exact Hm|]. intros a s HP. apply HQ; by rewrite get_set_machine.
Qed.

Definition lift_earth_spec : EarthSpec (lift_earth (X := X) e).
Proof using EarthSpec0 HI.
  refine {| earth_inv x := earth_inv (get_machine x) /\ I x; aspace x := aspace (get_machine x);
            vm_pid x := vm_pid (get_machine x); reaches x := reaches (get_machine x) |}.
  - intros x pid v pg [Hx _]. by apply aspace_page.
  - intros x pid [Hx Hi] Hp. eapply wp_lift; [by apply switch_spec|]. intros [] x' -> (H1 & H2 & H3).
    split_and!; [done|by apply HI|done|done].
  - intros x pid va [Hx Hi] Hp Hv. eapply wp_lift; [by apply translate_spec|]. intros pa x' -> (H1 & H2 & H3).
    split_and!; [done|by apply HI|done|done].
  - intros x pa pid va n [Hx Hi] Hr Hp. eapply wp_lift; [by apply load_spec|]. intros bs x' -> (H1 & H2 & H3).
    rewrite get_set_machine in H1. rewrite H1, set_get_machine. done.
  - intros x pa pid va bs [Hx Hi] Hr Hp. eapply wp_lift; [by apply (store_spec _ pa pid va)|]. intros [] x' -> (H1 & H2).
    split_and!; [done|by apply HI|done].
  - intros x [Hx Hi]. eapply wp_lift; [by apply flush_spec|]. intros [] x' -> (H1 & H2 & H3). split_and!; [done|by apply HI|done|done].
  - intros x core [Hx Hi]. eapply wp_lift; [by apply timer_spec|]. intros [] x' -> (H1 & H2 & H3). split_and!; [done|by apply HI|done|done].
  - intros x pid [Hx Hi] Hp. eapply wp_lift; [by apply free_spec|]. intros [] x' -> (H1 & H2 & H3). split_and!; [done|by apply HI|done|done].
Defined.
End lift.

(** What printing needs of the devices: [term_write] appends to what was printed and
    leaves the machine alone; so does the machine with the devices. *)
Class Devices {X} `{!HasMachine X} (tw : list byte -> nat -> M X unit) : Type := {
  dev_inv : X -> Prop;
  dev_out : X -> list byte;
  dev_inv_set x s : dev_inv x -> dev_inv (set_machine x s);
  dev_out_set x s : dev_out (set_machine x s) = dev_out x;
  dev_write x str tl : dev_inv x -> (length str <= Z.to_nat TERM_BUF_SIZE)%nat ->
    exists x', tw (str ++ tl) (length str) x = Ok (tt, x') /\ dev_inv x' /\
      dev_out x' = dev_out x ++ str /\ get_machine x' = get_machine x;
}.

#[global] Instance device_writer {X} `{!HasMachine X} tw `{!Devices tw} : TermWriter (R := machine) tw :=
  {| tw_inv := dev_inv; tw_out := dev_out; tw_rest := get_machine; tw_spec := dev_write |}.

(** The same for devices in a state [J o], where [o] is what they printed so far. *)
Definition writes {X} `{!HasMachine X} (tw : list byte -> nat -> M X unit) (J : list byte -> X -> Prop) : Prop :=
  forall o x str tl, J o x -> (length str <= Z.to_nat TERM_BUF_SIZE)%nat ->
  exists x', tw (str ++ tl) (length str) x = Ok (tt, x') /\ J (o ++ str) x' /\ get_machine x' = get_machine x.

Lemma device_writes {X} `{!HasMachine X} tw `{!Devices tw} : writes tw (fun o x => dev_inv x /\ dev_out x = o).
Proof. intros o x str tl [Hx <-] Hl. destruct (dev_write x str tl Hx Hl) as (x' & Hr & Hx' & Ho & Hm). by exists x'. Qed.

(** A message that fits. *)
Lemma wp_log {X} `{!HasMachine X} tw J E prefix suffix fmt args ps junk o x (Q : unit -> X -> Prop) : writes tw J ->
  fmt = fmt_of ps ++ [NUL] -> args = args_of ps -> Forall piece_ok ps -> no_nul prefix -> no_nul suffix ->
  (length (msg prefix suffix ps) < 512)%nat -> length junk = Z.to_nat TERM_BUF_SIZE -> J o x ->
  (forall x', J (o ++ msg prefix suffix ps) x' -> get_machine x' = get_machine x -> Q tt x') ->
  wp E (LOG tw junk prefix suffix fmt args) x Q.
Proof.
  intros Hw -> -> Hps Hpre Hsuf Hl Hjunk Hx HQ.
  destruct (log_is_write tw prefix suffix ps [] junk x Hpre Hsuf Hps Hjunk Hl) as [tl Hlog].
  destruct (Hw o x (msg prefix suffix ps) tl Hx) as (x' & Hr & Hx' & Hm); [change (Z.to_nat TERM_BUF_SIZE) with 512%nat; lia|].
  eapply wp_ok; [by rewrite Hlog|]. by apply HQ.
Qed.
Lemma wp_device_log {X} `{!HasMachine X} tw `{!Devices tw} E prefix suffix fmt args ps junk x (Q : unit -> X -> Prop) :
  fmt = fmt_of ps ++ [NUL] -> args = args_of ps -> Forall piece_ok ps -> no_nul prefix -> no_nul suffix ->
  (length (msg prefix suffix ps) < 512)%nat -> length junk = Z.to_nat TERM_BUF_SIZE -> dev_inv x ->
  (forall x', dev_inv x' -> dev_out x' = dev_out x ++ msg prefix suffix ps -> get_machine x' = get_machine x -> Q tt x') ->
  wp E (LOG tw junk prefix suffix fmt args) x Q.
Proof.
  intros Hf Ha Hps Hpre Hsuf Hl Hjunk Hx HQ. eapply (wp_log tw); [apply device_writes|exact Hf|exact Ha|done..|].
  intros x' [H1 H2]. by apply HQ.
Qed.

(** ** A machine whose only device is what was printed *)
Definition t_world : Type := machine * list byte.
#[global] Instance t_world_machine : HasMachine t_world.
Proof. refine {| get_machine x := x.1; set_machine x s := (s, x.2) |}; [done|by intros []]. Defined.
Definition t_write (str : list byte) (n : nat) : M t_world unit := mmodify (fun x => (x.1, x.2 ++ take n str)).
#[global] Instance t_devices : Devices t_write.
Proof.
  refine {| dev_inv _ := True; dev_out x := x.2 |}; [done|done|]. intros x str tl _ _. eexists. split; [reflexivity|].
  by rewrite take_app_length.
Defined.
Definition t_junk : list byte := zeros 512.
