(* ===== verification/ElfSpec.v ===== *)
(** * Executables: what an ELF file says

    The address space that the program headers of an executable describe, byte by
    byte, as the ELF format has it: the [p_memsz] bytes from [p_vaddr] on are the
    [p_filesz] bytes of the file from [p_offset] on, followed by null bytes.  It is
    what the loader of [library/elf/elf.c] is compared with; no rounding of the
    loader is in it.  What the loader needs of an executable is [seg_ok]. *)

From stdpp Require Import options.
From S2P Require Import Prelude CString InodeStore Earth Timer Mmu Process Tty Terminal Print Shell Elf.

(** ** Segments *)

(** Byte [o] of a file of blocks. *)
Definition file_byte (file : Z -> block) (o : Z) : byte :=
  nth (Z.to_nat (o mod BLOCK_SIZE)) (file (o / BLOCK_SIZE)) Byte.x00.

(** The byte at the address [a] in the segment of a header. *)
Definition seg_byte (file : Z -> block) (ph : elf32_program_header) (a : Z) : byte :=
  if decide (p_vaddr ph <= a < p_vaddr ph + p_filesz ph) then file_byte file (p_offset ph + (a - p_vaddr ph)) else Byte.x00.

(** A page that holds a byte of the segment.  Segments below the memory describe
    none: there is nothing to load them into. *)
Definition seg_has (ph : elf32_program_header) (v : Z) : Prop :=
  RAM_START <= p_vaddr ph /\
  Z.max (p_vaddr ph) (PAGE_SIZE * v) < Z.min (p_vaddr ph + p_memsz ph) (PAGE_SIZE * (v + 1)).
#[global] Instance seg_has_dec ph v : Decision (seg_has ph v).
Proof. unfold seg_has. apply _. Defined.

(** Page [v] of the address space with the segment in it. *)
Definition seg_page (file : Z -> block) (ph : elf32_program_header) (v : Z) : page :=
  seg_byte file ph <$> seqZ (PAGE_SIZE * v) PAGE_SIZE.

(** ** Executables *)

(** The program headers in the first block. *)
Definition headers (hbuf : list byte) : option (list elf32_program_header) :=
  mapM (pheader hbuf) (seqZ 0 (e_phnum hbuf)).

(** The pages of all segments. *)
Fixpoint exec_page (file : Z -> block) (phs : list elf32_program_header) (v : Z) : option page :=
  match phs with
  | [] => None
  | ph :: phs => if decide (seg_has ph v) then Some (seg_page file ph v) else exec_page file phs v
  end.

(** No page holds bytes of two segments. *)
Definition seg_disjoint (ph ph' : elf32_program_header) : Prop :=
  forall v, seg_has ph v -> ~ seg_has ph' v.

(** The executables that the loader supports: a segment starts at a page of the
    memory and at a block of the file, and lies below the page of the arguments; a
    page that it ends inside of holds a byte of the file ([bss_page_missing] below
    is about the others). *)
Record seg_ok (ph : elf32_program_header) : Prop := {
  so_offset : 0 <= p_offset ph < 2 ^ 32;
  so_vaddr : 0 <= p_vaddr ph < 2 ^ 32;
  so_sizes : 0 <= p_filesz ph <= p_memsz ph;
  so_aligned : RAM_START <= p_vaddr ph -> p_vaddr ph mod PAGE_SIZE = 0 /\ p_offset ph mod BLOCK_SIZE = 0;
  so_last : RAM_START <= p_vaddr ph ->
    p_memsz ph mod PAGE_SIZE = 0 \/ PAGE_SIZE * (p_memsz ph / PAGE_SIZE) < p_filesz ph;
  so_pages v : seg_has ph v -> APPS_ENTRY / PAGE_SIZE <= v < APPS_ARG / PAGE_SIZE;
}.

(** The bytes of a segment are in the blocks [dom] of the file. *)
Definition seg_blocks (dom : Z -> Prop) (ph : elf32_program_header) : Prop := RAM_START <= p_vaddr ph ->
  forall i, 0 <= i < p_filesz ph -> dom ((p_offset ph + i) / BLOCK_SIZE).

(** Files with the same bytes in the segments describe the same pages. *)
Lemma exec_page_ext file file' phs v : Forall (fun ph => RAM_START <= p_vaddr ph ->
    forall i, 0 <= i < p_filesz ph -> file_byte file (p_offset ph + i) = file_byte file' (p_offset ph + i)) phs ->
  exec_page file phs v = exec_page file' phs v.
Proof.
  induction 1 as [|ph phs Hph _ IH]; [done|]. cbn. destruct (decide (seg_has ph v)) as [[Hram _]|Hh]; [|done].
  f_equal. unfold seg_page. apply list_fmap_ext. intros _ a _. unfold seg_byte. case_decide; [|done]. apply Hph; [done|lia].
Qed.

(** ** The process *)

(** What a program finds at [APPS_ARG]: [argc], the pointers of [argv], and the
    strings they point to. *)
Record args_page (argc : Z) (argv : option (list byte)) (pg : page) : Prop := {
  ap_argc : get32 pg 0 = argc;
  ap_argv i : 0 <= i < argc -> get32 pg (Z.to_nat (1 + i)) = APPS_ARG + 68 + CMD_ARG_LEN * i;
  ap_args bs : argv = Some bs ->
    take (Z.to_nat (argc * CMD_ARG_LEN)) (drop 68 pg) = take (Z.to_nat (argc * CMD_ARG_LEN)) bs;
}.

Section load.
Context (file : Z -> block) (phs : list elf32_program_header).

(** The page of the arguments, that of system calls and those of the stack. *)
Definition fixed_pages : list Z := [0x80600; 0x80601; 0x807ff; 0x807fe].

Definition load_has (v : Z) : Prop := exec_page file phs v <> None \/ v ∈ fixed_pages.
#[global] Instance load_has_dec v : Decision (load_has v).
Proof using Type. unfold load_has. apply _. Defined.
(** All pages of the process. *)
Definition load_pages : list Z := filter load_has (seqZ (APPS_ENTRY / PAGE_SIZE) 1024).

(** Its address space, with the pages [a], [y], [t], [t'] for [fixed_pages]. *)
Definition load_image (a y t t' : page) : Z -> option page := fun v =>
  if decide (v = 0x80600) then Some a else if decide (v = 0x80601) then Some y else
  if decide (v = 0x807ff) then Some t else if decide (v = 0x807fe) then Some t' else
  exec_page file phs v.
End load.

(** ** The log *)

(** What is printed about a segment, and about an executable: nothing for an
    application. *)
Definition segment_line (ph : elf32_program_header) : list byte :=
  lit "[INFO] Load 0x" ++ hexadecimal (p_filesz ph) ++ lit " bytes to 0x" ++ hexadecimal (p_vaddr ph) ++ newline.
Fixpoint segment_lines (phs : list elf32_program_header) : list byte :=
  match phs with
  | [] => []
  | ph :: phs => (if decide (RAM_START <= p_vaddr ph) then segment_line ph else []) ++ segment_lines phs
  end.
Definition load_log (pid : Z) (phs : list elf32_program_header) : list byte :=
  if decide (pid <= GPID_SHELL) then segment_lines phs else [].
