(* ===== verification/ElfProps.v ===== *)
(** * The ELF loader: its correctness

    The address space that [elf_load] builds is the one that the executable
    describes ([ElfSpec]), with the arguments, and the pages for system calls and
    the stack. *)

From stdpp Require Import options.
From coqutil Require Import Byte.
From S2P Require Import Prelude CString InodeStore Earth Timer Mmu SoftTlb MmuProps Process Tty Terminal Print Shell Elf Devices ElfSpec.

(** ** Pages of a segment *)

(** Page [k] of [data], padded with null bytes. *)
Definition data_page (data : list byte) (k : Z) : page :=
  let d := take (Z.to_nat PAGE_SIZE) (drop (Z.to_nat (PAGE_SIZE * k)) data) in
  d ++ zeros (Z.to_nat PAGE_SIZE - length d).

Lemma data_page_is_page data k : is_page (data_page data k).
Proof.
  unfold is_page, data_page. rewrite length_app, length_zeros, length_take. lia.
Qed.

Lemma data_page_zero data k : Z.of_nat (length data) <= PAGE_SIZE * k -> data_page data k = zero_page.
Proof.
  intros Hl. unfold data_page. rewrite drop_ge by lia. by rewrite take_nil.
Qed.

(** Adding the next bytes of the data to its last page. *)
Lemma data_page_splice data k off n : 0 <= k -> PAGE_SIZE * k <= off ->
  off + n <= PAGE_SIZE * (k + 1) -> 0 <= n -> off + n <= Z.of_nat (length data) ->
  splice (data_page (take (Z.to_nat off) data) k) (Z.to_nat (off - PAGE_SIZE * k))
    (take (Z.to_nat n) (drop (Z.to_nat off) data)) =
  data_page (take (Z.to_nat (off + n)) data) k.
Proof.
  unfold PAGE_SIZE. intros Hk Hoff Hn Hn0 Hlen. unfold data_page, splice, PAGE_SIZE.
  set (a := Z.to_nat (4096 * k)). set (o := Z.to_nat off). set (m := Z.to_nat n).
  replace (Z.to_nat (off - 4096 * k)) with (o - a)%nat by (unfold o, a; lia).
  replace (Z.to_nat (off + n)) with (o + m)%nat by (unfold o, m; lia).
  assert (a <= o)%nat by (unfold a, o; lia). assert (o + m <= a + 4096)%nat by (unfold a, o, m; lia).
  assert (o + m <= length data)%nat by (unfold o, m; lia).
  change (Z.to_nat 4096) with 4096%nat in *.
  rewrite !(take_ge (drop a (take _ data))) by (rewrite length_drop, length_take; lia).
  rewrite !length_drop, !length_take, length_drop.
  replace (o `min` length data)%nat with o by lia. replace ((o + m) `min` length data)%nat with (o + m)%nat by lia.
  replace (m `min` (length data - o))%nat with m by lia.
  rewrite take_app_le by (rewrite length_drop, length_take; lia).
  rewrite take_ge by (rewrite length_drop, length_take; lia).
  rewrite drop_app_ge by (rewrite length_drop, length_take; lia).
  rewrite length_drop, length_take. replace (o `min` length data)%nat with o by lia.
  rewrite app_assoc. f_equal.
  - rewrite <- drop_app_le by (rewrite length_take; lia). f_equal. apply take_take_drop.
  - unfold zeros. rewrite drop_replicate. f_equal. lia.
Qed.

(** Pages before the end do not change. *)
Lemma data_page_full data k off off' : 0 <= k -> PAGE_SIZE * (k + 1) <= off -> off <= off' ->
  data_page (take (Z.to_nat off) data) k = data_page (take (Z.to_nat off') data) k.
Proof.
  unfold PAGE_SIZE. intros Hk Hoff Hle. unfold data_page, PAGE_SIZE.
  assert (forall x, off <= x -> take (Z.to_nat 4096) (drop (Z.to_nat (4096 * k)) (take (Z.to_nat x) data)) =
    take (Z.to_nat 4096) (drop (Z.to_nat (4096 * k)) data)) as H.
  { intros x Hx. rewrite !take_drop_commute, take_take. f_equal. f_equal. lia. }
  by rewrite !H by lia.
Qed.

Lemma take_drop_take {A} (l : list A) o m f : (o + m <= f)%nat ->
  take m (drop o (take f l)) = take m (drop o l).
Proof. intros Hle. rewrite !take_drop_commute, take_take. do 2 f_equal. lia. Qed.

(** Arithmetic of offsets that are multiples of the block size. *)
Section blocks.
Context (off j : Z) (Hoff : off = 512 * j) (Hj : 0 <= j).

Lemma block_split : exists k r, 0 <= k /\ 0 <= r < 8 /\ j = 8 * k + r /\ off / 4096 = k /\ off mod 4096 = 512 * r.
Proof using Hoff Hj.
  pose proof (Z.div_mod j 8 ltac:(lia)). pose proof (Z.mod_pos_bound j 8 ltac:(lia)).
  exists (j / 8), (j mod 8). split; [apply Z.div_pos; lia|]. split_and!; [lia|lia|lia|..].
  - symmetry. apply (Z.div_unique off 4096 (j / 8) (512 * (j mod 8))); lia.
  - symmetry. apply (Z.mod_unique off 4096 (j / 8) (512 * (j mod 8))); lia.
Qed.

Lemma block_in_page : off mod 4096 + 512 <= 4096.
Proof using Hoff Hj. destruct block_split as (k & r & ? & ? & ? & ? & ->). lia. Qed.

Lemma next_page_no : (512 * (j + 1) + 4095) / 4096 = off / 4096 + 1.
Proof using Hoff Hj.
  destruct block_split as (k & r & ? & ? & ? & -> & _). symmetry.
  apply (Z.div_unique _ 4096 (k + 1) (512 * r + 511)); lia.
Qed.

Lemma same_page : 512 * (j + 1) mod 4096 <> 0 -> off / 4096 = 512 * (j + 1) / 4096.
Proof using Hoff Hj.
  destruct block_split as (k & r & ? & ? & ? & -> & _). intros Hne.
  destruct (decide (r = 7)) as [->|].
  - destruct Hne. replace (512 * (j + 1)) with ((k + 1) * 4096) by lia. apply Z.mod_mul. lia.
  - apply (Z.div_unique _ 4096 k (512 * (r + 1))); lia.
Qed.

Lemma last_block filesz : filesz <= off < filesz + 512 -> 0 <= filesz ->
  (filesz + 4095) / 4096 = (off + 4095) / 4096.
Proof using Hoff Hj.
  intros Hf Hf0. destruct (decide (j = 0)) as [->|Hj0]; [f_equal; lia|].
  pose proof (Z.div_mod (j - 1) 8 ltac:(lia)). pose proof (Z.mod_pos_bound (j - 1) 8 ltac:(lia)).
  set (k := (j - 1) / 8) in *. set (r := (j - 1) mod 8) in *.
  transitivity (k + 1); [symmetry; apply (Z.div_unique _ 4096 (k + 1) (filesz + 4095 - 4096 * (k + 1))); lia|].
  apply (Z.div_unique _ 4096 (k + 1) (off + 4095 - 4096 * (k + 1))); lia.
Qed.
End blocks.

(** ** The page of the arguments *)

Lemma argv_loop_spec n i pg : is_page pg -> 0 <= i -> i + Z.of_nat n <= 16 ->
  let pg' := argv_loop n i pg in
  is_page pg' /\ get32 pg' 0 = get32 pg 0 /\ drop 68 pg' = drop 68 pg /\
  (forall k, 0 <= k < i -> get32 pg' (Z.to_nat (1 + k)) = get32 pg (Z.to_nat (1 + k))) /\
  forall k, i <= k < i + Z.of_nat n -> get32 pg' (Z.to_nat (1 + k)) = APPS_ARG + 68 + CMD_ARG_LEN * k.
Proof.
  revert i pg. induction n as [|n IH]; intros i pg Hpg Hi Hn; cbn [argv_loop]; [split_and!; auto; lia|].
  set (w := APPS_ARG + 4 + 4 * CMD_NARGS + i * CMD_ARG_LEN).
  destruct (IH (i + 1) (put32 pg (Z.to_nat (1 + i)) w)) as (Hp & H0 & Hd & Hlo & Hhi);
    [apply put32_is_page; [done|lia]|lia|lia|].
  split_and!; [done|..].
  - rewrite H0. apply get32_page_ne; [lia|done|lia].
  - rewrite Hd. apply drop_put32; [lia|]. rewrite Hpg. unfold PAGE_SIZE. lia.
  - intros k Hk. rewrite Hlo by lia. apply get32_page_ne; [lia|done|lia].
  - intros k Hk. destruct (decide (k = i)) as [->|]; [|apply Hhi; lia].
    rewrite Hlo by lia. rewrite get32_page_eq; [|lia|done|];
      unfold w, APPS_ARG, CMD_NARGS, CMD_ARG_LEN; lia.
Qed.

Lemma write_args_spec argc argv pg : is_page pg -> 0 <= argc <= CMD_NARGS ->
  (forall bs, argv = Some bs -> argc * CMD_ARG_LEN <= Z.of_nat (length bs)) ->
  is_page (write_args argc argv pg) /\ args_page argc argv (write_args argc argv pg).
Proof.
  unfold CMD_NARGS. intros Hpg Hargc Hargv. unfold write_args.
  pose proof (put32_is_page pg 0 argc Hpg ltac:(lia)) as Hp0.
  set (pg1 := match argv with Some _ => _ | None => _ end).
  assert (is_page pg1 /\ get32 pg1 0 = argc /\ forall bs, argv = Some bs ->
    take (Z.to_nat (argc * CMD_ARG_LEN)) (drop 68 pg1) = take (Z.to_nat (argc * CMD_ARG_LEN)) bs) as (Hp1 & H0 & Ha).
  { unfold pg1. destruct argv as [bs|]; [|split_and!; [done|apply get32_page_eq; [lia|done|lia]|done]].
    change (Z.to_nat (4 + 4 * CMD_NARGS)) with 68%nat. specialize (Hargv bs eq_refl). unfold CMD_ARG_LEN in *.
    split_and!.
    - apply splice_is_page; [rewrite length_take; lia|done].
    - rewrite get32_splice; [apply get32_page_eq; [lia|done|lia]|lia|rewrite Hp0; unfold PAGE_SIZE; lia].
    - intros ? [= <-]. unfold splice. rewrite drop_app_length' by (rewrite length_take, Hp0; unfold PAGE_SIZE; lia).
      rewrite take_app_le by (rewrite length_take; lia). rewrite take_take. f_equal. lia. }
  destruct (argv_loop_spec (Z.to_nat argc) 0 pg1 Hp1) as (Hp & Hw0 & Hd & _ & Hw); [lia|lia|].
  split; [done|]. split.
  - by rewrite Hw0.
  - intros i Hi. apply Hw. lia.
  - intros bs Hbs. rewrite Hd. by apply Ha.
Qed.

(** ** The state while a process is loaded *)
Section loading.
Context (pid : Z) (Hpid : 0 < pid) (s0 : machine) (keeps : Z -> Prop) (still : Prop) (pages : list Z).

Definition entry_free (i : nat) : Prop :=
  match page_info_table s0 !! i with Some p => use p = 0 | None => False end.
#[global] Instance entry_free_dec i : Decision (entry_free i).
Proof using Type. unfold entry_free. destruct (page_info_table s0 !! i); apply _. Defined.
(** The frames that are free when loading starts. *)
Definition free_frames : list nat := filter entry_free (seq 0 2048).

(** The frames that belong to no process: those of the kernel's page tables. *)
Definition system_frame (i : nat) (p : page_info) : Prop := page_info_table s0 !! i = Some p /\ use p <> 0 /\ pi_pid p = 0.

(** The address space of the process is [img], a part of [pages]; those of the
    processes in [keeps] are as in [s0], and every frame taken since belongs to
    the process.  When the reader leaves the machine alone ([still]), the frames of
    the system and the timer are as in [s0]. *)
Record loading (img : Z -> option page) (s : machine) : Prop := {
  ld_inv : tlb_inv s;
  ld_cur : curr_vm_pid s <> pid;
  ld_img v : tlb_aspace s pid v = img v;
  ld_keep q v : keeps q -> q <> pid -> tlb_aspace s q v = tlb_aspace s0 q v;
  ld_pages v : img v <> None -> v ∈ pages;
  ld_own i p : page_info_table s !! i = Some p -> use p <> 0 -> pi_pid p = pid \/ ~ entry_free i;
  ld_still i p : still -> system_frame i p ->
    page_info_table s !! i = Some p /\ page_at (mem s) (frame i) = page_at (mem s0) (frame i);
  ld_timer : still -> timer s = timer s0;
}.

(** The pages that may be mapped. *)
Definition allowed (v : Z) : Prop := in_window v /\ v ∈ pages.

(** Memory runs out only when there are fewer free frames than pages. *)
Definition exhausted (m : string) : Prop :=
  m = no_memory /\ (length free_frames < length pages)%nat.

Definition with_page (img : Z -> option page) (v : Z) (pg : page) : Z -> option page :=
  fun w => if decide (w = v) then Some pg else img w.

(** A write to the frame of a mapped page. *)
Lemma frame_write_aspace s v i pg q w : tlb_inv s -> curr_vm_pid s <> pid ->
  frame_of (page_info_table s) pid v = Some i ->
  tlb_aspace (with_mem s (<[frame i := pg]> (mem s))) q w =
    if decide (q = pid /\ w = v) then Some pg else tlb_aspace s q w.
Proof using Hpid.
  intros Hinv Hcur Hf. unfold tlb_aspace. cbn [with_mem page_info_table mem curr_vm_pid].
  destruct (decide (q = 0)) as [->|Hq]; [rewrite decide_False by lia; done|].
  destruct (decide (q = pid /\ w = v)) as [[-> ->]|Hne].
  - rewrite Hf. cbn [fmap option_fmap option_map]. rewrite decide_False by done.
    by rewrite page_at_insert_eq.
  - destruct (frame_of (page_info_table s) q w) as [j|] eqn:Hj; [|done]. cbn. f_equal.
    apply page_at_insert_ne. apply frame_of_iff in Hj as (p & Hp & Hu & Hpq & Hpv); [|done|done].
    case_decide.
    + intros Heq. apply (frame_not_window i). rewrite Heq, <- Hpv. apply (tlb_window _ Hinv j p); [done|done|lia].
    + intros Heq. assert (i = j) as -> by (unfold frame in Heq; lia).
      apply frame_of_iff in Hf as (p' & Hp' & _ & Hpq' & Hpv'); [|done|lia]. apply Hne. split; congruence.
Qed.

Lemma loading_write img s v i pg : loading img s -> frame_of (page_info_table s) pid v = Some i ->
  is_page pg -> loading (with_page img v pg) (with_mem s (<[frame i := pg]> (mem s))).
Proof using Hpid.
  intros [Hinv Hcur Himg Hkeep Hpages Hown Hstill Htimer] Hf Hpg. split.
  - split; try apply Hinv. intros n. cbn. destruct (decide (n = frame i)) as [->|Hn].
    + by rewrite page_at_insert_eq.
    + rewrite page_at_insert_ne by done. apply Hinv.
  - done.
  - intros w. rewrite (frame_write_aspace s v) by done. unfold with_page.
    destruct (decide (w = v)) as [->|Hw]; [by rewrite decide_True|].
    rewrite decide_False by tauto. apply Himg.
  - intros q w Hq Hne. rewrite (frame_write_aspace s v) by done. rewrite decide_False by tauto. by apply Hkeep.
  - intros w. unfold with_page. case_decide as Hw; [subst w|apply Hpages]. intros _. apply Hpages.
    rewrite <- Himg. unfold tlb_aspace. rewrite decide_False, Hf by lia. done.
  - done.
  - intros j p Hst Hsys. destruct (Hstill j p Hst Hsys) as [Hp Hm]. split; [done|]. cbn. rewrite page_at_insert_ne; [done|].
    intros Heq. assert (j = i) as -> by (unfold frame in Heq; lia).
    apply frame_of_iff in Hf as (p' & Hp' & _ & Hpp & _); [|done|lia]. destruct Hsys as (_ & _ & Hz). simplify_eq. lia.
  - done.
Qed.

Lemma loading_exhausted img s v : loading img s -> v ∈ pages -> img v = None ->
  (forall i p, page_info_table s !! i = Some p -> use p <> 0) ->
  (length free_frames < length pages)%nat.
Proof using Hpid.
  intros [Hinv Hcur Himg Hkeep Hpages Hown Hstill Htimer] Hv Hnone Huse.
  set (vp := fun i => match page_info_table s !! i with Some p => vpage_no p | None => 0 end).
  assert (forall i, i ∈ free_frames -> exists p, page_info_table s !! i = Some p /\ use p <> 0 /\
    pi_pid p = pid /\ vp i = vpage_no p /\ img (vp i) <> None) as Hfree.
  { intros i [Hfi Hi%elem_of_seq]%list_elem_of_filter.
    destruct (lookup_lt_is_Some_2 (page_info_table s) i) as [p Hp]; [rewrite (tlb_len _ Hinv); lia|].
    pose proof (Huse i p Hp) as Hu. destruct (Hown i p Hp Hu) as [Hpp|]; [|done].
    exists p. assert (vp i = vpage_no p) as Hvp by (unfold vp; by rewrite Hp). split_and!; try done.
    rewrite <- Himg. unfold tlb_aspace. rewrite decide_False by lia.
    assert (frame_of (page_info_table s) pid (vp i) = Some i) as ->; [|done].
    apply frame_of_iff; [done|lia|eauto]. }
  enough (v :: (vp <$> free_frames) ⊆+ pages) as Hsub
    by (apply submseteq_length in Hsub; rewrite length_cons, length_fmap in Hsub; lia).
  apply NoDup_submseteq; [apply NoDup_cons; split|].
  - intros (i & -> & Hi)%list_elem_of_fmap. destruct (Hfree i Hi) as (p & _ & _ & _ & _ & Hs). done.
  - apply NoDup_fmap_2_strong; [|apply NoDup_filter, NoDup_seq].
    intros i j Hi Hj Hij. destruct (Hfree i Hi) as (p & Hp & Hu & Hpp & Hvp & _).
    destruct (Hfree j Hj) as (p' & Hp' & Hu' & Hpp' & Hvp' & _).
    apply (tlb_inj _ Hinv i j p p'); congruence || lia.
  - intros w [->|(i & -> & Hi)%list_elem_of_fmap]%elem_of_cons; [done|].
    apply Hpages. by destruct (Hfree i Hi) as (p & _ & _ & _ & _ & Hs).
Qed.

Section operations.
Context (mtime : nat -> Z) (plat : platform) (tr : translation) (Hmax : pid < MMU_MAX_NPROCESS).
Abbreviation e := (mmu_init mtime plat tr).

Lemma mmu_map_eq v id : Earth.mmu_map e pid v id = soft_tlb_map pid v id \/
  Earth.mmu_map e pid v id = (panic_if (pid >=? MMU_MAX_NPROCESS) "page_table_map: pid too large";; soft_tlb_map pid v id).
Proof using Type. cbn. case_decide; [by right|by left]. Qed.

Lemma wp_mmu_map E v id s Q : wp E (soft_tlb_map pid v id) s Q -> wp E (Earth.mmu_map e pid v id) s Q.
Proof using Hmax.
  intros H. destruct (mmu_map_eq v id) as [-> | ->]; [done|]. apply wp_bind, wp_panic_if; [|done].
  rewrite Z.geb_leb. intros ?%Z.leb_le. lia.
Qed.

Lemma wp_alloc_map img s v (Q : Z -> machine -> Prop) : loading img s -> allowed v -> img v = None ->
  (forall i s' pg, frame_of (page_info_table s') pid v = Some i -> (i < 2048)%nat ->
    page_at (mem s') (frame i) = pg -> is_page pg -> loading (with_page img v pg) s' ->
    Q (Z.of_nat i) s') ->
  wp exhausted (alloc_map e pid v) s Q.
Proof using Hpid Hmax.
  intros Hl [Hv Hvp] Hnone HQ. pose proof (loading_exhausted _ _ _ Hl Hvp Hnone) as Hex.
  destruct Hl as [Hinv Hcur Himg Hkeep Hpages Hown Hstill Htimer]. unfold alloc_map. apply wp_bind.
  pose proof (tlb_len _ Hinv) as Hlen.
  apply (wp_mmu_alloc_loop _ 2048 0); [by rewrite Hlen|lia|by split; auto|].
  intros i p (Hp & Hu & _). pose proof (tlb_free _ Hinv i p Hp Hu) as Hp0.
  pose proof (lookup_lt_Some _ _ _ Hp) as Hi. rewrite Hlen in Hi.
  set (s1 := with_table s _).
  assert (tlb_inv s1) as Hinv1 by (by eapply entry_inv).
  assert (forall q w, tlb_aspace s1 q w = tlb_aspace s q w) as Has1 by (intros; by eapply entry_aspace).
  assert (page_info_table s1 !! i = Some (take_frame p)) as Hp1 by (apply list_lookup_insert_eq; lia).
  destruct (soft_tlb_map_spec s1 pid v i (take_frame p) Hinv1 Hp1 ltac:(done) Hp0 Hpid (not_eq_sym Hcur) Hv)
    as (s2 & Hmap & Hinv2 & Has2); [by rewrite Has1, Himg|].
  apply wp_bind, wp_mmu_map. eapply wp_ok; [exact Hmap|]. apply wp_ret.
  assert (s2 = with_table s1 (<[i := map_entry (take_frame p) pid v]> (page_info_table s1))) as Hs2.
  { unfold soft_tlb_map in Hmap. rewrite Nat2Z.id, Hp1 in Hmap. by injection Hmap as <-. }
  apply (HQ i s2 (page_at (mem s) (frame i))); [|done|by rewrite Hs2|apply Hinv|].
  - apply frame_of_iff; [done|lia|]. exists (map_entry (take_frame p) pid v). split; [|done].
    rewrite Hs2. apply list_lookup_insert_eq. cbn. rewrite length_insert. lia.
  - split; [done|by rewrite Hs2|..].
    + intros w. rewrite Has2, Has1. unfold with_page. destruct (decide (w = v)) as [->|Hw].
      * by rewrite decide_True.
      * rewrite decide_False by tauto. apply Himg.
    + intros q w Hq Hne. rewrite Has2, Has1. rewrite decide_False by tauto. by apply Hkeep.
    + intros w. unfold with_page. case_decide as Hw; [by subst w|apply Hpages].
    + intros j r. rewrite Hs2. cbn [with_table page_info_table].
      intros [(-> & <- & _)|[Hji Hr]]%list_lookup_insert_Some; [by left|].
      unfold s1 in Hr. cbn [with_table page_info_table] in Hr. rewrite list_lookup_insert_ne in Hr by done. by apply Hown.
    + intros j r Hst Hsys. destruct (Hstill j r Hst Hsys) as [Hr Hm]. rewrite Hs2. unfold s1. cbn [with_table page_info_table mem].
      destruct (decide (j = i)) as [->|Hji]; [destruct Hsys as (_ & Hru & _); congruence|].
      by rewrite !list_lookup_insert_ne by done.
    + intros Hst. rewrite Hs2. by apply Htimer.
Qed.

Lemma loading_ext img img' s : (forall v, img v = img' v) -> loading img s -> loading img' s.
Proof using Type.
  intros Hext [Hinv Hcur Himg Hkeep Hpages Hown Hstill Htimer]. split; [done|done| |done| |done|done|done]; intros v; [by rewrite Himg|].
  rewrite <- Hext. apply Hpages.
Qed.

(** The frame of a page holds it. *)
Lemma loading_frame img s v i : loading img s -> frame_of (page_info_table s) pid v = Some i ->
  img v = Some (page_at (mem s) (frame i)).
Proof using Hpid.
  intros [Hinv Hcur Himg _] Hf. rewrite <- Himg. unfold tlb_aspace. rewrite decide_False by lia.
  rewrite Hf. cbn. by rewrite decide_False by done.
Qed.

Lemma wp_frame_write E img s v i off bs (Q : unit -> machine -> Prop) : loading img s ->
  frame_of (page_info_table s) pid v = Some i -> (i < 2048)%nat -> (Z.to_nat off + length bs <= 4096)%nat ->
  (forall s' pg, img v = Some pg -> page_info_table s' = page_info_table s ->
    loading (with_page img v (splice pg (Z.to_nat off) bs)) s' -> Q tt s') ->
  wp E (frame_write (Z.of_nat i) off bs) s Q.
Proof using Hpid.
  intros Hl Hf Hi Hlen HQ. pose proof (loading_frame _ _ _ _ Hl Hf) as Himg.
  eapply wp_ok; [reflexivity|]. cbv zeta. rewrite frame_addr by done.
  apply (HQ _ _ Himg); [done|]. apply loading_write; [done|done|].
  apply splice_is_page; [done|]. apply (tlb_pages _ (ld_inv _ _ Hl)).
Qed.

(** ** On a larger state

    [I] is what the devices next to the machine need. *)
Context {X : Type} `{!HasMachine X} (I : X -> Prop) (HI : forall x s, I x -> I (set_machine x s)).
Abbreviation table x := (page_info_table (get_machine x)).
Definition loads (img : Z -> option page) (x : X) : Prop := loading img (get_machine x) /\ I x.

Lemma loads_ext img img' x : (forall v, img v = img' v) -> loads img x -> loads img' x.
Proof using Type. intros Hext [Hl Hx]. split; [by eapply loading_ext|done]. Qed.

Lemma wp_alloc_page img x v (Q : Z -> X -> Prop) : loads img x -> allowed v -> img v = None ->
  (forall i x' pg, frame_of (table x') pid v = Some i -> (i < 2048)%nat ->
    page_at (mem (get_machine x')) (frame i) = pg -> is_page pg -> loads (with_page img v pg) x' -> Q (Z.of_nat i) x') ->
  wp exhausted (on_machine (alloc_map e pid v)) x Q.
Proof using Hpid Hmax HI.
  intros [Hl Hx] Hv Hn HQ. apply wp_on_machine. eapply wp_alloc_map; [exact Hl|done|done|]. intros i s pg Hf Hi Hpg Hip Hl'.
  apply (HQ i _ pg); unfold loads; rewrite ?get_set_machine; [done..|]. split; [done|by apply HI].
Qed.

Lemma wp_write_page E img x v i off bs (Q : unit -> X -> Prop) : loads img x ->
  frame_of (table x) pid v = Some i -> (i < 2048)%nat -> (Z.to_nat off + length bs <= 4096)%nat ->
  (forall x' pg, img v = Some pg -> table x' = table x ->
    loads (with_page img v (splice pg (Z.to_nat off) bs)) x' -> Q tt x') ->
  wp E (on_machine (frame_write (Z.of_nat i) off bs)) x Q.
Proof using Hpid HI.
  intros [Hl Hx] Hf Hi Hlen HQ. apply wp_on_machine. eapply wp_frame_write; [exact Hl|done|done|done|]. intros s pg Hpg Ht Hl'.
  apply (HQ _ pg); unfold loads; rewrite ?get_set_machine; [done..|]. split; [done|by apply HI].
Qed.

(** ** The reader

    Reading a block [n] in [dom] of the executable gives [file n]; it may drive a
    device or run other code (a message to the file server), which leaves the frames
    of this process and the processes in [keeps] alone. *)
Context (reader : Z -> M X block) (file : Z -> block) (dom : Z -> Prop).
Record reader_ok : Prop := {
  rd_block n : is_block (file n);
  rd_read n x : dom n -> I x -> tlb_inv (get_machine x) -> curr_vm_pid (get_machine x) <> pid ->
    exists x', reader n x = Ok (file n, x') /\ I x' /\
    tlb_inv (get_machine x') /\ curr_vm_pid (get_machine x') <> pid /\ table x' = table x /\
    forall q v, q = pid \/ keeps q -> tlb_aspace (get_machine x') q v = tlb_aspace (get_machine x) q v;
}.
Context (Hrd : reader_ok).
Context (Hread : still -> forall n x b x', reader n x = Ok (b, x') -> get_machine x' = get_machine x).

Lemma wp_reader E n img x (Q : block -> X -> Prop) : dom n -> loads img x ->
  (forall x', loads img x' -> table x' = table x -> Q (file n) x') ->
  wp E (reader n) x Q.
Proof using Hrd Hread.
  intros Hn [[Hinv Hcur Himg Hkeep Hpages Hown Hstill Htimer] Hx] HQ.
  destruct (rd_read Hrd n x Hn Hx Hinv Hcur) as (x' & Hr & Hx' & Hi & Hc & Ht & Ha).
  eapply wp_ok; [exact Hr|]. apply HQ; [|done]. split; [|done]. split; [done|done|..].
  - intros v. rewrite Ha by auto. apply Himg.
  - intros q v Hq Hne. rewrite Ha by auto. by apply Hkeep.
  - done.
  - by rewrite Ht.
  - intros i p Hst. rewrite (Hread Hst _ _ _ _ Hr). by apply Hstill.
  - intros Hst. rewrite (Hread Hst _ _ _ _ Hr). by apply Htimer.
Qed.

(** The bytes of the file from block [b] on, [n] blocks. *)
Definition fdata (b n : Z) : list byte := mjoin (fmap (B := list byte) file (seqZ b n)).

Lemma length_fdata b n : 0 <= n -> Z.of_nat (length (fdata b n)) = 512 * n.
Proof using Hrd.
  intros Hn. unfold fdata. rewrite <- (Z2Nat.id n) by done. generalize (Z.to_nat n). clear n Hn. intros n.
  revert b. induction n as [|n IH]; intros b; [done|].
  rewrite Nat2Z.inj_succ, seqZ_cons, Z.pred_succ by lia. cbn. rewrite length_app.
  rewrite (rd_block Hrd b). change (Z.to_nat BLOCK_SIZE) with 512%nat.
  rewrite Nat2Z.inj_add, IH. lia.
Qed.

(** Block [j] of these bytes. *)
Lemma fdata_block b n j size : 0 <= j < n -> 0 <= size <= 512 ->
  take (Z.to_nat size) (drop (Z.to_nat (512 * j)) (fdata b n)) = take (Z.to_nat size) (file (b + j)).
Proof using Hrd.
  intros Hj Hs. unfold fdata.
  assert (seqZ b n = seqZ b j ++ seqZ (b + j) (n - j)) as ->.
  { rewrite <- seqZ_app by lia. f_equal. lia. }
  rewrite fmap_app, join_app. pose proof (length_fdata b j ltac:(lia)) as Hl. unfold fdata in Hl.
  rewrite drop_app_ge by lia. replace (_ - _)%nat with 0%nat by lia.
  rewrite drop_0, seqZ_cons by lia. cbn. rewrite take_app_le; [done|].
  rewrite (rd_block Hrd (b + j)). change (Z.to_nat BLOCK_SIZE) with 512%nat. lia.
Qed.

(** The pages of the first [off] bytes of [data] at page [base]. *)
Definition file_image (base : Z) (data : list byte) (off : Z) (img : Z -> option page) : Z -> option page :=
  fun v => if decide (base <= v /\ PAGE_SIZE * (v - base) < off)
           then Some (data_page (take (Z.to_nat off) data) (v - base)) else img v.

(** One block more. *)
Lemma file_image_step base data off n img v : 0 <= off -> 0 < n -> off + n <= Z.of_nat (length data) ->
  off mod PAGE_SIZE + n <= PAGE_SIZE ->
  with_page (with_page (file_image base data off img) (base + off / PAGE_SIZE)
      (data_page (take (Z.to_nat off) data) (off / PAGE_SIZE)))
    (base + off / PAGE_SIZE)
    (splice (data_page (take (Z.to_nat off) data) (off / PAGE_SIZE)) (Z.to_nat (off mod PAGE_SIZE))
       (take (Z.to_nat n) (drop (Z.to_nat off) data))) v =
  file_image base data (off + n) img v.
Proof using Type.
  intros Hoff Hn Hlen Hpage. unfold PAGE_SIZE in *.
  pose proof (Z.div_mod off 4096 ltac:(lia)) as Hdm. pose proof (Z.mod_pos_bound off 4096 ltac:(lia)).
  set (k := off / 4096) in *. assert (0 <= k) by (apply Z.div_pos; lia).
  unfold with_page, file_image, PAGE_SIZE. destruct (decide (v = base + k)) as [->|Hv].
  - rewrite decide_True by lia. replace (base + k - base) with k by lia. f_equal.
    replace (off mod 4096) with (off - 4096 * k) by lia. by apply (data_page_splice data k off n); unfold PAGE_SIZE; lia.
  - destruct (decide (base <= v /\ 4096 * (v - base) < off)) as [[Hb Hlt]|Hnot].
    + rewrite decide_True by lia. f_equal. apply data_page_full; unfold PAGE_SIZE; lia.
    + rewrite decide_False by lia. done.
Qed.

(** The page for the next block, new or not. *)
Lemma wp_next_page base data off id filesz img s (Q : Z * Z -> X -> Prop) :
  0 <= off < filesz -> off mod 512 = 0 -> 0 <= base -> base + filesz < 2 ^ 32 ->
  (forall v, base <= v -> PAGE_SIZE * (v - base) < filesz -> allowed v /\ img v = None) ->
  loads (file_image base data off img) s ->
  (off mod PAGE_SIZE <> 0 -> exists i, id = Z.of_nat i /\ (i < 2048)%nat /\
     frame_of (table s) pid (base + off / PAGE_SIZE) = Some i) ->
  (forall i s', (i < 2048)%nat -> frame_of (table s') pid (base + off / PAGE_SIZE) = Some i ->
     loads (with_page (file_image base data off img) (base + off / PAGE_SIZE)
       (data_page (take (Z.to_nat off) data) (off / PAGE_SIZE))) s' ->
     Q (base + off / PAGE_SIZE + 1, Z.of_nat i) s') ->
  wp exhausted
    (if off mod PAGE_SIZE =? 0 then
       ppage_id ← on_machine (alloc_map e pid (base + (off + 4095) / PAGE_SIZE));
       on_machine (frame_clear ppage_id);;
       mret (u32 (base + (off + 4095) / PAGE_SIZE + 1), ppage_id)
     else mret (base + (off + 4095) / PAGE_SIZE, id)) s Q.
Proof using Hpid Hmax HI.
  unfold PAGE_SIZE. intros Hoff Hmod Hbase Hb Hseg Hl Hid HQ.
  pose proof (Z.div_mod off 4096 ltac:(lia)) as Hdm. pose proof (Z.mod_pos_bound off 4096 ltac:(lia)) as Hm.
  set (k := off / 4096) in *. assert (0 <= k) by (apply Z.div_pos; lia).
  destruct (Z.eqb_spec (off mod 4096) 0) as [H0|H0].
  - assert ((off + 4095) / 4096 = k) as ->.
    { symmetry. apply (Z.div_unique (off + 4095) 4096 k 4095); lia. }
    destruct (Hseg (base + k)) as [Hw Hn]; [lia|lia|].
    apply wp_bind. eapply (wp_alloc_page (file_image base data off img)); [done|done| |].
    { unfold file_image, PAGE_SIZE. rewrite decide_False by lia. done. }
    intros i s1 pg Hf Hi Hpg Hip Hl1. apply wp_bind.
    eapply (wp_write_page _ _ _ _ _ 0 zero_page); [exact Hl1|done|done|unfold zero_page; rewrite length_zeros; unfold PAGE_SIZE; lia|].
    intros s2 pg' Hpg' Ht Hl2. apply wp_ret. rewrite u32_id by lia. apply HQ; [done|by rewrite Ht|].
    eapply loads_ext; [|exact Hl2]. intros w. unfold with_page. destruct (decide (w = base + k)); [|done].
    f_equal. rewrite data_page_zero by (unfold PAGE_SIZE; rewrite length_take; lia).
    unfold splice. cbn [Z.to_nat take app]. rewrite drop_ge; [apply app_nil_r|].
    unfold with_page in Hpg'. rewrite decide_True in Hpg' by done. injection Hpg' as <-.
    rewrite Hip. unfold zero_page. by rewrite length_zeros.
  - destruct (Hid H0) as (i & -> & Hi & Hf). apply wp_ret.
    replace ((off + 4095) / 4096) with (k + 1).
    2:{ apply (Z.div_unique (off + 4095) 4096 (k + 1) (off mod 4096 - 1)); lia. }
    rewrite Z.add_assoc. apply HQ; [done|done|]. eapply loads_ext; [|exact Hl]. intros w. unfold with_page.
    destruct (decide (w = base + k)) as [->|]; [|done]. unfold file_image, PAGE_SIZE.
    rewrite decide_True by lia. by replace (base + k - base) with k by lia.
Qed.

Lemma wp_file_loop base b nb fuel j id filesz img s (Q : Z -> X -> Prop) :
  let data := take (Z.to_nat filesz) (fdata b nb) in
  let off := 512 * j in
  0 <= b -> b + nb < 2 ^ 32 -> 0 <= j -> 0 <= filesz <= 512 * nb -> 512 * nb < 2 ^ 32 - 512 ->
  filesz <= 512 * (j + Z.of_nat fuel) -> off < filesz + 512 ->
  0 <= base -> base + filesz < 2 ^ 32 ->
  (forall v, base <= v -> PAGE_SIZE * (v - base) < filesz -> allowed v /\ img v = None) ->
  (forall i, j <= i -> 512 * i < filesz -> dom (b + i)) ->
  loads (file_image base data (Z.min off filesz) img) s ->
  (off mod PAGE_SIZE <> 0 -> off < filesz -> exists i, id = Z.of_nat i /\ (i < 2048)%nat /\
     frame_of (table s) pid (base + off / PAGE_SIZE) = Some i) ->
  (forall s', loads (file_image base data filesz img) s' ->
     Q (base + (filesz + 4095) / PAGE_SIZE) s') ->
  wp exhausted
    (file_loop e reader pid fuel filesz off (base + (off + 4095) / PAGE_SIZE) (b + j) id) s Q.
Proof using Hpid Hmax HI Hrd Hread.
  revert j id s. induction fuel as [|fuel IH]; intros j id s data off Hb0 Hbn Hj Hfs Hnb Hfuel Hoff Hbase Hbf Hseg Hdom Hl Hid HQ;
    cbn [file_loop]; destruct (Z.ltb_spec off filesz) as [Hlt|Hge]; [lia| | |];
    try (apply wp_ret; replace (base + (off + 4095) / PAGE_SIZE) with (base + (filesz + 4095) / PAGE_SIZE)
           by (f_equal; unfold PAGE_SIZE; apply (last_block off j); unfold off in *; lia);
         apply HQ; by rewrite Z.min_r in Hl by lia).
  rewrite Z.min_l in Hl by lia. apply wp_bind.
  eapply (wp_next_page base data off id filesz img); [lia|unfold off; rewrite Z.mul_comm; apply Z.mod_mul; lia|done|done|done|done|auto|].
  intros i s1 Hi Hf Hl1. set (size := if u32 (off + BLOCK_SIZE) <? filesz then BLOCK_SIZE else filesz - off).
  assert (size = Z.min 512 (filesz - off)) as Hsize.
  { unfold size, BLOCK_SIZE. rewrite u32_id by lia. destruct (Z.ltb_spec (off + 512) filesz); lia. }
  pose proof (length_fdata b nb ltac:(lia)) as Hfd.
  assert (Z.of_nat (length data) = filesz) as Hdl by (unfold data; rewrite length_take; lia).
  assert (off mod PAGE_SIZE + 512 <= PAGE_SIZE) as Hpage by (unfold PAGE_SIZE; apply (block_in_page off j); done).
  assert (0 <= off mod PAGE_SIZE) by (apply Z.mod_pos_bound; done).
  apply wp_bind. eapply wp_reader; [apply Hdom; lia|exact Hl1|]. intros s2 Hl2 Ht2. apply wp_bind.
  assert (take (Z.to_nat size) (file (b + j)) = take (Z.to_nat size) (drop (Z.to_nat off) data)) as ->.
  { unfold data. rewrite <- (fdata_block b nb j size) by lia. symmetry. apply take_drop_take. lia. }
  eapply (wp_write_page _ _ _ _ i); [exact Hl2|by rewrite Ht2|done| |].
  { rewrite length_take. unfold PAGE_SIZE in *. lia. }
  intros s3 pg Hpg Ht3 Hl3. unfold with_page in Hpg. rewrite decide_True in Hpg by done. injection Hpg as <-.
  unfold BLOCK_SIZE. rewrite !u32_id by lia.
  replace (off + 512) with (512 * (j + 1)) by (unfold off; lia). replace (b + j + 1) with (b + (j + 1)) by lia.
  replace (base + off / PAGE_SIZE + 1) with (base + (512 * (j + 1) + 4095) / PAGE_SIZE)
    by (unfold PAGE_SIZE; rewrite <- Z.add_assoc; f_equal; apply (next_page_no off j); done).
  apply IH; try done; try lia.
  - intros i' Hi'. apply Hdom. lia.
  - replace (Z.min (512 * (j + 1)) filesz) with (off + size) by (unfold off in *; lia).
    eapply loads_ext; [|exact Hl3]. intros v.
    apply (file_image_step base data off size img v); [lia|lia|fold data; lia|lia].
  - intros Hmod' Hlt'. exists i. split_and!; [done|done|]. rewrite Ht3, Ht2.
    replace (512 * (j + 1) / PAGE_SIZE) with (off / PAGE_SIZE); [done|].
    unfold PAGE_SIZE in *. apply (same_page off j); done.
Qed.

(** ** Null pages *)
Definition zero_image (p q : Z) (img : Z -> option page) : Z -> option page :=
  fun v => if decide (p <= v < q) then Some zero_page else img v.

Lemma wp_bss_loop fuel p q img s (Q : unit -> X -> Prop) : loads img s -> 0 <= p -> q < 2 ^ 32 ->
  q - p <= Z.of_nat fuel -> (forall v, p <= v < q -> allowed v /\ img v = None) ->
  (forall s', loads (zero_image p q img) s' -> Q tt s') ->
  wp exhausted (bss_loop e pid fuel p q) s Q.
Proof using Hpid Hmax HI.
  revert p img s. induction fuel as [|fuel IH]; intros p img s Hl Hp Hq Hf Hpages HQ; cbn [bss_loop];
    destruct (Z.ltb_spec p q) as [Hlt|Hge]; [lia| | |];
    try (apply wp_ret, HQ; eapply loads_ext; [|exact Hl]; intros v; unfold zero_image; by rewrite decide_False by lia).
  destruct (Hpages p ltac:(lia)) as [Hw Hn]. apply wp_bind.
  eapply wp_alloc_page; [exact Hl|done|done|]. intros i s1 pg Hfr Hi Hpg Hip Hl1. apply wp_bind.
  eapply (wp_write_page _ _ _ _ _ 0 zero_page); [exact Hl1|done|done|unfold zero_page; rewrite length_zeros; unfold PAGE_SIZE; lia|].
  intros s2 pg' Hpg' Ht Hl2. rewrite u32_id by lia. apply (IH (p + 1) (with_page img p zero_page)); [|lia|lia|lia|..].
  - eapply loads_ext; [|exact Hl2]. intros v. unfold with_page in *. destruct (decide (v = p)); [|done].
    f_equal. rewrite decide_True in Hpg' by done. injection Hpg' as <-. unfold splice. cbn [Z.to_nat take app].
    rewrite drop_ge; [apply app_nil_r|]. rewrite Hip. unfold zero_page. by rewrite length_zeros.
  - intros v Hv. unfold with_page. rewrite decide_False by lia. apply Hpages. lia.
  - intros s' Hs'. apply HQ. eapply loads_ext; [|exact Hs']. intros v. unfold zero_image, with_page.
    destruct (decide (v = p)) as [->|]; [by rewrite decide_False, decide_True by lia|].
    destruct (decide (p + 1 <= v < q)); [by rewrite decide_True by lia|by rewrite decide_False by lia].
Qed.

(** Byte [n] of the blocks from [b] on. *)
Lemma fdata_lookup b nb n : 0 <= n < 512 * nb -> fdata b nb !! Z.to_nat n = Some (file_byte file (512 * b + n)).
Proof using Hrd.
  intros Hn. pose proof (Z.div_mod n 512 ltac:(lia)) as Hdm. pose proof (Z.mod_pos_bound n 512 ltac:(lia)) as Hm.
  set (j := n / 512) in *. set (r := n mod 512) in *.
  pose proof (fdata_block b nb j 512 ltac:(lia) ltac:(lia)) as Hb. apply (f_equal (fun l => l !! Z.to_nat r)) in Hb.
  rewrite !lookup_take_lt, lookup_drop in Hb by lia. replace (Z.to_nat (512 * j) + Z.to_nat r)%nat with (Z.to_nat n) in Hb by lia.
  rewrite Hb. unfold file_byte, BLOCK_SIZE.
  assert ((512 * b + n) / 512 = b + j) as -> by (symmetry; apply (Z.div_unique _ 512 _ r); lia).
  assert ((512 * b + n) mod 512 = r) as -> by (symmetry; apply (Z.mod_unique _ 512 (b + j) r); lia).
  destruct (lookup_lt_is_Some_2 (file (b + j)) (Z.to_nat r)) as [c Hc].
  { rewrite (rd_block Hrd (b + j)). unfold BLOCK_SIZE. lia. }
  rewrite Hc. f_equal. symmetry. by apply nth_lookup_Some.
Qed.
End operations.

(** ** Segments *)

(** The loader's view of a segment: the bytes that it reads, the first page, the
    pages it maps. *)
Definition seg_data (file : Z -> block) (ph : elf32_program_header) : list byte :=
  take (Z.to_nat (p_filesz ph)) (fdata file (p_offset ph / BLOCK_SIZE) (p_filesz ph / BLOCK_SIZE + 1)).
Definition seg_base (ph : elf32_program_header) : Z := p_vaddr ph / PAGE_SIZE.
Definition maps_page (ph : elf32_program_header) (v : Z) : Prop :=
  seg_base ph <= v /\
  (PAGE_SIZE * (v - seg_base ph) < p_filesz ph \/ v < u32 (p_vaddr ph + p_memsz ph) / PAGE_SIZE).

(** The segments that the loader supports have at most the 512 pages below that of
    the arguments. *)
Lemma seg_ok_memsz ph : seg_ok ph -> RAM_START <= p_vaddr ph ->
  p_memsz ph = 0 \/ p_vaddr ph + p_memsz ph <= 0x80600000 /\ p_memsz ph <= 4096 * 512.
Proof using Type.
  intros [_ Hva Hsz _ _ Hpages] Hram. destruct (decide (p_memsz ph = 0)); [by left|right].
  assert (forall a, p_vaddr ph <= a < p_vaddr ph + p_memsz ph -> 0x80400 <= a / 4096 < 0x80600) as Hp.
  { intros a Ha. apply (Hpages (a / 4096)). split; [done|]. unfold PAGE_SIZE.
    pose proof (Z.div_mod a 4096 ltac:(lia)). pose proof (Z.mod_pos_bound a 4096 ltac:(lia)). lia. }
  pose proof (Hp (p_vaddr ph) ltac:(lia)). pose proof (Hp (p_vaddr ph + p_memsz ph - 1) ltac:(lia)).
  pose proof (Z.div_mod (p_vaddr ph) 4096 ltac:(lia)). pose proof (Z.mod_pos_bound (p_vaddr ph) 4096 ltac:(lia)).
  pose proof (Z.div_mod (p_vaddr ph + p_memsz ph - 1) 4096 ltac:(lia)).
  pose proof (Z.mod_pos_bound (p_vaddr ph + p_memsz ph - 1) 4096 ltac:(lia)). lia.
Qed.

Lemma seg_ok_end ph : seg_ok ph -> RAM_START <= p_vaddr ph -> u32 (p_vaddr ph + p_memsz ph) = p_vaddr ph + p_memsz ph.
Proof using Type.
  intros Hok Hram. pose proof (seg_ok_memsz ph Hok Hram). destruct Hok as [_ Hva Hsz _ _ _]. apply u32_id. lia.
Qed.

(** It maps the pages of the segment. *)
Lemma maps_page_has ph v : seg_ok ph -> RAM_START <= p_vaddr ph -> maps_page ph v <-> seg_has ph v.
Proof using Type.
  intros Hok Hram. unfold maps_page. rewrite (seg_ok_end ph Hok Hram). destruct Hok as [_ Hva Hsz Hal Hlast _].
  destruct (Hal Hram) as [Hal1 _]. specialize (Hlast Hram). unfold seg_has, seg_base, PAGE_SIZE in *.
  pose proof (Z.div_mod (p_vaddr ph) 4096 ltac:(lia)) as Hv. rewrite Hal1 in Hv. set (b := p_vaddr ph / 4096) in *.
  pose proof (Z.div_mod (p_memsz ph) 4096 ltac:(lia)) as Hm. pose proof (Z.mod_pos_bound (p_memsz ph) 4096 ltac:(lia)).
  assert ((p_vaddr ph + p_memsz ph) / 4096 = b + p_memsz ph / 4096) as ->.
  { symmetry. apply (Z.div_unique _ 4096 _ (p_memsz ph mod 4096)); lia. }
  lia.
Qed.

Section segments.
Context (mtime : nat -> Z) (plat : platform) (tr : translation) (Hmax : pid < MMU_MAX_NPROCESS).
Abbreviation e := (mmu_init mtime plat tr).
(** [J o] is what the devices next to the machine need, when [o] was printed. *)
Context {X : Type} `{!HasMachine X} (J : list byte -> X -> Prop) (HJ : forall o x s, J o x -> J o (set_machine x s)).
Context (reader : Z -> M X block) (file : Z -> block) (dom : Z -> Prop) (Hrd : forall o, reader_ok (J o) reader file dom).
Context (Hread : still -> forall n x b x', reader n x = Ok (b, x') -> get_machine x' = get_machine x).
Abbreviation loads o := (loads (J o)).

(** Each of its pages has the bytes of the segment. *)
Lemma seg_data_page ph v : seg_ok ph -> RAM_START <= p_vaddr ph -> seg_base ph <= v ->
  data_page (seg_data file ph) (v - seg_base ph) = seg_page file ph v.
Proof using Hrd.
  intros [Hoff Hva Hsz Hal _ _] Hram Hv. destruct (Hal Hram) as [Hal1 Hal2]. unfold seg_base, PAGE_SIZE, BLOCK_SIZE in *.
  pose proof (Z.div_mod (p_vaddr ph) 4096 ltac:(lia)) as Hvd. rewrite Hal1 in Hvd. set (b := p_vaddr ph / 4096) in *.
  pose proof (Z.div_mod (p_offset ph) 512 ltac:(lia)) as Hod. rewrite Hal2 in Hod. set (ob := p_offset ph / 512) in *.
  pose proof (Z.div_mod (p_filesz ph) 512 ltac:(lia)). pose proof (Z.mod_pos_bound (p_filesz ph) 512 ltac:(lia)).
  unfold seg_data, BLOCK_SIZE. fold ob. set (nb := p_filesz ph / 512 + 1) in *. set (z := p_filesz ph) in *.
  pose proof (length_fdata (J []) reader file dom (Hrd []) ob nb ltac:(lia)) as Hfd.
  apply list_eq_same_length with 4096%nat; [unfold seg_page; by rewrite length_fmap, length_seqZ|apply data_page_is_page|].
  intros i x y Hi Hx Hy. unfold seg_page in Hy. rewrite list_lookup_fmap, lookup_seqZ_lt in Hy by (unfold PAGE_SIZE; lia).
  injection Hy as <-. unfold seg_byte. fold z. unfold data_page, PAGE_SIZE in *.
  set (d := take (Z.to_nat 4096) _) in Hx. set (k := v - b) in *.
  assert (length d = (Z.to_nat z - Z.to_nat (4096 * k)) `min` 4096)%nat as Hd.
  { unfold d. rewrite length_take, length_drop, length_take. lia. }
  apply lookup_app_Some in Hx as [Hx|[Hge Hx]].
  - pose proof (lookup_lt_Some _ _ _ Hx). rewrite decide_True by lia.
    unfold d in Hx. rewrite lookup_take_lt, lookup_drop, lookup_take_lt in Hx by lia.
    replace (Z.to_nat (4096 * k) + i)%nat with (Z.to_nat (4096 * k + Z.of_nat i)) in Hx by lia.
    rewrite (fdata_lookup (J []) reader file dom (Hrd [])) in Hx by lia. injection Hx as <-. f_equal. lia.
  - rewrite decide_False by lia. by apply lookup_replicate in Hx as [-> _].
Qed.

Definition seg_image (ph : elf32_program_header) (img : Z -> option page) : Z -> option page :=
  fun v => if decide (seg_has ph v) then Some (seg_page file ph v) else img v.

(** The pages of the file and the null pages after them are the segment. *)
Lemma seg_image_split ph img p v : seg_ok ph -> RAM_START <= p_vaddr ph -> seg_base ph <= p ->
  (forall w, seg_base ph <= w -> p <= w <-> p_filesz ph <= PAGE_SIZE * (w - seg_base ph)) ->
  zero_image p (u32 (p_vaddr ph + p_memsz ph) / PAGE_SIZE) (file_image (seg_base ph) (seg_data file ph) (p_filesz ph) img) v =
    seg_image ph img v.
Proof using Hrd.
  intros Hok Hram Hp Hpv. unfold zero_image, file_image, seg_image.
  set (q := u32 (p_vaddr ph + p_memsz ph) / PAGE_SIZE). pose proof (maps_page_has ph v Hok Hram) as Hmap. unfold maps_page in Hmap. fold q in Hmap.
  assert (length (seg_data file ph) <= Z.to_nat (p_filesz ph))%nat as Hlen by (unfold seg_data; rewrite length_take; lia).
  destruct (decide (p <= v < q)) as [Hv|Hv].
  - rewrite decide_True by (apply Hmap; lia). rewrite <- seg_data_page by (done || lia).
    rewrite data_page_zero; [done|]. pose proof (proj1 (Hpv v ltac:(lia)) ltac:(lia)).
    assert (0 <= PAGE_SIZE * (v - seg_base ph)) by (unfold PAGE_SIZE; lia). lia.
  - destruct (decide (seg_base ph <= v /\ PAGE_SIZE * (v - seg_base ph) < p_filesz ph)) as [[Hb Hlt]|Hn].
    + rewrite decide_True by (apply Hmap; auto). rewrite take_ge by done. f_equal. by apply seg_data_page.
    + rewrite decide_False; [done|]. intros (Hb & [Hlt|Hlt])%Hmap; [by apply Hn|].
      specialize (Hpv v Hb). destruct (Z_lt_le_dec v p); [|lia]. apply Hn. split; [done|]. lia.
Qed.

Context (tw : list byte -> nat -> M X unit) (junk : list byte).
Context (Hlog : pid <= GPID_SHELL -> writes tw J /\ length junk = Z.to_nat TERM_BUF_SIZE).

(** The line about the segment. *)
Lemma wp_segment_line ph o x (Q : unit -> X -> Prop) : pid <= GPID_SHELL -> 0 <= p_filesz ph < 2 ^ 32 -> 0 <= p_vaddr ph < 2 ^ 32 ->
  J o x -> (forall x', J (o ++ segment_line ph) x' -> get_machine x' = get_machine x -> Q tt x') ->
  wp exhausted (INFO tw junk (lit "Load 0x%x bytes to 0x%x" ++ [NUL]) [AInt (i32 (p_filesz ph)); AInt (i32 (p_vaddr ph))]) x Q.
Proof using Hlog.
  intros Hp Hf Hv Hx HQ. destruct (Hlog Hp) as [Hw Hjunk].
  set (ps := text "Load 0x" ++ [Hex (i32 (p_filesz ph))] ++ text " bytes to 0x" ++ [Hex (i32 (p_vaddr ph))]).
  assert (msg INFO_PREFIX newline ps = segment_line ph) as Hmsg.
  { unfold ps, segment_line, msg, render. rewrite !bind_app. change (text ?s ≫= piece_out) with (render (text s)).
    rewrite !render_text. cbn [mbind list_bind piece_out app]. unfold itoa. cbn [Z.eqb Pos.eqb]. rewrite !u32_i32, !u32_id by done.
    rewrite !app_nil_r, <- !app_assoc. done. }
  pose proof (itoa_length (i32 (p_filesz ph)) 16 (i32_range _)) as L1. pose proof (itoa_length (i32 (p_vaddr ph)) 16 (i32_range _)) as L2.
  unfold itoa in L1, L2. cbn [Z.eqb Pos.eqb] in L1, L2. rewrite !u32_i32, !u32_id in L1, L2 by done.
  eapply (wp_log tw J _ _ _ _ _ ps); [exact Hw|reflexivity|reflexivity| |by apply (bool_decide_unpack _)..| |done|exact Hx|].
  - unfold ps. rewrite !Forall_app. split_and!; [by apply (bool_decide_unpack _)|repeat constructor; apply i32_range|by apply (bool_decide_unpack _)|repeat constructor; apply i32_range].
  - rewrite Hmsg. unfold segment_line. rewrite !length_app. change (length (lit "[INFO] Load 0x")) with 14%nat.
    change (length (lit " bytes to 0x")) with 12%nat. change (length newline) with 2%nat. lia.
  - rewrite Hmsg. exact HQ.
Qed.

Lemma wp_load_segment ph o img s (Q : unit -> X -> Prop) : loads o img s -> seg_ok ph -> seg_blocks dom ph ->
  (forall v, seg_has ph v -> v ∈ pages /\ img v = None) ->
  (forall s', loads (o ++ load_log pid [ph]) (seg_image ph img) s' -> Q tt s') ->
  wp exhausted (load_segment e tw junk reader pid ph) s Q.
Proof using Hpid Hmax HJ Hrd Hread Hlog.
  intros Hl Hok Hbl Hnone HQ. unfold load_segment. unfold load_log, segment_lines in HQ.
  destruct (Z.ltb_spec (p_vaddr ph) RAM_START) as [Hlow|Hram].
  { apply wp_ret, HQ. rewrite (decide_False (P := RAM_START <= p_vaddr ph)) by lia.
    replace (o ++ _) with o by (case_decide; by rewrite !app_nil_r).
    eapply loads_ext; [|exact Hl]. intros v. unfold seg_image. rewrite decide_False; [done|]. unfold seg_has. lia. }
  rewrite (decide_True (P := RAM_START <= p_vaddr ph)), app_nil_r in HQ by done.
  pose proof (seg_ok_memsz ph Hok Hram) as Hmem. pose proof (maps_page_has ph) as Hmaps. pose proof Hok as [Ho Hva Hsz Hal _ Hpages].
  set (filesz := p_filesz ph) in *. set (base := seg_base ph) in *. fold (seg_base ph). fold base.
  set (q := u32 (p_vaddr ph + p_memsz ph) / PAGE_SIZE). set (nb := filesz / BLOCK_SIZE + 1).
  assert (forall v, base <= v -> PAGE_SIZE * (v - base) < filesz \/ v < q -> allowed v /\ img v = None) as Hsg.
  { intros v Hb Hv. assert (seg_has ph v) as Hh by (by apply Hmaps). split; [|by apply Hnone].
    split; [|by apply Hnone]. specialize (Hpages v Hh). unfold in_window. change (APPS_ENTRY / PAGE_SIZE) with 0x80400 in Hpages.
    change (APPS_ARG / PAGE_SIZE) with 0x80600 in Hpages. lia. }
  assert (0 <= base) as Hbase by (apply Z.div_pos; [lia|done]).
  assert (base < 2 ^ 20) as Hb20 by (apply Z.div_lt_upper_bound; unfold PAGE_SIZE; lia).
  assert (0 <= q < 2 ^ 20) as Hq20.
  { pose proof (u32_range (p_vaddr ph + p_memsz ph)). unfold q, PAGE_SIZE.
    split; [apply Z.div_pos; lia|apply Z.div_lt_upper_bound; lia]. }
  assert (0 <= p_offset ph / BLOCK_SIZE < 2 ^ 23) as Hob.
  { unfold BLOCK_SIZE. split; [apply Z.div_pos; lia|apply Z.div_lt_upper_bound; lia]. }
  assert (filesz < 512 * nb /\ 512 * (nb - 1) <= filesz) as [Hnb1 Hnb2].
  { unfold nb, BLOCK_SIZE. pose proof (Z.mod_pos_bound filesz 512 ltac:(lia)).
    pose proof (Z.div_mod filesz 512 ltac:(lia)). lia. }
  apply wp_bind.
  replace base with (base + (512 * 0 + 4095) / PAGE_SIZE) at 1 by (change ((512 * 0 + 4095) / PAGE_SIZE) with 0; lia).
  rewrite <- (Z.add_0_r (p_offset ph / BLOCK_SIZE)). change 0 with (512 * 0) at 2.
  apply (wp_file_loop mtime plat tr Hmax (J o) (HJ o) reader file dom (Hrd o) Hread base (p_offset ph / BLOCK_SIZE) nb _ 0 0 filesz img); try lia.
  - intros v Hb Hv. apply Hsg; auto.
  - intros j Hj Hlt. replace (p_offset ph / BLOCK_SIZE + j) with ((p_offset ph + 512 * j) / BLOCK_SIZE); [apply Hbl; [done|fold filesz; lia]|].
    unfold BLOCK_SIZE. rewrite (Z.mul_comm 512 j), Z.div_add by lia. done.
  - eapply loads_ext; [|exact Hl]. intros v. unfold file_image, PAGE_SIZE. by rewrite decide_False by lia.
  - done.
  - intros s1 Hl1. fold (seg_data file ph) in Hl1. set (p := base + (filesz + 4095) / PAGE_SIZE).
    assert (forall v, base <= v -> p <= v <-> filesz <= PAGE_SIZE * (v - base)) as Hpv.
    { intros v Hv. unfold p, PAGE_SIZE. pose proof (Z.div_mod (filesz + 4095) 4096 ltac:(lia)).
      pose proof (Z.mod_pos_bound (filesz + 4095) 4096 ltac:(lia)). lia. }
    assert (base <= p) by (unfold p, PAGE_SIZE; pose proof (Z.div_pos (filesz + 4095) 4096); lia).
    apply wp_bind. eapply (wp_bss_loop mtime plat tr Hmax (J o) (HJ o)); [exact Hl1|lia|lia|lia| |].
    + intros v Hv. destruct (Hsg v) as [Hw Hn]; [lia|lia|]. split; [done|].
      unfold file_image. rewrite decide_False; [done|]. pose proof (proj1 (Hpv v ltac:(lia)) ltac:(lia)). fold filesz. lia.
    + intros s' Hl'. assert (loads o (seg_image ph img) s') as [Hl2 Hx2].
      { eapply loads_ext; [|exact Hl']. intros v. by apply seg_image_split. }
      destruct (Z.leb_spec pid GPID_SHELL) as [Hp|Hp].
      * rewrite decide_True in HQ by done. eapply wp_segment_line; [done|fold filesz; lia|done|exact Hx2|].
        intros x' Hx' Hm. apply HQ. split; [by rewrite Hm|done].
      * apply wp_ret, HQ. rewrite decide_False, app_nil_r by lia. by split.
Qed.

Lemma wp_segments_loop n hbuf phs i o img s (Q : unit -> X -> Prop) : loads o img s ->
  mapM (pheader hbuf) (seqZ i (Z.of_nat n)) = Some phs ->
  Forall seg_ok phs -> Forall (seg_blocks dom) phs -> ForallOrdPairs seg_disjoint phs ->
  (forall v, exec_page file phs v <> None -> v ∈ pages /\ img v = None) ->
  (forall s', loads (o ++ load_log pid phs) (fun v => match exec_page file phs v with Some pg => Some pg | None => img v end) s' -> Q tt s') ->
  wp exhausted (segments_loop e tw junk reader pid n i hbuf) s Q.
Proof using Hpid Hmax HJ Hrd Hread Hlog.
  revert i phs o img s. induction n as [|n IH]; intros i phs o img s Hl Hhd Hok Hbl Hdis Hfree HQ; cbn [segments_loop].
  { injection Hhd as <-. apply wp_ret, HQ. unfold load_log. cbn. case_decide; by rewrite app_nil_r. }
  rewrite Nat2Z.inj_succ, seqZ_cons, Z.pred_succ in Hhd by lia. cbn [mapM] in Hhd.
  apply bind_Some in Hhd as (ph & Hph & (phs' & Hphs & [= <-])%bind_Some).
  apply Forall_cons in Hok as [Hok Hoks]. apply Forall_cons in Hbl as [Hbl Hbls]. inversion Hdis as [|?? Hd Hds]; subst.
  assert (forall v, seg_has ph v -> exec_page file phs' v = None) as Hnone.
  { intros v Hv. clear -Hd Hv. induction Hd as [|ph' phs'' Hd' _ IH]; [done|]. cbn.
    by rewrite decide_False by (by apply Hd'). }
  rewrite Hph. apply wp_bind, wp_ret, wp_bind. eapply wp_load_segment; [exact Hl|done|done| |].
  { intros v Hv. apply Hfree. cbn. by rewrite decide_True. }
  intros s1 Hl1. rewrite Z.add_1_r. eapply IH; [exact Hl1|done|done|done|done|..].
  - intros v Hv. unfold seg_image. destruct (decide (seg_has ph v)) as [Hh|Hh]; [by rewrite Hnone in Hv|].
    apply Hfree. cbn. by rewrite decide_False.
  - intros s' Hl'. apply HQ. replace (o ++ load_log pid (ph :: phs')) with ((o ++ load_log pid [ph]) ++ load_log pid phs').
    2:{ unfold load_log. cbn. case_decide; by rewrite <- ?app_assoc, ?app_nil_r. }
    eapply loads_ext; [|exact Hl']. intros v. unfold seg_image. cbn.
    destruct (decide (seg_has ph v)) as [Hh|Hh]; [by rewrite Hnone|done].
Qed.
End segments.
End loading.

(** ** Loading a process *)
Section load.
Context (file : Z -> block) (phs : list elf32_program_header).
Context (Hok : Forall (seg_ok) phs).
Abbreviation load_pages := (load_pages file phs).

Lemma exec_page_range v : exec_page file phs v <> None -> 0x80400 <= v < 0x80600.
Proof using Hok.
  induction Hok as [|ph phs' Hph Hphs IH]; cbn; [done|]. destruct (decide (seg_has ph v)) as [Hh|Hh].
  - intros _. apply Hph in Hh. exact Hh.
  - by apply IH.
Qed.

Lemma load_pages_fixed v : v ∈ fixed_pages -> allowed load_pages v /\ exec_page file phs v = None.
Proof using Hok.
  intros Hv. assert (0x80600 <= v < 0x80800) as Hr.
  { unfold fixed_pages in Hv. rewrite !elem_of_cons, elem_of_nil in Hv. lia. }
  split; [split; [unfold in_window; lia|]|].
  - apply list_elem_of_filter. split; [by right|]. apply elem_of_seqZ. change (APPS_ENTRY / PAGE_SIZE) with 0x80400. lia.
  - destruct (exec_page file phs v) eqn:Hx; [|done]. assert (exec_page file phs v <> None) as H by congruence.
    apply exec_page_range in H. lia.
Qed.

Lemma load_pages_exec v : exec_page file phs v <> None -> v ∈ load_pages.
Proof using Hok.
  intros Hv. apply list_elem_of_filter. split; [by left|]. apply exec_page_range in Hv.
  apply elem_of_seqZ. change (APPS_ENTRY / PAGE_SIZE) with 0x80400. lia.
Qed.
Section run.
Context {X : Type} `{!HasMachine X} (J : list byte -> X -> Prop) (HJ : forall o x s, J o x -> J o (set_machine x s)).
Context (pid : Z) (s0 : machine) (keeps : Z -> Prop) (still : Prop) (mtime : nat -> Z) (plat : platform) (tr : translation).
Context (reader : Z -> M X block) (dom : Z -> Prop) (Hpid : 0 < pid) (Hmax : pid < MMU_MAX_NPROCESS).
Context (Hrd : forall o, reader_ok pid keeps (J o) reader file dom) (Hdis : ForallOrdPairs seg_disjoint phs).
Context (H0 : dom 0) (Hbl : Forall (seg_blocks dom) phs).
Context (Hread : still -> forall n x b x', reader n x = Ok (b, x') -> get_machine x' = get_machine x).
Context (tw : list byte -> nat -> M X unit) (junk : list byte).
Context (Hlog : pid <= GPID_SHELL -> writes tw J /\ length junk = Z.to_nat TERM_BUF_SIZE).
Abbreviation e := (mmu_init mtime plat tr).
Abbreviation loads o := (loads pid s0 keeps still load_pages (J o)).
Abbreviation exhausted := (exhausted s0 load_pages).

Lemma wp_alloc_fixed o img x v (Q : Z -> X -> Prop) : loads o img x -> v ∈ fixed_pages -> img v = None ->
  (forall i x' pg, frame_of (page_info_table (get_machine x')) pid v = Some i -> (i < 2048)%nat ->
    page_at (mem (get_machine x')) (frame i) = pg -> is_page pg -> loads o (with_page img v pg) x' -> Q (Z.of_nat i) x') ->
  wp exhausted (on_machine (alloc_map e pid v)) x Q.
Proof using Hpid Hmax HJ Hok.
  intros Hl Hv. apply (wp_alloc_page pid Hpid s0 keeps still load_pages mtime plat tr Hmax (J o) (HJ o) img x v Q Hl).
  by apply load_pages_fixed.
Qed.

Lemma wp_write_args argc argv o img x i (Q : unit -> X -> Prop) :
  0 <= argc <= CMD_NARGS -> (forall bs, argv = Some bs -> argc * CMD_ARG_LEN <= Z.of_nat (length bs)) ->
  loads o img x -> frame_of (page_info_table (get_machine x)) pid 0x80600 = Some i -> (i < 2048)%nat ->
  (forall x' a, args_page argc argv a -> loads o (with_page img 0x80600 a) x' -> Q tt x') ->
  wp exhausted (on_machine (mmodify (fun s => with_mem s (
    let a := PAGE_ID_TO_ADDR (Z.of_nat i) in
    <[a / PAGE_SIZE := write_args argc argv (page_at (mem s) (a / PAGE_SIZE))]> (mem s))))) x Q.
Proof using Hpid HJ.
  intros Hargc Hargv [Hl Hx] Hf Hi HQ. apply wp_on_machine. eapply wp_ok; [reflexivity|]. cbv zeta. rewrite frame_addr by done.
  set (s := get_machine x) in *.
  destruct (write_args_spec argc argv (page_at (mem s) (frame i))) as [Hp Ha]; [apply (tlb_pages _ (ld_inv _ _ _ _ _ _ _ Hl))|done|done|].
  apply (HQ _ _ Ha). split; [|by apply HJ]. rewrite get_set_machine. by apply loading_write.
Qed.

(** [v ∈ fixed_pages] for a number [v], by evaluation. *)
#[local] Ltac fixed_page := by apply (bool_decide_unpack _).

Lemma wp_elf_load argc argv o x0 : get_machine x0 = s0 -> loads o (fun _ => None) x0 -> headers (file 0) = Some phs ->
  0 <= argc <= CMD_NARGS -> (forall bs, argv = Some bs -> argc * CMD_ARG_LEN <= Z.of_nat (length bs)) ->
  wp exhausted (elf_load e tw junk reader pid argc argv) x0 (fun _ x => J (o ++ load_log pid phs) x /\ tlb_inv (get_machine x) /\ curr_vm_pid (get_machine x) <> pid /\
      (exists a y t t', args_page argc argv a /\ forall v, tlb_aspace (get_machine x) pid v = load_image file phs a y t t' v) /\
      (forall q v, keeps q -> q <> pid -> tlb_aspace (get_machine x) q v = tlb_aspace s0 q v) /\
      (forall i p, still -> system_frame s0 i p ->
        page_info_table (get_machine x) !! i = Some p /\ page_at (mem (get_machine x)) (frame i) = page_at (mem s0) (frame i)) /\
      (still -> timer (get_machine x) = timer s0)).
Proof using Hpid Hmax HJ Hrd Hread Hdis Hok H0 Hbl Hlog.
  intros Hs0 Hl Hhd Hargc Hargv. unfold elf_load. apply wp_bind.
  eapply wp_reader; [exact (Hrd o)|exact Hread|exact H0|exact Hl|]. intros x1 Hl1 _. apply wp_bind.
  eapply (wp_segments_loop pid Hpid s0 keeps still load_pages mtime plat tr Hmax J HJ reader file dom Hrd Hread tw junk Hlog _ _ phs 0 o (fun _ => None));
    [exact Hl1| |done|done|done| |].
  { unfold headers in Hhd. rewrite Z2Nat.id; [done|]. apply le_combine_bound. }
  { intros v Hv. split; [by apply load_pages_exec|done]. }
  intros x2 Hl2. apply wp_bind.
  change (APPS_ARG / PAGE_SIZE) with 0x80600. change (SYSCALL_ARG / PAGE_SIZE) with 0x80601.
  change (APPS_STACK_TOP / PAGE_SIZE - 1) with 0x807ff. change (APPS_STACK_TOP / PAGE_SIZE - 2) with 0x807fe.
  assert (forall v, v ∈ fixed_pages -> exec_page file phs v = None) as Hx by (intros v Hv; by apply load_pages_fixed).
  eapply wp_alloc_fixed; [exact Hl2|fixed_page|cbv beta; by rewrite Hx by fixed_page|]. intros i x3 pg Hf Hi _ _ Hl3. apply wp_bind.
  eapply wp_write_args; [done|done|exact Hl3|done|done|]. intros x4 a Ha Hl4. apply wp_bind.
  eapply wp_alloc_fixed; [exact Hl4|fixed_page|unfold with_page; rewrite !decide_False by done; by rewrite Hx by fixed_page|].
  intros i5 x5 y _ _ _ _ Hl5. apply wp_bind.
  eapply wp_alloc_fixed; [exact Hl5|fixed_page|unfold with_page; rewrite !decide_False by done; by rewrite Hx by fixed_page|].
  intros i6 x6 t _ _ _ _ Hl6. apply wp_bind.
  eapply wp_alloc_fixed; [exact Hl6|fixed_page|unfold with_page; rewrite !decide_False by done; by rewrite Hx by fixed_page|].
  intros i7 x7 t' _ _ _ _ [[Hinv7 Hcur7 Himg7 Hkeep7 _ _ Hstill7 Htimer7] Hx7]. apply wp_ret. split_and!; [done|done|done| |done|done|done].
  exists a, y, t, t'. split; [done|]. intros v. rewrite Himg7. unfold with_page, load_image.
  repeat case_decide; subst; try done. by destruct (exec_page file phs v).
Qed.
End run.
End load.

Section load_spec.
Context {X : Type} `{!HasMachine X} (J : list byte -> X -> Prop) (HJ : forall o x s, J o x -> J o (set_machine x s)).
Context (pid : Z) (keeps : Z -> Prop) (mtime : nat -> Z) (plat : platform) (tr : translation).
Context (tw : list byte -> nat -> M X unit) (junk : list byte).
Context (reader : Z -> M X block) (dom : Z -> Prop) (file : Z -> block) (phs : list elf32_program_header).
Context (argc : Z) (argv : option (list byte)).

(** What the loader needs of the process, the executable, the devices and the
    arguments, when [o] was printed. *)
Record loadable (o : list byte) (x : X) : Prop := {
  lo_pid : 0 < pid < MMU_MAX_NPROCESS;
  lo_inv : tlb_inv (get_machine x);
  lo_vm : curr_vm_pid (get_machine x) <> pid;
  lo_empty v : tlb_aspace (get_machine x) pid v = None;
  lo_devices : J o x;
  lo_reader o' : reader_ok pid keeps (J o') reader file dom;
  lo_log : pid <= GPID_SHELL -> writes tw J /\ length junk = Z.to_nat TERM_BUF_SIZE;
  lo_headers : headers (file 0) = Some phs;
  lo_segs : Forall seg_ok phs;
  lo_blocks : dom 0 /\ Forall (seg_blocks dom) phs;
  lo_disjoint : ForallOrdPairs seg_disjoint phs;
  lo_argc : 0 <= argc <= CMD_NARGS;
  lo_argv bs : argv = Some bs -> argc * CMD_ARG_LEN <= Z.of_nat (length bs);
}.

(** What it has done. *)
Record loaded (o : list byte) (x x' : X) : Prop := {
  ld_devices : J (o ++ load_log pid phs) x';
  ld_tlb : tlb_inv (get_machine x');
  ld_vm : curr_vm_pid (get_machine x') <> pid;
  ld_image : exists a y t t', args_page argc argv a /\ forall v, tlb_aspace (get_machine x') pid v = load_image file phs a y t t' v;
  ld_others q v : keeps q -> q <> pid -> tlb_aspace (get_machine x') q v = tlb_aspace (get_machine x) q v;
}.
Definition load_fatal (x : X) (m : string) : Prop :=
  m = no_memory /\ (length (free_frames (get_machine x)) < length (load_pages file phs))%nat.

(** With the frames of the system and the timer, when the reader leaves the machine
    alone. *)
Lemma wp_elf_load_still (still : Prop) o x : loadable o x ->
  (still -> forall n x b x', reader n x = Ok (b, x') -> get_machine x' = get_machine x) ->
  wp (load_fatal x) (elf_load (mmu_init mtime plat tr) tw junk reader pid argc argv) x (fun _ x' => loaded o x x' /\
      (forall i p, still -> system_frame (get_machine x) i p -> page_info_table (get_machine x') !! i = Some p /\
        page_at (mem (get_machine x')) (frame i) = page_at (mem (get_machine x)) (frame i)) /\
      (still -> timer (get_machine x') = timer (get_machine x))).
Proof using HJ.
  intros [[Hpid Hmax] Hinv Hcur Hempty Hx Hrd Hlog Hhd Hok [H0 Hbl] Hdis Hargc Hargv] Hread. set (s0 := get_machine x).
  assert (loading pid s0 keeps still (load_pages file phs) (fun _ => None) s0) as Hl0.
  { split; try done; [|by intros i p _ (Hp & _)]. intros i p Hp Hu. right. unfold entry_free. by rewrite Hp. }
  eapply wp_mono; [by apply (wp_elf_load file phs Hok J HJ pid s0 keeps still mtime plat tr reader dom Hpid Hmax Hrd Hdis H0 Hbl Hread tw junk Hlog argc argv o x)|].
  intros [] x' (H1 & H2 & H3 & H4 & H5 & H6 & H7). split; [|done]. by split.
Qed.

Lemma wp_elf_load_spec o x : loadable o x ->
  wp (load_fatal x) (elf_load (mmu_init mtime plat tr) tw junk reader pid argc argv) x (fun _ x' => loaded o x x').
Proof using HJ. intros Hx. eapply wp_mono; [by apply (wp_elf_load_still False)|]. by intros [] x' []. Qed.

(** C9: loading a program.  Of an executable whose segments start at pages and at
    blocks of the file, lie below the page of the arguments, share no page, and end
    with a whole page or in a page with a byte of the file, [elf_load] gives a
    process with an empty address space exactly the pages that hold a byte of a
    segment, each byte being that of the file at its offset or null, a page with
    [argc] and [argv], and the pages for system calls and the stack.  It prints a
    line with the size and the address of each segment for a kernel process, and
    nothing for another one.  The address spaces of the other
    processes that the reader keeps do not change, nor does what the reader's device
    needs.  It runs out of memory only
    if there are fewer free frames than these pages. *)
Theorem elf_load_correct (o : list byte) (x : X) : loadable o x ->
  match elf_load (mmu_init mtime plat tr) tw junk reader pid argc argv x with
  | Ok (_, x') => loaded o x x'
  | Fatal m => load_fatal x m
  | Stuck | NoFuel => False
  end.
Proof using HJ. apply wp_elf_load_spec. Qed.
End load_spec.

(** ** An executable with one page of code, a page of null data, and a header
    that the loader skips *)
Definition t_header : block :=
  foldr (fun w b => put32 b w.1 w.2) (zeros 512)
    [(7%nat, 52); (11%nat, 2); (14%nat, 0x1000); (15%nat, 0x80400000); (17%nat, 700); (18%nat, 0x2000)].
Definition t_file (n : Z) : block :=
  if n =? 0 then t_header else replicate 512 (byte.of_Z n).
Definition t_phs : list elf32_program_header :=
  [{| p_type := 0; p_offset := 0x1000; p_vaddr := 0x80400000; p_paddr := 0;
      p_filesz := 700; p_memsz := 0x2000; p_flags := 0; p_align := 0 |};
   {| p_type := 0; p_offset := 0; p_vaddr := 0; p_paddr := 0;
      p_filesz := 0; p_memsz := 0; p_flags := 0; p_align := 0 |}].

Lemma t_seg_has ph v : ph ∈ t_phs -> seg_has ph v -> p_vaddr ph = 0x80400000 /\ 0x80400 <= v < 0x80402.
Proof.
  intros Hph (Hram & Hv). unfold t_phs in Hph. rewrite !elem_of_cons, elem_of_nil in Hph.
  destruct Hph as [->|[->|[]]]; cbn [p_vaddr p_memsz] in *; [|unfold RAM_START in Hram; lia].
  split; [done|]. unfold PAGE_SIZE in Hv. lia.
Qed.

Lemma t_seg_ok : Forall seg_ok t_phs.
Proof.
  apply Forall_forall. intros ph Hph. split; [| | | | |intros v Hv; apply (t_seg_has ph v Hph) in Hv;
    change (APPS_ENTRY / PAGE_SIZE) with 0x80400; change (APPS_ARG / PAGE_SIZE) with 0x80600; lia];
    unfold t_phs in Hph; rewrite !elem_of_cons, elem_of_nil in Hph;
    destruct Hph as [->|[->|[]]]; cbn [p_offset p_vaddr p_filesz p_memsz]; try lia; try done; by left.
Qed.

Lemma t_seg_disjoint : ForallOrdPairs seg_disjoint t_phs.
Proof.
  repeat constructor. intros v _ Hv. apply t_seg_has in Hv as [Hv _]; [discriminate|]. right; left.
Qed.

Lemma t_file_block n : is_block (t_file n).
Proof. unfold t_file, is_block. destruct (n =? 0); [by vm_compute|by rewrite length_replicate]. Qed.

Definition t_reader (n : Z) : M t_world block := mret (t_file n).
Definition t_printed (o : list byte) (x : t_world) : Prop := dev_inv (tw := t_write) x /\ dev_out (tw := t_write) x = o.
Lemma t_reader_ok o : reader_ok 3 (fun _ => True) (t_printed o) t_reader t_file (fun _ => True).
Proof.
  split.
  - apply t_file_block.
  - intros n s _ Hs Hinv Hcur. by exists s.
Qed.

(** A reader that reads every block. *)
Lemma all_blocks (phs : list elf32_program_header) : Forall (seg_blocks (fun _ => True)) phs.
Proof. by apply Forall_true. Qed.

Lemma t_loadable : loadable t_printed 3 (fun _ => True) t_write t_junk t_reader (fun _ => True) t_file t_phs 1
  (Some (zeros 32)) [] (t_machine, []).
Proof.
  split.
  - unfold MMU_MAX_NPROCESS. lia.
  - apply t_machine_inv.
  - discriminate.
  - intros v. cbn [get_machine t_world_machine fst]. unfold tlb_aspace. rewrite decide_False by done.
    assert (frame_of (page_info_table t_machine) 3 v = None) as Hf; [|by rewrite Hf].
    destruct (frame_of (page_info_table t_machine) 3 v) as [i|] eqn:Hf; [exfalso|done].
    apply frame_of_iff in Hf as (p & Hp & _ & Hpp & _); [|apply t_machine_inv|done].
    apply lookup_app_Some in Hp as [Hp|[_ Hp]];
      [do 3 (destruct i as [|i]; [by injection Hp as <-|]); done|by apply lookup_replicate in Hp as [-> _]].
  - done.
  - apply t_reader_ok.
  - intros _. split; [apply device_writes|done].
  - vm_compute. reflexivity.
  - apply t_seg_ok.
  - split; [exact I|apply all_blocks].
  - apply t_seg_disjoint.
  - unfold CMD_NARGS. lia.
  - intros bs [= <-]. rewrite length_zeros. unfold CMD_ARG_LEN. lia.
Qed.

Lemma elf_load_correct_witness :
  let run := elf_load (mmu_init (fun _ => 0) QEMU SOFT_TLB) t_write t_junk t_reader 3 1 (Some (zeros 32)) (t_machine, []) in
  match run with Ok _ => True | _ => False end /\
  match run with
  | Ok (_, x) => (exists a y t t', args_page 1 (Some (zeros 32)) a /\
      forall v, tlb_aspace x.1 3 v = load_image t_file t_phs a y t t' v) /\
      x.2 = lit "[INFO] Load 0x2bc bytes to 0x80400000" ++ newline
  | Fatal m => m = no_memory
  | Stuck | NoFuel => False
  end.
Proof.
  cbv zeta. split; [by vm_compute|].
  pose proof (elf_load_correct t_printed (fun _ _ _ H => H) 3 (fun _ => True) (fun _ => 0) QEMU SOFT_TLB
    t_write t_junk t_reader (fun _ => True) t_file t_phs 1 (Some (zeros 32)) [] (t_machine, []) t_loadable) as H.
  destruct (elf_load _ _ _ _ _ _ _ _) as [[[] s]| | |]; [|apply H|exact H..].
  destruct H as [[_ Ho] _ _ Hi _]. split; [exact Hi|exact Ho].
Defined.

(** ** A segment that ends in a page of null bytes

    The segment of [b_ph] is a page of the file and 16 null bytes.  The loader rounds
    the end of the segment down, and does not map the page of these bytes. *)
Definition b_ph : elf32_program_header :=
  {| p_type := 0; p_offset := 0x1000; p_vaddr := 0x80400000; p_paddr := 0;
     p_filesz := 0x1000; p_memsz := 0x1010; p_flags := 0; p_align := 0 |}.

Lemma bss_page_missing : seg_has b_ph 0x80401 /\
  match load_segment (mmu_init (fun _ => 0) QEMU SOFT_TLB) t_write t_junk t_reader 3 b_ph (t_machine, []) with
  | Ok (_, x) => tlb_aspace x.1 3 0x80400 <> None /\ tlb_aspace x.1 3 0x80401 = None
  | _ => False
  end.
Proof. split; [by apply (bool_decide_unpack _)|]. vm_compute. split; [discriminate|reflexivity]. Qed.
