(* ===== verification/TrapEntry.v ===== *)
(** * Entering and leaving the kernel

    The assembly around the C code: [trap_entry] of [grass/kernel.s], which saves the
    registers of the interrupted program on the kernel's stack, calls [kernel_entry]
    and reloads them, and [app_entry] of [apps/app.s], the first
    instructions of every program.  Composed with the kernel: a program finds its own
    registers when it is resumed, and [main] finds [argc] and [argv] where the C
    calling convention has them. *)

From stdpp Require Import options.
From coqutil Require Import Byte.
From S2P Require Import Prelude CString InodeStore Earth Timer Mmu SoftTlb MmuProps Process Kernel KernelInv KernelIpc KernelSched KernelTrace KernelFair KernelProps KernelWitness Tty Terminal Dir Shell Elf ElfSpec ElfProps.

(** ** The instructions that the two files use *)
Inductive reg : Type :=
| zero | ra | sp | gp | tp
| t0 | t1 | t2 | t3 | t4 | t5 | t6
| s0 | s1 | s2 | s3 | s4 | s5 | s6 | s7 | s8 | s9 | s10 | s11
| a0 | a1 | a2 | a3 | a4 | a5 | a6 | a7.
#[global] Instance reg_eq_dec : EqDecision reg.
Proof. solve_decision. Defined.

Inductive instr : Type :=
| Li (rd : reg) (imm : Z)
| Addi (rd rs : reg) (imm : Z)
| Lw (rd : reg) (offset : Z) (base : reg)
| Sw (rs : reg) (offset : Z) (base : reg)
| Csrw_mscratch (rs : reg)
| Csrr_mscratch (rd : reg)
| CallC (symbol : string)
| Mret.

Definition regs : Type := reg -> Z.
Definition set_reg (g : regs) (rd : reg) (v : Z) : regs :=
  fun r => if decide (r = rd /\ rd <> zero) then v else g r.

(** A hart in the middle of a sequence of instructions, with the state [X] of what is
    behind it. *)
Record cpu (X : Type) : Type := {
  gpr : regs;
  mscratch : Z;
  sys : X;
}.
Arguments gpr {X} _.
Arguments mscratch {X} _.
Arguments sys {X} _.

Section Exec.
Context {X : Type} (load : Z -> M X Z) (store : Z -> Z -> M X unit) (call : string -> M (cpu X) unit).
Implicit Types (c : cpu X).

Definition with_gpr c (g : regs) : cpu X := {| gpr := g; mscratch := mscratch c; sys := sys c |}.
Definition with_mscratch c (v : Z) : cpu X := {| gpr := gpr c; mscratch := v; sys := sys c |}.
Definition with_sys c (x : X) : cpu X := {| gpr := gpr c; mscratch := mscratch c; sys := x |}.

(** An access to the memory. *)
Definition bus {A} (m : M X A) : M (cpu X) A := fun c =>
  match m (sys c) with
  | Ok (a, x) => Ok (a, with_sys c x)
  | Fatal e => Fatal e
  | Stuck => Stuck
  | NoFuel => NoFuel
  end.
Definition wr (rd : reg) (v : Z) : M (cpu X) unit := mmodify (fun c => with_gpr c (set_reg (gpr c) rd v)).

(** After [mret] the program counter is [mepc]. *)
Definition exec_instr (i : instr) : M (cpu X) unit :=
  match i with
  | Li rd imm => wr rd imm
  | Addi rd rs imm => v ← mgets (fun c => gpr c rs); wr rd (u32 (v + imm))
  | Lw rd offset base => a ← mgets (fun c => gpr c base); v ← bus (load (u32 (a + offset))); wr rd v
  | Sw rs offset base => c ← mget; bus (store (u32 (gpr c base + offset)) (gpr c rs))
  | Csrw_mscratch rs => mmodify (fun c => with_mscratch c (gpr c rs))
  | Csrr_mscratch rd => v ← mgets mscratch; wr rd v
  | CallC symbol => call symbol
  | Mret => mret tt
  end.

Fixpoint exec (l : list instr) : M (cpu X) unit :=
  match l with
  | [] => mret tt
  | i :: l => exec_instr i;; exec l
  end.
End Exec.

(** ** kernel.s: trap_entry *)
Definition trap_entry : list instr := [
  Csrw_mscratch sp;
  Li sp 0x80400000;
  Addi sp sp (-128);
  Sw a0 0 sp;
  Sw a1 4 sp;
  Sw a2 8 sp;
  Sw a3 12 sp;
  Sw a4 16 sp;
  Sw a5 20 sp;
  Sw a6 24 sp;
  Sw a7 28 sp;
  Sw t0 32 sp;
  Sw t1 36 sp;
  Sw t2 40 sp;
  Sw t3 44 sp;
  Sw t4 48 sp;
  Sw t5 52 sp;
  Sw t6 56 sp;
  Sw s0 60 sp;
  Sw s1 64 sp;
  Sw s2 68 sp;
  Sw s3 72 sp;
  Sw s4 76 sp;
  Sw s5 80 sp;
  Sw s6 84 sp;
  Sw s7 88 sp;
  Sw s8 92 sp;
  Sw s9 96 sp;
  Sw s10 100 sp;
  Sw s11 104 sp;
  Sw ra 108 sp;
  Sw gp 112 sp;
  Sw tp 116 sp;
  Csrr_mscratch t0;
  Sw t0 120 sp;
  CallC "kernel_entry";
  Lw a0 0 sp;
  Lw a1 4 sp;
  Lw a2 8 sp;
  Lw a3 12 sp;
  Lw a4 16 sp;
  Lw a5 20 sp;
  Lw a6 24 sp;
  Lw a7 28 sp;
  Lw t0 32 sp;
  Lw t1 36 sp;
  Lw t2 40 sp;
  Lw t3 44 sp;
  Lw t4 48 sp;
  Lw t5 52 sp;
  Lw t6 56 sp;
  Lw s0 60 sp;
  Lw s1 64 sp;
  Lw s2 68 sp;
  Lw s3 72 sp;
  Lw s4 76 sp;
  Lw s5 80 sp;
  Lw s6 84 sp;
  Lw s7 88 sp;
  Lw s8 92 sp;
  Lw s9 96 sp;
  Lw s10 100 sp;
  Lw s11 104 sp;
  Lw ra 108 sp;
  Lw gp 112 sp;
  Lw tp 116 sp;
  Lw sp 120 sp;
  Mret].

(** ** app.s: app_entry *)
Definition app_entry : list instr := [
  Lw a0 0 a0;
  Li sp 0x80800000;
  CallC "main";
  CallC "exit"].

(** The 32 words that [kernel_entry] copies. *)
Definition SAVED_REGISTER_ADDR : Z := EGOS_STACK_TOP - SAVED_REGISTER_NUM * 4.

Section Trap.
Context {S : Type} (e : earth S) `{!EarthSpec e}.
(** What a call leaves in the registers that the callee may change. *)
Context (scratch : kernel S -> regs).
Implicit Types (k : kernel S) (c : cpu (kernel S)).

Definition with_area k (l : list Z) : kernel S :=
  with_hart k {| mhartid := mhartid (hw k); csr_mepc := csr_mepc (hw k); mcause := mcause (hw k); saved_area := l |}.

(** The word of the area at an address; nothing else is accessed. *)
Definition area_index (a : Z) : option nat :=
  if (SAVED_REGISTER_ADDR <=? a) && (a <? EGOS_STACK_TOP) && (a mod 4 =? 0)
  then Some (Z.to_nat ((a - SAVED_REGISTER_ADDR) / 4)) else None.
Definition area_load (a : Z) : M (kernel S) Z := fun k =>
  match area_index a ≫= (fun i => saved_area (hw k) !! i) with
  | Some v => Ok (v, k)
  | None => Stuck
  end.
Definition area_store (a v : Z) : M (kernel S) unit := fun k =>
  match area_index a with
  | Some i => if (i <? length (saved_area (hw k)))%nat then Ok (tt, with_area k (<[i := v]> (saved_area (hw k)))) else Stuck
  | None => Stuck
  end.

(** The RISC-V calling convention: the stack pointer, [gp], [tp] and the [s] registers
    are as before the call. *)
Definition callee_saved (r : reg) : bool :=
  match r with
  | zero | sp | gp | tp | s0 | s1 | s2 | s3 | s4 | s5 | s6 | s7 | s8 | s9 | s10 | s11 => true
  | _ => false
  end.
Definition after_call k (g : regs) : regs := fun r => if callee_saved r then g r else scratch k r.
Definition call_kernel (symbol : string) : M (cpu (kernel S)) unit :=
  if decide (symbol = "kernel_entry"%string) then
    bus (kernel_entry e);;
    mmodify (fun c => with_gpr c (after_call (sys c) (gpr c)))
  else mstuck.

Definition run_trap_entry : M (cpu (kernel S)) unit := exec area_load area_store call_kernel trap_entry.

(** A word of the running program. *)
Definition user_load (a : Z) : M (kernel S) Z := fun k =>
  match aspace (mach k) (vm_pid (mach k)) (a / PAGE_SIZE) with
  | Some pg => if a mod 4 =? 0 then Ok (get32 pg (Z.to_nat (a mod PAGE_SIZE / 4)), k) else Stuck
  | None => Stuck
  end.
Definition run_app_entry (call : string -> M (cpu (kernel S)) unit) : M (cpu (kernel S)) unit :=
  exec user_load (fun _ _ => mstuck) call app_entry.

(** The hardware raises a trap, and [trap_entry] handles it. *)
Definition asm_trap c c' : Prop := (timer_cause (hw (sys c)) \/ ecall_cause (hw (sys c))) /\ run_trap_entry c = Ok (tt, c').
(** Between two traps, programs use the registers as they like. *)
Definition asm_between c c' : Prop := between e (sys c) (sys c').
(** A run that does not return to the process at index [m]. *)
Inductive asm_away (m : nat) c : cpu (kernel S) -> Prop :=
| asm_away_refl : asm_away m c c
| asm_away_trap c1 c2 : asm_away m c c1 -> asm_trap c1 c2 -> ~ on_hart (sys c2) m -> asm_away m c c2
| asm_away_between c1 c2 : asm_away m c c1 -> asm_between c1 c2 -> asm_away m c c2.
End Trap.

(** ** Sequences of loads and stores *)

(** The registers in the order of the area. *)
Definition slots : list reg :=
  [a0; a1; a2; a3; a4; a5; a6; a7; t0; t1; t2; t3; t4; t5; t6; s0; s1; s2; s3; s4; s5; s6; s7; s8; s9; s10; s11; ra; gp; tp; sp].
Definition stores (i : nat) (rs : list reg) : list instr := imap (fun j r => Sw r (4 * Z.of_nat (i + j)) sp) rs.
Definition loads (i : nat) (rs : list reg) : list instr := imap (fun j r => Lw r (4 * Z.of_nat (i + j)) sp) rs.

Lemma trap_entry_parts : trap_entry = [Csrw_mscratch sp; Li sp 0x80400000; Addi sp sp (-128)] ++ stores 0 (take 30 slots) ++
  [Csrr_mscratch t0; Sw t0 120 sp; CallC "kernel_entry"] ++ loads 0 (take 30 slots) ++ [Lw sp 120 sp; Mret].
Proof. reflexivity. Qed.

Lemma slots_all r : r <> zero -> exists i, slots !! i = Some r.
Proof. intros Hr. apply list_elem_of_lookup_1. destruct r; try done; by apply (bool_decide_unpack _). Qed.
Lemma slots_NoDup : NoDup slots.
Proof. by apply (bool_decide_unpack _). Qed.

Fixpoint put_words (i : nat) (ws l : list Z) : list Z :=
  match ws with
  | [] => l
  | w :: ws => put_words (S i) ws (<[i := w]> l)
  end.
Lemma put_words_eq i ws l : (i + length ws <= length l)%nat -> put_words i ws l = take i l ++ ws ++ drop (i + length ws) l.
Proof.
  revert i l. induction ws as [|w ws IH]; intros i l Hl; cbn [put_words length] in *.
  - rewrite Nat.add_0_r. symmetry. apply take_drop.
  - rewrite IH by (rewrite length_insert; lia). rewrite <- Nat.add_succ_comm, drop_insert_lt by lia.
    rewrite (take_S_r _ _ w) by (apply list_lookup_insert_eq; lia). by rewrite take_insert_ge, <- app_assoc by lia.
Qed.

(** The registers after the words from [i] on were loaded into [rs]. *)
Fixpoint reload (i : nat) (rs : list reg) (l : list Z) (g : regs) : regs :=
  match rs with
  | [] => g
  | r :: rs => reload (S i) rs l (set_reg g r (default 0 (l !! i)))
  end.
Lemma reload_other i rs l g r : r ∉ rs -> reload i rs l g r = g r.
Proof.
  revert i g. induction rs as [|q rs IH]; intros i g Hr; [done|]. apply not_elem_of_cons in Hr as [Hq Hr].
  cbn [reload]. rewrite IH by done. unfold set_reg. by rewrite decide_False by tauto.
Qed.
Lemma reload_at i rs l g j r : NoDup rs -> r <> zero -> rs !! j = Some r -> reload i rs l g r = default 0 (l !! (i + j)%nat).
Proof.
  intros Hnd Hr. revert i j g. induction Hnd as [|q rs Hq _ IH]; intros i j g Hj; [done|]. destruct j as [|j].
  - injection Hj as ->. cbn [reload]. rewrite reload_other by done. unfold set_reg. by rewrite decide_True, Nat.add_0_r.
  - cbn [reload]. rewrite (IH _ j) by done. do 2 f_equal. lia.
Qed.

Lemma exec_app {X} load store call (l l' : list instr) (c : cpu X) :
  exec load store call (l ++ l') c = (exec load store call l;; exec load store call l') c.
Proof.
  revert c. induction l as [|i l IH]; intros c; [done|]. cbn [app exec]. unfold mbind, M_bind in *.
  destruct (exec_instr load store call i c) as [[[] c1]|m| |]; [apply IH|done..].
Qed.

Lemma area_address i : (i < 32)%nat -> area_index (u32 (SAVED_REGISTER_ADDR + 4 * Z.of_nat i)) = Some i.
Proof.
  intros Hi. change SAVED_REGISTER_ADDR with 0x803FFF80. rewrite u32_id by lia. unfold area_index. change SAVED_REGISTER_ADDR with 0x803FFF80.
  rewrite (proj2 (Z.leb_le _ _)), (proj2 (Z.ltb_lt _ _)) by (unfold EGOS_STACK_TOP; lia).
  replace (0x803FFF80 + 4 * Z.of_nat i) with ((0x200FFFE0 + Z.of_nat i) * 4) by lia. rewrite Z.mod_mul by done. cbn [andb Z.eqb].
  f_equal. replace ((0x200FFFE0 + Z.of_nat i) * 4 - 0x803FFF80) with (Z.of_nat i * 4) by lia. rewrite Z.div_mul by done. apply Nat2Z.id.
Qed.

Section trap.
Context {S : Type} (e : earth S) `{!EarthSpec e} (scratch : kernel S -> regs).
Implicit Types (k : kernel S) (c : cpu (kernel S)).
Abbreviation area c := (saved_area (hw (sys c))).
Abbreviation run := (exec area_load area_store (call_kernel e scratch)).
Abbreviation asm_trap := (asm_trap e scratch).
Abbreviation asm_away := (asm_away e scratch).

Lemma exec_store c i r : gpr c sp = SAVED_REGISTER_ADDR -> (i < 32)%nat -> length (area c) = 32%nat ->
  exec_instr area_load area_store (call_kernel e scratch) (Sw r (4 * Z.of_nat i) sp) c =
  Ok (tt, with_sys c (with_area (sys c) (<[i := gpr c r]> (area c)))).
Proof using Type.
  intros Hsp Hi Hl. unfold exec_instr, mbind, M_bind, mget, bus, area_store. rewrite Hsp, area_address by done.
  by rewrite (proj2 (Nat.ltb_lt _ _)) by lia.
Qed.

Lemma exec_stores rs i c : gpr c sp = SAVED_REGISTER_ADDR -> (i + length rs <= 32)%nat -> length (area c) = 32%nat ->
  run (stores i rs) c = Ok (tt, with_sys c (with_area (sys c) (put_words i (gpr c <$> rs) (area c)))).
Proof using Type.
  revert i c. induction rs as [|r rs IH]; intros i c Hsp Hi Hl.
  - destruct c as [g m [p x y z [h1 h2 h3 h4] u]]. done.
  - unfold stores. cbn [imap length] in *. rewrite Nat.add_0_r. cbn [exec]. rewrite (mbind_ok _ _ _ _ _ (exec_store c i r Hsp ltac:(lia) Hl)).
    rewrite (imap_ext _ (fun j r => Sw r (4 * Z.of_nat (Datatypes.S i + j)) sp)) by (intros j q _; cbn; do 2 f_equal; lia).
    etransitivity; [apply (IH (Datatypes.S i)); [done|lia|by cbn; rewrite length_insert]|]. done.
Qed.

Lemma exec_load c i r : gpr c sp = SAVED_REGISTER_ADDR -> (i < 32)%nat -> length (area c) = 32%nat ->
  exec_instr area_load area_store (call_kernel e scratch) (Lw r (4 * Z.of_nat i) sp) c =
  Ok (tt, with_gpr c (set_reg (gpr c) r (default 0 (area c !! i)))).
Proof using Type.
  intros Hsp Hi Hl. destruct (lookup_lt_is_Some_2 (area c) i ltac:(lia)) as [v Hv].
  unfold exec_instr, mbind, M_bind, mgets, bus, area_load. rewrite Hsp, area_address by done. cbn. rewrite Hv. by destruct c.
Qed.

Lemma exec_loads rs i c : sp ∉ rs -> gpr c sp = SAVED_REGISTER_ADDR -> (i + length rs <= 32)%nat -> length (area c) = 32%nat ->
  run (loads i rs) c = Ok (tt, with_gpr c (reload i rs (area c) (gpr c))).
Proof using Type.
  revert i c. induction rs as [|r rs IH]; intros i c Hn Hsp Hi Hl.
  - by destruct c.
  - apply not_elem_of_cons in Hn as [Hr Hn].
    unfold loads. cbn [imap length] in *. rewrite Nat.add_0_r. cbn [exec]. rewrite (mbind_ok _ _ _ _ _ (exec_load c i r Hsp ltac:(lia) Hl)).
    rewrite (imap_ext _ (fun j r => Lw r (4 * Z.of_nat (Datatypes.S i + j)) sp)) by (intros j q _; cbn; do 2 f_equal; lia).
    etransitivity; [apply (IH (Datatypes.S i)); [done| |lia|done]|done].
    cbn. unfold set_reg. by rewrite decide_False by tauto.
Qed.

(** The kernel that [kernel_entry] sees. *)
Definition filled c : kernel S := with_area (sys c) ((gpr c <$> slots) ++ drop 31 (area c)).

Lemma exec_save c : length (area c) = 32%nat ->
  run ([Csrw_mscratch sp; Li sp 0x80400000; Addi sp sp (-128)] ++ stores 0 (take 30 slots) ++ [Csrr_mscratch t0; Sw t0 120 sp]) c =
  Ok (tt, {| gpr := set_reg (set_reg (set_reg (gpr c) sp 0x80400000) sp SAVED_REGISTER_ADDR) t0 (gpr c sp); mscratch := gpr c sp; sys := filled c |}).
Proof using Type.
  intros Hl. rewrite exec_app. erewrite mbind_ok by reflexivity. rewrite exec_app.
  erewrite mbind_ok; [|apply exec_stores; [done|cbn; lia|done]].
  unfold with_sys. cbn [gpr mscratch sys].
  assert (put_words 0 (gpr c <$> take 30 slots) (area c) = (gpr c <$> take 30 slots) ++ drop 30 (area c)) as Hw.
  { rewrite put_words_eq by (rewrite length_fmap, Hl; cbn; lia). by rewrite length_fmap. }
  set (l1 := put_words _ _ _). change (l1 = (gpr c <$> take 30 slots) ++ drop 30 (area c)) in Hw. clearbody l1. subst l1.
  cbn [exec]. erewrite mbind_ok by reflexivity.
  erewrite mbind_ok; [|apply (exec_store _ 30); [done|lia|cbn; rewrite length_drop, Hl; done]].
  unfold mret, M_ret, with_sys. cbn [gpr mscratch sys]. do 3 f_equal. unfold filled, with_area, with_hart. cbn [hw saved_area mhartid csr_mepc mcause proc_set core_to_proc_idx core_in_kernel alloc_pid mach].
  do 2 f_equal. change (set_reg _ t0 _ t0) with (gpr c sp). clear -Hl.
  destruct (area c) as [|x0 l]; [done|]. do 30 (destruct l as [|? l]; [done|]). reflexivity.
Qed.

Lemma exec_restore c : gpr c sp = SAVED_REGISTER_ADDR -> length (area c) = 32%nat ->
  run (loads 0 (take 30 slots) ++ [Lw sp 120 sp; Mret]) c = Ok (tt, with_gpr c (reload 0 slots (area c) (gpr c))).
Proof using Type.
  intros Hsp Hl. rewrite exec_app.
  erewrite mbind_ok; [|apply exec_loads; [by apply (bool_decide_unpack _)|done|cbn; lia|done]].
  cbn [exec]. erewrite mbind_ok; [|apply (exec_load _ 30)].
  - reflexivity.
  - cbn [gpr with_gpr]. rewrite reload_other by (by apply (bool_decide_unpack _)). done.
  - lia.
  - done.
Qed.

Lemma call_kernel_entry c : call_kernel e scratch "kernel_entry" c =
  match kernel_entry e (sys c) with
  | Ok (_, k) => Ok (tt, {| gpr := after_call scratch k (gpr c); mscratch := mscratch c; sys := k |})
  | Fatal m => Fatal m
  | Stuck => Stuck
  | NoFuel => NoFuel
  end.
Proof using Type.
  unfold call_kernel. rewrite decide_True by done. unfold mbind, M_bind, bus. by destruct (kernel_entry e (sys c)) as [[[] k]| | |].
Qed.

(** [trap_entry] is [kernel_entry] between saving and reloading every register. *)
Lemma trap_entry_runs c : length (area c) = 32%nat ->
  (forall k', kernel_entry e (filled c) = Ok (tt, k') -> length (saved_area (hw k')) = 32%nat) ->
  match run_trap_entry e scratch c with
  | Ok (_, c') => kernel_entry e (filled c) = Ok (tt, sys c') /\
      forall i r, slots !! i = Some r -> area c' !! i = Some (gpr c' r)
  | Fatal m => kernel_entry e (filled c) = Fatal m
  | Stuck => kernel_entry e (filled c) = Stuck
  | NoFuel => kernel_entry e (filled c) = NoFuel
  end.
Proof using Type.
  intros Hl Hk. unfold run_trap_entry. rewrite trap_entry_parts.
  change ([Csrr_mscratch t0; Sw t0 120 sp; CallC "kernel_entry"] ++ loads 0 (take 30 slots) ++ [Lw sp 120 sp; Mret])
    with ([Csrr_mscratch t0; Sw t0 120 sp] ++ [CallC "kernel_entry"] ++ loads 0 (take 30 slots) ++ [Lw sp 120 sp; Mret]).
  rewrite (app_assoc (stores 0 _)), (app_assoc [Csrw_mscratch sp; _; _]), exec_app.
  erewrite mbind_ok by (by apply exec_save). cbn [app exec exec_instr].
  set (c1 := {| gpr := _; mscratch := _; sys := _ |}). pose proof (call_kernel_entry c1) as Hc. cbn [sys gpr mscratch c1] in Hc.
  unfold mbind, M_bind. rewrite Hc. destruct (kernel_entry e (filled c)) as [[[] k']|m| |] eqn:Hke; [|done..].
  rewrite exec_restore; [|done|by apply Hk].
  split; [done|]. intros i r Hi. cbn [sys with_gpr gpr].
  rewrite (reload_at 0 slots _ _ i r slots_NoDup) by (done || (intros ->; apply list_elem_of_lookup_2 in Hi; revert Hi; by apply (bool_decide_unpack _))).
  destruct (lookup_lt_is_Some_2 (saved_area (hw k')) i) as [v Hv]; [rewrite (Hk k' eq_refl); apply lookup_lt_Some in Hi; cbn in Hi; lia|].
  cbn [Nat.add]. by rewrite Hv.
Qed.

(** A program whose registers are saved still runs. *)
Lemma filled_mode c i p : user_mode e (sys c) i p -> user_mode e (filled c) i p /\ between e (sys c) (filled c).
Proof using Type.
  intros Hum. pose proof (um_area _ _ _ _ Hum) as Hl.
  assert (length (saved_area (hw (filled c))) = 32%nat) as Hf by (cbn; rewrite length_drop, Hl; done).
  split; [destruct Hum; by split|]. eapply between_user; [done|]. split; try done. apply Hum.
Qed.

(** A trap through [trap_entry] is a trap of the kernel. *)
Lemma asm_trap_trap c c' i p : user_mode e (sys c) i p -> asm_trap c c' ->
  trap e (filled c) (sys c') /\ forall j r, slots !! j = Some r -> area c' !! j = Some (gpr c' r).
Proof using Type.
  intros Hum [Hcause Hrun]. destruct (filled_mode c i p Hum) as [Hum0 _].
  pose proof (trap_entry_runs c (um_area _ _ _ _ Hum)) as H. rewrite Hrun in H.
  destruct H as [Hk Hg]; [|split; [by split|done]].
  intros k' Hk. destruct (trap_user_mode e (filled c) k' i p Hum0) as (i' & p' & Hum'); [by split|]. apply Hum'.
Qed.

Lemma asm_away_away m c c' : (exists i p, user_mode e (sys c) i p) -> asm_away m c c' ->
  away e m (sys c) (sys c') /\ exists i p, user_mode e (sys c') i p.
Proof using Type.
  intros Hum H. induction H as [|c1 c2 _ [IH (i & p & Hi)] Ht Hoff|c1 c2 _ [IH (i & p & Hi)] Hb].
  - split; [constructor|done].
  - destruct (asm_trap_trap _ _ _ _ Hi Ht) as [Ht' _]. destruct (filled_mode c1 i p Hi) as [Hf Hb].
    split; [|by eapply trap_user_mode]. eapply away_trap; [|done|done]. by eapply away_between.
  - split; [by eapply away_between|]. exists i, p. by eapply between_user_mode.
Qed.

(** C5: a program never notices that it was interrupted.  If a trap takes the hart away
    from the process at index [i] and, after any run of the other processes in which
    it is not resumed, another trap gives it back, then [trap_entry] leaves in every
    register what it had at the first trap, whatever [kernel_entry] and the other
    processes did to the registers, and [mret] continues at the same instruction (past
    the [ecall] for a system call). *)
Theorem registers_restored c c1 c2 c3 (i : nat) (p q : process) :
  user_mode e (sys c) i p -> asm_trap c c1 -> ~ on_hart (sys c1) i -> asm_away i c1 c2 ->
  asm_trap c2 c3 -> on_hart (sys c3) i -> proc_set (sys c3) !! i = Some q -> p_pid q = p_pid p ->
  csr_mepc (hw (sys c3)) = (if Z.testbit (mcause (hw (sys c))) 31 then csr_mepc (hw (sys c)) else u32 (csr_mepc (hw (sys c)) + 4)) /\
  forall r, r <> zero -> gpr c3 r = gpr c r.
Proof using Type.
  intros Hum Ht Hoff Haway Ht2 Hon Hq Hpid.
  destruct (filled_mode c i p Hum) as [Hum0 _]. destruct (asm_trap_trap _ _ _ _ Hum Ht) as [Htr _].
  destruct (asm_away_away i c1 c2 (trap_user_mode _ _ _ _ _ Hum0 Htr) Haway) as (Haw & i2 & p2 & Hum2).
  destruct (asm_trap_trap _ _ _ _ Hum2 Ht2) as [Htr2 Hg]. destruct (filled_mode c2 i2 p2 Hum2) as [_ Hb].
  destruct (context_restored e _ _ _ _ i p q Hum0 Htr Hoff (away_between _ _ _ _ _ Haw Hb) Htr2 Hon Hq Hpid) as [Hpc Harea].
  split; [exact Hpc|]. intros r Hr. destruct (slots_all r Hr) as [j Hj]. pose proof (Hg j r Hj) as H. rewrite Harea in H.
  cbn [filled with_area with_hart hw saved_area] in H. rewrite lookup_app_l in H by (rewrite length_fmap; by eapply lookup_lt_Some).
  rewrite list_lookup_fmap, Hj in H. by injection H.
Qed.

(** ** The first instructions of a program *)

(** A trap that gives the hart to a process that is READY starts it. *)
Lemma ready_starts k k' (i m : nat) p q : user_mode e k i p -> trap e k k' -> on_hart k' m -> (m < 16)%nat ->
  proc_set k !! m = Some q -> p_status q = PROC_READY ->
  csr_mepc (hw k') = APPS_ENTRY /\ saved_area (hw k') !! 0%nat = Some APPS_ARG /\ saved_area (hw k') !! 1%nat = Some (APPS_ARG + 4) /\
  vm_pid (mach k') = p_pid q /\ forall v, v <> SYSCALL_PAGE -> aspace (mach k') (p_pid q) v = aspace (mach k) (p_pid q) v.
Proof using Type.
  intros Hum Ht Hon Hm Hq Hready.
  destruct (trap_returns e _ _ _ _ Hum Ht) as (k0 & Hent & i0 & k1 & r & k2 & Hy & -> & Hum').
  destruct Hy as [Hinv1 Hf _ Hr _ _ [_ _ _ _ _ _ Hvm Hmem]].
  pose proof (um_idx _ _ _ _ Hum') as Hon'. unfold on_hart in Hon. rewrite Hon' in Hon.
  assert (slot_after (Z.of_nat i) i0 = m) as Hs by (injection Hon; lia). rewrite Hs in Hr.
  assert (m <> i) as Hne.
  { intros ->. rewrite (um_slot _ _ _ _ Hum) in Hq. injection Hq as <-. pose proof (only_runs_status e _ _ _ Hum). congruence. }
  destruct (kframe_slot_inv _ _ _ _ _ Hf Hr) as (q0 & Hq0 & Hev). rewrite (enters_slot e _ _ _ _ _ Hent Hne), Hq in Hq0. injection Hq0 as <-.
  pose proof (pe_ready _ _ _ Hev Hready) as Hr'. pose proof (ti_regs _ _ (proj1 Hinv1) m r Hr) as Hl.
  cbn [resume with_hart hw csr_mepc saved_area mach]. unfold launched. rewrite decide_True by done. cbn [set_status set_mepc set_saved p_mepc p_saved_registers].
  split_and!.
  - done.
  - rewrite list_lookup_insert_ne, list_lookup_insert_eq by lia. done.
  - rewrite list_lookup_insert_eq by (rewrite length_insert; lia). done.
  - rewrite Hvm. apply (pe_pid _ _ _ Hev).
  - intros v Hv. rewrite Hmem. destruct (kf_mem _ _ _ Hf (p_pid q) v) as [-> | [? _]]; [|done]. by apply (enters_inv e _ _ _ _ Hum Hent).
Qed.

(** C14: a new program starts with its arguments.  When a trap gives the hart to a
    process that is READY, whose page at [APPS_ARG] is what the loader made of [argc]
    and [argv], [mret] goes to [app_entry], and its instructions call [main], and
    [exit] if [main] returns, with [argc] in [a0], the address of the pointers to the
    arguments in [a1] and the stack pointer at the top of the stack of the process, in
    its own address space, in which that page is unchanged. *)
Theorem main_called call c c' (i m : nat) (p q : process) (argc : Z) argv pg :
  user_mode e (sys c) i p -> asm_trap c c' -> on_hart (sys c') m -> (m < 16)%nat ->
  proc_set (sys c) !! m = Some q -> p_status q = PROC_READY ->
  aspace (mach (sys c)) (p_pid q) (APPS_ARG / PAGE_SIZE) = Some pg -> args_page argc argv pg ->
  csr_mepc (hw (sys c')) = APPS_ENTRY /\
  exists g, run_app_entry e call c' = (call "main"%string;; call "exit"%string) {| gpr := g; mscratch := mscratch c'; sys := sys c' |} /\
    g a0 = argc /\ g a1 = APPS_ARG + 4 /\ g sp = APPS_STACK_TOP /\
    vm_pid (mach (sys c')) = p_pid q /\ aspace (mach (sys c')) (p_pid q) (APPS_ARG / PAGE_SIZE) = Some pg.
Proof using Type.
  intros Hum Ht Hon Hm Hq Hready Hpg Hargs.
  destruct (filled_mode c i p Hum) as [Hum0 _]. destruct (asm_trap_trap _ _ _ _ Hum Ht) as [Htr Hg].
  destruct (ready_starts _ _ _ _ _ _ Hum0 Htr Hon Hm Hq Hready) as (Hpc & H0 & H1 & Hvm & Hmem). split; [done|].
  rewrite (Hg 0%nat a0 eq_refl) in H0. rewrite (Hg 1%nat a1 eq_refl) in H1. injection H0 as H0. injection H1 as H1.
  assert (aspace (mach (sys c')) (p_pid q) (APPS_ARG / PAGE_SIZE) = Some pg) as Hpg' by (by rewrite Hmem).
  exists (set_reg (set_reg (gpr c') a0 argc) sp 0x80800000). split_and!; [|done|exact H1|done|done|done].
  unfold run_app_entry, app_entry. cbn [exec exec_instr]. unfold mbind, M_bind, mgets, bus, user_load. rewrite H0.
  change (u32 (APPS_ARG + 0)) with APPS_ARG. rewrite Hvm, Hpg'. change (APPS_ARG mod 4 =? 0) with true. cbn iota.
  change (Z.to_nat (APPS_ARG mod PAGE_SIZE / 4)) with 0%nat. rewrite (ap_argc _ _ _ Hargs). unfold wr, mmodify, mret, M_ret. cbn [with_sys with_gpr gpr mscratch sys].
  destruct (call "main"%string _) as [[[] c1]| | |]; [|done..]. by destruct (call "exit"%string c1) as [[[] c2]| | |].
Qed.
End trap.

(** ** GPID_PROCESS and process 2 take turns *)
Definition w_scratch (k : kernel machine) : regs := fun _ => 0xDEAD.
Definition w_regs : regs := fun r => match list_find (eq r) slots with Some (i, _) => 0x1000 + Z.of_nat i | None => 0 end.
Definition asm_tick (k : kernel machine) (g : regs) : cpu (kernel machine) := {| gpr := g; mscratch := 0; sys := user_tick k |}.
Definition do_asm_trap (c : cpu (kernel machine)) : cpu (kernel machine) := run_state (run_trap_entry w_earth w_scratch) c c.

Lemma do_asm_trap_trap c : timer_cause (hw (sys c)) -> is_ok (run_trap_entry w_earth w_scratch c) = true ->
  asm_trap w_earth w_scratch c (do_asm_trap c).
Proof. intros Hc Hok. split; [by left|]. by apply run_state_unit. Qed.

Lemma asm_tick_mode g : user_mode w_earth (sys (asm_tick w_tick g)) 0 first_process.
Proof. destruct w_tick_mode. by split. Qed.

Lemma asm_tick_timer k g : timer_cause (hw (sys (asm_tick k g))).
Proof. done. Qed.

Definition r_first : cpu (kernel machine) := asm_tick w_tick w_regs.
Definition r_other : cpu (kernel machine) := asm_tick (sys (do_asm_trap r_first)) (fun _ => 0xBEEF).

Lemma r_first_trap : asm_trap w_earth w_scratch r_first (do_asm_trap r_first).
Proof. apply do_asm_trap_trap; [apply asm_tick_timer|vm_compute; reflexivity]. Qed.

Lemma slot_status_pid k i pid st q : proc_set k !! i = Some q -> slot_status k i = Some (pid, st) -> p_pid q = pid.
Proof. unfold slot_status. intros ->. by intros [= ->]. Qed.

Lemma registers_restored_witness :
  csr_mepc (hw (sys (do_asm_trap r_other))) = 0x80400020 /\ forall r, r <> zero -> gpr (do_asm_trap r_other) r = w_regs r.
Proof.
  destruct (asm_trap_trap w_earth w_scratch _ _ _ _ (asm_tick_mode w_regs) r_first_trap) as [Htr _].
  destruct (trap_user_mode _ _ _ _ _ (proj1 (filled_mode w_earth _ _ _ (asm_tick_mode w_regs))) Htr) as (c1 & p1 & Hum1).
  destruct (proc_set (sys (do_asm_trap r_other)) !! 0%nat) as [q|] eqn:Hq; [|vm_compute in Hq; discriminate].
  apply (registers_restored w_earth w_scratch r_first (do_asm_trap r_first) r_other (do_asm_trap r_other) 0 first_process q).
  - apply asm_tick_mode.
  - apply r_first_trap.
  - unfold on_hart. vm_compute. discriminate.
  - eapply asm_away_between; [constructor|]. by eapply user_tick_between.
  - apply do_asm_trap_trap; [apply asm_tick_timer|vm_compute; reflexivity].
  - vm_compute. reflexivity.
  - exact Hq.
  - apply (slot_status_pid _ _ _ PROC_RUNNING _ Hq). vm_compute. reflexivity.
Defined.

(** Process 2 is READY with the arguments of [echo hi]. *)
Definition m_argv : list byte := lit "echo" ++ zeros 28 ++ lit "hi" ++ zeros 30.
Definition m_args : page := write_args 2 (Some m_argv) zero_page.
Definition m_machine : machine := {|
  page_info_table := ((w_page <$> [1; 2; 3; 4; 5]) ++ [{| use := 1; pi_pid := 2; vpage_no := APPS_ARG / PAGE_SIZE |}]) ++ replicate 2042 zero_info;
  curr_vm_pid := 1;
  mem := {[frame 5 := m_args]};
  timer := {| reads := 0; mtimecmp := ∅ |};
|}.
Definition m_first : cpu (kernel machine) := asm_tick (with_mach w_tick m_machine) w_regs.

Lemma m_args_ok : is_page m_args /\ args_page 2 (Some m_argv) m_args.
Proof. apply write_args_spec; [apply length_zeros|unfold CMD_NARGS; lia|]. by intros ? [= <-]. Qed.

Lemma m_machine_inv : earth_inv m_machine.
Proof.
  assert (forall i p, page_info_table m_machine !! i = Some p -> use p <> 0 ->
    in_window (vpage_no p) /\ pi_pid p <> 0 /\ ((i < 5)%nat /\ vpage_no p = SYSCALL_ARG / PAGE_SIZE /\ pi_pid p = Z.of_nat i + 1 \/ i = 5%nat /\ vpage_no p = APPS_ARG / PAGE_SIZE)) as Htbl.
  { intros i p Hp Hu. apply lookup_app_Some in Hp as [Hp|[_ Hp]].
    - do 6 (destruct i as [|i]; [injection Hp as <-; split; [done|split; [done|]]; by (right; done) || (left; split; [lia|done])|]). done.
    - apply lookup_replicate in Hp as [-> _]. done. }
  split.
  - reflexivity.
  - intros i p Hp Hu _. by apply (Htbl i p Hp Hu).
  - intros i j p q Hp Hq Hu Hv _ Heq Hve. destruct (Htbl i p Hp Hu) as (_ & _ & [(? & H1 & ?)|[-> H1]]), (Htbl j q Hq Hv) as (_ & _ & [(? & H2 & ?)|[-> H2]]);
      [lia|rewrite H1, H2 in Hve; vm_compute in Hve; discriminate..|done].
  - intros n. cbn [mem m_machine]. unfold page_at. destruct (decide (n = frame 5)) as [->|Hne].
    + rewrite lookup_singleton_eq. apply m_args_ok.
    + rewrite lookup_singleton_ne by done. apply length_zeros.
  - done.
  - intros i p Hp Hu. apply lookup_app_Some in Hp as [Hp|[_ Hp]].
    + do 6 (destruct i as [|i]; [by injection Hp as <-|]). done.
    + apply lookup_replicate in Hp as [-> _]. done.
Qed.

Lemma m_first_mode : user_mode w_earth (sys m_first) 0 first_process.
Proof. destruct w_tick_mode as [(Ht & Ha & _) H2 H3 H4 H5 H6 _]. split; try done. split; [done|split; [done|apply m_machine_inv]]. Qed.

Lemma main_called_witness : exists g,
  run_app_entry w_earth (fun _ => mret tt) (do_asm_trap m_first) = Ok (tt, {| gpr := g; mscratch := mscratch (do_asm_trap m_first); sys := sys (do_asm_trap m_first) |}) /\
  g a0 = 2 /\ g a1 = 0x80600004 /\ g sp = 0x80800000.
Proof.
  assert (exists q, proc_set w_tick !! 1%nat = Some q /\ p_pid q = 2 /\ p_status q = PROC_READY) as (q & Hq & Hpid & Hready).
  { eexists. split; [vm_compute; reflexivity|]. split; reflexivity. }
  assert (asm_trap w_earth w_scratch m_first (do_asm_trap m_first)) as Ht.
  { apply do_asm_trap_trap; [apply asm_tick_timer|vm_compute; reflexivity]. }
  assert (Hon : on_hart (sys (do_asm_trap m_first)) 1) by (unfold on_hart; vm_compute; reflexivity).
  assert (Hpg : tlb_aspace m_machine 2 (APPS_ARG / PAGE_SIZE) = Some m_args) by (vm_compute; reflexivity).
  destruct (main_called w_earth w_scratch (fun _ => mret tt) m_first (do_asm_trap m_first) 0 1 first_process q 2 (Some m_argv) m_args
    m_first_mode Ht Hon ltac:(lia) Hq Hready ltac:(rewrite Hpid; exact Hpg) (proj2 m_args_ok)) as (_ & g & Hr & H0 & H1 & H2 & _).
  exists g. split; [exact Hr|]. split; [exact H0|]. split; [exact H1|exact H2].
Defined.
