(* ===== verification/SysProc.v ===== *)
(** * The process server

    [apps/system/sys_proc.c]: spawning system servers and applications, and the
    handling of requests.  The server runs on the kernel's process table and on
    the machine; [file_read] (a message to the file server and its answer) and
    [disk_read] are parameters, specified where they are used.  They act on the machine
    and its devices: what the exchange of messages with the file server does to the
    process table before it returns (the statuses of the two while they wait for one
    another, and whatever other processes do meanwhile) is the kernel's part, in
    [Syscall] and [KernelProps], and is not repeated here. *)

From stdpp Require Import pretty options.
From coqutil Require Import Byte.
From S2P Require Import Prelude CString InodeStore Earth Timer Mmu Process Kernel Tty Terminal Print Dir Shell Elf Devices.

(** ** disk.h *)
Definition SYS_PROC_EXEC_START : Z := EGOS_BIN_MAX_NBYTE / BLOCK_SIZE * 1.
Definition SYS_TERM_EXEC_START : Z := EGOS_BIN_MAX_NBYTE / BLOCK_SIZE * 2.
Definition SYS_FILE_EXEC_START : Z := EGOS_BIN_MAX_NBYTE / BLOCK_SIZE * 3.
Definition SYS_SHELL_EXEC_START : Z := EGOS_BIN_MAX_NBYTE / BLOCK_SIZE * 4.

(** ** The state: the static variables, the local [shell_waiting] (not
    initialised at first), and the kernel, on the machine with its devices *)
Record psrv (X : Type) : Type := {
  app_ino : Z;
  app_pid : Z;
  shell_waiting : option bool;
  kern : kernel X;
}.
Arguments app_ino {X} _.
Arguments app_pid {X} _.
Arguments shell_waiting {X} _.
Arguments kern {X} _.

Section State.
Context {X : Type}.
Implicit Types (s : psrv X).
Definition set_app_ino s (v : Z) : psrv X :=
  {| app_ino := v; app_pid := app_pid s; shell_waiting := shell_waiting s; kern := kern s |}.
Definition set_app_pid s (v : Z) : psrv X :=
  {| app_ino := app_ino s; app_pid := v; shell_waiting := shell_waiting s; kern := kern s |}.
Definition set_waiting s (v : bool) : psrv X :=
  {| app_ino := app_ino s; app_pid := app_pid s; shell_waiting := Some v; kern := kern s |}.
Definition with_kern s (k : kernel X) : psrv X :=
  {| app_ino := app_ino s; app_pid := app_pid s; shell_waiting := shell_waiting s; kern := k |}.

(** A call into the kernel, and one of the earth interface. *)
Definition kern_call {A} (m : M (kernel X) A) : M (psrv X) A := fun s =>
  match m (kern s) with
  | Ok (a, k) => Ok (a, with_kern s k)
  | Fatal m => Fatal m
  | Stuck => Stuck
  | NoFuel => NoFuel
  end.
Definition mach_call {A} (m : M X A) : M (psrv X) A := kern_call (earth_call m).
End State.

(** [struct proc_request] in a message. *)
Definition proc_request_of (buf : list byte) : proc_request := {|
  pr_type := get32 buf 0;
  pr_argc := i32 (get32 buf 1);
  pr_argv := (fun i => take (Z.to_nat CMD_ARG_LEN) (drop (8 + i * Z.to_nat CMD_ARG_LEN) buf)) <$>
               seq 0 (Z.to_nat CMD_NARGS);
|}.

(** [file_read] is that of the file server's clients, [disk_read block_no] is
    [earth->disk_read(block_no, 1, dst)], and [tw] the [term_write] of a kernel
    process; [junk] is what is on the stack where [LOG] has its buffer. *)
Section Server.
Context {X : Type} `{!HasMachine X} (e : earth machine) (tw : list byte -> nat -> M X unit) (junk : list byte).
Context (file_read : Z -> Z -> M X (Z * block)) (disk_read : Z -> M X block).

Definition info (format : list byte) (args : list arg) : M (psrv X) unit := mach_call (INFO tw junk format args).

Definition app_read (app_ino off : Z) : M X block :=
  '(_, dst) ← file_read app_ino off; mret dst.

(** [dir_lookup(dir_ino, name)] *)
Definition lookup (dir_ino : Z) (name : list byte) : M (psrv X) Z :=
  mach_call (dir_lookup file_read dir_ino name).

Definition app_spawn (req : proc_request) : M (psrv X) Z :=
  bin_ino ← lookup 0 (lit "bin/" ++ [NUL]);
  argv0 ← mopt (pr_argv req !! 0%nat);
  ino ← lookup bin_ino argv0;
  mmodify (fun s => set_app_ino s ino);;
  if (ino : Z) <? 0 then mret CMD_ERROR else
  c ← mlift (last_arg_char req);
  let argc := if bool_decide (c = Byte.x26) then pr_argc req - 1 else pr_argc req in
  pid ← kern_call proc_alloc;
  mmodify (fun s => set_app_pid s pid);;
  mach_call (elf_load e tw junk (app_read ino) pid argc (Some (mjoin (pr_argv req))));;
  kern_call (proc_set_ready pid);;
  mret CMD_OK.

Definition sys_proc_read (sys_apps_base block_no : Z) : M X block :=
  disk_read (u32 (sys_apps_base + block_no)).

Definition sys_apps : list (list byte) := [lit "sys_process"; lit "sys_terminal"; lit "sys_file"; lit "sys_shell"].

(** Reading outside [sys_apps] is undefined. *)
Definition sys_spawn (base : Z) : M (psrv X) unit :=
  pid ← kern_call proc_alloc;
  name ← (if 1 <=? pid then mopt (sys_apps !! Z.to_nat (pid - 1)) else mstuck);
  info (lit "Load kernel process #%d: %s" ++ [NUL]) [AInt pid; AStr (name ++ [NUL])];;
  mach_call (elf_load e tw junk (sys_proc_read base) pid 0 None);;
  kern_call (proc_set_ready pid).

(** One round of the server's loop after [sys_recv]: the message it sends, if any.
    The reply and the request are the same buffer. *)
Definition handle_proc_request (sender : Z) (buf : list byte) : M (psrv X) (option (Z * list byte)) :=
  let req := proc_request_of buf in
  if pr_type req =? PROC_SPAWN then
    r ← app_spawn req;
    let buf := put32 buf 0 r in
    c ← mlift (last_arg_char (proc_request_of buf));
    let waiting := negb (bool_decide (c = Byte.x26)) && (get32 buf 0 =? CMD_OK) in
    mmodify (fun s => set_waiting s waiting);;
    s ← mget;
    (if negb waiting && (get32 buf 0 =? CMD_OK)
     then info (lit "process %d running in the background" ++ [NUL]) [AInt (app_pid s)] else mret tt);;
    mret (Some (GPID_SHELL, take 4 buf))
  else if pr_type req =? PROC_EXIT then
    kern_call (proc_free (lift_earth e) sender);;
    s ← mget;
    w ← mopt (shell_waiting s);
    if (w : bool) && (app_pid s =? sender) then mret (Some (GPID_SHELL, take 4 buf))
    else if app_pid s =? sender then
      info (lit "background process %d terminated" ++ [NUL]) [AInt sender];; mret None
    else mret None
  else if pr_type req =? PROC_KILLALL then
    kern_call (proc_free (lift_earth e) GPID_ALL);;
    mret None
  else mfatal ("sys_process: invalid request " +:+ pretty (i32 (get32 buf 0))).
End Server.
