(* ===== verification/SysProcProps.v ===== *)
(** * The process server: its correctness

    Spawning an application, from the directory lookup to the process that is
    ready to run, and the protocol between the server and the shell. *)

From stdpp Require Import pretty options.
From coqutil Require Import Byte.
From S2P Require Import Prelude CString InodeStore Earth Timer Mmu SoftTlb MmuProps Process Kernel KernelInv KernelIpc KernelSched KernelTrace KernelFair KernelProps Tty Terminal Print Dir Shell Elf ElfSpec ElfProps Devices SysProc.

Lemma wp_kern_call {X A} E (m : M (kernel X) A) (s : psrv X) Q :
  wp E m (kern s) (fun a k => Q a (with_kern s k)) -> wp E (kern_call m) s Q.
Proof. unfold wp, kern_call. by destruct (m (kern s)) as [[a k]| | |]. Qed.

(** A call of the earth interface that may fail. *)
Lemma wp_mach_call {X A} E (m : M X A) (s : psrv X) Q :
  wp E m (mach (kern s)) (fun a x => Q a (with_kern s (with_mach (kern s) x))) -> wp E (mach_call m) s Q.
Proof. unfold wp, mach_call, kern_call, earth_call. by destruct (m (mach (kern s))) as [[a x]| | |]. Qed.

Lemma free_frames_table s s' : page_info_table s' = page_info_table s -> free_frames s' = free_frames s.
Proof. intros H. apply list_filter_iff. intros i. unfold entry_free. by rewrite H. Qed.


(** The lines of the log. *)
Definition load_line (pid : Z) (name : list byte) : list byte :=
  msg INFO_PREFIX newline (text "Load kernel process #" ++ [Dec pid] ++ text ": " ++ [Str name []]).
Definition background_line (pid : Z) : list byte :=
  msg INFO_PREFIX newline (text "process " ++ [Dec pid] ++ text " running in the background").
Definition terminated_line (pid : Z) : list byte :=
  msg INFO_PREFIX newline (text "background process " ++ [Dec pid] ++ text " terminated").

Section spawn.
Context {X : Type} `{!HasMachine X} (tw : list byte -> nat -> M X unit) `{!Devices tw} (junk : list byte).
Context (mtime : nat -> Z) (plat : platform) (tr : translation).
Context (quiet : Z -> Prop) (file_read : Z -> Z -> M X (Z * block)) (files : Z -> Z -> block).
Abbreviation e := (mmu_init mtime plat tr).
Abbreviation psrv := (psrv X).
(** The machine that a kernel runs on. *)
Abbreviation mc k := (get_machine (mach k)).

(** *** Files

    [file_read] gives the blocks of [files]; other processes may run in between,
    but the processes in [quiet] do not, and no frame changes hands. *)
Record files_ok : Prop := {
  fr_block ino off : is_block (files ino off);
  fr_read ino off x : dev_inv x -> tlb_inv (get_machine x) -> exists r x', file_read ino off x = Ok ((r, files ino off), x') /\ dev_inv x' /\
    tlb_inv (get_machine x') /\ curr_vm_pid (get_machine x') = curr_vm_pid (get_machine x) /\
    page_info_table (get_machine x') = page_info_table (get_machine x) /\
    forall q v, quiet q -> tlb_aspace (get_machine x') q v = tlb_aspace (get_machine x) q v;
}.

(** The machine after quiet steps. *)
Record quiet_steps (x x' : X) : Prop := {
  qs_dev : dev_inv x';
  qs_inv : tlb_inv (get_machine x');
  qs_vm : curr_vm_pid (get_machine x') = curr_vm_pid (get_machine x);
  qs_table : page_info_table (get_machine x') = page_info_table (get_machine x);
  qs_aspace q v : quiet q -> tlb_aspace (get_machine x') q v = tlb_aspace (get_machine x) q v;
}.

Context (Hfiles : files_ok).

Lemma app_reader_ok ino pid : quiet pid -> reader_ok pid quiet dev_inv (app_read file_read ino) (files ino) (fun _ => True).
Proof using Hfiles.
  intros Hq. split; [intros n; apply Hfiles|]. intros n x _ Hx Hinv Hcur.
  destruct (fr_read Hfiles ino n x Hx Hinv) as (r & x' & Hr & Hx' & Hi & Hc & Ht & Ha). exists x'.
  split; [unfold app_read; by rewrite (mbind_ok _ _ _ _ _ Hr)|]. split_and!; [done|done|congruence|done|].
  intros q v [->|Hqv]; by apply Ha.
Qed.

(** A lookup in a directory. *)
Lemma wp_lookup E dir es name rest (s : psrv) (Q : Z -> psrv -> Prop) : dev_inv (mach (kern s)) -> tlb_inv (mc (kern s)) ->
  is_dir (files dir 0) es -> Forall entry_ok es -> is_name name -> not_number name ->
  (length name <= length (print_dir es))%nat ->
  (forall x, quiet_steps (mach (kern s)) x ->
    Q (dir_find es name) (with_kern s (with_mach (kern s) x))) ->
  wp E (lookup file_read dir (name ++ NUL :: rest)) s Q.
Proof using Hfiles.
  intros Hx Hinv Hdir Hes Hn Hnum Hl HQ. apply wp_mach_call. unfold dir_lookup. apply wp_bind.
  destruct (fr_read Hfiles dir 0 (mach (kern s)) Hx Hinv) as (r & x & Hr & Hx' & Hi & Hc & Ht & Ha).
  eapply wp_ok; [exact Hr|]. cbv beta iota. rewrite (dir_scan_find (files dir 0) es name rest) by done.
  eapply wp_ok; [reflexivity|]. by apply HQ.
Qed.

(** What [app_spawn] needs of the request: between 1 and 16 arguments in an array
    of the right size. *)
Record request_ok (req : proc_request) : Prop := {
  rq_argc : 1 <= pr_argc req <= CMD_NARGS;
  rq_rows : length (pr_argv req) = Z.to_nat CMD_NARGS;
  rq_len : Forall (fun row => length row = Z.to_nat CMD_ARG_LEN) (pr_argv req);
}.

(** The number of arguments that the application gets: a last argument with [&] is
    for the shell. *)
Definition background (req : proc_request) : bool :=
  match last_arg_char req with Ok c => bool_decide (c = Byte.x26) | _ => false end.
Definition app_argc (req : proc_request) : Z :=
  if background req then pr_argc req - 1 else pr_argc req.

Lemma last_arg_char_ok req : request_ok req -> exists c, last_arg_char req = Ok c.
Proof using Type.
  intros [Hargc Hrows Hlen]. unfold last_arg_char, CMD_NARGS in *. rewrite (proj2 (Z.leb_le 0 _)) by lia.
  destruct (lookup_lt_is_Some_2 (pr_argv req) (Z.to_nat (pr_argc req - 1))) as [row Hr]; [lia|]. rewrite Hr.
  rewrite Forall_forall in Hlen. apply list_elem_of_lookup_2, Hlen in Hr. destruct row; [done|]. by eexists.
Qed.

Lemma length_rows (rows : list (list byte)) n : Forall (fun row => length row = n) rows ->
  length (mjoin rows) = (n * length rows)%nat.
Proof using Type. induction 1 as [|row rows Hrow _ IH]; [cbn; lia|]. change (mjoin (row :: rows)) with (row ++ mjoin rows). rewrite length_app, IH, Hrow, length_cons. lia. Qed.

Lemma argv_length req : request_ok req -> Z.of_nat (length (mjoin (pr_argv req))) = CMD_NARGS * CMD_ARG_LEN.
Proof using Type.
  intros [_ Hrows Hlen]. rewrite (length_rows _ _ Hlen), Hrows. done.
Qed.

(** The command [name] in the directory [/bin], as the file system has it. *)
Record bin_dir (es : list entry) (name : list byte) : Prop := {
  bd_root : exists es0, is_dir (files 0 0) es0 /\ Forall entry_ok es0 /\
    (4 <= length (print_dir es0))%nat /\ is_dir (files (dir_find es0 (lit "bin/")) 0) es;
  bd_entries : Forall entry_ok es;
  bd_len : (length name <= length (print_dir es))%nat;
  bd_name : is_name name;
  bd_word : not_number name;
}.

(** A file that can be loaded. *)
Record executable (ino : Z) (phs : list elf32_program_header) : Prop := {
  ex_headers : headers (files ino 0) = Some phs;
  ex_segs : Forall seg_ok phs;
  ex_disjoint : ForallOrdPairs seg_disjoint phs;
}.

(** A kernel whose next pid is [pid], for which no page is mapped. *)
Record next_pid (k : kernel X) (pid : Z) : Prop := {
  np_tbl : tbl_inv (alloc_pid k) (proc_set k);
  np_mach : tlb_inv (mc k);
  np_dev : dev_inv (mach k);
  np_pid : pid = alloc_pid k + 1;
  np_range : 0 < pid < MMU_MAX_NPROCESS;
  np_vm : curr_vm_pid (mc k) <> pid;
  np_empty v : tlb_aspace (mc k) pid v = None;
  np_quiet : quiet pid;
}.

Lemma next_pid_quiet k pid m : next_pid k pid -> quiet_steps (mach k) m -> next_pid (with_mach k m) pid.
Proof using Type.
  intros [Ht Hm Hd Hp Hr Hv He Hq] [Hx Hi Hc Htb Ha]. split; cbn; try done; [congruence|]. intros v. by rewrite Ha.
Qed.

(** The process [pid] was loaded and is ready. *)
Record spawned (k k' : kernel X) (pid argc : Z) (argv : option (list byte)) (file : Z -> block)
    (phs : list elf32_program_header) : Prop := {
  sp_slot : exists i p, first_unused (proc_set k) i p /\
    proc_set k' = <[i := set_status (set_pid p pid) PROC_READY]> (proc_set k);
  sp_image : exists a y t t', args_page argc argv a /\
    forall v, tlb_aspace (mc k') pid v = load_image file phs a y t t' v;
}.

(** Why a spawn can stop the system. *)
Definition spawn_fatal (k : kernel X) (file : Z -> block) (phs : list elf32_program_header) (m : string) : Prop :=
  (m = full_table /\ forall i p, (i < 16)%nat -> proc_set k !! i = Some p -> p_status p <> PROC_UNUSED) \/
  (m = no_memory /\ (length (free_frames (mc k)) < length (load_pages file phs))%nat).

(** Allocating a process: [k1] is [k] with the process [pid] in the first unused slot,
    whatever the machine does meanwhile. *)
Definition fresh (k k1 : kernel X) (pid : Z) : Prop := exists j p, first_unused (proc_set k) j p /\
  k1 = with_mach (with_procs (with_alloc k pid) (<[j := set_status (set_pid p pid) PROC_LOADING]> (proc_set k))) (mach k1).

Lemma wp_alloc_next (s : psrv) pid file phs (Q : Z -> psrv -> Prop) : next_pid (kern s) pid ->
  (forall k1, fresh (kern s) k1 pid -> mach k1 = mach (kern s) -> Q pid (with_kern s k1)) ->
  wp (spawn_fatal (kern s) file phs) (kern_call proc_alloc) s Q.
Proof using Type.
  intros [Htbl Hmach Hdev -> Hrange Hvm Hempty Hquiet] HQ. apply wp_kern_call. apply (wp_alloc_loop _ 16 0).
  { rewrite (ti_len _ _ Htbl). lia. } { done. } { intros; lia. } { intros Hfull. left. by split. }
  intros j p Hfirst. unfold allocated. rewrite u32_id, i32_id by (unfold MMU_MAX_NPROCESS in Hrange; lia).
  apply HQ; [by exists j, p|done].
Qed.

(** Loading the process that was allocated, and making it READY. *)
Lemma wp_load_ready (J : list byte -> X -> Prop) (HJ : forall o x s, J o x -> J o (set_machine x s)) (s : psrv) k pid reader file dom phs argc argv o (Q : unit -> psrv -> Prop) :
  next_pid k pid -> fresh k (kern s) pid ->
  mc (kern s) = mc k -> J o (mach (kern s)) -> (pid <= GPID_SHELL -> writes tw J /\ length junk = Z.to_nat TERM_BUF_SIZE) ->
  (forall o', reader_ok pid quiet (J o') reader file dom) -> headers (file 0) = Some phs -> Forall seg_ok phs ->
  dom 0 /\ Forall (seg_blocks dom) phs -> ForallOrdPairs seg_disjoint phs ->
  0 <= argc <= CMD_NARGS -> (forall bs, argv = Some bs -> argc * CMD_ARG_LEN <= Z.of_nat (length bs)) ->
  (forall s', app_ino s' = app_ino s -> app_pid s' = app_pid s -> spawned k (kern s') pid argc argv file phs ->
     tlb_inv (mc (kern s')) -> J (o ++ load_log pid phs) (mach (kern s')) -> alloc_pid (kern s') = pid -> tbl_inv pid (proc_set (kern s')) ->
     (forall q v, quiet q -> q <> pid -> tlb_aspace (mc (kern s')) q v = tlb_aspace (mc k) q v) -> Q tt s') ->
  wp (spawn_fatal k file phs)
    (mach_call (elf_load e tw junk reader pid argc argv);; kern_call (proc_set_ready pid)) s Q.
Proof using Type.
  intros [Htbl Hmach Hdev -> Hrange Hvm Hempty Hquiet] (j & p & Hfirst & Hk) Hmk Hdk Hlog Hrd Hhd Hsegs Hbl Hdis Hargc Hargv HQ.
  set (pid := alloc_pid k + 1) in *. apply wp_bind, wp_mach_call. eapply wp_conseq.
  - apply (wp_elf_load_spec J HJ pid quiet mtime plat tr tw junk reader dom file phs argc argv o).
    split; rewrite ?Hmk; try done.
  - intros m [-> Hm]. right. split; [done|]. by rewrite Hmk in Hm.
  - intros [] x [Hx Hi Hcur Himg Hkeep]. rewrite Hmk in Hkeep. apply wp_kern_call. rewrite Hk. eapply wp_ok; [reflexivity|].
    destruct Hfirst as (Hj & Hp & Hun & Hbefore). set (p' := set_status (set_pid p pid) PROC_LOADING).
    assert (proc_set k !! j = Some p) as Hlk by done. apply lookup_lt_Some in Hlk.
    pose proof (tbl_alloc _ _ j p Htbl ltac:(lia) Hj Hp) as Htbl'. fold pid in Htbl'. fold p' in Htbl'.
    assert (status_loop pid PROC_READY (<[j := p']> (proc_set k)) = <[j := set_status (set_pid p pid) PROC_READY]> (proc_set k)) as Heq.
    { change pid with (p_pid p') at 1. rewrite (status_loop_at _ _ j p' _ Htbl' Hj); [|by apply list_lookup_insert_eq|cbn; lia].
      by rewrite list_insert_insert_eq. }
    apply HQ; cbn [kern with_kern with_mach with_procs with_alloc proc_set mach alloc_pid]; try done.
    + split; [|exact Himg]. exists j, p. split; [done|exact Heq].
    + rewrite Heq. pose proof (tbl_set_status_active _ _ j p' PROC_READY Htbl' Hj) as Hs. rewrite list_insert_insert_eq in Hs.
      apply Hs; [by apply list_lookup_insert_eq|done..].
Qed.

(** Printing keeps what the devices need. *)
Lemma quiet_writes : writes tw (fun _ => dev_inv).
Proof using Type. intros _ x str tl Hx Hl. destruct (dev_write x str tl Hx Hl) as (x' & Hr & Hx' & _ & Hm). by exists x'. Qed.

(** Allocating, loading and readying an application. *)
Lemma wp_start (s : psrv) pid ino req phs (Q : Z -> psrv -> Prop) : next_pid (kern s) pid -> (pid <= GPID_SHELL -> length junk = Z.to_nat TERM_BUF_SIZE) -> executable ino phs -> request_ok req ->
  (forall s', app_ino s' = app_ino s -> app_pid s' = pid -> spawned (kern s) (kern s') pid (app_argc req) (Some (mjoin (pr_argv req))) (files ino) phs ->
     tlb_inv (mc (kern s')) -> dev_inv (mach (kern s')) ->
     (forall q v, quiet q -> q <> pid -> tlb_aspace (mc (kern s')) q v = tlb_aspace (mc (kern s)) q v) -> Q CMD_OK s') ->
  wp (spawn_fatal (kern s) (files ino) phs)
    (c ← mlift (last_arg_char req);
     let argc := if bool_decide (c = Byte.x26) then pr_argc req - 1 else pr_argc req in
     pid ← kern_call proc_alloc;
     mmodify (fun s => set_app_pid s pid);;
     mach_call (elf_load e tw junk (app_read file_read ino) pid argc (Some (mjoin (pr_argv req))));;
     kern_call (proc_set_ready pid);;
     mret CMD_OK) s Q.
Proof using Hfiles.
  intros Hnp Hjk [Hhd Hsegs Hdis] Hreq HQ. destruct (last_arg_char_ok req Hreq) as [c Hc]. rewrite Hc. apply wp_bind, wp_ret.
  assert ((if bool_decide (c = Byte.x26) then pr_argc req - 1 else pr_argc req) = app_argc req) as ->
    by (unfold app_argc, background; by rewrite Hc).
  assert (0 <= app_argc req <= CMD_NARGS) as Hargc.
  { pose proof (rq_argc _ Hreq). unfold app_argc. destruct (background req); lia. }
  cbv zeta. apply wp_bind, (wp_alloc_next s pid); [done|]. intros k1 Hk1 Hmk. apply wp_bind. eapply wp_ok; [reflexivity|].
  apply wp_bind. eapply wp_mono with (Q' := fun _ s' => wp _ (kern_call (proc_set_ready pid)) s' (fun _ s' => Q CMD_OK s')).
  2: intros [] s' H; apply wp_bind; exact H.
  apply wp_bind_inv.
  apply (wp_load_ready (fun _ => dev_inv) (fun _ => dev_inv_set) _ (kern s) pid (app_read file_read ino) (files ino) (fun _ => True) phs _ _ []);
    [done|exact Hk1|by cbn; rewrite Hmk|cbn; rewrite Hmk; apply Hnp|intros Hp; split; [apply quiet_writes|auto]|intros _; apply app_reader_ok, Hnp|done|done|split; [done|apply all_blocks]|done|done| |].
  - intros bs [= <-]. pose proof (argv_length _ Hreq). unfold CMD_NARGS, CMD_ARG_LEN in *. lia.
  - intros s' Hino Hpid Hsp Hi Hd _ _ Hkeep. by apply HQ.
Qed.

(** What a spawn of the file [ino] leaves. *)
Record spawn_result (s s' : psrv) (pid : Z) (req : proc_request) (ino : Z) (phs : list elf32_program_header) (r : Z) : Prop := {
  sr_status : r = if decide (ino < 0) then CMD_ERROR else CMD_OK;
  sr_ino : app_ino s' = ino;
  sr_inv : tlb_inv (mc (kern s'));
  sr_dev : dev_inv (mach (kern s'));
  sr_others q v : quiet q -> q <> pid -> tlb_aspace (mc (kern s')) q v = tlb_aspace (mc (kern s)) q v;
  sr_ok : 0 <= ino -> app_pid s' = pid /\
    spawned (kern s) (kern s') pid (app_argc req) (Some (mjoin (pr_argv req))) (files ino) phs;
  sr_error : ino < 0 -> app_pid s' = app_pid s /\ proc_set (kern s') = proc_set (kern s) /\
    forall v, tlb_aspace (mc (kern s')) pid v = None;
}.

Lemma quiet_steps_trans m m' m'' : quiet_steps m m' -> quiet_steps m' m'' -> quiet_steps m m''.
Proof using Type.
  intros [_ _ Hv Ht Ha] [Hd' Hi' Hv' Ht' Ha']. split; [done|done|congruence|congruence|]. intros q v Hq. by rewrite Ha', Ha.
Qed.

Lemma wp_app_spawn (s : psrv) pid req es name rest phs (Q : Z -> psrv -> Prop) :
  let ino := dir_find es name in
  next_pid (kern s) pid -> (pid <= GPID_SHELL -> length junk = Z.to_nat TERM_BUF_SIZE) ->
  bin_dir es name -> request_ok req -> pr_argv req !! 0%nat = Some (name ++ NUL :: rest) ->
  (0 <= ino -> executable ino phs) ->
  (forall r s', spawn_result s s' pid req ino phs r -> Q r s') ->
  wp (spawn_fatal (kern s) (files ino) phs) (app_spawn e tw junk file_read req) s Q.
Proof using Hfiles.
  intros ino Hnp Hjk [(es0 & Hroot & Hes0 & Hl0 & Hbin) Hes Hlen Hname Hword] Hreq Hargv Hexec HQ. unfold app_spawn.
  apply wp_bind. eapply (wp_lookup _ 0 es0 (lit "bin/") []); [apply Hnp|apply Hnp|done|done| |done|exact Hl0|].
  { apply (bool_decide_unpack _). vm_compute. exact I. }
  intros m1 Hq1. apply wp_bind. rewrite Hargv. apply wp_ret. apply wp_bind.
  eapply wp_lookup; [apply Hq1|apply Hq1|exact Hbin|done|done|done|exact Hlen|].
  intros m2 Hq2. cbn [kern with_kern with_mach mach] in Hq2. pose proof (quiet_steps_trans _ _ _ Hq1 Hq2) as Hq.
  apply wp_bind. eapply wp_ok; [reflexivity|]. fold ino. destruct (Z.ltb_spec ino 0) as [Hneg|Hpos].
  - apply wp_ret, HQ. split; cbn; try done; [by rewrite decide_True|apply Hq|apply Hq|intros; by apply Hq|lia|].
    intros _. split_and!; [done|done|]. intros v. rewrite (qs_aspace _ _ Hq) by apply Hnp. apply Hnp.
  - set (s2 := set_app_ino _ _).
    assert (next_pid (kern s2) pid) as Hnp2 by (apply (next_pid_quiet _ _ _ Hnp Hq)).
    eapply (wp_conseq _ (spawn_fatal (kern s2) (files ino) phs) _ _ Q Q); [eapply (wp_start s2 pid ino req phs); [done|done|auto|done|]| |done].
    + intros s' Hino Hpid [Hslot Himg] Hinv Hdev Hoth. apply HQ. split.
      * by rewrite decide_False by lia.
      * exact Hino.
      * done.
      * done.
      * intros q v Hqq Hne. rewrite Hoth by done. by apply Hq.
      * intros _. split; [done|]. by split.
      * lia.
    + intros m [Hfull|[Hm Hmem]]; [by left|right]. split; [done|].
      by rewrite <- (free_frames_table (mc (kern s)) (get_machine m2)) by apply Hq.
Qed.

(** C21: spawning an application.  For a command in [/bin] (one that is not a number
    and not longer than the text of the directory, as [bin_dir] says), the server finds
    its file, allocates a process in the first unused slot with a fresh pid, gives it
    exactly the address space of the executable with the arguments (without a
    final [&]), and marks it READY; for an unknown command it changes no process.
    The other processes that do not run meanwhile keep their memory.  It fails
    only when the process table is full or memory runs out. *)
Theorem app_spawn_correct (s : psrv) (pid : Z) (req : proc_request) (es : list entry) (name rest : list byte)
    (phs : list elf32_program_header) :
  next_pid (kern s) pid -> (pid <= GPID_SHELL -> length junk = Z.to_nat TERM_BUF_SIZE) ->
  bin_dir es name -> request_ok req -> pr_argv req !! 0%nat = Some (name ++ NUL :: rest) ->
  (0 <= dir_find es name -> executable (dir_find es name) phs) ->
  match app_spawn e tw junk file_read req s with
  | Ok (r, s') => spawn_result s s' pid req (dir_find es name) phs r
  | Fatal m => spawn_fatal (kern s) (files (dir_find es name)) phs m
  | Stuck | NoFuel => False
  end.
Proof using Hfiles.
  intros Hnp Hjk Hbin Hreq Hargv Hexec.
  apply (wp_app_spawn s pid req es name rest phs (fun r s' => spawn_result s s' pid req (dir_find es name) phs r)); auto.
Qed.

(** ** The protocol with the shell *)

(** The message of the shell for a request. *)
Definition proc_request_bytes (req : proc_request) : list byte :=
  le_split 4 (pr_type req) ++ le_split 4 (pr_argc req) ++ mjoin (pr_argv req).

Lemma row_of_join (rows : list (list byte)) n i row rest : Forall (fun row => length row = n) rows -> rows !! i = Some row ->
  take n (drop (i * n) (mjoin rows ++ rest)) = row.
Proof using Type.
  intros Hrows. revert i. induction Hrows as [|x rows Hx Hrows IH]; intros i Hi; [done|].
  change (mjoin (x :: rows)) with (x ++ mjoin rows). rewrite <- app_assoc. destruct i as [|i].
  - injection Hi as <-. rewrite drop_0. by apply take_app_length'.
  - cbn in Hi. rewrite drop_app_ge by (cbn; lia). replace (S i * n - length x)%nat with (i * n)%nat by (cbn; lia). by apply IH.
Qed.

Lemma proc_request_roundtrip req rest : request_ok req -> 0 <= pr_type req < 2 ^ 32 ->
  proc_request_of (proc_request_bytes req ++ rest) = req.
Proof using Type.
  intros [Hargc Hrows Hlen] Hty. destruct req as [ty argc argv]. unfold proc_request_of, proc_request_bytes, CMD_NARGS in *. cbn in *.
  rewrite <- !app_assoc. f_equal.
  - rewrite get32_head. by apply u32_id.
  - rewrite (get32_app (le_split 4 ty)) by apply length_le_split. rewrite i32_u32. apply i32_id. lia.
  - apply list_eq. intros i. rewrite list_lookup_fmap. destruct (argv !! i) as [row|] eqn:Hi.
    + pose proof (lookup_lt_Some _ _ _ Hi) as Hi16. rewrite lookup_seq_lt by lia. cbn [fmap option_fmap option_map]. f_equal.
      rewrite app_assoc, drop_app_ge by (rewrite length_app, !length_le_split; lia).
      rewrite length_app, !length_le_split. change (Z.to_nat CMD_ARG_LEN) with 32%nat in *.
      replace (_ - (4 + 4))%nat with (i * 32)%nat by lia. by apply row_of_join.
    + apply lookup_ge_None in Hi. by rewrite lookup_seq_ge by lia.
Qed.

(** The reply does not touch the arguments of the request. *)
Lemma request_after_reply buf r : (520 <= length buf)%nat ->
  pr_argc (proc_request_of (put32 buf 0 r)) = pr_argc (proc_request_of buf) /\
  pr_argv (proc_request_of (put32 buf 0 r)) = pr_argv (proc_request_of buf).
Proof using Type.
  intros Hl. unfold proc_request_of. cbn [pr_argc pr_argv]. split.
  - by rewrite get32_put32_ne by lia.
  - apply list_fmap_ext. intros k i [-> Hk]%lookup_seq. change (Z.to_nat CMD_ARG_LEN) with 32%nat. change (Z.to_nat CMD_NARGS) with 16%nat in Hk.
    by rewrite drop_put32 by lia.
Qed.

Lemma last_arg_char_ext req req' : pr_argc req = pr_argc req' -> pr_argv req = pr_argv req' ->
  last_arg_char req = last_arg_char req'.
Proof using Type. intros Hc Hv. unfold last_arg_char. by rewrite Hc, Hv. Qed.

(** *** The log *)
Context (Hjunk : length junk = Z.to_nat TERM_BUF_SIZE).

Lemma wp_info E fmt args ps (s : psrv) (Q : unit -> psrv -> Prop) : fmt = fmt_of ps ++ [NUL] -> args = args_of ps -> Forall piece_ok ps ->
  (length (msg INFO_PREFIX newline ps) < 512)%nat -> dev_inv (mach (kern s)) ->
  (forall x, dev_inv x -> dev_out x = dev_out (mach (kern s)) ++ msg INFO_PREFIX newline ps -> get_machine x = mc (kern s) ->
     Q tt (with_kern s (with_mach (kern s) x))) -> wp E (info tw junk fmt args) s Q.
Proof using Hjunk.
  intros Hf Ha Hps Hl Hx HQ. apply wp_mach_call. eapply wp_device_log; [exact Hf|exact Ha|done|by apply (bool_decide_unpack _)..|done|done|done|done].
Qed.

(** A line with one number. *)
Lemma wp_info_dec E (t t' : string) v (s : psrv) (Q : unit -> psrv -> Prop) : let ps := text t ++ [Dec v] ++ text t' in
  Forall piece_ok (text t) -> Forall piece_ok (text t') -> (length (lit t) + length (lit t') < 450)%nat -> - 2 ^ 31 <= v < 2 ^ 31 ->
  dev_inv (mach (kern s)) ->
  (forall x, dev_inv x -> dev_out x = dev_out (mach (kern s)) ++ msg INFO_PREFIX newline ps -> get_machine x = mc (kern s) ->
     Q tt (with_kern s (with_mach (kern s) x))) -> wp E (info tw junk (lit t ++ lit "%d" ++ lit t' ++ [NUL]) [AInt v]) s Q.
Proof using Hjunk.
  intros ps Ht Ht' Hl Hv Hx HQ. eapply (wp_info _ _ _ ps); [| | | |done|done].
  - unfold ps, fmt_of. rewrite !bind_app. fold (fmt_of (text t)) (fmt_of (text t')). rewrite !fmt_of_text, <- !app_assoc. done.
  - unfold ps, args_of. rewrite !bind_app. fold (args_of (text t)) (args_of (text t')). by rewrite !args_of_text.
  - unfold ps. rewrite !Forall_app. split_and!; [done| |done]. by apply Forall_singleton.
  - unfold msg, ps, render. rewrite !bind_app. fold (render (text t)) (render (text t')). rewrite !render_text, !length_app, bind_cons, length_app.
    cbn [piece_out]. pose proof (itoa_length v 10 ltac:(lia)). change (length INFO_PREFIX) with 7%nat. change (length newline) with 2%nat.
    change (length ([] ≫= piece_out)) with 0%nat. lia.
Qed.

(** The answer to the exit of a process, and what is printed. *)
Lemma handle_exit (s : psrv) sender buf w : sender <> GPID_ALL -> - 2 ^ 31 <= sender < 2 ^ 31 -> get32 buf 0 = PROC_EXIT ->
  shell_waiting s = Some w -> dev_inv (mach (kern s)) ->
  exists s', handle_proc_request e tw junk file_read sender buf s =
    Ok (if w && (app_pid s =? sender) then Some (GPID_SHELL, take 4 buf) else None, s') /\ dev_inv (mach (kern s')) /\
    dev_out (mach (kern s')) = dev_out (mach (kern s)) ++ if negb w && (app_pid s =? sender) then terminated_line sender else [].
Proof using Hjunk.
  intros Hs Hrange Hty Hw Hx.
  assert (wp (fun _ => False) (handle_proc_request e tw junk file_read sender buf) s (fun r s' =>
    r = (if w && (app_pid s =? sender) then Some (GPID_SHELL, take 4 buf) else None) /\ dev_inv (mach (kern s')) /\
    dev_out (mach (kern s')) = dev_out (mach (kern s)) ++ if negb w && (app_pid s =? sender) then terminated_line sender else [])) as Hwp.
  2:{ destruct (wp_returns _ _ _ Hwp) as (r & s' & Hr & -> & H). by exists s'. }
  unfold handle_proc_request. cbn [proc_request_of pr_type]. rewrite Hty.
  change (PROC_EXIT =? PROC_SPAWN) with false. rewrite Z.eqb_refl. unfold proc_free.
  rewrite (proj2 (Z.eqb_neq sender GPID_ALL)) by done. cbn [negb]. apply wp_bind. eapply wp_ok; [reflexivity|].
  apply wp_bind. eapply wp_ok; [reflexivity|]. set (s1 := with_kern s _).
  change (shell_waiting s1) with (shell_waiting s). change (app_pid s1) with (app_pid s). rewrite Hw. apply wp_bind, wp_ret.
  assert (dev_inv (mach (kern s1))) as Hx1 by (by apply dev_inv_set).
  assert (dev_out (mach (kern s1)) = dev_out (mach (kern s))) as Ho by apply dev_out_set.
  destruct w, (app_pid s =? sender); cbn [andb negb]; try (apply wp_ret; rewrite Ho, app_nil_r; done).
  apply wp_bind. apply (wp_info_dec _ "background process " " terminated"); [by apply (bool_decide_unpack _)..|cbn; lia|done|done|].
  intros x Hx' Hox _. apply wp_ret. cbn [kern mach with_kern with_mach]. by rewrite Hox, Ho.
Qed.

(** C23: the shell and the process server agree.  The server answers a request
    of the shell with the result of the spawn; the shell then waits for a second
    message exactly when the server will send one, which it does when the
    application, and no other process, exits; for an application in the background
    it prints a line now and one when the application exits instead. *)
Theorem spawn_protocol (s : psrv) (pid : Z) (req : proc_request) (es : list entry) (name rest stale : list byte)
    (phs : list elf32_program_header) :
  next_pid (kern s) pid -> bin_dir es name -> request_ok req -> pr_argv req !! 0%nat = Some (name ++ NUL :: rest) ->
  (0 <= dir_find es name -> executable (dir_find es name) phs) -> pr_type req = PROC_SPAWN ->
  match handle_proc_request e tw junk file_read GPID_SHELL (proc_request_bytes req ++ stale) s with
  | Ok (msg, s') => exists r w, r = (if decide (dir_find es name < 0) then CMD_ERROR else CMD_OK) /\
      msg = Some (GPID_SHELL, le_split 4 r) /\ shell_waits req r = Ok w /\
      (w = false -> r = CMD_OK -> exists out, dev_out (mach (kern s')) = out ++ background_line pid) /\
      forall sender buf, sender <> GPID_ALL -> - 2 ^ 31 <= sender < 2 ^ 31 -> get32 buf 0 = PROC_EXIT ->
        exists s'', handle_proc_request e tw junk file_read sender buf s' =
          Ok (if w && (app_pid s' =? sender) then Some (GPID_SHELL, take 4 buf) else None, s'') /\
          dev_out (mach (kern s'')) = dev_out (mach (kern s')) ++ if negb w && (app_pid s' =? sender) then terminated_line sender else []
  | Fatal m => spawn_fatal (kern s) (files (dir_find es name)) phs m
  | Stuck | NoFuel => False
  end.
Proof using Hfiles Hjunk.
  intros Hnp Hbin Hreq Hargv Hexec Hty.
  assert (wp (spawn_fatal (kern s) (files (dir_find es name)) phs)
    (handle_proc_request e tw junk file_read GPID_SHELL (proc_request_bytes req ++ stale)) s (fun msg s' =>
      exists r w, r = (if decide (dir_find es name < 0) then CMD_ERROR else CMD_OK) /\
      msg = Some (GPID_SHELL, le_split 4 r) /\ shell_waits req r = Ok w /\
      (w = false -> r = CMD_OK -> exists out, dev_out (mach (kern s')) = out ++ background_line pid) /\
      shell_waiting s' = Some w /\ dev_inv (mach (kern s')))) as Hwp.
  2:{ unfold wp in Hwp. destruct (handle_proc_request _ _ _ _ _ _ s) as [[msg s']| | |]; try done.
      destruct Hwp as (r & w & Hr & Hmsg & Hw & Hbg & Hsw & Hd). exists r, w. split_and!; [done..|].
      intros sender buf Hs Hrange Hb. destruct (handle_exit s' sender buf w Hs Hrange Hb Hsw Hd) as (s'' & H1 & _ & H2). by exists s''. }
  unfold handle_proc_request. rewrite (proc_request_roundtrip req stale Hreq) by (rewrite Hty; done).
  set (buf := proc_request_bytes req ++ stale). rewrite Hty, Z.eqb_refl. apply wp_bind.
  eapply (wp_app_spawn s pid req es name rest phs); [done..|]. intros r s' Hres.
  destruct (last_arg_char_ok req Hreq) as [c Hc].
  assert (520 <= length buf)%nat as Hbuf.
  { unfold buf, proc_request_bytes. pose proof (argv_length req Hreq) as Ha. unfold CMD_NARGS, CMD_ARG_LEN in Ha.
    rewrite !length_app, !length_le_split. lia. }
  destruct (request_after_reply buf r Hbuf) as [Hac Hav]. unfold buf in Hac, Hav.
  rewrite (proc_request_roundtrip req stale Hreq) in Hac, Hav by (rewrite Hty; done). fold buf in Hac, Hav.
  rewrite (last_arg_char_ext _ req Hac Hav), Hc. apply wp_bind, wp_ret.
  assert (0 <= r < 2 ^ 32) as Hr by (rewrite (sr_status _ _ _ _ _ _ _ Hres); case_decide; done).
  rewrite get32_put32_eq, u32_id by (done || lia). cbv zeta. set (w := negb (bool_decide (c = Byte.x26)) && (r =? CMD_OK)).
  assert (Some (GPID_SHELL, take 4 (put32 buf 0 r)) = Some (GPID_SHELL, le_split 4 r)) as Hmsg.
  { unfold buf, proc_request_bytes. rewrite <- !app_assoc, put32_head by apply length_le_split.
    by rewrite take_app_length' by (by rewrite length_le_split). }
  assert (shell_waits req r = Ok w) as Hw.
  { unfold shell_waits, w. rewrite Hc. destruct (r =? CMD_OK); cbn [negb]; [by rewrite andb_true_r|by rewrite andb_false_r]. }
  apply wp_bind. eapply wp_ok; [reflexivity|]. apply wp_bind. eapply wp_ok; [reflexivity|]. apply wp_bind.
  destruct (negb w && (r =? CMD_OK)) eqn:Hprint.
  - apply andb_true_iff in Hprint as [Hnw Hrk%Z.eqb_eq].
    assert (app_pid s' = pid) as Hpid.
    { apply (sr_ok _ _ _ _ _ _ _ Hres). pose proof (sr_status _ _ _ _ _ _ _ Hres) as Hst. rewrite Hrk in Hst. case_decide; [done|lia]. }
    apply (wp_info_dec _ "process " " running in the background"); [by apply (bool_decide_unpack _)..|cbn; lia| |apply Hres|].
    + cbn [app_pid set_waiting]. rewrite Hpid. pose proof (np_range _ _ Hnp) as Hrg. unfold MMU_MAX_NPROCESS in Hrg. lia.
    + intros x Hx Ho _. apply wp_ret. exists r, w. split_and!; [apply Hres|exact Hmsg|done| |done|done]. intros _ _.
      eexists. cbn [kern mach with_kern with_mach]. rewrite Ho. cbn [app_pid set_waiting]. by rewrite Hpid.
  - apply wp_ret, wp_ret. exists r, w. split_and!; [apply Hres|exact Hmsg|done| |done|apply Hres].
    intros -> ->. discriminate Hprint.
Qed.
End spawn.

(** ** A file system with the command [echo] *)
Definition t_bin : list entry :=
  [{| e_name := lit "./"; e_ino := 6 |}; {| e_name := lit "../"; e_ino := 0 |}; {| e_name := lit "echo"; e_ino := 7 |}].
Definition t_files (ino off : Z) : block :=
  if (ino =? 0) && (off =? 0) then dir_block root_dir
  else if (ino =? 6) && (off =? 0) then dir_block t_bin
  else if ino =? 7 then t_file off else null_block.
Definition t_file_read (ino off : Z) : M t_world (Z * block) := mret (0, t_files ino off).
Definition t_state : psrv t_world := {|
  app_ino := 0; app_pid := 0; shell_waiting := None;
  kern := {| proc_set := replicate 17 zero_process; core_to_proc_idx := []; core_in_kernel := 0; alloc_pid := 4;
             hw := {| mhartid := 0; csr_mepc := 0; mcause := 0; saved_area := [] |}; mach := (t_machine, []) |};
|}.
Definition t_req : proc_request :=
  {| pr_type := PROC_SPAWN; pr_argc := 3; pr_argv := arg_rows [lit "echo"; lit "hi"; lit "&"] |}.

Lemma t_files_ok : files_ok t_write (fun _ => True) t_file_read t_files.
Proof.
  split.
  - intros ino off. unfold t_files. repeat case_match; [by vm_compute..| |apply null_block_is_block].
    apply t_file_block.
  - intros ino off s _ Hinv. by exists 0, s.
Qed.

Lemma t_next_pid : next_pid t_write (fun _ => True) (kern t_state) 5.
Proof.
  split; try done.
  - cbn [kern t_state alloc_pid proc_set]. destruct boot_table as [H1 H2 H3 H4 H5 H6 H7 H8 H9].
    split; try done; intros i p Hi Hp; [specialize (H2 i p Hi Hp)|intros Ha; specialize (H6 i p Hi Hp Ha)]; lia.
  - apply t_machine_inv.
Qed.

Lemma t_bin_dir : bin_dir t_files t_bin (lit "echo").
Proof.
  split; try (apply (bool_decide_unpack _); vm_compute; exact I).
  exists root_dir. split_and!; [|apply (bool_decide_unpack _); vm_compute; exact I|rewrite root_dir_text; cbn; lia|].
  - apply (dir_block_is_dir root_dir). rewrite root_dir_text. cbn. lia.
  - apply (dir_block_is_dir t_bin). apply (bool_decide_unpack _). vm_compute. exact I.
Qed.

Lemma t_request_ok : request_ok t_req.
Proof.
  split; [cbn; unfold CMD_NARGS; lia|reflexivity|]. apply (bool_decide_unpack _). vm_compute. exact I.
Qed.

Lemma t_executable : executable t_files 7 t_phs.
Proof. split; [vm_compute; reflexivity|apply t_seg_ok|apply t_seg_disjoint]. Qed.

Lemma app_spawn_correct_witness :
  let run := app_spawn (mmu_init (fun _ => 0) QEMU SOFT_TLB) t_write t_junk t_file_read t_req t_state in
  match run with Ok _ => True | _ => False end /\
  match run with
  | Ok (r, s') => spawn_result t_write (fun _ => True) t_files t_state s' 5 t_req 7 t_phs r
  | Fatal m => spawn_fatal (kern t_state) (t_files 7) t_phs m
  | Stuck | NoFuel => False
  end.
Proof.
  cbv zeta. split; [by vm_compute|].
  apply (app_spawn_correct t_write t_junk (fun _ => 0) QEMU SOFT_TLB (fun _ => True) t_file_read t_files t_files_ok t_state 5 t_req t_bin
    (lit "echo") (zeros 27) t_phs).
  - apply t_next_pid.
  - intros _. reflexivity.
  - apply t_bin_dir.
  - apply t_request_ok.
  - vm_compute. reflexivity.
  - intros _. apply t_executable.
Defined.

Lemma spawn_protocol_witness :
  match handle_proc_request (mmu_init (fun _ => 0) QEMU SOFT_TLB) t_write t_junk t_file_read GPID_SHELL (proc_request_bytes t_req ++ []) t_state with
  | Ok (msg, s') => msg = Some (GPID_SHELL, le_split 4 CMD_OK) /\
      forall buf, get32 buf 0 = PROC_EXIT ->
        exists s'', handle_proc_request (mmu_init (fun _ => 0) QEMU SOFT_TLB) t_write t_junk t_file_read 5 buf s' = Ok (None, s'')
  | _ => False
  end.
Proof.
  assert (Hok : match handle_proc_request (mmu_init (fun _ => 0) QEMU SOFT_TLB) t_write t_junk t_file_read GPID_SHELL
    (proc_request_bytes t_req ++ []) t_state with Ok _ => True | _ => False end) by (vm_compute; exact I).
  assert (Hargv : pr_argv t_req !! 0%nat = Some (lit "echo" ++ NUL :: zeros 27)) by (vm_compute; reflexivity).
  assert (Hw : shell_waits t_req CMD_OK = Ok false) by (vm_compute; reflexivity).
  pose proof (spawn_protocol t_write t_junk (fun _ => 0) QEMU SOFT_TLB (fun _ => True) t_file_read t_files t_files_ok (length_zeros 512) t_state 5 t_req t_bin
    (lit "echo") (zeros 27) [] t_phs t_next_pid t_bin_dir t_request_ok Hargv (fun _ => t_executable) eq_refl) as H.
  destruct (handle_proc_request _ _ _ _ _ _ _) as [[msg s']| | |]; [|contradiction Hok..].
  destruct H as (r & w & Hr & -> & Hsw & _ & H). change (r = CMD_OK) in Hr. subst r. rewrite Hw in Hsw. injection Hsw as <-.
  split; [reflexivity|]. intros buf Hb. destruct (H 5 buf) as (s'' & Hx & _); [discriminate|lia|exact Hb|]. by exists s''.
Defined.
