(* ===== verification/Startup.v ===== *)
(** * Starting and leaving: the servers of the system, and [exit]

    The first part of [main] of [apps/system/sys_proc.c], which spawns the terminal
    server, the file server and the shell, and [exit] of
    [library/syscall/servers.c].  The servers find each other by the constant
    process ids of [servers.h], while the kernel numbers the processes with a
    counter: the start-up makes the two agree. *)

From stdpp Require Import options.
From coqutil Require Import Byte.
From S2P Require Import Prelude CString InodeStore Earth Timer Mmu SoftTlb MmuProps Process Kernel KernelInv KernelIpc KernelSched KernelTrace KernelFair KernelProps KernelWitness Tty Terminal Print Dir Shell Elf ElfSpec ElfProps Devices SysProc SysProcProps.

(** ** sys_terminal.c and sys_file.c: main, up to their loops

    [buf] is the buffer before; [send] is [grass->sys_send].  The result is what the
    loop starts with. *)
Section Servers.
Context {S : Type} (tw : list byte -> nat -> M S unit) (junk : list byte) (send : Z -> list byte -> M S unit).

Definition terminal_start (buf : list byte) : M S (list byte) :=
  SUCCESS tw junk (lit "Enter kernel process GPID_TERMINAL" ++ [NUL]) [];;
  buf ← mlift (strcpy buf (lit "Finish GPID_TERMINAL initialization"));
  send GPID_PROCESS (take 36 buf);;
  mret buf.

(** [init] is the choice between [mydisk_init] and [treedisk_init]. *)
Definition file_start {F} (init : outcome F) (buf : list byte) : M S (F * list byte) :=
  SUCCESS tw junk (lit "Enter kernel process GPID_FILE" ++ [NUL]) [];;
  fs ← mlift init;
  buf ← mlift (strcpy buf (lit "Finish GPID_FILE initialization"));
  send GPID_PROCESS (take 32 buf);;
  mret (fs, buf).
End Servers.

(** ** sys_proc.c: main, up to its loop

    [recv server] is [grass->sys_recv(server, NULL, buf, SYSCALL_MSG_LEN)], the
    bytes of [buf] afterwards. *)
Section Main.
Context {X : Type} `{!HasMachine X} (e : earth machine) (tw : list byte -> nat -> M X unit) (junk : list byte).
Context (disk_read : Z -> M X block) (recv : Z -> M (psrv X) (list byte)).

Definition start_servers : M (psrv X) unit :=
  mach_call (SUCCESS tw junk (lit "Enter kernel process GPID_PROCESS" ++ [NUL]) []);;
  sys_spawn e tw junk disk_read SYS_TERM_EXEC_START;;
  buf ← recv GPID_TERMINAL;
  info tw junk (lit "sys_process receives: %s" ++ [NUL]) [AStr buf];;
  sys_spawn e tw junk disk_read SYS_FILE_EXEC_START;;
  buf ← recv GPID_FILE;
  info tw junk (lit "sys_process receives: %s" ++ [NUL]) [AStr buf];;
  sys_spawn e tw junk disk_read SYS_SHELL_EXEC_START.
End Main.

(** ** servers.c: exit

    The message to GPID_PROCESS; [junk] is the rest of the [struct proc_request] on
    the stack. *)
Definition exit_request (junk : list byte) : list byte := le_split 4 PROC_EXIT ++ junk.

(** ** The messages *)

(** What a server says when it is ready. *)
Definition hello (server : Z) : list byte :=
  if server =? GPID_TERMINAL then lit "Finish GPID_TERMINAL initialization" else lit "Finish GPID_FILE initialization".
Definition receives_line (server : Z) : list byte :=
  msg INFO_PREFIX newline (text "sys_process receives: " ++ [Str (hello server) []]).
Definition enter_line (server : string) : list byte := msg SUCCESS_PREFIX COLOR_SUFFIX (text ("Enter kernel process " +:+ server)).

Lemma hello_length server : (length (hello server) <= 35)%nat /\ no_nul (hello server).
Proof. unfold hello. destruct (server =? GPID_TERMINAL); (split; [cbn; lia|by apply (bool_decide_unpack _)]). Qed.

(** A server prints that it starts and sends its message, with the null character,
    whatever its buffer held. *)
Section hello.
Context {S R : Type} (tw : list byte -> nat -> M S unit) `{!TermWriter (R := R) tw} (junk : list byte) (send : Z -> list byte -> M S unit).
Context (Hjunk : length junk = Z.to_nat TERM_BUF_SIZE).

Lemma terminal_start_sends buf s : tw_inv s -> (36 <= length buf)%nat ->
  exists s', tw_inv s' /\ tw_out s' = tw_out s ++ enter_line "GPID_TERMINAL" /\ tw_rest s' = tw_rest s /\
    terminal_start tw junk send buf s = (send GPID_PROCESS (hello GPID_TERMINAL ++ [NUL]);;
      mret (hello GPID_TERMINAL ++ NUL :: drop 36 buf)) s'.
Proof using Hjunk.
  intros Hs Hl. unfold terminal_start, SUCCESS.
  pose proof (log_spec tw SUCCESS_PREFIX COLOR_SUFFIX (text "Enter kernel process GPID_TERMINAL") [] junk s ltac:(by apply (bool_decide_unpack _))
    ltac:(by apply (bool_decide_unpack _)) ltac:(by apply (bool_decide_unpack _)) Hjunk Hs) as H. cbv zeta in H.
  rewrite decide_True in H by (apply (bool_decide_unpack _); vm_compute; exact I). destruct H as (s' & Hr & Hs' & Ho & Hx).
  exists s'. split_and!; [done|exact Ho|exact Hx|]. rewrite (mbind_ok _ _ _ _ _ Hr). unfold strcpy.
  rewrite bool_decide_true by (cbn; lia). done.
Qed.

Lemma file_start_sends {F} (init : outcome F) fs buf s : tw_inv s -> (32 <= length buf)%nat -> init = Ok fs ->
  exists s', tw_inv s' /\ tw_out s' = tw_out s ++ enter_line "GPID_FILE" /\ tw_rest s' = tw_rest s /\
    file_start tw junk send init buf s = (send GPID_PROCESS (hello GPID_FILE ++ [NUL]);;
      mret (fs, hello GPID_FILE ++ NUL :: drop 32 buf)) s'.
Proof using Hjunk.
  intros Hs Hl ->. unfold file_start, SUCCESS.
  pose proof (log_spec tw SUCCESS_PREFIX COLOR_SUFFIX (text "Enter kernel process GPID_FILE") [] junk s ltac:(by apply (bool_decide_unpack _))
    ltac:(by apply (bool_decide_unpack _)) ltac:(by apply (bool_decide_unpack _)) Hjunk Hs) as H. cbv zeta in H.
  rewrite decide_True in H by (apply (bool_decide_unpack _); vm_compute; exact I). destruct H as (s' & Hr & Hs' & Ho & Hx).
  exists s'. split_and!; [done|exact Ho|exact Hx|]. rewrite (mbind_ok _ _ _ _ _ Hr). unfold strcpy.
  rewrite bool_decide_true by (cbn; lia). done.
Qed.
End hello.

(** ** The places of the servers on the disk *)
Definition slot_blocks : Z := EGOS_BIN_MAX_NBYTE / BLOCK_SIZE.
Definition slot_dom (n : Z) : Prop := 0 <= n < slot_blocks.
(** A header whose contents are in the place. *)
Definition in_slot (ph : elf32_program_header) : Prop := RAM_START <= p_vaddr ph ->
  p_offset ph + p_filesz ph <= EGOS_BIN_MAX_NBYTE.

Lemma in_slot_blocks phs : Forall seg_ok phs -> Forall in_slot phs -> slot_dom 0 /\ Forall (seg_blocks slot_dom) phs.
Proof.
  intros Hok Hin. split; [done|]. rewrite Forall_forall in *. intros ph Hph Hram i Hi.
  specialize (Hin ph Hph Hram). destruct (Hok ph Hph) as [[Hoff _] _ _ _ _ _]. unfold slot_dom, BLOCK_SIZE in *.
  change EGOS_BIN_MAX_NBYTE with (512 * 256) in Hin. change slot_blocks with 256.
  split; [apply Z.div_pos; lia|apply Z.div_lt_upper_bound; lia].
Qed.

Section startup.
Context {X : Type} `{!HasMachine X} (tw : list byte -> nat -> M X unit) `{!Devices tw} (junk : list byte).
Context (mtime : nat -> Z) (plat : platform) (tr : translation).
Context (disk_read : Z -> M X block) (recv : Z -> M (psrv X) (list byte)) (quiet : Z -> Prop).
Context (image : Z -> Z -> block) (phs : Z -> list elf32_program_header).
Abbreviation e := (mmu_init mtime plat tr).
Abbreviation psrv := (psrv X).
Abbreviation mc k := (get_machine (mach k)).
Abbreviation out s := (dev_out (mach (kern s))).

(** The executable at a place of the disk. *)
Record server_image (base : Z) : Prop := {
  si_reader pid o : quiet pid -> reader_ok pid quiet (fun x => dev_inv x /\ dev_out x = o) (sys_proc_read disk_read base) (image base) slot_dom;
  si_headers : headers (image base 0) = Some (phs base);
  si_segs : Forall seg_ok (phs base);
  si_slot : Forall in_slot (phs base);
  si_disjoint : ForallOrdPairs seg_disjoint (phs base);
}.

(** The kernel when GPID_PROCESS runs and the pids from [pid] on are still to be
    given out. *)
Record idle_from (k : kernel X) (pid : Z) : Prop := {
  if_tbl : tbl_inv (alloc_pid k) (proc_set k);
  if_mach : tlb_inv (mc k);
  if_dev : dev_inv (mach k);
  if_pid : pid = alloc_pid k + 1;
  if_vm : curr_vm_pid (mc k) = GPID_PROCESS;
  if_empty q v : pid <= q -> tlb_aspace (mc k) q v = None;
}.

(** Receiving: other processes run, but none of them allocates a process, and
    afterwards GPID_PROCESS runs again with the message of the server. *)
Definition recv_ok : Prop := forall server pid (s : psrv),
  tbl_inv (alloc_pid (kern s)) (proc_set (kern s)) -> tlb_inv (mc (kern s)) -> dev_inv (mach (kern s)) -> pid = alloc_pid (kern s) + 1 ->
  (forall q v, pid <= q -> tlb_aspace (mc (kern s)) q v = None) ->
  exists stale s', recv server s = Ok (hello server ++ NUL :: stale, s') /\ idle_from (kern s') pid.

(** A server was spawned. *)
Abbreviation started k k' pid base := (spawned k k' pid 0 None (image base) (phs base)).

(** Why the start-up can stop. *)
Definition start_fatal (m : string) : Prop := m = full_table \/ m = no_memory.

Context (Hquiet : forall q, GPID_PROCESS < q -> quiet q).

Lemma idle_next k pid : idle_from k pid -> GPID_PROCESS < pid < MMU_MAX_NPROCESS -> next_pid tw quiet k pid.
Proof using Hquiet.
  intros [Ht Hm Hd Hp Hv He] Hr. unfold GPID_PROCESS in *. split; try done; [lia|lia|intros v; apply He; lia|apply Hquiet; lia].
Qed.

(** Printing changes the devices only. *)
Lemma idle_devices k x pid : idle_from k pid -> dev_inv x -> get_machine x = mc k -> idle_from (with_mach k x) pid.
Proof using Type. intros [Ht Hm Hd Hp Hv He] Hx Hmx. split; cbn [alloc_pid proc_set mach with_mach]; rewrite ?Hmx; done. Qed.

Lemma load_line_ok pid name : 0 <= pid <= 4 -> name ∈ sys_apps ->
  let ps := text "Load kernel process #" ++ [Dec pid] ++ text ": " ++ [Str name []] in
  Forall piece_ok ps /\ (length (msg INFO_PREFIX newline ps) < 512)%nat /\
  lit "Load kernel process #%d: %s" ++ [NUL] = fmt_of ps ++ [NUL] /\ [AInt pid; AStr (name ++ [NUL])] = args_of ps.
Proof using Type.
  intros Hp Hn. assert (no_nul name /\ (length name <= 12)%nat) as [Hnn Hl].
  { unfold sys_apps in Hn. rewrite !elem_of_cons, elem_of_nil in Hn.
    destruct Hn as [->|[->|[->|[->|[]]]]]; (split; [by apply (bool_decide_unpack _)|cbn; lia]). }
  cbv zeta. split_and!; [|..|done|done].
  - rewrite !Forall_app. split_and!; [by apply (bool_decide_unpack _)| |by apply (bool_decide_unpack _)|by apply Forall_singleton].
    apply Forall_singleton. cbn. lia.
  - unfold msg, render. rewrite !bind_app, !bind_cons, !length_app. cbn [piece_out]. pose proof (itoa_length pid 10 ltac:(lia)).
    change (length ([] ≫= piece_out)) with 0%nat. change (length (text "Load kernel process #" ≫= piece_out)) with 21%nat.
    change (length (text ": " ≫= piece_out)) with 2%nat. change (length INFO_PREFIX) with 7%nat. change (length newline) with 2%nat. lia.
Qed.

Context (Hjunk : length junk = Z.to_nat TERM_BUF_SIZE).

Lemma wp_sys_spawn (s : psrv) pid base name (Q : unit -> psrv -> Prop) : idle_from (kern s) pid -> GPID_PROCESS < pid <= 4 ->
  sys_apps !! Z.to_nat (pid - 1) = Some name -> server_image base ->
  (forall (s' : psrv), started (kern s) (kern s') pid base -> tbl_inv (alloc_pid (kern s')) (proc_set (kern s')) ->
     tlb_inv (mc (kern s')) -> dev_inv (mach (kern s')) -> out s' = out s ++ load_line pid name ++ segment_lines (phs base) -> alloc_pid (kern s') = pid ->
     (forall q v, pid + 1 <= q -> tlb_aspace (mc (kern s')) q v = None) -> Q tt s') ->
  wp start_fatal (sys_spawn e tw junk disk_read base) s Q.
Proof using Hquiet Hjunk.
  intros Hidle Hpid Hname [Hrd Hhd Hsegs Hslot Hdis] HQ. unfold GPID_PROCESS in Hpid.
  assert (next_pid tw quiet (kern s) pid) as Hnp by (apply idle_next; [done|unfold GPID_PROCESS, MMU_MAX_NPROCESS; lia]).
  assert (forall m, spawn_fatal (kern s) (image base) (phs base) m -> start_fatal m) as Hfatal.
  { intros m [[-> _]|[-> _]]; [by left|by right]. }
  unfold sys_spawn. apply wp_bind. eapply wp_conseq; [|exact Hfatal|intros a s' H; exact H].
  apply (wp_alloc_next tw quiet s pid); [done|]. intros k1 (j & p & Hj & Hk1) Hmk.
  rewrite (proj2 (Z.leb_le 1 pid)), Hname by lia. apply wp_bind, wp_ret. apply wp_bind.
  destruct (load_line_ok pid name) as (Hps & Hfit & Hfmt & Hargs); [lia|by eapply list_elem_of_lookup_2|].
  eapply (wp_info tw junk Hjunk); [exact Hfmt|exact Hargs|exact Hps|exact Hfit|cbn; rewrite Hmk; apply Hidle|].
  intros x Hx Ho Hmx. cbn [kern with_kern] in Hmx. rewrite Hmk in Hmx.
  eapply wp_conseq; [|exact Hfatal|intros a s' H; exact H].
  apply (wp_load_ready tw junk mtime plat tr quiet (fun o x => dev_inv x /\ dev_out x = o)
    ltac:(intros o y sy [Hy <-]; by rewrite dev_out_set; split; [apply dev_inv_set|]) _ (kern s) pid (sys_proc_read disk_read base) (image base) slot_dom (phs base)
    _ _ (out s ++ load_line pid name));
    [done|exists j, p; split; [done|]; cbn [kern with_kern mach with_mach]; rewrite Hk1; done|done|split; [done|]; cbn [kern with_kern mach with_mach] in *; by rewrite Ho, Hmk|intros _; split; [apply device_writes|exact Hjunk]|intros o; apply Hrd, Hnp|done|done|by apply in_slot_blocks|done| |done|].
  { unfold CMD_NARGS. lia. }
  intros s' _ _ Hsp Hi [Hd Hout] Ha Ht Hkeep.
  unfold load_log in Hout. rewrite decide_True, <- app_assoc in Hout by (unfold GPID_SHELL; lia). apply HQ; [done|by rewrite Ha|done|done|done|done|].
  intros q v Hq. rewrite Hkeep; [|apply Hquiet; unfold GPID_PROCESS; lia|lia]. apply (if_empty _ _ Hidle). lia.
Qed.

(** The line about a message. *)
Lemma wp_receives server stale (s : psrv) pid (Q : unit -> psrv -> Prop) : idle_from (kern s) pid ->
  (forall x, idle_from (with_mach (kern s) x) pid -> dev_out x = out s ++ receives_line server -> Q tt (with_kern s (with_mach (kern s) x))) ->
  wp start_fatal (info tw junk (lit "sys_process receives: %s" ++ [NUL]) [AStr (hello server ++ NUL :: stale)]) s Q.
Proof using Hjunk.
  intros Hidle HQ. destruct (hello_length server) as [Hl Hn].
  eapply (wp_info tw junk Hjunk _ _ _ (text "sys_process receives: " ++ [Str (hello server) stale])); [done|done| | |apply Hidle|].
  - apply Forall_app. split; [by apply (bool_decide_unpack _)|by apply Forall_singleton].
  - unfold msg, render. rewrite !bind_app, !bind_cons, !length_app. cbn [piece_out]. change (length ([] ≫= piece_out)) with 0%nat.
    change (length (text "sys_process receives: " ≫= piece_out)) with 22%nat. change (length INFO_PREFIX) with 7%nat. change (length newline) with 2%nat. lia.
  - intros x Hx Ho Hm. apply HQ; [by apply idle_devices|exact Ho].
Qed.

Lemma spawned_devices (k k' : kernel X) x pid base : started (with_mach k x) k' pid base -> started k k' pid base.
Proof using Type. intros [H1 H2]. by split. Qed.

(** The whole start-up: what is spawned, received and printed. *)
Definition servers_started (s s' : psrv) : Prop := exists m1 s1 s2 m2 s3 s4,
  started (kern s) (kern s1) GPID_TERMINAL SYS_TERM_EXEC_START /\
  out s1 = out s ++ enter_line "GPID_PROCESS" ++ load_line GPID_TERMINAL (lit "sys_terminal") ++ segment_lines (phs SYS_TERM_EXEC_START) /\ recv GPID_TERMINAL s1 = Ok (m1, s2) /\
  started (kern s2) (kern s3) GPID_FILE SYS_FILE_EXEC_START /\
  out s3 = out s2 ++ receives_line GPID_TERMINAL ++ load_line GPID_FILE (lit "sys_file") ++ segment_lines (phs SYS_FILE_EXEC_START) /\ recv GPID_FILE s3 = Ok (m2, s4) /\
  started (kern s4) (kern s') GPID_SHELL SYS_SHELL_EXEC_START /\
  out s' = out s4 ++ receives_line GPID_FILE ++ load_line GPID_SHELL (lit "sys_shell") ++ segment_lines (phs SYS_SHELL_EXEC_START) /\ alloc_pid (kern s') + 1 = GPID_USER_START.

Lemma wp_start_servers (s : psrv) : idle_from (kern s) GPID_TERMINAL -> recv_ok ->
  server_image SYS_TERM_EXEC_START -> server_image SYS_FILE_EXEC_START -> server_image SYS_SHELL_EXEC_START ->
  wp start_fatal (start_servers e tw junk disk_read recv) s (fun _ s' => servers_started s s').
Proof using Hquiet Hjunk.
  intros Hs Hrecv Hterm Hfile Hshell. unfold start_servers. apply wp_bind, wp_mach_call.
  eapply (wp_device_log tw _ _ _ _ _ (text "Enter kernel process GPID_PROCESS")); [by rewrite fmt_of_text|done|by apply (bool_decide_unpack _)..| |done|apply Hs|].
  { apply (bool_decide_unpack _). vm_compute. exact I. }
  intros x0 Hx0 Ho0 Hm0. pose proof (idle_devices _ _ _ Hs Hx0 Hm0) as Hs0. set (s0 := with_kern s _).
  apply wp_bind, (wp_sys_spawn s0 GPID_TERMINAL _ (lit "sys_terminal")); [done|done|done|done|]. intros s1 H1 Ht1 Hm1 Hd1 Ho1 Ha1 He1.
  destruct (Hrecv GPID_TERMINAL GPID_FILE s1 Ht1 Hm1 Hd1 ltac:(by rewrite Ha1) He1) as (m1 & s2 & Hr1 & Hs2).
  apply wp_bind. eapply wp_ok; [exact Hr1|]. apply wp_bind, (wp_receives _ _ _ GPID_FILE); [done|]. intros x2 Hs2' Ho2. set (s2' := with_kern s2 _).
  apply wp_bind, (wp_sys_spawn s2' GPID_FILE _ (lit "sys_file")); [done|done|done|done|]. intros s3 H3 Ht3 Hm3 Hd3 Ho3 Ha3 He3.
  destruct (Hrecv GPID_FILE GPID_SHELL s3 Ht3 Hm3 Hd3 ltac:(by rewrite Ha3) He3) as (m2 & s4 & Hr2 & Hs4).
  apply wp_bind. eapply wp_ok; [exact Hr2|]. apply wp_bind, (wp_receives _ _ _ GPID_SHELL); [done|]. intros x4 Hs4' Ho4. set (s4' := with_kern s4 _).
  apply (wp_sys_spawn s4' GPID_SHELL _ (lit "sys_shell")); [done|done|done|done|]. intros s5 H5 _ _ _ Ho5 Ha5 _.
  eexists _, s1, s2, _, s3, s4. split_and!; [exact (spawned_devices _ _ x0 _ _ H1)| |exact Hr1|exact (spawned_devices _ _ x2 _ _ H3)| |exact Hr2|
    exact (spawned_devices _ _ x4 _ _ H5)| |by rewrite Ha5].
  - rewrite Ho1. cbn [kern mach with_kern with_mach s0]. by rewrite Ho0, <- app_assoc.
  - rewrite Ho3. cbn [kern mach with_kern with_mach s2']. by rewrite Ho2, <- app_assoc.
  - rewrite Ho5. cbn [kern mach with_kern with_mach s4']. by rewrite Ho4, <- app_assoc.
Qed.

(** C13: the servers get their well-known process ids.  From the state in which
    GPID_PROCESS starts, [start_servers] spawns the three executables on the disk:
    the terminal server as GPID_TERMINAL, the file server as GPID_FILE after the
    message of the terminal server, and the shell as GPID_SHELL after that of the
    file server; each gets the first unused slot and exactly the address space its
    executable describes, with no argument, and becomes READY; the log names each
    of them with its id, has the size and the address of each of its segments, and
    repeats the messages.  The start-up never
    reads past the array of the servers' names, and stops only when the process
    table is full or memory runs out. *)
Theorem start_servers_correct (s : psrv) :
  idle_from (kern s) GPID_TERMINAL -> recv_ok ->
  server_image SYS_TERM_EXEC_START -> server_image SYS_FILE_EXEC_START -> server_image SYS_SHELL_EXEC_START ->
  match start_servers e tw junk disk_read recv s with
  | Ok (_, s') => servers_started s s'
  | Fatal m => start_fatal m
  | Stuck | NoFuel => False
  end.
Proof using Hquiet Hjunk. apply wp_start_servers. Qed.
End startup.

(** The message of [exit] is an exit to the process server, whatever is on the
    stack and in the rest of the buffer. *)
Lemma exit_served {X} `{!HasMachine X} (tw : list byte -> nat -> M X unit) `{!Devices tw} log_junk mtime plat tr file_read (s : psrv X) sender junk stale w :
  length log_junk = Z.to_nat TERM_BUF_SIZE -> dev_inv (mach (kern s)) ->
  sender <> GPID_ALL -> - 2 ^ 31 <= sender < 2 ^ 31 -> shell_waiting s = Some w ->
  exists s', handle_proc_request (mmu_init mtime plat tr) tw log_junk file_read sender (exit_request junk ++ stale) s =
    Ok (if w && (app_pid s =? sender) then Some (GPID_SHELL, le_split 4 PROC_EXIT) else None, s').
Proof.
  intros Hj Hd Hs Hrange Hw. unfold exit_request. rewrite <- app_assoc.
  destruct (handle_exit tw log_junk mtime plat tr file_read Hj s sender (le_split 4 PROC_EXIT ++ junk ++ stale) w Hs Hrange) as (s' & Hr & _); [|done|done|].
  - rewrite get32_head. done.
  - exists s'. rewrite Hr. rewrite take_app_length' by (by rewrite length_le_split). done.
Qed.

(** ** A disk with the same small executable for every server *)
Definition u_earth : earth machine := mmu_init (tick 0) QEMU SOFT_TLB.
Definition u_machine : machine :=
  {| page_info_table := replicate 2048 zero_info; curr_vm_pid := GPID_PROCESS; mem := ∅; timer := {| reads := 0; mtimecmp := ∅ |} |}.
Definition u_state : psrv t_world := {| app_ino := 0; app_pid := 0; shell_waiting := None;
  kern := {| proc_set := <[0%nat := first_process]> (replicate 17 zero_process); core_to_proc_idx := replicate 5 0; core_in_kernel := 1;
             alloc_pid := 1; hw := w_hart; mach := (u_machine, []) |} |}.
Definition u_disk (n : Z) : M t_world block := mret (t_file (n mod 256)).
Definition u_image (base n : Z) : block := t_file (u32 (base + n) mod 256).
Definition u_recv (server : Z) : M (psrv t_world) (list byte) :=
  mach_call (on_machine (mmu_switch u_earth GPID_PROCESS));; mret (hello server ++ NUL :: zeros 900).

Lemma u_server_image base : headers (u_image base 0) = Some t_phs -> server_image t_write u_disk (fun _ => True) u_image (fun _ => t_phs) base.
Proof.
  intros Hh. split; [|done|apply t_seg_ok| |apply t_seg_disjoint].
  - intros pid o _. split.
    + intros n. apply t_file_block.
    + intros n x _ Hx Hs Hc. by exists x.
  - apply Forall_forall. intros ph Hph _. unfold t_phs in Hph. rewrite !elem_of_cons, elem_of_nil in Hph. destruct Hph as [->|[->|[]]]; by vm_compute.
Qed.

Lemma u_recv_ok : recv_ok t_write u_recv.
Proof.
  intros server pid s Ht Hm _ Hp He.
  pose proof (@switch_spec _ u_earth (soft_tlb_spec (tick 0) QEMU SOFT_TLB (tick_ok 0 (Z.le_refl 0))) (get_machine (mach (kern s))) GPID_PROCESS Hm ltac:(done)) as Hsw.
  destruct (wp_returns _ _ _ Hsw) as ([] & m & Hr & Hi & Hv & Ha).
  exists (zeros 900), (with_kern s (with_mach (kern s) (set_machine (mach (kern s)) m))). split.
  - unfold u_recv. erewrite mbind_ok; [reflexivity|]. unfold mach_call, kern_call, earth_call, on_machine. by rewrite Hr.
  - split; try done. intros q v Hq. transitivity (tlb_aspace (get_machine (mach (kern s))) q v); [apply Ha|by apply He].
Qed.

Lemma u_idle : idle_from t_write (kern u_state) GPID_TERMINAL.
Proof.
  assert (forall i p, page_info_table u_machine !! i = Some p -> p = zero_info) as Hz.
  { intros i p Hp. by apply lookup_replicate in Hp as [-> _]. }
  split; cbn [kern u_state alloc_pid proc_set mach get_machine t_world_machine fst].
  - pose proof (tbl_alloc 0 _ 0 zero_process boot_table ltac:(lia) ltac:(lia) ltac:(done)) as H.
    pose proof (tbl_set_status_active _ _ 0 (set_status (set_pid zero_process 1) PROC_LOADING) PROC_RUNNING H ltac:(lia) ltac:(done) ltac:(done) ltac:(done) ltac:(done)) as H'.
    by rewrite list_insert_insert_eq in H'.
  - split; try by intros i p ->%Hz.
    + apply length_replicate.
    + by intros i j p q ->%Hz.
    + intros n. apply length_zeros.
    + done.
  - done.
  - done.
  - done.
  - intros q v Hq. unfold tlb_aspace. rewrite decide_False by (unfold GPID_TERMINAL in Hq; lia).
    assert (frame_of (page_info_table u_machine) q v = None) as ->; [|done]. unfold frame_of.
    destruct (list_find _ _) as [[i p]|] eqn:Hf; [|done]. apply list_find_Some in Hf as (Hp & [Ho _] & _).
    apply Hz in Hp as ->. by apply owned_true in Ho as [Hu _].
Qed.

Lemma start_servers_correct_witness :
  let run := start_servers u_earth t_write t_junk u_disk u_recv u_state in
  match run with Ok _ => True | _ => False end /\
  match run with
  | Ok (_, s') => alloc_pid (kern s') + 1 = GPID_USER_START
  | _ => True
  end.
Proof.
  cbv zeta. assert (match start_servers u_earth t_write t_junk u_disk u_recv u_state with Ok _ => True | _ => False end) as Hok by (vm_compute; exact I).
  split; [exact Hok|].
  assert (H2 : headers (u_image SYS_TERM_EXEC_START 0) = Some t_phs) by (vm_compute; reflexivity).
  assert (H3 : headers (u_image SYS_FILE_EXEC_START 0) = Some t_phs) by (vm_compute; reflexivity).
  assert (H4 : headers (u_image SYS_SHELL_EXEC_START 0) = Some t_phs) by (vm_compute; reflexivity).
  pose proof (start_servers_correct t_write t_junk (tick 0) QEMU SOFT_TLB u_disk u_recv (fun _ => True) u_image (fun _ => t_phs)
    (fun _ _ => I) (length_zeros 512) u_state u_idle u_recv_ok (u_server_image _ H2) (u_server_image _ H3) (u_server_image _ H4)) as H.
  change (mmu_init (tick 0) QEMU SOFT_TLB) with u_earth in H.
  destruct (start_servers u_earth t_write t_junk u_disk u_recv u_state) as [[[] s']| | |]; [|exact I..].
  by destruct H as (m1 & s1 & s2 & m2 & s3 & s4 & _ & _ & _ & _ & _ & _ & _ & _ & H).
Defined.
