(* ===== verification/Heap.v ===== *)
(** * The heap, and the programs that crash

    [_sbrk] of [library/libc/malloc.c], by which the C library's [malloc] gets
    memory, and [apps/user/crash1.c] and [crash2.c], which run into its limit and
    overwrite the pages of the other processes. *)

From stdpp Require Import options.
From coqutil Require Import Byte.
From S2P Require Import Prelude CString InodeStore Earth Timer Mmu SoftTlb MmuProps Tty Terminal Print.

(** ** malloc.c

    [heap_start] and [heap_end] are the symbols of the linker script. *)
Section Sbrk.
Context {S : Type} (term_write : list byte -> nat -> M S unit) (junk : list byte) (heap_start heap_end : Z).

(** The static [brk] next to the terminal. *)
Record heap : Type := {
  brk : Z;
  h_term : S;
}.

(** The result of [_sbrk]; the store to address 0 raises an exception. *)
Inductive sbrk_end : Type :=
| Break (old_brk : Z)
| Faults.

Definition heap_message : list byte := lit "_sbrk: heap grows too large" ++ newline ++ [NUL].

Definition _sbrk (size : Z) : M heap sbrk_end := fun h =>
  if heap_end <? u32 (brk h + size) then
    match my_printf term_write junk heap_message [] (h_term h) with
    | Ok (_, t) => Ok (Faults, {| brk := brk h; h_term := t |})
    | Fatal e => Fatal e
    | Stuck => Stuck
    | NoFuel => NoFuel
    end
  else Ok (Break (brk h), {| brk := u32 (brk h + size); h_term := h_term h |}).

(** Calls one after the other, up to a fault: the regions that were handed out. *)
Fixpoint sbrk_all (sizes : list Z) : M heap (list (Z * Z)) :=
  match sizes with
  | [] => mret []
  | size :: sizes =>
    r ← _sbrk size;
    match r with
    | Break old => rs ← sbrk_all sizes; mret ((old, size) :: rs)
    | Faults => mret []
    end
  end.

Context {R : Type} `{!TermWriter (R := R) term_write} (Hjunk : length junk = Z.to_nat TERM_BUF_SIZE).
Context (Hheap : heap_start <= heap_end < 2 ^ 32).

Definition heap_inv (h : heap) : Prop := heap_start <= brk h <= heap_end /\ tw_inv (h_term h).

Lemma sbrk_ok size h : heap_inv h -> heap_start - brk h <= size -> brk h + size < 2 ^ 32 -> 0 <= heap_start ->
  if decide (brk h + size <= heap_end)
  then _sbrk size h = Ok (Break (brk h), {| brk := brk h + size; h_term := h_term h |})
  else exists t, _sbrk size h = Ok (Faults, {| brk := brk h; h_term := t |}) /\ tw_inv t /\
    tw_out t = tw_out (h_term h) ++ lit "_sbrk: heap grows too large" ++ newline.
Proof using Hjunk.
  intros [Hb Ht] Hlo Hhi H0. unfold _sbrk. rewrite u32_id by lia. case_decide as Hle.
  - by rewrite (proj2 (Z.ltb_ge _ _)) by lia.
  - rewrite (proj2 (Z.ltb_lt _ _)) by lia.
    destruct (printf_ok term_write (Char <$> (lit "_sbrk: heap grows too large" ++ newline)) [] junk (h_term h))
      as (t & Hr & Hi & Ho & _); [by apply (bool_decide_unpack _)|done|done|apply (bool_decide_unpack _); vm_compute; exact I|].
    exists t. split; [|done]. change (fmt_of _ ++ [NUL]) with heap_message in Hr. change (args_of _) with (@nil arg) in Hr. by rewrite Hr.
Qed.

(** The regions [rs] follow each other from [b] on and end by [hi]. *)
Fixpoint adjacent (b hi : Z) (rs : list (Z * Z)) : Prop :=
  match rs with
  | [] => b <= hi
  | (old, size) :: rs => old = b /\ 0 <= size /\ adjacent (b + size) hi rs
  end.

(** C39: the heap.  The regions that successive calls of [_sbrk] hand out follow each
    other without gap or overlap inside the heap, and [brk] is the end of the last;
    a request that does not fit changes nothing but the terminal and faults.
    This needs each request to fit in the address space above [brk]: beyond, the
    comparison wraps around. *)
Theorem sbrk_all_correct sizes h : heap_inv h -> 0 <= heap_start ->
  Forall (fun size => 0 <= size /\ heap_end + size < 2 ^ 32) sizes ->
  exists rs h', sbrk_all sizes h = Ok (rs, h') /\ heap_inv h' /\ adjacent (brk h) (brk h') rs /\
    brk h' = brk h + foldr Z.add 0 (snd <$> rs) /\
    (exists rest, sizes = (snd <$> rs) ++ rest /\
       match rest with
       | [] => tw_out (h_term h') = tw_out (h_term h)
       | size :: _ => heap_end < brk h' + size /\
           tw_out (h_term h') = tw_out (h_term h) ++ lit "_sbrk: heap grows too large" ++ newline
       end).
Proof using Hjunk.
  intros Hh H0 Hs. revert h Hh. induction Hs as [|size sizes [Hpos Hfit] _ IH]; intros h Hh; cbn [sbrk_all].
  - exists [], h. split_and!; try done; [cbn; lia|cbn; lia|by exists []].
  - destruct Hh as [Hb Ht]. pose proof (sbrk_ok size h (conj Hb Ht) ltac:(lia) ltac:(lia) H0) as Hr.
    destruct (decide (brk h + size <= heap_end)) as [Hle|Hgt].
    + rewrite (mbind_ok _ _ _ _ _ Hr). set (h1 := Build_heap _ _).
      destruct (IH h1) as (rs & h' & Hr' & Hi & Hadj & Hsum & rest & Hrest & Hout); [split; [cbn; lia|done]|].
      rewrite (mbind_ok _ _ _ _ _ Hr'). exists ((brk h, size) :: rs), h'. split_and!; try done.
      * rewrite Hsum. cbn. lia.
      * exists rest. split; [by rewrite Hrest at 1|done].
    + destruct Hr as (t & Hr & Hi & Ho). rewrite (mbind_ok _ _ _ _ _ Hr). eexists [], _. split; [reflexivity|].
      split; [by split|]. split; [cbn; lia|]. split; [cbn; lia|]. exists (size :: sizes). split; [done|]. cbn. split; [lia|done].
Qed.

(** Above that bound a request wraps around: it is granted, and [brk] falls below
    the heap. *)
Lemma sbrk_wraps size h : heap_inv h -> size < 2 ^ 31 -> 2 ^ 31 <= heap_start -> 2 ^ 32 <= brk h + size ->
  exists h', _sbrk size h = Ok (Break (brk h), h') /\ brk h' < heap_start.
Proof using Hheap.
  clear Hjunk. intros [Hb _] Hsz Hst Hw. unfold _sbrk. assert (u32 (brk h + size) = brk h + size - 2 ^ 32) as Hu.
  { unfold u32. rewrite <- (Z_mod_plus_full _ (-1)). apply Z.mod_small. lia. }
  rewrite Hu. rewrite (proj2 (Z.ltb_ge _ _)) by lia. eexists. split; [done|]. cbn. lia.
Qed.
End Sbrk.
Arguments brk {S} _.
Arguments h_term {S} _.

(** ** crash1.c: 32 MB of heap are too much for every program *)
Definition HEAP_END : Z := 0x80600000.
Lemma crash1_faults {S R} (tw : list byte -> nat -> M S unit) `{!TermWriter (R := R) tw} junk heap_start h size :
  length junk = Z.to_nat TERM_BUF_SIZE -> APPS_ENTRY <= heap_start ->
  heap_inv tw heap_start HEAP_END h -> 32 * 1024 * 1024 <= size < 2 ^ 30 ->
  exists h', _sbrk tw junk HEAP_END size h = Ok (Faults, h') /\ brk h' = brk h.
Proof.
  unfold APPS_ENTRY, HEAP_END. intros Hj Hst [Hb Ht] Hsz.
  pose proof (sbrk_ok tw junk heap_start HEAP_END Hj size h (conj Hb Ht)) as H. unfold HEAP_END in H.
  rewrite decide_False in H by lia. destruct H as (t & Hr & _); [lia..|]. by eexists.
Qed.

(** ** crash2.c: [memset] of the memory from [APPS_PAGES_BASE] to [RAM_END] *)
Definition crash2 : M machine Z :=
  mmodify (fun s => with_mem s (foldr (fun n m => <[n := zero_page]> m) (mem s)
    (seqZ (APPS_PAGES_BASE / PAGE_SIZE) ((RAM_END - APPS_PAGES_BASE) / PAGE_SIZE))));;
  mret 0.

Lemma wiped_page l m n : page_at (foldr (fun n m => <[n := zero_page]> m) m l) n = if decide (n ∈ l) then zero_page else page_at m n.
Proof.
  induction l as [|x l IH]; cbn [foldr]; [by rewrite decide_False by apply not_elem_of_nil|].
  unfold page_at. destruct (decide (n = x)) as [->|Hne].
  - rewrite lookup_insert_eq, decide_True by left. done.
  - rewrite lookup_insert_ne by done. fold (page_at (foldr (fun n m => <[n := zero_page]> m) m l) n). rewrite IH.
    destruct (decide (n ∈ l)) as [Hin|Hin]; [by rewrite decide_True by (by right)|].
    rewrite decide_False; [done|]. by intros [->|?]%elem_of_cons.
Qed.

(** No process but the running one keeps its memory. *)
Lemma crash2_wipes s : tlb_inv s -> exists s', crash2 s = Ok (0, s') /\ forall pid v pg,
  tlb_aspace s pid v = Some pg -> tlb_aspace s' pid v = Some (if decide (pid = curr_vm_pid s) then pg else zero_page).
Proof.
  intros Hs. eexists. split; [reflexivity|]. intros pid v pg Hpg. unfold tlb_aspace in *.
  destruct (decide (pid = 0)); [done|]. cbn [page_info_table curr_vm_pid with_mem mem].
  destruct (frame_of (page_info_table s) pid v) as [i|] eqn:Hf; [|done]. cbn in Hpg |- *. injection Hpg as <-. f_equal.
  rewrite wiped_page. destruct (decide (pid = curr_vm_pid s)) as [Hc|Hc].
  - apply frame_of_Some in Hf as (p & Hp & [Hu Hpp]%owned_true & Hv). rewrite decide_False; [done|].
    pose proof (tlb_window s Hs i p Hp Hu ltac:(congruence)) as Hw. unfold in_window in Hw. rewrite elem_of_seqZ.
    change (APPS_PAGES_BASE / PAGE_SIZE) with 0x80800. lia.
  - apply frame_of_Some in Hf as (p & Hp & _). apply lookup_lt_Some in Hp. rewrite (tlb_len s Hs) in Hp.
    rewrite decide_True; [done|]. rewrite elem_of_seqZ. unfold frame.
    change (APPS_PAGES_BASE / PAGE_SIZE) with 0x80800. change ((RAM_END - APPS_PAGES_BASE) / PAGE_SIZE) with 2048. lia.
Qed.

(** ** A heap of one page *)
Definition v_heap : heap (S := uart) := {| brk := 0x80500000; h_term := t_uart |}.
Lemma sbrk_all_correct_witness : exists rs h',
  sbrk_all (term_write (t_tty QEMU)) (zeros 512) 0x80501000 [64; 4000; 100] v_heap = Ok (rs, h') /\
  rs = [(0x80500000, 64); (0x80500040, 4000)] /\ brk h' = 0x80500fe0 /\
  u_tx (h_term h') = lit "_sbrk: heap grows too large" ++ newline.
Proof.
  assert (Hinv : heap_inv (term_write (t_tty QEMU)) 0x80500000 0x80501000 v_heap (TermWriter0 := @kernel_writer uart (t_tty QEMU) (t_spec QEMU))).
  { split; [cbn; lia|done]. }
  assert (Hs : Forall (fun size => 0 <= size /\ 0x80501000 + size < 2 ^ 32) [64; 4000; 100]) by (repeat constructor; lia).
  pose proof (sbrk_all_correct (term_write (t_tty QEMU)) (zeros 512) 0x80500000 0x80501000
    (TermWriter0 := @kernel_writer uart (t_tty QEMU) (t_spec QEMU)) (length_zeros 512) [64; 4000; 100] v_heap Hinv ltac:(lia) Hs)
    as (rs & h' & Hr & Hi & Hadj & Hsum & rest & Hrest & Hout).
  exists rs, h'. split; [exact Hr|]. vm_compute in Hr. injection Hr as <- <-. split_and!; reflexivity.
Defined.
