(* ===== verification/UserApps.v ===== *)
(** * User applications

    [apps/user/echo.c], [ls.c], [cat.c], [loop.c] and [vga_demo.c].  They print
    through [printf] and read files through [file_read]; the class [AppEnv]
    states what they rely on, and the terminal and file servers satisfy it. *)

From stdpp Require Import options.
From coqutil Require Import Byte.
From S2P Require Import Prelude CString InodeStore Earth Tty Terminal Shell Dir Print.

(** [printf]'s formats: a literal and its null character. *)
Definition fmt (s : string) : list byte := lit s ++ [NUL].
Definition fmt_nl (s : string) : list byte := lit s ++ newline ++ [NUL].

Section Apps.
Context {S : Type} (term_write : list byte -> nat -> M S unit) (file_read : Z -> Z -> M S (Z * block)).
Context (junk : list byte) (workdir_ino : Z).
Abbreviation printf := (my_printf term_write junk).
Abbreviation info := (INFO term_write junk).

(** ** echo.c *)

(** [n] rounds of the loop from [i]. *)
Fixpoint echo_loop (n i : nat) (argv : list (list byte)) : M S unit :=
  match n with
  | O => mret tt
  | Datatypes.S n =>
    p ← mopt (argv !! i);
    printf (fmt "%s ") [AStr p];;
    echo_loop n (Datatypes.S i) argv
  end.
Definition echo (argc : Z) (argv : list (list byte)) : M S Z :=
  echo_loop (Z.to_nat (u32 argc) - 1) 1 argv;;
  printf (fmt_nl "") [];;
  mret 0.

(** ** ls.c *)

(** The loop that removes the inode numbers, from [i]. *)
Fixpoint ls_loop (fuel i : nat) (buf : list byte) : outcome (list byte) :=
  match strlen buf with
  | None => Stuck
  | Some n =>
    if (i <? n)%nat then
      match fuel with
      | O => NoFuel
      | Datatypes.S fuel =>
        match buf !! (i - 1)%nat, buf !! i with
        | Some p, Some c =>
          ls_loop fuel (Datatypes.S i) (if bool_decide (p = SPC) && is_digit c then <[i := SPC]> buf else buf)
        | _, _ => Stuck
        end
      end
    else Ok buf
  end.
Definition ls (argc : Z) (argv : list (list byte)) : M S Z :=
  if 1 <? argc then info (fmt "ls: ls with args is not implemented") [];; mret (-1)
  else
    '(_, buf) ← file_read workdir_ino 0;
    buf ← mlift (ls_loop (length buf) 1 buf);
    printf (fmt_nl "%s") [AStr buf];;
    mret 0.

(** ** cat.c *)

(** [buf[strlen(buf) - 1]]; for an empty string the index wraps around. *)
Definition last_char (buf : list byte) : outcome byte :=
  match strlen buf with
  | Some (Datatypes.S n) => of_opt (buf !! n)
  | _ => Stuck
  end.
Definition cat (argc : Z) (argv : list (list byte)) : M S Z :=
  if negb (argc =? 2) then info (fmt "usage: cat [FILE]") [];; mret (-1)
  else
    arg1 ← mopt (argv !! 1%nat);
    file_ino ← dir_lookup file_read workdir_ino arg1;
    if (file_ino : Z) <? 0 then info (fmt "cat: file %s not found") [AStr arg1];; mret (-1)
    else
      '(_, buf) ← file_read file_ino 0;
      printf (fmt "%s") [AStr buf];;
      c ← mlift (last_char buf);
      (if negb (bool_decide (c = Byte.x0a)) then printf (fmt_nl "") [] else mret tt);;
      mret 0.

(** ** loop.c *)

(** The inner loop only takes time.  [count] is [atoi(argv[1])], which is compared
    as an unsigned number. *)
Fixpoint loop_loop (fuel : nat) (i : Z) (argc : Z) (count : option Z) : M S unit :=
  goes ← (if argc =? 1 then mret true else n ← mopt count; mret (i <? u32 n));
  if goes : bool then
    match fuel with
    | O => mnofuel
    | Datatypes.S fuel =>
      (if negb (argc =? 1) && negb (argc =? 3) then printf (fmt_nl "loop #%d") [AInt (i32 i)] else mret tt);;
      loop_loop fuel (u32 (i + 1)) argc count
    end
  else mret tt.
Definition loop (fuel : nat) (argc : Z) (argv : list (list byte)) : M S Z :=
  loop_loop fuel 0 argc (argv !! 1%nat ≫= atoi);;
  mret 0.
End Apps.

(** ** vga_demo.c *)
Definition HRES : Z := 800.
Definition VRES : Z := 600.
Definition VGA_MMIO_START : Z := 0x81000000.
(** The bitmap in the boot ROM. *)
Definition BMP : Z := 0x20400000 + EGOS_BIN_MAX_NBYTE * 5.

(** The word of a pixel whose three bytes are at [rgb]. *)
Definition pixel (rom : Z -> byte) (rgb : Z) : Z :=
  Z.lor (Z.lor (byte.unsigned (rom rgb)) (Z.shiftl (byte.unsigned (rom (rgb + 1))) 8))
    (Z.shiftl (byte.unsigned (rom (rgb + 2))) 16).
(** [n] rounds of the inner loop from [j], and of the outer one from [i]: the
    words written, and [rgb] at the end. *)
Fixpoint vga_row (rom : Z -> byte) (n : nat) (i j rgb : Z) : list (Z * Z) * Z :=
  match n with
  | O => ([], rgb)
  | S n =>
    let pix := VGA_MMIO_START + 4 * (i * HRES + (HRES - j)) in
    let '(ws, r) := vga_row rom n i (j + 1) (rgb - 3) in
    ((pix, pixel rom rgb) :: ws, r)
  end.
Fixpoint vga_rows (rom : Z -> byte) (n : nat) (i rgb : Z) : list (Z * Z) :=
  match n with
  | O => []
  | S n =>
    let '(ws, rgb) := vga_row rom (Z.to_nat HRES) i 0 rgb in
    ws ++ vga_rows rom n (i + 1) rgb
  end.
Definition vga_demo (rom : Z -> byte) : list (Z * Z) :=
  vga_rows rom (Z.to_nat VRES) 0 (BMP + (56 + HRES * VRES * 3) - 3).

(** ** What applications rely on *)

(** Printing appends to the output, reading gives the first block of a file, and
    neither changes the files. *)
Class AppEnv {S : Type} (tw : list byte -> nat -> M S unit) (fread : Z -> Z -> M S (Z * block)) : Type := {
  env_writer :: TermWriter (R := Z -> option block) tw;
  env_read : forall s ino b, tw_inv s -> tw_rest s ino = Some b ->
    exists s', fread ino 0 s = Ok ((0, b), s') /\ tw_inv s' /\ tw_out s' = tw_out s /\ tw_rest s' = tw_rest s;
}.

(** ** ls: removing the numbers *)

(** The text after the loop; [p]: the character before it is a space. *)
Fixpoint blank (p : bool) (s : list byte) : list byte :=
  match s with
  | [] => []
  | c :: s => let c := if p && is_digit c then SPC else c in c :: blank (bool_decide (c = SPC)) s
  end.

Lemma length_blank p s : length (blank p s) = length s.
Proof. revert p. induction s as [|c s IH]; intros p; [done|]. cbn [blank length]. by rewrite IH. Qed.

Lemma blank_no_nul p s : no_nul s -> no_nul (blank p s).
Proof.
  revert p. induction s as [|c s IH]; intros p Hs; [done|]. apply no_nul_cons in Hs as [Hc Hs]. cbn [blank].
  apply no_nul_cons. split; [by destruct (p && _)|by apply IH].
Qed.

Lemma ls_loop_blank fuel a x s tl : no_nul (a ++ x :: s) -> (length s <= fuel)%nat ->
  ls_loop fuel (S (length a)) (a ++ x :: s ++ NUL :: tl) =
  Ok (a ++ x :: blank (bool_decide (x = SPC)) s ++ NUL :: tl).
Proof.
  revert fuel a x. induction s as [|c s IH]; intros fuel a x Hn Hf.
  - assert (strlen (a ++ x :: [] ++ NUL :: tl) = Some (S (length a))) as Hl.
    { rewrite <- (Nat.add_1_r (length a)). change (x :: [] ++ NUL :: tl) with ([x] ++ NUL :: tl).
      rewrite app_assoc, strlen_app, length_app by done. done. }
    destruct fuel; cbn [ls_loop]; rewrite Hl, Nat.ltb_irrefl; done.
  - destruct fuel as [|fuel]; [cbn in Hf; lia|]. cbn [ls_loop].
    assert (strlen (a ++ x :: (c :: s) ++ NUL :: tl) = Some (S (S (length a + length s)))) as ->.
    { change (a ++ x :: (c :: s) ++ NUL :: tl) with (a ++ (x :: c :: s) ++ NUL :: tl).
      rewrite app_assoc, strlen_app, length_app by done. cbn [length]. f_equal. lia. }
    rewrite (proj2 (Nat.ltb_lt _ _)) by lia.
    replace (S (length a) - 1)%nat with (length a) by lia. rewrite list_lookup_middle by done.
    rewrite lookup_app_r by lia. replace (S (length a) - length a)%nat with 1%nat by lia. cbn [lookup list_lookup app].
    set (c' := if bool_decide (x = SPC) && is_digit c then SPC else c).
    assert ((if bool_decide (x = SPC) && is_digit c then <[S (length a):=SPC]> (a ++ x :: c :: s ++ NUL :: tl)
      else a ++ x :: c :: s ++ NUL :: tl) = (a ++ [x]) ++ c' :: s ++ NUL :: tl) as ->.
    { rewrite <- app_assoc. cbn [app]. subst c'. destruct (bool_decide (x = SPC) && is_digit c); [|done].
      rewrite insert_app_r_alt by lia. by replace (S (length a) - length a)%nat with 1%nat by lia. }
    replace (S (length a)) with (length (a ++ [x])) at 1 by (rewrite length_app; cbn; lia).
    rewrite IH; [by rewrite <- app_assoc| |cbn in Hf; lia].
    rewrite <- app_assoc. apply no_nul_app in Hn as [Ha Hn]. apply no_nul_app. split; [done|].
    apply no_nul_cons in Hn as [Hx [Hc Hs]%no_nul_cons]. apply no_nul_cons. split; [done|]. apply no_nul_cons.
    split; [|done]. subst c'. by destruct (_ && _).
Qed.

(** The directory, printed with its numbers blanked. *)
Definition blank_entry (e : entry) : list byte := e_name e ++ replicate (length (print_entry e) - length (e_name e)) SPC.

(** A name that does not begin with a digit. *)
Definition starts_plain (n : list byte) : Prop :=
  match n with [] => False | c :: _ => is_digit c = false end.
#[global] Instance starts_plain_dec n : Decision (starts_plain n).
Proof. destruct n; apply _. Defined.

Lemma blank_word w s : SPC ∉ w -> blank false (w ++ s) = w ++ blank false s.
Proof.
  induction w as [|c w IH]; intros Hw; [done|]. apply not_elem_of_cons in Hw as [Hc Hw]. cbn [app blank andb].
  rewrite bool_decide_false by done. f_equal. by apply IH.
Qed.

Lemma blank_name p w s : starts_plain w -> SPC ∉ w -> blank p (w ++ s) = w ++ blank false s.
Proof.
  destruct w as [|c w]; cbn [starts_plain]; [done|]. intros Hd Hw. apply not_elem_of_cons in Hw as [Hc Hw].
  cbn [app blank]. rewrite Hd, andb_false_r, bool_decide_false by done. f_equal. by apply blank_word.
Qed.

Lemma blank_spaces k p s : (0 < k)%nat -> blank p (replicate k SPC ++ s) = replicate k SPC ++ blank true s.
Proof.
  destruct k as [|k]; [lia|]. intros _. revert p. induction k as [|k IH]; intros p.
  - cbn [replicate app blank]. change (is_digit SPC) with false. by rewrite andb_false_r, bool_decide_true.
  - cbn [replicate app blank]. change (is_digit SPC) with false. rewrite andb_false_r, bool_decide_true by done.
    f_equal. apply IH.
Qed.

Lemma blank_digits ds s : forallb is_digit ds = true -> blank true (ds ++ s) = replicate (length ds) SPC ++ blank true s.
Proof.
  induction ds as [|d ds IH]; [done|]. cbn [forallb]. intros [Hd Hds]%andb_true_iff. cbn [app blank length replicate].
  rewrite Hd. cbn [andb]. rewrite bool_decide_true by done. f_equal. by apply IH.
Qed.

Lemma blank_print_entry p e s : entry_ok e -> starts_plain (e_name e) ->
  blank p (print_entry e ++ s) = blank_entry e ++ blank true s.
Proof.
  intros [(_ & _ & Hsp) Hino] Hpl. destruct (decimal_facts _ Hino) as (Hd & _ & Hlen & _).
  unfold blank_entry, print_entry. rewrite <- !app_assoc. rewrite blank_name by done. f_equal.
  rewrite blank_spaces by lia. rewrite blank_digits by done. cbn [app blank].
  change (is_digit SPC) with false. cbn [andb]. rewrite bool_decide_true by done.
  rewrite !length_app, length_replicate. cbn [length].
  set (k := (4 - _)%nat). set (d := length (decimal _)).
  replace (length (e_name e) + (k + (d + 1)) - length (e_name e))%nat with (k + (d + 1))%nat by lia.
  rewrite !replicate_add, <- !app_assoc. done.
Qed.

Lemma blank_print_dir p es : Forall entry_ok es -> Forall (fun e => starts_plain (e_name e)) es ->
  blank p (print_dir es) = es ≫= blank_entry.
Proof.
  intros Hes. revert p. induction Hes as [|e es He Hes IH]; intros p Hpl; [done|].
  apply Forall_cons_1 in Hpl as [Hp Hpl]. change (print_dir (e :: es)) with (print_entry e ++ print_dir es).
  rewrite blank_print_entry, IH by done. done.
Qed.

Lemma words_word w cur s : SPC ∉ w -> cur ++ w <> [] -> words cur (w ++ SPC :: s) = (cur ++ w) :: words [] s.
Proof.
  revert cur. induction w as [|c w IH]; intros cur Hw Hne.
  - cbn [app words]. rewrite app_nil_r in *. rewrite decide_True by done. by rewrite decide_False.
  - apply not_elem_of_cons in Hw as [Hc Hw]. cbn [app words]. rewrite decide_False by done.
    rewrite IH, <- app_assoc; [done|done|]. by destruct cur.
Qed.

Lemma words_spaces k s : words [] (replicate k SPC ++ s) = words [] s.
Proof. induction k as [|k IH]; [done|]. cbn [replicate app words]. rewrite !decide_True by done. done. Qed.

(** The words of what is left are the names. *)
Lemma words_blank_dir es : Forall entry_ok es -> words [] (es ≫= blank_entry) = e_name <$> es.
Proof.
  induction 1 as [|e es [(Hne & _ & Hsp) _] Hes IH]; [done|]. change ((e :: es) ≫= blank_entry) with (blank_entry e ++ (es ≫= blank_entry)).
  unfold blank_entry at 1. rewrite <- app_assoc. unfold print_entry. rewrite !length_app, length_replicate. cbn [length].
  set (k := (_ - _)%nat). destruct k as [|k'] eqn:Hk; [lia|]. cbn [replicate app].
  rewrite words_word by done. rewrite words_spaces, IH. done.
Qed.

Lemma ls_loop_dir b es : is_dir b es -> Forall entry_ok es -> Forall (fun e => starts_plain (e_name e)) es ->
  exists tl, ls_loop (length b) 1 b = Ok ((es ≫= blank_entry) ++ NUL :: tl).
Proof.
  intros (_ & tl & ->) Hes Hpl. exists tl. pose proof (blank_print_dir false es Hes Hpl) as Hb.
  pose proof (print_dir_no_nul es Hes) as Hn. rewrite <- Hb. destruct (print_dir es) as [|x s]; [done|].
  refine (ls_loop_blank _ [] x s tl Hn _). rewrite length_app. cbn [length]. lia.
Qed.

(** ** The applications *)

(** The pointer [p] is to the string [w]. *)
Definition points_to (p w : list byte) : Prop := no_nul w /\ exists r, p = w ++ NUL :: r.

Section spec.
Context {S : Type} (tw : list byte -> nat -> M S unit) (fread : Z -> Z -> M S (Z * block)) `{!AppEnv tw fread}.
Context (junk : list byte) (Hjunk : length junk = Z.to_nat TERM_BUF_SIZE).
Implicit Types s : S.

(** The state [s'] is [s] after printing [str]. *)
Definition prints (s s' : S) (str : list byte) : Prop :=
  tw_inv s' /\ tw_out s' = tw_out s ++ str /\ tw_rest s' = tw_rest s.

Lemma prints_nil s : tw_inv s -> prints s s [].
Proof using Type. intros Hs. split_and!; [done|by rewrite app_nil_r|done]. Qed.

Lemma prints_trans s1 s2 s3 a b : prints s1 s2 a -> prints s2 s3 b -> prints s1 s3 (a ++ b).
Proof using Type. intros (_ & H1 & R1) (Hs & H2 & R2). split_and!; [done|by rewrite H2, H1, app_assoc|congruence]. Qed.

(** [printf] of a constant, of a string between constants, and of both with a new line. *)
Lemma printf_str s p w pre post : tw_inv s -> points_to p w -> Forall piece_ok pre -> Forall piece_ok post ->
  args_of pre = [] -> args_of post = [] -> (length (render pre ++ w ++ render post) < 512)%nat ->
  exists s', my_printf tw junk (fmt_of pre ++ lit "%s" ++ fmt_of post ++ [NUL]) [AStr p] s = Ok (tt, s') /\
    prints s s' (render pre ++ w ++ render post).
Proof using Hjunk.
  intros Hs (Hw & r & ->) Hpre Hpost Ha Hb Hl.
  destruct (printf_ok tw (pre ++ Str w r :: post) [] junk s) as (s' & Hr & H).
  - rewrite Forall_app, Forall_cons. done.
  - done.
  - done.
  - unfold render in *. rewrite bind_app, bind_cons. exact Hl.
  - exists s'. unfold fmt_of, args_of, render in *. rewrite !bind_app, !bind_cons, Ha, Hb in Hr.
    rewrite !bind_app, !bind_cons in H. cbn [piece_fmt piece_args app] in Hr. rewrite <- app_assoc in Hr. by split.
Qed.

Lemma printf_nl s : tw_inv s -> exists s', my_printf tw junk (fmt_nl "") [] s = Ok (tt, s') /\ prints s s' newline.
Proof using Hjunk.
  intros Hs. destruct (printf_ok tw (Char <$> newline) [] junk s) as (s' & Hr & H); [|done|done|cbn; lia|by exists s'].
  by apply (bool_decide_unpack _).
Qed.

(** [echo] prints its arguments, each followed by a space. *)
Lemma echo_loop_ok ps ws done_ s : Forall2 points_to ps ws -> Forall (fun w => (length w < 511)%nat) ws -> tw_inv s ->
  exists s', echo_loop tw junk (length ps) (length done_) (done_ ++ ps) s = Ok (tt, s') /\
    prints s s' (ws ≫= (fun w => w ++ [SPC])).
Proof using Hjunk.
  intros Hps. revert done_ s. induction Hps as [|p w ps ws Hp Hps IH]; intros done_ s Hl Hs.
  { exists s. split; [done|]. by apply prints_nil. }
  apply Forall_cons_1 in Hl as [Hw Hl]. cbn [length echo_loop]. rewrite list_lookup_middle by done. cbn [mopt].
  rewrite (mbind_ok _ _ s p s) by done.
  destruct (printf_str s p w [] [Char SPC]) as (s1 & H1 & Hp1); try done; [by constructor|rewrite !length_app; cbn; lia|].
  change (fmt "%s ") with (fmt_of [] ++ lit "%s" ++ fmt_of [Char SPC] ++ [NUL]). rewrite (mbind_ok _ _ _ _ _ H1).
  destruct (IH (done_ ++ [p]) s1 Hl) as (s2 & H2 & Hp2); [apply Hp1|]. exists s2.
  rewrite length_app, <- app_assoc in H2. cbn [length app] in H2. rewrite Nat.add_1_r in H2. split; [exact H2|].
  rewrite bind_cons. by eapply prints_trans.
Qed.

(** [echo] and [ls] with their outputs; [ls] prints the names of the working
    directory, in order, and spaces. *)
Lemma echo_ok argv0 ps ws s : Forall2 points_to ps ws -> Forall (fun w => (length w < 511)%nat) ws -> tw_inv s ->
  Z.of_nat (length ps) + 1 < 2 ^ 31 ->
  exists s', echo tw junk (Z.of_nat (length ps) + 1) (argv0 :: ps) s = Ok (0, s') /\
    prints s s' ((ws ≫= (fun w => w ++ [SPC])) ++ newline).
Proof using Hjunk.
  intros Hps Hl Hs Hn. destruct (echo_loop_ok ps ws [argv0] s Hps Hl Hs) as (s1 & H1 & Hp1). unfold echo.
  rewrite u32_id by lia. replace (Z.to_nat (Z.of_nat (length ps) + 1) - 1)%nat with (length ps) by lia.
  cbn [length app] in H1. rewrite (mbind_ok _ _ _ _ _ H1). destruct (printf_nl s1) as (s2 & H2 & Hp2); [apply Hp1|].
  rewrite (mbind_ok _ _ _ _ _ H2). exists s2. split; [done|]. by eapply prints_trans.
Qed.

Lemma ls_ok wino b es argv s : tw_inv s -> tw_rest s wino = Some b -> is_dir b es -> Forall entry_ok es ->
  Forall (fun e => starts_plain (e_name e)) es -> (length (print_dir es) < 510)%nat ->
  exists s', ls tw fread junk wino 1 argv s = Ok (0, s') /\ prints s s' ((es ≫= blank_entry) ++ newline).
Proof using Hjunk.
  intros Hs Hdir Hb0 Hes Hpl Hlen. unfold ls. change (1 <? 1) with false. cbv beta iota.
  destruct (env_read s wino _ Hs Hdir) as (s1 & H1 & Hs1 & Ho1 & Hf1). rewrite (mbind_ok _ _ _ _ _ H1).
  destruct (ls_loop_dir b es Hb0 Hes Hpl) as [tl Htl]. rewrite Htl. cbn [mlift].
  pose proof (blank_print_dir false es Hes Hpl) as Hb.
  destruct (printf_str s1 ((es ≫= blank_entry) ++ NUL :: tl) (es ≫= blank_entry) [] (Char <$> newline)) as (s2 & H2 & Hp2); try done.
  - split; [|by exists tl]. rewrite <- Hb. apply blank_no_nul. by apply print_dir_no_nul.
  - by apply (bool_decide_unpack _).
  - rewrite <- Hb. cbn [app render mbind list_bind]. rewrite length_app, length_blank. cbn. lia.
  - exists s2. rewrite (mbind_ok _ _ s1 ((es ≫= blank_entry) ++ NUL :: tl) s1) by done.
    rewrite (mbind_ok _ _ _ _ _ H2). split; [done|]. destruct Hp2 as (? & Ho & ?).
    split_and!; [done|rewrite Ho, Ho1; done|congruence].
Qed.

(** [dir_lookup] of an application. *)
Lemma lookup_ok dir b es name rest s : tw_inv s -> tw_rest s dir = Some b -> is_dir b es -> Forall entry_ok es ->
  is_name name -> not_number name -> (length name <= length (print_dir es))%nat ->
  exists s', dir_lookup fread dir (name ++ NUL :: rest) s = Ok (dir_find es name, s') /\ prints s s' [].
Proof using Type.
  intros Hs Hdir Hb Hes Hn Hnum Hl. destruct (env_read s dir _ Hs Hdir) as (s' & Hr & Hs' & Ho & Hf). exists s'.
  unfold dir_lookup. rewrite (mbind_ok _ _ _ _ _ Hr). rewrite (dir_scan_find b es) by done. split; [done|].
  split_and!; [done|by rewrite app_nil_r|done].
Qed.

Lemma info_str s p w pre post : tw_inv s -> points_to p w -> Forall piece_ok pre -> Forall piece_ok post ->
  args_of pre = [] -> args_of post = [] -> (length (render pre ++ w ++ render post) < 503)%nat ->
  exists s', INFO tw junk (fmt_of pre ++ lit "%s" ++ fmt_of post ++ [NUL]) [AStr p] s = Ok (tt, s') /\
    prints s s' (INFO_PREFIX ++ (render pre ++ w ++ render post) ++ newline).
Proof using Hjunk.
  intros Hs (Hw & r & ->) Hpre Hpost Ha Hb Hl.
  destruct (info_ok tw (pre ++ Str w r :: post) [] junk s) as (s' & Hr & H).
  - rewrite Forall_app, Forall_cons. done.
  - done.
  - done.
  - unfold render in *. rewrite bind_app, bind_cons. exact Hl.
  - exists s'. unfold fmt_of, args_of, render in *. rewrite !bind_app, !bind_cons, Ha, Hb in Hr.
    rewrite !bind_app, !bind_cons in H. cbn [piece_fmt piece_args app] in Hr. rewrite <- app_assoc in Hr. by split.
Qed.

(** What [cat] prints for a file whose first block is the string [txt]. *)
Definition cat_text (txt : list byte) : list byte :=
  txt ++ (if decide (last txt = Some Byte.x0a) then [] else newline).
Definition not_found (what : string) (name : list byte) : list byte :=
  INFO_PREFIX ++ (lit what ++ name ++ lit " not found") ++ newline.

Lemma last_char_ok txt tl : no_nul txt -> txt <> [] -> exists c, last txt = Some c /\ last_char (txt ++ NUL :: tl) = Ok c.
Proof using Type.
  intros Hn Hne. destruct txt as [|c txt _] using rev_ind; [done|]. exists c. rewrite last_snoc. split; [done|].
  unfold last_char. rewrite strlen_app, length_app by done. cbn [length]. rewrite Nat.add_1_r, <- app_assoc.
  cbn [app]. by rewrite list_lookup_middle by done.
Qed.

Lemma cat_ok wino b es argv0 name rest txt tl s : tw_inv s -> tw_rest s wino = Some b -> is_dir b es -> Forall entry_ok es ->
  is_name name -> not_number name -> (length name <= 32)%nat -> (length name <= length (print_dir es))%nat ->
  (0 <= dir_find es name -> tw_rest s (dir_find es name) = Some (txt ++ NUL :: tl)) ->
  no_nul txt -> (0 < length txt < 512)%nat ->
  exists s', cat tw fread junk wino 2 [argv0; name ++ NUL :: rest] s = Ok (if decide (dir_find es name < 0) then -1 else 0, s') /\
    prints s s' (if decide (dir_find es name < 0) then not_found "cat: file " name else cat_text txt).
Proof using Hjunk.
  intros Hs Hdir Hb Hes Hn Hnum H32 Hlen Hfile Htxt Hl. unfold cat. change (negb (2 =? 2)) with false. cbv beta iota.
  cbn [lookup list_lookup mopt]. rewrite (mbind_ok _ _ s (name ++ NUL :: rest) s) by done.
  destruct (lookup_ok wino b es name rest s Hs Hdir Hb Hes Hn Hnum Hlen) as (s1 & H1 & Hp1). rewrite (mbind_ok _ _ _ _ _ H1).
  assert (points_to (name ++ NUL :: rest) name) as Hpt by (split; [apply Hn|by exists rest]).
  destruct (decide (dir_find es name < 0)) as [Hneg|Hpos].
  - rewrite (proj2 (Z.ltb_lt _ _)) by done.
    destruct (info_str s1 _ name (text "cat: file ") (text " not found") (proj1 Hp1) Hpt) as (s2 & H2 & Hp2);
      [by apply (bool_decide_unpack _)..|done|done|rewrite !render_text, !length_app; cbn; lia|].
    rewrite !fmt_of_text in H2. exists s2. change (fmt "cat: file %s not found") with
      (lit "cat: file " ++ lit "%s" ++ lit " not found" ++ [NUL]). rewrite (mbind_ok _ _ _ _ _ H2). split; [done|].
    rewrite !render_text in Hp2. exact (prints_trans _ _ _ [] _ Hp1 Hp2).
  - rewrite (proj2 (Z.ltb_ge _ _)) by lia. destruct Hp1 as (Hs1 & Ho1 & Hf1).
    destruct (env_read s1 (dir_find es name) _ Hs1 ltac:(rewrite Hf1; apply Hfile; lia)) as (s2 & H2 & Hs2 & Ho2 & Hf2).
    rewrite (mbind_ok _ _ _ _ _ H2). cbv beta iota.
    destruct (printf_str s2 (txt ++ NUL :: tl) txt [] []) as (s3 & H3 & Hp3); try done;
      [by split; [|eexists]|cbn [render mbind list_bind app]; rewrite app_nil_r; lia|].
    change (fmt "%s") with (fmt_of [] ++ lit "%s" ++ fmt_of [] ++ [NUL]). rewrite (mbind_ok _ _ _ _ _ H3).
    destruct (last_char_ok txt tl Htxt) as (c & Hlast & Hc); [by destruct txt; [cbn in Hl; lia|]|].
    rewrite Hc. cbn [mlift]. rewrite (mbind_ok _ _ s3 c s3) by done.
    cbn [render mbind list_bind app] in Hp3. rewrite app_nil_r in Hp3. unfold cat_text. rewrite Hlast.
    assert (prints s s3 txt) as Hp by (destruct Hp3 as (? & Ho3 & ?); rewrite app_nil_r in Ho1;
      split_and!; [done|by rewrite Ho3, Ho2, Ho1|congruence]).
    case_decide as Hnl.
    + injection Hnl as ->. rewrite bool_decide_true by done. cbn [negb]. rewrite (mbind_ok _ _ s3 tt s3) by done.
      exists s3. by rewrite app_nil_r.
    + rewrite bool_decide_false by congruence. cbn [negb]. destruct (printf_nl s3) as (s4 & H4 & Hp4); [apply Hp|].
      rewrite (mbind_ok _ _ _ _ _ H4). exists s4. split; [done|]. by eapply prints_trans.
Qed.

(** [loop n] prints [n] lines and ends. *)
Definition loop_line (i : Z) : list byte := lit "loop #" ++ itoa i 10 ++ newline.

Lemma loop_loop_ok n i s : tw_inv s -> 0 <= i -> i + Z.of_nat n < 2 ^ 31 ->
  exists s', loop_loop tw junk n i 2 (Some (i + Z.of_nat n)) s = Ok (tt, s') /\
    prints s s' (seqZ i (Z.of_nat n) ≫= loop_line).
Proof using Hjunk.
  revert i s. induction n as [|n IH]; intros i s Hs Hi Hn.
  - exists s. cbn [loop_loop]. change (2 =? 1) with false. cbn [mopt]. cbv beta iota.
    rewrite (mbind_ok _ _ s (i <? u32 (i + Z.of_nat 0)) s) by done.
    rewrite Z.add_0_r, u32_id, Z.ltb_irrefl by lia. split; [done|]. by apply prints_nil.
  - cbn [loop_loop]. change (2 =? 1) with false. cbn [mopt]. cbv beta iota.
    rewrite (mbind_ok _ _ s (i <? u32 (i + Z.of_nat (Datatypes.S n))) s) by done.
    rewrite u32_id by lia. rewrite (proj2 (Z.ltb_lt _ _)) by lia. change (negb false && negb (2 =? 3)) with true. cbv beta iota.
    destruct (printf_ok tw (text "loop #" ++ Dec i :: (Char <$> newline)) [] junk s) as (s1 & H1 & Hp1); [|done|done| |].
    { rewrite Forall_app, Forall_cons. split; [by apply (bool_decide_unpack _)|]. split; [cbn; lia|by apply (bool_decide_unpack _)]. }
    { unfold render. rewrite bind_app, bind_cons. fold render. fold (render (text "loop #")). rewrite render_text, !length_app.
      pose proof (itoa_length i 10 ltac:(lia)). cbn [piece_out].
      change (length (lit "loop #")) with 6%nat. change (length ((Char <$> newline) ≫= piece_out)) with 2%nat. lia. }
    rewrite i32_id by lia. change (fmt_nl "loop #%d") with (fmt_of (text "loop #" ++ Dec i :: (Char <$> newline)) ++ [NUL]).
    change [AInt i] with (args_of (text "loop #" ++ Dec i :: (Char <$> newline))). rewrite (mbind_ok _ _ _ _ _ H1).
    rewrite u32_id by lia. destruct (IH (i + 1) s1) as (s2 & H2 & Hp2); [apply Hp1|lia|lia|]. exists s2.
    replace (i + 1 + Z.of_nat n) with (i + Z.of_nat (Datatypes.S n)) in H2 by lia. split; [exact H2|].
    rewrite seqZ_cons by lia. rewrite bind_cons. replace (Z.pred (Z.of_nat (Datatypes.S n))) with (Z.of_nat n) by lia.
    replace (Z.succ i) with (i + 1) by lia. exact (prints_trans _ _ _ (loop_line i) _ Hp1 Hp2).
Qed.

(** Without an argument it never ends. *)
Lemma loop_forever fuel i s : loop_loop tw junk fuel i 1 None s = NoFuel.
Proof using Type.
  revert i s. induction fuel as [|fuel IH]; intros i s; [done|]. cbn [loop_loop]. change (1 =? 1) with true. cbv beta iota.
  rewrite (mbind_ok _ _ s true s) by done. cbn [negb andb]. rewrite (mbind_ok _ _ s tt s) by done. apply IH.
Qed.

(** Listing a directory.  [ls] prints one line, as long as the directory's
    text, whose words are exactly the names of the entries of the working
    directory, in order, provided no name begins with a digit and the text
    leaves room for the new line. *)
Theorem ls_correct (wino : Z) (b : block) (es : list entry) (argv : list (list byte)) (s : S) :
  tw_inv s -> tw_rest s wino = Some b -> is_dir b es -> Forall entry_ok es ->
  Forall (fun e => starts_plain (e_name e)) es -> (length (print_dir es) < 510)%nat ->
  exists s' out, ls tw fread junk wino 1 argv s = Ok (0, s') /\ prints s s' (out ++ newline) /\
    length out = length (print_dir es) /\ words [] out = e_name <$> es.
Proof using Hjunk.
  intros Hs Hdir Hb Hes Hpl Hlen. destruct (ls_ok wino b es argv s Hs Hdir Hb Hes Hpl Hlen) as (s' & Hr & Hp).
  exists s', (es ≫= blank_entry). split; [done|]. split; [done|]. split; [|by apply words_blank_dir].
  by rewrite <- (blank_print_dir false es Hes Hpl), length_blank.
Qed.

(** Showing a file.  [cat] of a file of the working directory prints its text
    and ends the line if the text does not; a name that is not in the directory
    gives the result -1 and a message. *)
Theorem cat_correct (wino : Z) (b : block) (es : list entry) (argv0 name rest txt tl : list byte) (s : S) :
  tw_inv s -> tw_rest s wino = Some b -> is_dir b es -> Forall entry_ok es ->
  is_name name -> not_number name -> (length name <= 32)%nat -> (length name <= length (print_dir es))%nat ->
  (0 <= dir_find es name -> tw_rest s (dir_find es name) = Some (txt ++ NUL :: tl)) ->
  no_nul txt -> (0 < length txt < 512)%nat ->
  exists s', cat tw fread junk wino 2 [argv0; name ++ NUL :: rest] s = Ok (if decide (dir_find es name < 0) then -1 else 0, s') /\
    prints s s' (if decide (dir_find es name < 0) then not_found "cat: file " name else cat_text txt).
Proof using Hjunk. apply cat_ok. Qed.
End spec.

(** ** The picture *)

(** The [k]-th word that the demo writes. *)
Definition vga_write (rom : Z -> byte) (i rgb k : Z) : Z * Z :=
  (VGA_MMIO_START + 4 * ((i + k / HRES) * HRES + (HRES - k mod HRES)), pixel rom (rgb - 3 * k)).

Lemma vga_row_spec rom n i j rgb : 0 <= j -> j + Z.of_nat n <= HRES ->
  vga_row rom n i j rgb = (vga_write rom i (rgb + 3 * j) <$> seqZ j (Z.of_nat n), rgb - 3 * Z.of_nat n).
Proof.
  revert j rgb. induction n as [|n IH]; intros j rgb Hj Hn; [cbn; f_equal; lia|]. cbn [vga_row].
  rewrite IH by lia. rewrite (seqZ_cons j) by lia. replace (Z.pred (Z.of_nat (S n))) with (Z.of_nat n) by lia.
  replace (Z.succ j) with (j + 1) by lia.
  cbn [fmap list_fmap]. f_equal; [|lia]. f_equal.
  - unfold vga_write. rewrite Z.div_small, Z.mod_small by lia. f_equal; [|f_equal; lia]. lia.
  - replace (rgb - 3 + 3 * (j + 1)) with (rgb + 3 * j) by lia. done.
Qed.

Lemma vga_rows_spec rom n i rgb :
  vga_rows rom n i rgb = vga_write rom i rgb <$> seqZ 0 (Z.of_nat n * HRES).
Proof.
  revert i rgb. induction n as [|n IH]; intros i rgb; [done|]. cbn [vga_rows].
  rewrite vga_row_spec, Z2Nat.id by (unfold HRES; lia). rewrite IH.
  replace (Z.of_nat (S n) * HRES) with (HRES + Z.of_nat n * HRES) by lia. rewrite seqZ_app by (unfold HRES; lia).
  rewrite fmap_app. f_equal; [by rewrite Z.mul_0_r, Z.add_0_r|].
  change (0 + HRES) with HRES.
  apply list_eq. intros k. rewrite !list_lookup_fmap.
  destruct (decide (k < Z.to_nat (Z.of_nat n * HRES))%nat) as [Hk|Hk].
  - rewrite !lookup_seqZ_lt by lia. cbn. f_equal. unfold vga_write. f_equal.
    + replace (HRES + Z.of_nat k) with (1 * HRES + (0 + Z.of_nat k)) by lia.
      rewrite Z.div_add_l, (Z.add_comm (1 * HRES)), Z_mod_plus_full by done. do 2 f_equal. lia.
    + f_equal. lia.
  - rewrite !lookup_seqZ_ge by lia. done.
Qed.

(** The demo draws each pixel of the bitmap, whose rows are stored from the bottom
    up, but one word further than its place on the screen: the first word of the
    screen is not written, and the last pixel falls behind it. *)
Lemma vga_demo_shifted rom : length (vga_demo rom) = Z.to_nat (HRES * VRES) /\
  (forall x y, 0 <= x < HRES -> 0 <= y < VRES ->
    vga_demo rom !! Z.to_nat (y * HRES + (HRES - 1 - x)) =
      Some (VGA_MMIO_START + 4 * (y * HRES + x + 1), pixel rom (BMP + 56 + 3 * ((VRES - 1 - y) * HRES + x)))) /\
  (forall a v, (a, v) ∈ vga_demo rom -> a <> VGA_MMIO_START).
Proof.
  unfold vga_demo. rewrite vga_rows_spec. change (Z.of_nat (Z.to_nat VRES) * HRES) with (HRES * VRES). split_and!.
  - by rewrite length_fmap, length_seqZ.
  - intros x y Hx Hy. rewrite list_lookup_fmap, lookup_seqZ_lt by (unfold HRES, VRES in *; lia). cbn [fmap option_fmap option_map].
    f_equal. unfold vga_write. rewrite Z2Nat.id by (unfold HRES in *; lia).
    rewrite Z.add_0_l, Z.add_0_l, Z.div_add_l, Z.div_small by (unfold HRES in *; lia).
    rewrite (Z.add_comm (y * HRES)), Z_mod_plus_full, Z.mod_small by (unfold HRES in *; lia).
    f_equal; [lia|]. f_equal. unfold HRES, VRES in *. lia.
  - intros a v (k & Heq & Hk)%list_elem_of_fmap. injection Heq as -> _.
    apply elem_of_seqZ in Hk. pose proof (Z.mod_pos_bound k HRES eq_refl).
    pose proof (Z.div_pos k HRES ltac:(lia) eq_refl). unfold HRES in *. lia.
Qed.

(** A name that begins with a digit loses it in the listing. *)
Lemma ls_digit_name :
  ls_loop 20 1 (print_dir [{| e_name := lit "echo"; e_ino := 7 |}; {| e_name := lit "3d"; e_ino := 8 |}] ++ zeros 4) =
  Ok (lit "echo      d     " ++ zeros 4).
Proof. vm_compute. reflexivity. Qed.
(** An empty file makes [cat] read before its buffer. *)
Lemma cat_empty_file : last_char (zeros 512) = Stuck.
Proof. vm_compute. reflexivity. Qed.
