(* ===== verification/ShellMain.v ===== *)
(** * The shell's main loop

    [main] of [apps/system/sys_shell.c]: it greets, enters the home directory, and
    then reads and executes one line after the other.  The shell talks to the
    terminal server and to the process server; the class [ShellEnv] states what it
    relies on, and the theorem relates the loop to a reader and evaluator of lines. *)

From stdpp Require Import options.
From coqutil Require Import Byte.
From S2P Require Import Prelude CString InodeStore Earth Timer Mmu SoftTlb MmuProps Process Kernel KernelInv KernelIpc KernelSched KernelTrace KernelFair KernelProps Tty Terminal Dir Shell Elf ElfSpec ElfProps SysProc SysProcProps Print UserApps.

(** ** sys_shell.c: main *)

(** [printf]'s format of the prompt, with [ESC] and the arrow in UTF-8. *)
Definition ESC : byte := Byte.x1b.
Definition PROMPT_PRE : list byte := ESC :: lit "[1;32m" ++ [Byte.xe2; Byte.x9e; Byte.x9c] ++ lit " " ++ ESC :: lit "[1;36m".
Definition PROMPT_POST : list byte := ESC :: lit "[1;0m ".
Definition PROMPT : list byte := PROMPT_PRE ++ lit "%s" ++ PROMPT_POST ++ [NUL].
Definition CLEAR : list byte := ESC :: lit "[1;1H" ++ ESC :: lit "[2J".

Section Main.
Context {W : Type} (term_write : list byte -> nat -> M W unit) (term_read : Z -> M W (Z * list byte)).
Context (sys_send : Z -> list byte -> M W unit) (sys_recv : Z -> M W (list byte)) (workdir : M W (list byte)).
Context (junk : list byte).
Abbreviation printf := (my_printf term_write junk).
Abbreviation info := (INFO term_write junk).

(** The body of the loop up to the prompt; [req] is what the local variable held. *)
Definition shell_step (req : proc_request) (buf : list byte) : M W unit :=
  a ← mlift (shell_round buf req);
  match a with
  | Coresinfo => mret tt
  | Killall req => sys_send GPID_PROCESS (proc_request_bytes req)
  | Clear => printf (CLEAR ++ [NUL]) []
  | Pwd => path ← workdir; printf (fmt_nl "%s") [AStr path]
  | TooLong => info (fmt "sys_shell: too many arguments or argument too long") []
  | Spawn req =>
    sys_send GPID_PROCESS (proc_request_bytes req);;
    reply ← sys_recv GPID_PROCESS;
    waits ← mlift (shell_waits req (get32 reply 0));
    if negb (get32 reply 0 =? CMD_OK) then
      argv0 ← mopt (pr_argv req !! 0%nat);
      info (fmt "sys_shell: command %s not found") [AStr argv0]
    else if (waits : bool) then sys_recv GPID_PROCESS;; mret tt
    else mret tt
  end.

(** [do printf(...); while (term_read(buf, TERM_BUF_SIZE) == 0);]: [buf] has 256
    characters, and [term_read] copies what the server sends. *)
Fixpoint shell_prompt (n : nat) (buf : list byte) : M W (list byte) :=
  match n with
  | O => mnofuel
  | S n =>
    path ← workdir;
    printf PROMPT [AStr path];;
    '(len, bytes) ← term_read TERM_BUF_SIZE;
    if bool_decide (length bytes <= length buf)%nat then
      let buf := bytes ++ drop (length bytes) buf in
      if (len : Z) =? 0 then shell_prompt n buf else mret buf
    else mstuck
  end.

(** [rounds] of the endless loop; [n] bounds the empty lines in each. *)
Fixpoint shell_loop (rounds n : nat) (req : proc_request) (buf : list byte) : M W (list byte) :=
  match rounds with
  | O => mret buf
  | S rounds =>
    shell_step req buf;;
    buf ← shell_prompt n buf;
    shell_loop rounds n req buf
  end.

Definition shell_buf : list byte := lit "cd" ++ zeros 254.
Definition shell_main (rounds n : nat) (req : proc_request) : M W (list byte) :=
  CRITICAL term_write junk (fmt "Welcome to the egos-2000 shell!") [];;
  shell_loop rounds n req shell_buf.
End Main.

(** ** What the shell relies on

    [P] is what the processes make of the system: the working directory, which
    commands there are, and what a command does and prints until the shell goes
    on.  [se_name] is what can be looked up: a word without a digit-only spelling,
    not longer than the directory. *)
Definition spawn_request (ws : list (list byte)) : proc_request :=
  {| pr_type := PROC_SPAWN; pr_argc := Z.of_nat (length ws); pr_argv := arg_rows ws |}.
(** Words without a final [&]. *)
Definition foreground (ws : list (list byte)) : bool := negb (bool_decide ((last ws ≫= head) = Some Byte.x26)).

Class ShellEnv {W P : Type} (tw : list byte -> nat -> M W unit) (tread : Z -> M W (Z * list byte))
    (send : Z -> list byte -> M W unit) (recv : Z -> M W (list byte)) (wdir : M W (list byte)) : Type := {
  se_writer :: TermWriter (R := list byte * P) tw;
  se_fatal : string -> Prop;
  se_path : P -> list byte;
  se_name : list byte -> bool;
  se_known : P -> list byte -> bool;
  se_run : list (list byte) -> P -> P * list byte;
  se_killall : P -> P;
  se_path_ok p : no_nul (se_path p) /\ (length (se_path p) <= 400)%nat;
  se_wdir w : tw_inv w -> exists r, wdir w = Ok (se_path (tw_rest w).2 ++ NUL :: r, w);
  se_read w line keys out : tw_inv w -> edit 511 [] (tw_rest w).1 = Some (line, keys, out) ->
    exists w', tread TERM_BUF_SIZE w = Ok ((line_result line, if decide (line = []) then [] else line ++ [NUL]), w') /\
      tw_inv w' /\ tw_out w' = tw_out w ++ out /\ tw_rest w' = (keys, (tw_rest w).2);
  se_kill w req : tw_inv w -> pr_type req = PROC_KILLALL ->
    wp se_fatal (send GPID_PROCESS (proc_request_bytes req)) w (fun _ w' =>
      tw_inv w' /\ tw_out w' = tw_out w /\ tw_rest w' = ((tw_rest w).1, se_killall (tw_rest w).2));
  se_spawn w name ws : tw_inv w -> se_name name = true -> request_ok (spawn_request (name :: ws)) ->
    let p := (tw_rest w).2 in
    let ran w' := tw_inv w' /\ tw_out w' = tw_out w ++ (se_run (name :: ws) p).2 /\
      tw_rest w' = ((tw_rest w).1, (se_run (name :: ws) p).1) in
    wp se_fatal (send GPID_PROCESS (proc_request_bytes (spawn_request (name :: ws)));; recv GPID_PROCESS) w (fun reply w' =>
      get32 reply 0 = (if se_known p name then CMD_OK else CMD_ERROR) /\
      if se_known p name then
        if foreground (name :: ws) then wp se_fatal (recv GPID_PROCESS) w' (fun _ w'' => ran w'') else ran w'
      else tw_inv w' /\ tw_out w' = tw_out w /\ tw_rest w' = tw_rest w);
}.

(** ** Lines *)
Lemma strcmp_line line tail (s : string) : no_nul line -> no_nul (lit s) ->
  strcmp_lit (line ++ NUL :: tail) s = bool_decide (line = lit s).
Proof.
  intros Hl Hs. unfold strcmp_lit, starts_with. apply bool_decide_ext. rewrite length_app. cbn [length]. split.
  - intros Ht. assert (line ++ NUL :: tail = lit s ++ NUL :: drop (length (lit s) + 1) (line ++ NUL :: tail)) as Heq.
    { rewrite <- (take_drop (length (lit s) + 1) (line ++ NUL :: tail)) at 1. rewrite Ht, <- app_assoc. done. }
    pose proof (strlen_app line tail Hl) as H1. rewrite Heq, strlen_app in H1 by done. injection H1 as Hlen.
    apply (f_equal (take (length line))) in Heq. rewrite take_app_length, take_app_le in Heq by lia.
    rewrite Heq, <- Hlen. apply firstn_all.
  - intros ->. change (lit s ++ NUL :: tail) with (lit s ++ [NUL] ++ tail). rewrite app_assoc. apply take_app_length'. by rewrite length_app.
Qed.

Lemma words_no_nul cur s : no_nul cur -> no_nul s -> Forall no_nul (words cur s).
Proof.
  revert cur. induction s as [|c s IH]; intros cur Hc Hs; cbn [words].
  - by destruct (decide (cur = [])); [|apply Forall_singleton].
  - apply no_nul_cons in Hs as [Hne Hs]. destruct (decide (c = SPC)).
    + destruct (decide (cur = [])); [apply IH; [apply not_elem_of_nil|done]|]. apply Forall_cons. split; [done|]. apply IH; [apply not_elem_of_nil|done].
    + apply IH; [|done]. apply no_nul_app. split; [done|]. apply no_nul_cons. split; [done|apply not_elem_of_nil].
Qed.

Lemma fits_request line : fits line -> words [] line <> [] -> request_ok (spawn_request (words [] line)).
Proof.
  intros [Hf Hc] Hne. set (ws := words [] line) in *.
  assert (length ws <= 16)%nat as Hl.
  { unfold closed_words in Hc. fold ws in Hc. destruct (decide (last line = Some SPC)); lia. }
  split; cbn [pr_argc pr_argv spawn_request].
  - unfold CMD_NARGS. assert (length ws <> 0)%nat by (by destruct ws). lia.
  - unfold arg_rows. rewrite length_app, length_fmap, length_replicate. change (Z.to_nat CMD_NARGS) with 16%nat. lia.
  - unfold arg_rows. apply Forall_app. change (Z.to_nat CMD_ARG_LEN) with 32%nat. split.
    + apply Forall_fmap. eapply Forall_impl; [exact Hf|]. intros w Hw. cbv beta in Hw. by apply length_arg_row, Nat.lt_le_incl.
    + apply Forall_replicate, length_zeros.
Qed.

Lemma last_arg_foreground ws : ws <> [] ->
  exists c, last_arg_char (spawn_request ws) = Ok c /\ foreground ws = negb (bool_decide (c = Byte.x26)).
Proof.
  intros Hne. destruct ws as [|w ws0 _] using rev_ind; [done|]. unfold last_arg_char. cbn [pr_argc pr_argv spawn_request].
  rewrite length_app. cbn [length]. rewrite (proj2 (Z.leb_le 0 _)) by lia.
  replace (Z.to_nat (Z.of_nat (length ws0 + 1) - 1)) with (length ws0) by lia.
  assert (arg_rows (ws0 ++ [w]) !! length ws0 = Some (arg_row w)) as ->.
  { unfold arg_rows. rewrite lookup_app_l by (rewrite length_fmap, length_app; cbn; lia).
    rewrite list_lookup_fmap, lookup_app_r, Nat.sub_diag by done. done. }
  unfold foreground. rewrite last_snoc. cbn [mbind option_bind]. destruct w as [|c w]; cbn [arg_row app head length].
  - exists NUL. done.
  - exists c. split; [done|]. f_equal. apply bool_decide_ext. split; [by intros [= ->]|by intros ->].
Qed.

(** What [shell_round] decides about a line. *)
Lemma shell_round_line line tail req : no_nul line ->
  let t ty := {| pr_type := ty; pr_argc := pr_argc req; pr_argv := pr_argv req |} in
  shell_round (line ++ NUL :: tail) req = Ok (
    if decide (line = lit "coresinfo") then Coresinfo
    else if decide (line = lit "killall") then Killall (t PROC_KILLALL)
    else if decide (line = lit "clear") then Clear
    else if decide (line = lit "pwd") then Pwd
    else if decide (fits line) then Spawn (spawn_request (words [] line)) else TooLong).
Proof.
  intros Hl t. unfold shell_round.
  rewrite !(strcmp_line line tail) by (done || by apply (bool_decide_unpack _)). cbv zeta. fold (t PROC_KILLALL) (t PROC_SPAWN).
  repeat (case_bool_decide; [rewrite decide_True by done; done|rewrite decide_False by done]).
  pose proof (parse_request_spec line tail (t PROC_SPAWN) Hl) as Hp. destruct (decide (fits line)).
  - rewrite Hp. done.
  - destruct Hp as (argv & ->). done.
Qed.

(** ** A reader and evaluator of lines *)
Section repl.
Context {W P : Type} (tw : list byte -> nat -> M W unit) (tread : Z -> M W (Z * list byte)).
Context (send : Z -> list byte -> M W unit) (recv : Z -> M W (list byte)) (wdir : M W (list byte)).
Context `{!ShellEnv (P := P) tw tread send recv wdir} (junk : list byte).

Definition say_info (msg : list byte) : list byte := INFO_PREFIX ++ msg ++ newline.

(** What a line does to the system and prints. *)
Definition eval_line (line : list byte) (p : P) : P * list byte :=
  if decide (line = lit "coresinfo") then (p, [])
  else if decide (line = lit "killall") then (se_killall p, [])
  else if decide (line = lit "clear") then (p, CLEAR)
  else if decide (line = lit "pwd") then (p, se_path p ++ newline)
  else if decide (fits line) then
    match words [] line with
    | name :: ws => if se_known p name then se_run (name :: ws) p
                    else (p, say_info (lit "sys_shell: command " ++ name ++ lit " not found"))
    | [] => (p, [])
    end
  else (p, say_info (lit "sys_shell: too many arguments or argument too long")).

(** Lines that are not blank, have no null character, and begin with a word that can
    be looked up. *)
Definition line_ok (line : list byte) : Prop :=
  no_nul line /\ match words [] line with [] => False | name :: _ => se_name name = true end.
#[global] Instance line_ok_dec line : Decision (line_ok line).
Proof using Type. unfold line_ok, no_nul. destruct (words [] line); apply _. Defined.

(** Prompting until a line is not empty: the line, the keys left, and the output. *)
Fixpoint ask (n : nat) (path keys : list byte) : option (list byte * list byte * list byte) :=
  match n with
  | O => None
  | S n =>
    match edit 511 [] keys with
    | None => None
    | Some (line, keys, out) =>
      if decide (line = []) then (fun '(l, k, o) => (l, k, (PROMPT_PRE ++ path ++ PROMPT_POST) ++ out ++ o)) <$> ask n path keys
      else Some (line, keys, (PROMPT_PRE ++ path ++ PROMPT_POST) ++ out)
    end
  end.

(** [rounds] lines from [line] on: the state and the keys left, and the output; or a
    line that overruns the buffer; nothing if the keys run out or a line is not
    [line_ok]. *)
Inductive session : Type :=
| Session (p : P) (keys out : list byte)
| Overrun.
Fixpoint repl (rounds n : nat) (line : list byte) (p : P) (keys : list byte) : option session :=
  match rounds with
  | O => Some (Session p keys [])
  | S rounds =>
    if decide (line_ok line) then
      let '(p, o1) := eval_line line p in
      match ask n (se_path p) keys with
      | None => None
      | Some (line, keys, o2) =>
        if decide (length line < 256)%nat then
          (fun r => match r with Session q k o => Session q k (o1 ++ o2 ++ o) | Overrun => Overrun end) <$> repl rounds n line p keys
        else Some Overrun
      end
    else None
  end.

Context (Hjunk : length junk = Z.to_nat TERM_BUF_SIZE).

(** ** The steps *)
Definition prints_to (w w' : W) (keys : list byte) (p : P) (out : list byte) : Prop :=
  tw_inv w' /\ tw_out w' = tw_out w ++ out /\ tw_rest w' = (keys, p).

Lemma say_ok w ps : tw_inv w -> Forall piece_ok ps -> (length (render ps) < 503)%nat ->
  exists w', INFO tw junk (fmt_of ps ++ [NUL]) (args_of ps) w = Ok (tt, w') /\
    prints_to w w' (tw_rest w).1 (tw_rest w).2 (say_info (render ps)).
Proof using Hjunk.
  intros Hw Hps Hl. destruct (info_ok tw ps [] junk w Hps Hjunk Hw Hl) as (w' & Hr & Hi & Ho & Hrest).
  exists w'. split; [exact Hr|]. split; [done|]. split; [exact Ho|]. rewrite Hrest. by destruct (tw_rest w).
Qed.

Lemma print_ok w ps : tw_inv w -> Forall piece_ok ps -> (length (render ps) < 512)%nat ->
  exists w', my_printf tw junk (fmt_of ps ++ [NUL]) (args_of ps) w = Ok (tt, w') /\
    prints_to w w' (tw_rest w).1 (tw_rest w).2 (render ps).
Proof using Hjunk.
  intros Hw Hps Hl. destruct (printf_ok tw ps [] junk w Hps Hjunk Hw Hl) as (w' & Hr & Hi & Ho & Hrest).
  exists w'. split; [exact Hr|]. split; [done|]. split; [exact Ho|]. rewrite Hrest. by destruct (tw_rest w).
Qed.

Lemma wp_shell_step req line tail w keys p : tw_inv w -> tw_rest w = (keys, p) -> line_ok line ->
  wp se_fatal (shell_step tw send recv wdir junk req (line ++ NUL :: tail)) w (fun _ w' =>
    prints_to w w' keys (eval_line line p).1 (eval_line line p).2).
Proof using Hjunk.
  intros Hw Hrest [Hn Hnm]. unfold shell_step. rewrite shell_round_line by done. apply wp_bind, wp_ret.
  unfold eval_line.
  destruct (decide (line = lit "coresinfo")) as [_|_]. { apply wp_ret. split_and!; [done|by rewrite app_nil_r|done]. }
  destruct (decide (line = lit "killall")) as [_|_].
  { eapply wp_mono; [by apply se_kill|]. intros _ w' (Hi & Ho & Hr). split_and!; [done|by rewrite app_nil_r|]. by rewrite Hr, Hrest. }
  destruct (decide (line = lit "clear")) as [_|_].
  { destruct (print_ok w (Char <$> CLEAR) Hw) as (w' & Hr & Hp); [by apply (bool_decide_unpack _)|apply (bool_decide_unpack _); vm_compute; exact I|].
    rewrite Hrest in Hp. eapply wp_ok; [exact Hr|exact Hp]. }
  destruct (decide (line = lit "pwd")) as [_|_].
  { destruct (se_wdir w Hw) as (r & Hwd). apply wp_bind. eapply wp_ok; [exact Hwd|]. rewrite Hrest. cbn [snd].
    destruct (se_path_ok p) as [Hpn Hpl].
    destruct (print_ok w (Str (se_path p) r :: (Char <$> newline)) Hw) as (w' & Hr & Hp).
    - apply Forall_cons. split; [done|by apply (bool_decide_unpack _)].
    - change (render _) with (se_path p ++ newline). rewrite length_app. change (length newline) with 2%nat. lia.
    - rewrite Hrest in Hp. eapply wp_ok; [exact Hr|exact Hp]. }
  destruct (decide (fits line)) as [Hfits|_].
  2:{ destruct (say_ok w (text "sys_shell: too many arguments or argument too long") Hw) as (w' & Hr & Hp);
        [by apply (bool_decide_unpack _)|apply (bool_decide_unpack _); vm_compute; exact I|].
      rewrite Hrest in Hp. eapply wp_ok; [exact Hr|exact Hp]. }
  assert (words [] line <> []) as Hne by (by destruct (words [] line)).
  pose proof (fits_request line Hfits Hne) as Hreq. destruct Hfits as [Hshort _].
  destruct (words [] line) as [|name ws] eqn:Hws; [done|]. set (req' := spawn_request (name :: ws)) in *.
  pose proof (se_spawn w name ws Hw Hnm Hreq) as Hsp. cbv zeta in Hsp. fold req' in Hsp.
  rewrite Hrest in Hsp. cbn [fst snd] in Hsp. apply wp_bind.
  apply wp_bind_inv in Hsp. eapply wp_mono; [exact Hsp|]. intros [] w1 H1. apply wp_bind. eapply wp_mono; [exact H1|].
  intros reply w2 (Hreply & H2). rewrite Hreply.
  destruct (se_known p name).
  - assert (shell_waits req' CMD_OK = Ok (foreground (name :: ws))) as ->.
    { destruct (last_arg_foreground (name :: ws)) as (c & Hc & ->); [done|]. fold req' in Hc. unfold shell_waits. by rewrite Hc. }
    apply wp_bind, wp_ret. change (negb (CMD_OK =? CMD_OK)) with false. cbv beta iota.
    destruct (foreground (name :: ws)).
    + apply wp_bind. eapply wp_mono; [exact H2|]. intros m w3 H3. by apply wp_ret.
    + by apply wp_ret.
  - unfold shell_waits. change (negb (CMD_ERROR =? CMD_OK)) with true. cbv beta iota. apply wp_bind, wp_ret.
    apply wp_bind. apply Forall_cons in Hshort as [Hname _].
    pose proof (words_no_nul [] line (not_elem_of_nil _) Hn) as Hnn. rewrite Hws in Hnn. apply Forall_cons in Hnn as [Hnn _].
    eapply (wp_ok _ _ _ (arg_row name)); [reflexivity|]. destruct H2 as (Hi2 & Ho2 & Hr2).
    destruct (say_ok w2 (text "sys_shell: command " ++ [Str name (zeros (31 - length name))] ++ text " not found") Hi2) as (w' & Hr & Hp).
    + rewrite !Forall_app, Forall_singleton. split_and!; [by apply (bool_decide_unpack _)|done|by apply (bool_decide_unpack _)].
    + unfold render. rewrite !bind_app, !length_app. cbn. rewrite !length_app. cbn. lia.
    + assert (arg_row name = name ++ NUL :: zeros (31 - length name)) as ->.
      { unfold arg_row. change (Z.to_nat CMD_ARG_LEN) with 32%nat. by replace (32 - length name)%nat with (S (31 - length name)) by lia. }
      rewrite Hr2 in Hp. eapply wp_ok; [exact Hr|]. destruct Hp as (Hi & Ho & Hrs). split_and!; [done| |done].
      rewrite Ho, Ho2. unfold say_info, render. rewrite !bind_app, bind_cons, app_nil_r. done.
Qed.

(** The buffer of [main]: a line, its null character, and 256 characters in all. *)
Definition holds (buf line : list byte) : Prop := exists tail, buf = line ++ NUL :: tail /\ length buf = 256%nat.

(** Code that overruns a buffer, unless the process server stops the system first. *)
Definition overruns {A} (m : M W A) (w : W) : Prop :=
  match m w with Stuck => True | Fatal e => se_fatal e | Ok _ | NoFuel => False end.
Lemma overruns_bind {A B} (m : M W A) (f : A -> M W B) w :
  wp se_fatal m w (fun a w' => overruns (f a) w') -> overruns (m ≫= f) w.
Proof using Type. unfold wp, overruns, mbind, M_bind. by destruct (m w) as [[a w']| | |]. Qed.
Lemma overruns_first {A B} (m : M W A) (f : A -> M W B) w : overruns m w -> overruns (m ≫= f) w.
Proof using Type. unfold overruns, mbind, M_bind. by destruct (m w) as [[a w']| | |]. Qed.

(** One prompt: the line that was typed, as [term_read] returns it. *)
Lemma wp_prompt w keys p l k o : tw_inv w -> tw_rest w = (keys, p) -> edit 511 [] keys = Some (l, k, o) ->
  exists r w1 w2, wdir w = Ok (se_path p ++ NUL :: r, w) /\ my_printf tw junk PROMPT [AStr (se_path p ++ NUL :: r)] w = Ok (tt, w1) /\
    tread TERM_BUF_SIZE w1 = Ok ((line_result l, if decide (l = []) then [] else l ++ [NUL]), w2) /\
    prints_to w w2 k p ((PROMPT_PRE ++ se_path p ++ PROMPT_POST) ++ o).
Proof using Hjunk.
  intros Hw Hrest Hedit. destruct (se_wdir w Hw) as (r & Hwd). rewrite Hrest in Hwd. cbn [snd] in Hwd. destruct (se_path_ok p) as [Hpn Hpl].
  destruct (print_ok w ((Char <$> PROMPT_PRE) ++ [Str (se_path p) r] ++ (Char <$> PROMPT_POST)) Hw) as (w1 & Hr1 & Hi1 & Ho1 & Hrest1).
  { rewrite !Forall_app, Forall_singleton. split_and!; [by apply (bool_decide_unpack _)|done|by apply (bool_decide_unpack _)]. }
  { change (render _) with (PROMPT_PRE ++ (se_path p ++ PROMPT_POST)). rewrite !length_app.
    change (length PROMPT_PRE) with 18%nat. change (length PROMPT_POST) with 7%nat. lia. }
  change (render _) with (PROMPT_PRE ++ (se_path p ++ PROMPT_POST)) in Ho1. rewrite Hrest in Hrest1. cbn [fst snd] in Hrest1.
  destruct (se_read w1 l k o Hi1) as (w2 & Hr2 & Hi2 & Ho2 & Hrest2); [by rewrite Hrest1|].
  exists r, w1, w2. split; [done|]. split; [exact Hr1|]. split; [exact Hr2|]. split; [done|]. split; [by rewrite Ho2, Ho1, <- app_assoc|by rewrite Hrest2, Hrest1].
Qed.

Lemma wp_shell_prompt n buf w keys p line keys' out : tw_inv w -> tw_rest w = (keys, p) -> length buf = 256%nat ->
  ask n (se_path p) keys = Some (line, keys', out) -> (length line < 256)%nat ->
  wp se_fatal (shell_prompt tw tread wdir junk n buf) w (fun buf' w' => holds buf' line /\ prints_to w w' keys' p out).
Proof using Hjunk.
  revert buf w keys out. induction n as [|n IH]; intros buf w keys out Hw Hrest Hbuf Hask Hlen; [done|]. cbn [ask] in Hask. cbn [shell_prompt].
  destruct (edit 511 [] keys) as [[[l k] o]|] eqn:Hedit; [|done].
  destruct (wp_prompt w keys p l k o Hw Hrest Hedit) as (r & w1 & w2 & Hwd & Hr1 & Hr2 & Hi2 & Hout & Hrest2).
  apply wp_bind. eapply wp_ok; [exact Hwd|]. apply wp_bind. eapply wp_ok; [exact Hr1|]. apply wp_bind. eapply wp_ok; [exact Hr2|]. cbv beta iota.
  destruct (decide (l = [])) as [->|Hl].
  - rewrite bool_decide_true by (cbn; lia). cbn [length drop app]. change (line_result [] =? 0) with true. cbv beta iota.
    destruct (ask n (se_path p) k) as [[[l' k'] o']|] eqn:Hask'; [|done]. injection Hask as <- <- <-.
    eapply wp_mono; [by apply (IH buf w2 k o')|]. intros buf' w' (Hb & Hi & Ho & Hr). split; [done|]. split_and!; [done| |done].
    by rewrite Ho, Hout, <- !app_assoc.
  - injection Hask as <- <- <-. rewrite length_app. cbn [length]. rewrite bool_decide_true by lia. cbv zeta.
    unfold line_result. rewrite decide_False by done. rewrite (proj2 (Z.eqb_neq _ 0)) by lia.
    apply wp_ret. split; [|by split_and!]. exists (drop (length l + 1) buf). split; [by rewrite <- app_assoc|].
    rewrite !length_app, length_drop. cbn [length]. lia.
Qed.

(** A line of 256 or more characters does not fit in [buf]. *)
Lemma shell_prompt_overruns n buf w keys p line keys' out : tw_inv w -> tw_rest w = (keys, p) -> length buf = 256%nat ->
  ask n (se_path p) keys = Some (line, keys', out) -> (256 <= length line)%nat ->
  overruns (shell_prompt tw tread wdir junk n buf) w.
Proof using Hjunk.
  revert buf w keys out. induction n as [|n IH]; intros buf w keys out Hw Hrest Hbuf Hask Hlen; [done|]. cbn [ask] in Hask. cbn [shell_prompt].
  destruct (edit 511 [] keys) as [[[l k] o]|] eqn:Hedit; [|done].
  destruct (wp_prompt w keys p l k o Hw Hrest Hedit) as (r & w1 & w2 & Hwd & Hr1 & Hr2 & Hi2 & _ & Hrest2).
  apply overruns_bind. eapply wp_ok; [exact Hwd|]. apply overruns_bind. eapply wp_ok; [exact Hr1|].
  apply overruns_bind. eapply wp_ok; [exact Hr2|]. cbv beta iota.
  destruct (decide (l = [])) as [->|Hl].
  - rewrite bool_decide_true by (cbn; lia). cbn [length drop app]. change (line_result [] =? 0) with true. cbv beta iota.
    destruct (ask n (se_path p) k) as [[[l' k'] o']|] eqn:Hask'; [|done]. injection Hask as <- <- _. eapply (IH buf w2 k o'); done.
  - injection Hask as <- _ _. rewrite length_app. cbn [length]. by rewrite bool_decide_false by lia.
Qed.

Lemma wp_shell_loop rounds n req buf line w keys p q keys' out : tw_inv w -> tw_rest w = (keys, p) -> holds buf line ->
  repl rounds n line p keys = Some (Session q keys' out) ->
  wp se_fatal (shell_loop tw tread send recv wdir junk rounds n req buf) w (fun _ w' => prints_to w w' keys' q out).
Proof using Hjunk.
  revert buf line w keys p out. induction rounds as [|rounds IH]; intros buf line w keys p out Hw Hrest Hbuf Hrepl; cbn [repl] in Hrepl; cbn [shell_loop].
  { injection Hrepl as <- <- <-. apply wp_ret. split_and!; [done|by rewrite app_nil_r|done]. }
  destruct (decide (line_ok line)) as [Hok|]; [|done].
  destruct Hbuf as (tail & -> & Hlen). apply wp_bind. eapply wp_mono; [by apply wp_shell_step|]. intros [] w1 (Hi1 & Ho1 & Hr1).
  destruct (eval_line line p) as [p1 o1]. cbn [fst snd] in *.
  destruct (ask n (se_path p1) keys) as [[[l k] o2]|] eqn:Hask; [|done].
  destruct (decide (length l < 256)%nat) as [Hl|]; [|done].
  destruct (repl rounds n l p1 k) as [[q' k' o3|]|] eqn:Hrec; [|done..]. injection Hrepl as <- <- <-.
  apply wp_bind. eapply wp_mono.
  { eapply wp_shell_prompt; [exact Hi1|exact Hr1|exact Hlen|exact Hask|exact Hl]. }
  intros buf' w2 (Hb & Hi2 & Ho2 & Hr2). eapply wp_mono; [by eapply IH|]. intros _ w3 (Hi3 & Ho3 & Hr3).
  split_and!; [done| |done]. by rewrite Ho3, Ho2, Ho1, <- !app_assoc.
Qed.

Lemma shell_loop_overruns rounds n req buf line w keys p : tw_inv w -> tw_rest w = (keys, p) -> holds buf line ->
  repl rounds n line p keys = Some Overrun -> overruns (shell_loop tw tread send recv wdir junk rounds n req buf) w.
Proof using Hjunk.
  revert buf line w keys p. induction rounds as [|rounds IH]; intros buf line w keys p Hw Hrest Hbuf Hrepl; cbn [repl] in Hrepl; cbn [shell_loop]; [done|].
  destruct (decide (line_ok line)) as [Hok|]; [|done].
  destruct Hbuf as (tail & -> & Hlen). apply overruns_bind. eapply wp_mono; [by apply wp_shell_step|]. intros [] w1 (Hi1 & _ & Hr1).
  destruct (eval_line line p) as [p1 o1]. cbn [fst snd] in *.
  destruct (ask n (se_path p1) keys) as [[[l k] o2]|] eqn:Hask; [|done].
  destruct (decide (length l < 256)%nat) as [Hl|Hl].
  - destruct (repl rounds n l p1 k) as [[q' k' o3|]|] eqn:Hrec; [done| |done]. apply overruns_bind. eapply wp_mono.
    { eapply wp_shell_prompt; [exact Hi1|exact Hr1|exact Hlen|exact Hask|exact Hl]. }
    intros buf' w2 (Hb & Hi2 & _ & Hr2). by eapply IH.
  - apply overruns_first. eapply shell_prompt_overruns; [exact Hi1|exact Hr1|exact Hlen|exact Hask|lia].
Qed.

Lemma wp_greeting w (Q : unit -> W -> Prop) : tw_inv w ->
  (forall w', tw_inv w' -> tw_rest w' = tw_rest w ->
     tw_out w' = tw_out w ++ CRITICAL_PREFIX ++ lit "Welcome to the egos-2000 shell!" ++ COLOR_SUFFIX -> Q tt w') ->
  wp se_fatal (CRITICAL tw junk (fmt "Welcome to the egos-2000 shell!") []) w Q.
Proof using Hjunk.
  intros Hw HQ. pose proof (log_spec tw CRITICAL_PREFIX COLOR_SUFFIX (text "Welcome to the egos-2000 shell!") [] junk w) as Hlog. cbv zeta in Hlog.
  rewrite decide_True in Hlog by (apply (bool_decide_unpack _); vm_compute; exact I).
  destruct Hlog as (w1 & Hr1 & Hi1 & Ho1 & Hx1); [by apply (bool_decide_unpack _)..|done|done|].
  eapply wp_ok; [exact Hr1|]. by apply HQ.
Qed.

End repl.

(** ** The terminal server's side, and two commands *)

(** [term_read] of an application, through the terminal server. *)
Definition app_term_read {S} (t : tty S) (fuel : nat) (sender : Z) (junk rest stale : list byte) (len : Z) : M S (Z * list byte) :=
  m ← handle_term_request t fuel sender (term_read_request len junk ++ rest);
  '(_, msg) ← mopt m;
  mlift (term_read_result (msg ++ stale)).

(** The world: the terminal, the working directory, and the messages for the shell. *)
Record world (S : Type) : Type := {
  w_tty : S;
  w_path : list byte;
  w_mail : list (list byte);
}.
Arguments w_tty {S} _.
Arguments w_path {S} _.
Arguments w_mail {S} _.

Section commands.
Context {S : Type} (t : tty S) `{!TtySpec t} (fuel : nat) (junk : list byte) (Hjunk : length junk = Z.to_nat TERM_BUF_SIZE).

Definition on_w_tty {A} (m : M S A) : M (world S) A := fun w =>
  match m (w_tty w) with
  | Ok (a, s) => Ok (a, {| w_tty := s; w_path := w_path w; w_mail := w_mail w |})
  | Fatal e => Fatal e
  | Stuck => Stuck
  | NoFuel => NoFuel
  end.
Definition c_write (str : list byte) (len : nat) : M (world S) unit := on_w_tty (app_term_write t fuel GPID_SHELL junk [] str len).
Definition c_read (len : Z) : M (world S) (Z * list byte) := on_w_tty (app_term_read t fuel GPID_SHELL junk [] [] len).
Definition c_wdir : M (world S) (list byte) := fun w => Ok (w_path w ++ [NUL], w).

(** Two commands: [cd] and [hello]. *)
Definition c_known (name : list byte) : bool := bool_decide (name = lit "cd" \/ name = lit "hello").
Definition c_run (ws : list (list byte)) (path : list byte) : list byte * list byte :=
  if decide (head ws = Some (lit "cd")) then (lit "/home/yunhao", []) else (path, lit "hello" ++ newline).

(** A process server that runs them at once and answers as [handle_proc_request]
    does. *)
Definition c_send (to : Z) (bytes : list byte) : M (world S) unit :=
  let req := proc_request_of bytes in
  if pr_type req =? PROC_SPAWN then
    row ← mopt (pr_argv req !! 0%nat);
    name ← mlift (cstr row);
    if c_known name then
      c ← mlift (last_arg_char req);
      w ← mget;
      let '(path, out) := c_run [name] (w_path w) in
      let mail := le_split 4 CMD_OK :: (if bool_decide (c = Byte.x26) then [] else [le_split 4 CMD_OK]) in
      mput {| w_tty := w_tty w; w_path := path; w_mail := w_mail w ++ mail |};;
      c_write out (length out)
    else mmodify (fun w => {| w_tty := w_tty w; w_path := w_path w; w_mail := w_mail w ++ [le_split 4 CMD_ERROR] |})
  else mret tt.
Definition c_recv (from : Z) : M (world S) (list byte) := fun w =>
  match w_mail w with
  | msg :: mail => Ok (msg, {| w_tty := w_tty w; w_path := w_path w; w_mail := mail |})
  | [] => Stuck
  end.

Definition path_ok (p : list byte) : Prop := no_nul p /\ (length p <= 400)%nat.
#[global] Instance path_ok_dec p : Decision (path_ok p).
Proof using Type. unfold path_ok, no_nul. apply _. Defined.

Definition world_ok (w : world S) : Prop :=
  tty_inv (w_tty w) /\ path_ok (w_path w) /\ w_mail w = [] /\ (length (typed (w_tty w)) <= fuel)%nat.

(** Writing, whatever messages wait. *)
Lemma c_write_ok w str tl : tty_inv (w_tty w) -> (length str <= Z.to_nat TERM_BUF_SIZE)%nat ->
  exists s, c_write (str ++ tl) (length str) w = Ok (tt, {| w_tty := s; w_path := w_path w; w_mail := w_mail w |}) /\
    tty_inv s /\ printed s = printed (w_tty w) ++ str /\ typed s = typed (w_tty w).
Proof using TtySpec0.
  intros Hw Hl. destruct (@tw_spec _ _ _ (app_writer t fuel GPID_SHELL junk []) (w_tty w) str tl Hw Hl) as (s & Hr & Hs & Ho & Hx).
  exists s. unfold c_write, on_w_tty. by rewrite Hr.
Qed.

#[local] Instance c_writer : TermWriter (R := list byte * list byte) c_write.
Proof using TtySpec0.
  refine {| tw_inv := world_ok; tw_out := fun w => printed (w_tty w); tw_rest := fun w => (typed (w_tty w), w_path w); tw_spec := _ |}.
  intros w str tl (Hw & Hp & Hm & Hf) Hl. destruct (c_write_ok w str tl Hw Hl) as (s & Hr & Hs & Ho & Hx).
  eexists. split; [exact Hr|]. split; [|split; [done|by cbn; rewrite Hx]]. unfold world_ok. cbn. rewrite Hx. by split_and!.
Defined.

Lemma c_read_ok w line keys out : world_ok w -> edit 511 [] (typed (w_tty w)) = Some (line, keys, out) ->
  exists w', c_read TERM_BUF_SIZE w = Ok ((line_result line, if decide (line = []) then [] else line ++ [NUL]), w') /\
    world_ok w' /\ printed (w_tty w') = printed (w_tty w) ++ out /\ typed (w_tty w') = keys /\ w_path w' = w_path w.
Proof using Hjunk.
  intros (Hw & Hp & Hm & Hf) He. pose proof (edit_shorter _ _ _ _ _ _ He) as Hsh.
  destruct (term_read_served t fuel (w_tty w) GPID_SHELL TERM_BUF_SIZE junk [] line keys out Hw) as (s & msg & Hr & Hs & Hk & Ho & Hres);
    [unfold TERM_BUF_SIZE; lia|by rewrite Hjunk|done|done|].
  eexists. split; [unfold c_read, on_w_tty, app_term_read; rewrite (mbind_ok _ _ _ _ _ Hr); rewrite (mbind_ok _ _ s (GPID_SHELL, msg) s) by done; rewrite Hres; reflexivity|].
  split; [|done]. unfold world_ok. cbn. rewrite Hk. split_and!; [done|done..|lia].
Qed.

Definition c_name (name : list byte) : bool := bool_decide (no_nul name /\ (length name < 32)%nat).
Definition c_path (p : list byte) : list byte := if decide (path_ok p) then p else [].

Lemma c_spawn_ok w name ws : world_ok w -> c_name name = true -> request_ok (spawn_request (name :: ws)) ->
  let ran w' := world_ok w' /\ printed (w_tty w') = printed (w_tty w) ++ (c_run (name :: ws) (w_path w)).2 /\
    (typed (w_tty w'), w_path w') = (typed (w_tty w), (c_run (name :: ws) (w_path w)).1) in
  wp (fun _ => False) (c_send GPID_PROCESS (proc_request_bytes (spawn_request (name :: ws)));; c_recv GPID_PROCESS) w (fun reply w' =>
    get32 reply 0 = (if c_known name then CMD_OK else CMD_ERROR) /\
    if c_known name then
      if foreground (name :: ws) then wp (fun _ => False) (c_recv GPID_PROCESS) w' (fun _ w'' => ran w'') else ran w'
    else world_ok w' /\ printed (w_tty w') = printed (w_tty w) /\ (typed (w_tty w'), w_path w') = (typed (w_tty w), w_path w)).
Proof using TtySpec0 Hjunk.
  intros (Hw & Hp & Hm & Hf) Hname Hreq ran. apply bool_decide_eq_true in Hname as [Hnn Hnl]. unfold c_send.
  pose proof (proc_request_roundtrip (spawn_request (name :: ws)) [] Hreq ltac:(done)) as Hrt. rewrite app_nil_r in Hrt. rewrite Hrt.
  change (pr_type (spawn_request (name :: ws)) =? PROC_SPAWN) with true. cbv beta iota zeta. apply wp_bind, wp_bind.
  eapply (wp_ok _ _ _ (arg_row name)); [reflexivity|]. apply wp_bind. eapply (wp_ok _ _ _ name).
  { unfold arg_row. change (Z.to_nat CMD_ARG_LEN) with 32%nat. replace (32 - length name)%nat with (Datatypes.S (31 - length name)) by lia.
    change (zeros (Datatypes.S (31 - length name))) with (NUL :: zeros (31 - length name)).
    unfold cstr. by rewrite strlen_app, take_app_length. }
  destruct (c_known name) eqn:Hk.
  - destruct (last_arg_foreground (name :: ws)) as (c & Hc & ->); [done|]. rewrite Hc. apply wp_bind, wp_ret.
    apply wp_bind. eapply wp_ok; [reflexivity|]. destruct (c_run [name] (w_path w)) as [path out] eqn:Hrun.
    assert (c_run (name :: ws) (w_path w) = (path, out)) as Hrun' by exact Hrun.
    assert (path_ok path /\ (length out <= Z.to_nat TERM_BUF_SIZE)%nat) as [Hpath Hout].
    { unfold c_run in Hrun. destruct (decide _); injection Hrun as <- <-; (split; [|apply (bool_decide_unpack _); vm_compute; exact I]).
      - apply (bool_decide_unpack _). vm_compute. exact I.
      - exact Hp. }
    apply wp_bind. eapply wp_ok; [reflexivity|]. set (w1 := Build_world _ _ _ _).
    destruct (c_write_ok w1 out [] Hw Hout) as (s & Hr & Hs & Ho & Hx). rewrite app_nil_r in Hr. eapply wp_ok; [exact Hr|].
    assert (forall w', w_tty w' = s -> w_path w' = path -> w_mail w' = [] -> ran w') as Hran.
    { intros w' H1 H2 H3. unfold ran, world_ok. rewrite Hrun', H1, H2, H3, Hx, Ho. by split_and!. }
    subst w1. cbn [w_mail w_path w_tty]. rewrite Hm. eapply wp_ok; [reflexivity|]. split; [done|].
    destruct (bool_decide (c = Byte.x26)); cbn [negb]; [by apply Hran|]. eapply wp_ok; [reflexivity|]. by apply Hran.
  - eapply wp_ok; [reflexivity|]. cbn [w_mail]. unfold wp, c_recv. cbn [w_mail]. rewrite Hm. cbn [app]. by split_and!.
Qed.

#[local] Instance c_env : ShellEnv (P := list byte) c_write c_read c_send c_recv c_wdir.
Proof using TtySpec0 Hjunk.
  refine {| se_writer := c_writer; se_fatal := fun _ => False; se_path := c_path; se_name := c_name; se_known := fun _ => c_known;
    se_run := c_run; se_killall := fun p => p |}.
  - intros p. unfold c_path. destruct (decide (path_ok p)) as [H|]; [exact H|]. split; [apply not_elem_of_nil|cbn; lia].
  - intros w (Hw & Hp & _). exists []. unfold c_wdir, c_path. cbn. by rewrite decide_True.
  - intros w line keys out Hw He. destruct (c_read_ok w line keys out Hw He) as (w' & Hr & Hi & Ho & Ht & Hp).
    exists w'. split; [exact Hr|]. split; [done|]. split; [done|]. cbn. by rewrite Ht, Hp.
  - intros w req (Hw & Hp) Hty. unfold c_send. cbn [proc_request_of pr_type]. unfold proc_request_bytes.
    rewrite get32_head, Hty. by apply wp_ret.
  - intros w name ws Hw Hn Hreq. by apply c_spawn_ok.
Defined.
End commands.


(** A line of 256 characters is accepted by [term_read] and overruns [buf]. *)
Lemma long_line_overruns :
  let w := {| w_tty := {| u_rx := replicate 256 Byte.x61 ++ [CR]; u_tx := [] |}; w_path := lit "/"; w_mail := [] |} in
  shell_main (c_write (t_tty QEMU) 999 (zeros 512)) (c_read (t_tty QEMU) 999 (zeros 512)) (c_send (t_tty QEMU) 999 (zeros 512)) c_recv c_wdir
    (zeros 512) 1 1 no_request w = Stuck.
Proof. vm_compute. reflexivity. Qed.
