(* ===== verification/Cd.v ===== *)
(** * cd: the working directory

    [apps/user/cd.c].  The working directory is an inode number and a path name
    in the page [SHELL_WORK_DIR], which the shell and the applications share; the
    path is to name the directory of the inode. *)

From stdpp Require Import options.
From coqutil Require Import Byte.
From S2P Require Import Prelude CString InodeStore Earth Tty Terminal Shell Dir Print UserApps.

Definition SLASH : byte := Byte.x2f.

(** ** app.h: [workdir_ino] and [workdir] *)
Record workdir : Type := {
  wd_ino : Z;
  wd_path : list byte;
}.

(** ** cd.c *)

(** [while (workdir[len] != '/') workdir[len--] = 0; if (len) workdir[len] = 0;] *)
Fixpoint up_loop (len : nat) (path : list byte) : outcome (list byte) :=
  match path !! len with
  | None => Stuck
  | Some c =>
    if bool_decide (c = SLASH) then Ok (if (len =? 0)%nat then path else <[len := NUL]> path)
    else match len with
         | O => Stuck
         | S n => up_loop n (<[len := NUL]> path)
         end
  end.

(** The path name after a change to [arg]. *)
Definition new_path (arg path : list byte) : outcome (list byte) :=
  match strlen path with
  | None => Stuck
  | Some len =>
    if strcmp_lit arg "../" then up_loop len path
    else
      match (if (1 <? len)%nat then strcat path [SLASH] else Ok path), strlen arg with
      | Ok path, Some n => strcat path (take (n - 1) arg)
      | _, _ => Stuck
      end
  end.

Section Cd.
Context {S : Type} (term_write : list byte -> nat -> M S unit) (file_read : Z -> Z -> M S (Z * block)).
Context (junk : list byte).

Definition cd (wd : workdir) (argc : Z) (argv : list (list byte)) : M S (Z * workdir) :=
  if argc =? 1 then
    home_ino ← dir_lookup file_read 0 (fmt "home/");
    ino ← dir_lookup file_read home_ino (fmt "yunhao/");
    path ← mlift (strcpy (wd_path wd) (lit "/home/yunhao"));
    mret (0, {| wd_ino := ino; wd_path := path |})
  else
    arg ← mopt (argv !! 1%nat);
    c ← mlift (last_char arg);
    arg ← (if negb (bool_decide (c = SLASH)) then mlift (strcat arg [SLASH]) else mret arg);
    dir_ino ← dir_lookup file_read (wd_ino wd) arg;
    if dir_ino =? -1 then
      INFO term_write junk (fmt "cd: directory %s not found") [AStr arg];;
      mret (-1, wd)
    else if strcmp_lit arg "./" then mret (0, {| wd_ino := dir_ino; wd_path := wd_path wd |})
    else
      path ← mlift (new_path arg (wd_path wd));
      mret (0, {| wd_ino := dir_ino; wd_path := path |}).
End Cd.

(** ** Paths *)

(** The path name of a list of components. *)
Definition path_body (cs : list (list byte)) : list byte := mbind (fun c => SLASH :: c) cs.
Definition path_str (cs : list (list byte)) : list byte :=
  if decide (cs = []) then [SLASH] else path_body cs.
Definition is_comp (c : list byte) : Prop := c <> [] /\ no_nul c /\ (SLASH ∉ c) /\ (SPC ∉ c).
#[global] Instance is_comp_dec c : Decision (is_comp c).
Proof. unfold is_comp, no_nul. apply _. Defined.

(** The directory that a path leads to, from a directory. *)
Fixpoint walk (dirs : Z -> option (list entry)) (ino : Z) (cs : list (list byte)) : option Z :=
  match cs with
  | [] => Some ino
  | c :: cs =>
    es ← dirs ino;
    let j := dir_find es (c ++ [SLASH]) in
    if decide (0 <= j) then walk dirs j cs else None
  end.

(** The components after [cd name/]. *)
Definition go (cs : list (list byte)) (w : list byte) : list (list byte) :=
  if decide (w = lit ".") then cs
  else if decide (w = lit "..") then removelast cs
  else cs ++ [w].

(** A tree of directories: [./] is the directory itself, [../] its parent (the
    root's is the root), and the name of a directory ends with its only slash. *)
Record tree_ok (dirs : Z -> option (list entry)) : Prop := {
  tr_entries ino es : dirs ino = Some es -> Forall entry_ok es;
  tr_len ino es : dirs ino = Some es -> (15 <= length (print_dir es))%nat;
  tr_self ino es : dirs ino = Some es -> dir_find es (lit "./") = ino;
  tr_root : exists es, dirs 0 = Some es /\ dir_find es (lit "../") = 0;
  tr_child ino es w : dirs ino = Some es -> w <> lit "." -> w <> lit ".." ->
    0 <= dir_find es (w ++ [SLASH]) ->
    is_comp w /\ exists es', dirs (dir_find es (w ++ [SLASH])) = Some es' /\ dir_find es' (lit "../") = ino;
}.

(** The working directory: its path is absolute and leads to its inode. *)
Definition wd_at (dirs : Z -> option (list entry)) (cs : list (list byte)) (wd : workdir) : Prop :=
  Forall is_comp cs /\ Forall (fun c => c <> lit "." /\ c <> lit "..") cs /\
  walk dirs 0 cs = Some (wd_ino wd) /\ exists tl, wd_path wd = path_str cs ++ NUL :: tl.

Lemma walk_app dirs ino cs c : walk dirs ino (cs ++ c) = walk dirs ino cs ≫= (fun j => walk dirs j c).
Proof.
  revert ino. induction cs as [|x cs IH]; intros ino; [done|]. cbn [app walk].
  destruct (dirs ino) as [es|]; [|done]. cbn [mbind option_bind]. case_decide; [apply IH|done].
Qed.

(** A path leads to a directory. *)
Lemma walk_dir dirs cs ino : tree_ok dirs -> Forall (fun c => c <> lit "." /\ c <> lit "..") cs ->
  walk dirs 0 cs = Some ino -> exists es, dirs ino = Some es.
Proof.
  intros Ht Hcs. destruct cs as [|c cs _] using rev_ind.
  { intros [= <-]. destruct (tr_root _ Ht) as (es & Hes & _). by exists es. }
  rewrite walk_app. intros (j & Hj & Hw)%bind_Some. cbn [walk] in Hw.
  apply bind_Some in Hw as (es & Hes & Hw). case_decide as Hpos; [|done]. injection Hw as <-.
  apply Forall_app in Hcs as [_ [[? ?] _]%Forall_cons].
  destruct (tr_child _ Ht j es c) as (_ & es' & He & _); [done..|]. by exists es'.
Qed.

(** Going up. *)
Lemma walk_parent dirs cs ino es : tree_ok dirs -> Forall (fun c => c <> lit "." /\ c <> lit "..") cs ->
  walk dirs 0 cs = Some ino -> dirs ino = Some es -> walk dirs 0 (removelast cs) = Some (dir_find es (lit "../")).
Proof.
  intros Ht Hcs. destruct cs as [|c cs _] using rev_ind.
  { intros [= <-] Hes. destruct (tr_root _ Ht) as (es0 & He & Hr). rewrite He in Hes. injection Hes as <-. by rewrite Hr. }
  rewrite walk_app, removelast_last. intros (j & Hj & Hw)%bind_Some Hes. cbn [walk] in Hw.
  apply bind_Some in Hw as (es0 & He0 & Hw). case_decide; [|done]. injection Hw as <-.
  apply Forall_app in Hcs as [_ [[? ?] _]%Forall_cons].
  destruct (tr_child _ Ht j es0 c) as (_ & es' & He & Hup); [done..|]. rewrite Hj. congruence.
Qed.

(** ** The path name *)
Lemma path_body_snoc cs c : path_body (cs ++ [c]) = path_body cs ++ SLASH :: c.
Proof. unfold path_body. rewrite bind_app. cbn. by rewrite app_nil_r. Qed.

Lemma path_body_nil cs : path_body cs = [] -> cs = [].
Proof. by destruct cs. Qed.

Lemma path_str_snoc cs c : path_str (cs ++ [c]) = path_body cs ++ SLASH :: c.
Proof. unfold path_str. rewrite decide_False by (by destruct cs). apply path_body_snoc. Qed.

Lemma path_no_nul cs : Forall is_comp cs -> no_nul (path_str cs).
Proof.
  intros Hcs. assert (no_nul (path_body cs)) as Hb.
  { induction Hcs as [|c cs (_ & Hc & _) _ IH]; [apply not_elem_of_nil|]. unfold path_body. rewrite bind_cons.
    apply (no_nul_app (SLASH :: c)). split; [|exact IH]. by apply no_nul_cons. }
  unfold path_str. case_decide; [|done]. apply no_nul_cons. split; [done|apply not_elem_of_nil].
Qed.

Lemma up_loop_slash n path : path !! n = Some SLASH -> up_loop n path = Ok (if (n =? 0)%nat then path else <[n := NUL]> path).
Proof. intros Hl. destruct n; cbn [up_loop]; rewrite Hl; by rewrite bool_decide_true. Qed.

Lemma up_loop_spec a m tl : SLASH ∉ m ->
  up_loop (length a + length m) (a ++ SLASH :: m ++ tl) =
  Ok (a ++ (if decide (a = []) then SLASH else NUL) :: zeros (length m) ++ tl).
Proof.
  revert tl. induction m as [|x m IH] using rev_ind; intros tl Hm.
  - cbn [length]. rewrite Nat.add_0_r.
    assert ((a ++ SLASH :: [] ++ tl) !! length a = Some SLASH) as Hl by (by apply list_lookup_middle).
    rewrite (up_loop_slash _ _ Hl). destruct a as [|y a]; [done|]. cbn [length Nat.eqb]. rewrite decide_False by done. f_equal.
    change (S (length a)) with (length (y :: a)). rewrite insert_app_r_alt by lia. by rewrite Nat.sub_diag.
  - apply not_elem_of_app in Hm as [Hm Hx]. rewrite length_app. cbn [length]. rewrite Nat.add_1_r, Nat.add_succ_r. cbn [up_loop].
    assert (a ++ SLASH :: (m ++ [x]) ++ tl = (a ++ SLASH :: m) ++ x :: tl) as -> by (by rewrite <- !app_assoc).
    assert (S (length a + length m) = length (a ++ SLASH :: m)) as Hlen by (rewrite length_app; cbn; lia). rewrite Hlen.
    rewrite list_lookup_middle by done. rewrite bool_decide_false by (intros ->; by apply Hx, list_elem_of_singleton).
    rewrite insert_app_r_alt, Nat.sub_diag by lia. cbn [insert list_insert]. rewrite <- app_assoc. cbn [app].
    rewrite IH by done. f_equal. f_equal. f_equal. unfold zeros. rewrite replicate_S_end, <- app_assoc. done.
Qed.

Lemma new_path_up cs r tl : Forall is_comp cs -> exists tl',
  new_path (lit "../" ++ NUL :: r) (path_str cs ++ NUL :: tl) = Ok (path_str (removelast cs) ++ NUL :: tl').
Proof.
  intros Hcs. unfold new_path. rewrite strlen_app by (by apply path_no_nul).
  change (strcmp_lit (lit "../" ++ NUL :: r) "../") with true. cbv beta iota.
  destruct cs as [|c cs _] using rev_ind.
  - exists tl. reflexivity.
  - rewrite removelast_last, path_str_snoc. apply Forall_app in Hcs as [_ [(Hc & Hn & Hsl & _) _]%Forall_cons].
    pose proof (up_loop_spec (path_body cs) (c ++ [NUL]) tl) as H. rewrite <- !app_assoc in H. cbn [app] in H.
    rewrite <- app_assoc. cbn [app]. replace (length (path_body cs ++ SLASH :: c)) with (length (path_body cs) + length (c ++ [NUL]))%nat
      by (rewrite !length_app; cbn [length]; lia).
    rewrite H by (rewrite not_elem_of_app, list_elem_of_singleton; done). unfold path_str.
    destruct (decide (path_body cs = [])) as [He|He].
    + rewrite (path_body_nil _ He). rewrite decide_True by done. rewrite length_app, Nat.add_1_r. by eexists.
    + rewrite decide_False by (by intros ->). by eexists.
Qed.

Lemma new_path_down cs c r tl : Forall is_comp cs -> is_comp c -> c <> lit ".." ->
  (length (path_str cs) + length c + 1 <= length (path_str cs ++ NUL :: tl) - 1)%nat -> exists tl',
  new_path (c ++ SLASH :: NUL :: r) (path_str cs ++ NUL :: tl) = Ok (path_str (cs ++ [c]) ++ NUL :: tl').
Proof.
  intros Hcs (Hc & Hcn & Hsl & _) Hdots Hroom. unfold new_path. pose proof (path_no_nul cs Hcs) as Hp.
  rewrite strlen_app by done. rewrite length_app in Hroom. cbn [length] in Hroom.
  assert (strcmp_lit (c ++ SLASH :: NUL :: r) "../" = false) as ->.
  { apply bool_decide_false. intros Heq. change (length (lit "../" ++ [NUL])) with 4%nat in Heq.
    unfold SLASH in *. destruct c as [|x [|y [|z c]]]; [done|discriminate Heq|..]; cbn in Heq.
    - injection Heq as -> ->. done.
    - injection Heq as _ _ -> _. rewrite !not_elem_of_cons in Hsl. tauto. }
  assert (strlen (c ++ SLASH :: NUL :: r) = Some (length c + 1)%nat) as ->.
  { change (c ++ SLASH :: NUL :: r) with (c ++ [SLASH] ++ NUL :: r). rewrite app_assoc, strlen_app, length_app; [done|].
    apply no_nul_app. split; [done|]. apply no_nul_cons. split; [done|apply not_elem_of_nil]. }
  replace (length c + 1 - 1)%nat with (length c) by lia. rewrite take_app_length.
  rewrite path_str_snoc. destruct cs as [|x cs].
  - change (1 <? length (path_str []))%nat with false. cbv beta iota. rewrite strcat_app by done.
    rewrite bool_decide_true by (cbn in Hroom; lia). by eexists.
  - assert (1 < length (path_str (x :: cs)))%nat as Hl.
    { unfold path_str. rewrite decide_False by done. unfold path_body. rewrite bind_cons, length_app.
      apply Forall_cons in Hcs as [(Hx & _) _]. destruct x; [done|]. cbn. lia. }
    rewrite (proj2 (Nat.ltb_lt _ _)) by done. rewrite strcat_app by done. cbn [length]. rewrite bool_decide_true by lia.
    rewrite strcat_app by (apply no_nul_app; split; [done|by apply no_nul_cons; split; [|apply not_elem_of_nil]]).
    rewrite bool_decide_true by (rewrite length_drop; lia). eexists. f_equal.
    unfold path_str. rewrite decide_False by done. by rewrite <- !app_assoc.
Qed.

(** ** The command *)
Lemma dir_find_range es n : Forall entry_ok es -> dir_find es n = -1 \/ 0 <= dir_find es n.
Proof.
  intros Hes. unfold dir_find. destruct (list_find _ es) as [[i e]|] eqn:Hf; [|by left]. right.
  apply list_find_Some in Hf as (Hi & _). eapply Forall_lookup_1 in Hes; [|exact Hi]. apply Hes.
Qed.

(** The argument with a slash at its end. *)
Definition with_slash (w : list byte) : list byte := if decide (last w = Some SLASH) then w else w ++ [SLASH].

Lemma with_slash_split w : exists w', with_slash w = w' ++ [SLASH].
Proof.
  unfold with_slash. case_decide as Hl; [|by exists w]. destruct w as [|x w _] using rev_ind; [done|].
  rewrite last_snoc in Hl. injection Hl as ->. by exists w.
Qed.

Lemma with_slash_name w : is_name w -> is_name (with_slash w) /\ not_number (with_slash w).
Proof.
  intros (Hne & Hn & Hs). split.
  - unfold with_slash. case_decide; [done|]. split; [by destruct w|]. split.
    + apply no_nul_app. split; [done|]. by apply no_nul_cons; split; [|apply not_elem_of_nil].
    + rewrite not_elem_of_app, list_elem_of_singleton. done.
  - destruct (with_slash_split w) as [w' ->]. unfold not_number. rewrite forallb_app. cbn. apply andb_false_r.
Qed.

Section spec.
Context {S : Type} (tw : list byte -> nat -> M S unit) (fread : Z -> Z -> M S (Z * block)) `{!AppEnv tw fread}.
Context (dirs : Z -> option (list entry)) (Htree : tree_ok dirs).

(** The directories are on the disk. *)
Definition on_disk (s : S) : Prop :=
  forall ino es, dirs ino = Some es -> exists b, tw_rest s ino = Some b /\ is_dir b es.

(** The statements that append the slash. *)
Lemma add_slash_ok w x r s : is_name w -> exists r',
  (c ← mlift (last_char (w ++ NUL :: x :: r));
   (if negb (bool_decide (c = SLASH)) then mlift (strcat (w ++ NUL :: x :: r) [SLASH]) else mret (w ++ NUL :: x :: r)) : M S (list byte)) s
  = Ok (with_slash w ++ NUL :: r', s).
Proof using Type.
  intros (Hne & Hn & _). destruct (last_char_ok w (x :: r) Hn Hne) as (c & Hl & Hc). rewrite Hc.
  rewrite (mbind_ok _ _ s c s) by done. unfold with_slash. rewrite Hl. case_bool_decide as Hs; cbn [negb].
  - subst c. rewrite decide_True by done. by exists (x :: r).
  - rewrite decide_False by congruence. rewrite strcat_app by done. rewrite bool_decide_true by (cbn; lia).
    cbn [length drop]. by exists r.
Qed.

(** The new working directory, when the name was found. *)
Lemma cd_moves cs wd es w r s : wd_at dirs cs wd -> dirs (wd_ino wd) = Some es -> 0 <= dir_find es (w ++ [SLASH]) ->
  (length (path_str cs) + length w + 2 <= length (wd_path wd))%nat -> exists wd',
  (if strcmp_lit ((w ++ [SLASH]) ++ NUL :: r) "./" then mret (0, {| wd_ino := dir_find es (w ++ [SLASH]); wd_path := wd_path wd |})
   else path ← mlift (new_path ((w ++ [SLASH]) ++ NUL :: r) (wd_path wd));
     mret (0, {| wd_ino := dir_find es (w ++ [SLASH]); wd_path := path |}) : M S (Z * workdir)) s = Ok ((0, wd'), s) /\
  wd_at dirs (go cs w) wd'.
Proof using Htree.
  intros (Hcs & Hnd & Hwalk & tl & Hpath) Hes Hj Hroom. unfold go. rewrite <- app_assoc. cbn [app].
  destruct (decide (w = lit ".")) as [->|Hdot].
  { change (strcmp_lit (lit "." ++ SLASH :: NUL :: r) "./") with true. cbv beta iota. eexists. split; [reflexivity|].
    split_and!; [done|done| |by exists tl]. cbn [wd_ino]. change (lit "." ++ [SLASH]) with (lit "./").
    by rewrite (tr_self _ Htree _ _ Hes). }
  destruct (decide (w = lit "..")) as [->|Hdots].
  { change (strcmp_lit (lit ".." ++ SLASH :: NUL :: r) "./") with false. cbv beta iota. rewrite Hpath.
    destruct (new_path_up cs r tl Hcs) as [tl' Hup]. change (lit ".." ++ SLASH :: NUL :: r) with (lit "../" ++ NUL :: r).
    rewrite Hup. eexists. split; [reflexivity|]. split_and!; [| |by eapply walk_parent|by exists tl'];
      destruct cs as [|c cs _] using rev_ind; rewrite ?removelast_last; try done;
      [by apply Forall_app in Hcs as [? _]|by apply Forall_app in Hnd as [? _]]. }
  destruct (tr_child _ Htree _ _ _ Hes Hdot Hdots Hj) as (Hw & _).
  assert (strcmp_lit (w ++ SLASH :: NUL :: r) "./" = false) as ->.
  { apply bool_decide_false. change (length (lit "./" ++ [NUL])) with 3%nat. intros Heq. destruct Hw as (Hw & _ & Hsl & _).
    unfold SLASH in *. destruct w as [|x [|y w]]; [done|..]; cbn in Heq.
    - by injection Heq as ->.
    - injection Heq as _ -> _. rewrite !not_elem_of_cons in Hsl. tauto. }
  rewrite Hpath in *. destruct (new_path_down cs w r tl Hcs Hw Hdots ltac:(lia)) as [tl' ->].
  eexists. split; [reflexivity|]. split_and!; [by apply Forall_app; split; [|constructor]|by apply Forall_app; split; [|constructor]| |by exists tl'].
  rewrite walk_app, Hwalk. cbn [mbind option_bind walk wd_ino]. rewrite Hes. cbn [mbind option_bind]. by rewrite decide_True.
Qed.

Context (junk : list byte) (Hjunk : length junk = Z.to_nat TERM_BUF_SIZE).

(** What [cd] of a name does. *)
Lemma cd_ok cs wd es argv0 w w' x r s : tw_inv s -> on_disk s -> wd_at dirs cs wd -> dirs (wd_ino wd) = Some es ->
  is_name w -> with_slash w = w' ++ [SLASH] -> (length (with_slash w) <= length (print_dir es))%nat -> (length w <= 32)%nat ->
  (length (path_str cs) + length w' + 2 <= length (wd_path wd))%nat ->
  exists res wd' s', cd tw fread junk wd 2 [argv0; w ++ NUL :: x :: r] s = Ok ((res, wd'), s') /\
    if decide (dir_find es (w' ++ [SLASH]) = -1)
    then res = -1 /\ wd' = wd /\ prints tw fread s s' (not_found "cd: directory " (w' ++ [SLASH]))
    else res = 0 /\ wd_at dirs (go cs w') wd' /\ prints tw fread s s' [].
Proof using Hjunk Htree.
  intros Hs Hdisk Hwd Hes Hw Hw' Hlen H32 Hroom. unfold cd. change (2 =? 1) with false. cbv beta iota.
  cbn [lookup list_lookup mopt]. rewrite (mbind_ok _ _ s (w ++ NUL :: x :: r) s) by done.
  destruct (add_slash_ok w x r s Hw) as [r' Hadd]. destruct (with_slash_name w Hw) as [Hn Hnum].
  destruct (last_char_ok w (x :: r)) as (c & _ & Hc); [apply Hw|apply Hw|]. rewrite Hc in *.
  rewrite (mbind_ok _ _ s c s) in Hadd by done. rewrite (mbind_ok _ _ s c s) by done. rewrite (mbind_ok _ _ _ _ _ Hadd).
  destruct (Hdisk _ _ Hes) as (b & Hb & Hdir). pose proof (tr_entries _ Htree _ _ Hes) as Hok.
  destruct (lookup_ok tw fread (wd_ino wd) b es (with_slash w) r' s Hs Hb Hdir Hok Hn Hnum Hlen) as (s1 & H1 & Hp1).
  rewrite (mbind_ok _ _ _ _ _ H1). rewrite Hw'. destruct (decide (dir_find es (w' ++ [SLASH]) = -1)) as [Hj|Hj].
  - rewrite (proj2 (Z.eqb_eq _ _)) by done.
    destruct (info_str tw fread junk Hjunk s1 ((w' ++ [SLASH]) ++ NUL :: r') (w' ++ [SLASH]) (text "cd: directory ") (text " not found")) as (s2 & H2 & Hp2).
    + apply Hp1.
    + split; [rewrite <- Hw'; apply Hn|by exists r'].
    + by apply (bool_decide_unpack _).
    + by apply (bool_decide_unpack _).
    + done.
    + done.
    + assert (length (w' ++ [SLASH]) <= 33)%nat by (rewrite <- Hw'; unfold with_slash; destruct (decide (last w = Some SLASH)); rewrite ?length_app; cbn [length]; lia).
      rewrite !render_text, !length_app. change (length (lit "cd: directory ")) with 14%nat. change (length (lit " not found")) with 10%nat.
      rewrite length_app in *. lia.
    + rewrite !fmt_of_text in H2. change (fmt "cd: directory %s not found") with
        (lit "cd: directory " ++ lit "%s" ++ lit " not found" ++ [NUL]). rewrite (mbind_ok _ _ _ _ _ H2).
      exists (-1), wd, s2. split; [done|]. split_and!; [done|done|]. rewrite !render_text in Hp2.
      exact (prints_trans tw fread _ _ _ [] _ Hp1 Hp2).
  - rewrite (proj2 (Z.eqb_neq _ _)) by done. destruct (dir_find_range es (w' ++ [SLASH]) Hok) as [?|Hpos]; [done|].
    destruct (cd_moves cs wd es w' r' s1 Hwd Hes Hpos Hroom) as (wd' & H2 & Hwd'). exists 0, wd', s1. split; [exact H2|]. done.
Qed.

(** Without an argument, [cd] goes to the home directory. *)
Definition home : list (list byte) := [lit "home"; lit "yunhao"].

Lemma cd_home wd argv ino s : tw_inv s -> on_disk s -> walk dirs 0 home = Some ino -> (12 < length (wd_path wd))%nat ->
  exists wd' s', cd tw fread junk wd 1 argv s = Ok ((0, wd'), s') /\ wd_at dirs home wd' /\ prints tw fread s s' [].
Proof using Hjunk Htree.
  intros Hs Hdisk Hwalk Hroom. unfold cd. change (1 =? 1) with true. cbv beta iota.
  pose proof Hwalk as Hw. unfold home in Hw. cbn [walk] in Hw.
  destruct (tr_root _ Htree) as (es0 & He0 & _). rewrite He0 in Hw. cbn [mbind option_bind] in Hw.
  change (lit "home" ++ [SLASH]) with (lit "home/") in Hw. change (lit "yunhao" ++ [SLASH]) with (lit "yunhao/") in Hw.
  destruct (decide (0 <= dir_find es0 (lit "home/"))) as [Hh|]; [|done].
  apply bind_Some in Hw as (es1 & He1 & Hw).
  destruct (decide (0 <= dir_find es1 (lit "yunhao/"))) as [Hy|]; [|done]. injection Hw as Hino.
  destruct (Hdisk _ _ He0) as (b0 & Hb0 & Hd0). pose proof (tr_len _ Htree _ _ He0). pose proof (tr_len _ Htree _ _ He1).
  destruct (lookup_ok tw fread 0 b0 es0 (lit "home/") [] s Hs Hb0 Hd0) as (s1 & H1 & Hp1);
    [by eapply tr_entries|by apply (bool_decide_unpack _)|done|cbn; lia|].
  change (fmt "home/") with (lit "home/" ++ [NUL]). rewrite (mbind_ok _ _ _ _ _ H1).
  destruct Hp1 as (Hs1 & Ho1 & Hf1). destruct (Hdisk _ _ He1) as (b1 & Hb1 & Hd1). rewrite <- Hf1 in Hb1.
  destruct (lookup_ok tw fread _ b1 es1 (lit "yunhao/") [] s1 Hs1 Hb1 Hd1) as (s2 & H2 & Hp2);
    [by eapply tr_entries|by apply (bool_decide_unpack _)|done|cbn; lia|].
  change (fmt "yunhao/") with (lit "yunhao/" ++ [NUL]). rewrite (mbind_ok _ _ _ _ _ H2).
  unfold strcpy. change (length (lit "/home/yunhao")) with 12%nat. rewrite bool_decide_true by done.
  eexists _, s2. split; [reflexivity|]. split.
  - split_and!; [by apply (bool_decide_unpack _)|by apply (bool_decide_unpack _)| |by eexists].
    rewrite Hwalk. cbn [wd_ino]. by f_equal.
  - assert (prints tw fread s s1 []) as Hp1 by done. exact (prints_trans tw fread _ _ _ [] [] Hp1 Hp2).
Qed.

(** C28: the working directory.  As long as the path fits in its page, [cd] keeps
    the path name and the inode of the working directory together: if the path
    leads to the inode in the tree of directories, it still does after [cd] of
    any name, and is the path that the name says ([.] and [..] included);
    a name that is not a directory changes nothing and prints a message; without
    an argument the path is the home directory's. *)
Theorem cd_correct (cs : list (list byte)) (wd : workdir) (es : list entry) (argv0 w w' : list byte) (x : byte) (r : list byte) (s : S) :
  tw_inv s -> on_disk s -> wd_at dirs cs wd -> dirs (wd_ino wd) = Some es -> is_name w -> with_slash w = w' ++ [SLASH] ->
  (length (with_slash w) <= length (print_dir es))%nat -> (length w <= 32)%nat ->
  (length (path_str cs) + length w' + 2 <= length (wd_path wd))%nat -> (12 < length (wd_path wd))%nat ->
  (exists res wd' s', cd tw fread junk wd 2 [argv0; w ++ NUL :: x :: r] s = Ok ((res, wd'), s') /\
    if decide (dir_find es (w' ++ [SLASH]) = -1)
    then res = -1 /\ wd' = wd /\ prints tw fread s s' (not_found "cd: directory " (w' ++ [SLASH]))
    else res = 0 /\ wd_at dirs (go cs w') wd' /\ prints tw fread s s' []) /\
  (forall ino, walk dirs 0 home = Some ino ->
    exists wd' s', cd tw fread junk wd 1 [argv0] s = Ok ((0, wd'), s') /\ wd_at dirs home wd' /\ prints tw fread s s' []).
Proof using Hjunk Htree.
  intros Hs Hdisk Hwd Hes Hw Hw' Hlen H32 Hroom Hp. split; [by eapply cd_ok|]. intros ino Hh. by eapply cd_home.
Qed.
End spec.
