(* ===== verification/Mkfs.v ===== *)
(** * mkfs

    [tools/mkfs.c]: the program that builds the disk image.  The files of the
    host are inputs: the binaries of the kernel and of the servers, the directory
    of user programs in the order of [readdir], and the FPGA binary.  The state
    has the arrays [inode] and [bin_dir] and the ramdisk [fs], which the file
    system of the files [Treedisk] and [Mydisk] is created in. *)

From stdpp Require Import options.
From coqutil Require Import Byte.
From S2P Require Import Prelude CString InodeStore Treedisk TreediskSpec TreediskRead TreediskWrite TreediskProps Mydisk Dir.

(** ** The directories and files that the image always has *)
Definition README_TEXT : list byte := lit (
  "With only 2000 lines of code, egos-2000 implements boot loader, SD card " +:+
  "driver, tty driver, virtual memory with page tables, interrupt and " +:+
  "exception handling, preemptive scheduler, system call, file system, " +:+
  "shell, an Ethernet/UDP demo, several user commands, and the mkfs tool. " +:+
  "Moreover, the EGOS book (https://egos.fun) contains 9 course projects.").

(** [contents] without its last element, which is [bin_dir]. *)
Definition contents : list (list byte) :=
  [lit "./   0 ../   0 home/   1 bin/   6 ";
   lit "./   1 ../   0 yunhao/   2 rvr/   3 yacqub/   4 ";
   lit "./   2 ../   1 README   5 ";
   lit "./   3 ../   1 ";
   lit "./   4 ../   1 ";
   README_TEXT].
Definition BIN_DIR_INODE : Z := 6.
(** [char bin_dir[256]]: the rest is null. *)
Definition bin_dir_init : list byte := lit "./   6 ../   0 " ++ zeros (256 - 15).

(** ** load_file *)

(** [p + n] of an object and writing there. *)
Definition overwrite (dst : list byte) (at_ : nat) (bs : list byte) : list byte :=
  take at_ dst ++ bs ++ drop (at_ + length bs) dst.

(** [read] on the host at position [pos] returns [rd pos n] of the [n] bytes that
    are asked for. *)
Section Host.
Context (rd : nat -> nat -> nat).

Fixpoint load_loop (fuel : nat) (file : list byte) (nread : nat) (dst : list byte) : outcome (list byte) :=
  if (nread <? length file)%nat then
    match fuel with
    | O => NoFuel
    | S fuel =>
      let bs := take (rd nread (length file - nread)) (drop nread file) in
      if bool_decide (nread + length bs <= length dst)%nat
      then load_loop fuel file (nread + length bs) (overwrite dst nread bs)
      else Stuck
    end
  else Ok dst.
(** The size of the file and what [dst] holds. *)
Definition load_file (file dst : list byte) : outcome (Z * list byte) :=
  match load_loop (length file) file 0 dst with
  | Ok dst => Ok (Z.of_nat (length file), dst)
  | Fatal e => Fatal e
  | Stuck => Stuck
  | NoFuel => NoFuel
  end.

(** ** main *)
Record mk : Type := {
  m_inode : list byte;
  m_bin_dir : list byte;
  m_fs : list block;
}.
Definition set_inode (s : mk) (v : list byte) : mk := {| m_inode := v; m_bin_dir := m_bin_dir s; m_fs := m_fs s |}.
Definition set_bin_dir (s : mk) (v : list byte) : mk := {| m_inode := m_inode s; m_bin_dir := v; m_fs := m_fs s |}.

(** An operation of the file system on the ramdisk. *)
Definition fs_call {A} (m : M (list block) A) : M mk A := fun s =>
  match m (m_fs s) with
  | Ok (a, fs) => Ok (a, {| m_inode := m_inode s; m_bin_dir := m_bin_dir s; m_fs := fs |})
  | Fatal e => Fatal e
  | Stuck => Stuck
  | NoFuel => NoFuel
  end.

(** The loop that fills [exec], from the [i]-th binary. *)
Fixpoint load_bins (bins : list (list byte)) (i : nat) (exec : list byte) : outcome (list byte) :=
  match bins with
  | [] => Ok exec
  | b :: bins =>
    let at_ := (i * Z.to_nat EGOS_BIN_MAX_NBYTE)%nat in
    match load_file b (drop at_ exec) with
    | Ok (_, r) => load_bins bins (S i) (take at_ exec ++ r)
    | Fatal e => Fatal e
    | Stuck => Stuck
    | NoFuel => NoFuel
    end
  end.

(** [assert(..._create(&ramdisk, 0, NINODES) >= 0)] and [..._init]. *)
Definition make_filesys (FILESYS : Z) : M mk (inode_store (list block)) :=
  r ← fs_call (if FILESYS =? 0 then mydisk_create 0 NINODES else treedisk_create Ramdisk.ramdisk 0 NINODES);
  panic_if (negb (0 <=? r)) "assert";;
  if FILESYS =? 0 then mret (mydisk_init Ramdisk.ramdisk 0)
  else '(log_rpb, ts) ← mlift (treedisk_init 0 0); mret (treedisk_store Ramdisk.ramdisk log_rpb ts).

Section Main.
Context (filesys : inode_store (list block)).

(** [filesys->write(filesys, ino, b, inode + b * BLOCK_SIZE)] *)
Definition write_inode_block (ino : Z) (b : nat) : M mk Z :=
  s ← mget;
  let blk := take (Z.to_nat BLOCK_SIZE) (drop (b * Z.to_nat BLOCK_SIZE) (m_inode s)) in
  if bool_decide (is_block blk) then fs_call (write filesys ino (Z.of_nat b) blk) else mstuck.

(** The loop over [contents] from [ino]; [strncpy] pads with null bytes. *)
Fixpoint write_contents (cs : list (list byte)) (ino : Z) : M mk unit :=
  match cs with
  | [] => mret tt
  | c :: cs =>
    mmodify (fun s => set_inode s (overwrite (m_inode s) 0
      (take (Z.to_nat BLOCK_SIZE) (c ++ zeros (Z.to_nat BLOCK_SIZE)))));;
    write_inode_block ino 0;;
    write_contents cs (ino + 1)
  end.

(** The loop over the blocks of an application, from [b]. *)
Fixpoint write_blocks (fuel : nat) (ino : Z) (b : nat) (size : Z) : M mk unit :=
  if Z.of_nat b * BLOCK_SIZE <? size then
    match fuel with
    | O => mnofuel
    | S fuel => write_inode_block ino b;; write_blocks fuel ino (S b) size
    end
  else mret tt.

(** [strstr(d_name, ".elf")] *)
Definition has_elf (d_name : list byte) : bool :=
  existsb (fun i => starts_with (lit ".elf") (drop i d_name)) (seq 0 (length d_name)).
(** [d_name[strlen(d_name) - 4] = 0] *)
Definition app_name (d_name : list byte) : list byte := take (length d_name - 4) d_name.

(** [sprintf(tmp, ...)] into the 512 characters of [tmp]. *)
Definition sprintf_tmp (s : list byte) : outcome (list byte) :=
  if bool_decide (length s < 512)%nat then Ok s else Stuck.

(** The loop over the directory of user programs. *)
Fixpoint write_apps (users : list (list byte * list byte)) (app_ino : Z) : M mk Z :=
  match users with
  | [] => mret app_ino
  | (d_name, file) :: users =>
    if has_elf d_name then
      mlift (sprintf_tmp (lit "../build/release/user/" ++ d_name));;
      s ← mget;
      '(file_size, v) ← mlift (load_file file (m_inode s));
      mput (set_inode s v);;
      write_blocks (length file) app_ino 0 file_size;;
      tmp ← mlift (sprintf_tmp (print_entry {| e_name := app_name d_name; e_ino := app_ino |}));
      s ← mget;
      v ← mlift (strcat (m_bin_dir s) tmp);
      mput (set_bin_dir s v);;
      write_apps users (app_ino + 1)
    else write_apps users app_ino
  end.

(** The last write reads a block from [bin_dir], which has 256 bytes: [beyond] is
    what follows it in memory. *)
Definition write_bin_dir (beyond : list byte) : M mk Z :=
  s ← mget;
  fs_call (write filesys BIN_DIR_INODE 0 (take (Z.to_nat BLOCK_SIZE) (m_bin_dir s ++ beyond))).
End Main.

(** What [main] does to the file system, and the whole of it: the disk image and
    the ROM image. *)
Definition make_fs (FILESYS : Z) (users : list (list byte * list byte)) (beyond : list byte) : M mk unit :=
  filesys ← make_filesys FILESYS;
  write_contents filesys contents 0;;
  write_apps filesys users (BIN_DIR_INODE + 1);;
  write_bin_dir filesys beyond;;
  mret tt.

Record image : Type := {
  disk_img : list byte;
  rom_img : list byte;
}.

Definition mkfs (FILESYS : Z) (bins : list (list byte)) (users : list (list byte * list byte)) (beyond cpu : list byte) :
    outcome image :=
  match load_bins bins 0 (zeros (Z.to_nat SIZE_2MB)) with
  | Ok exec =>
    match make_fs FILESYS users beyond
      {| m_inode := zeros (Z.to_nat SIZE_2MB); m_bin_dir := bin_dir_init; m_fs := blank_ram |} with
    | Ok (_, s) =>
      match load_file cpu (zeros (Z.to_nat (SIZE_2MB * 2))) with
      | Ok (size, vexriscv) =>
        if size <? SIZE_2MB * 2 then
          Ok {| disk_img := exec ++ mjoin (m_fs s); rom_img := vexriscv ++ exec ++ mjoin (m_fs s) |}
        else Fatal "assert"
      | Fatal e => Fatal e
      | Stuck => Stuck
      | NoFuel => NoFuel
      end
    | Fatal e => Fatal e
    | Stuck => Stuck
    | NoFuel => NoFuel
    end
  | Fatal e => Fatal e
  | Stuck => Stuck
  | NoFuel => NoFuel
  end.
End Host.
