(* ===== verification/MkfsProps.v ===== *)
(** * mkfs: its correctness

    What the image holds: the binaries at their places, the directories and files
    of [mkfs.c], every user program in an inode of its own and its name in the
    directory [bin]. *)

From stdpp Require Import options.
From coqutil Require Import Byte.
From S2P Require Import Prelude CString InodeStore Treedisk TreediskSpec TreediskRead TreediskAlloc TreediskWrite TreediskProps Mydisk Dir Mkfs.

Section load.
Context (rd : nat -> nat -> nat) (Hrd : forall p n, (0 < n)%nat -> (1 <= rd p n <= n)%nat).

Lemma overwrite_prefix (file dst0 : list byte) n k : (n + k <= length file)%nat -> (length file <= length dst0)%nat ->
  overwrite (take n file ++ drop n dst0) n (take k (drop n file)) = take (n + k) file ++ drop (n + k) dst0.
Proof using Type.
  intros Hk Hl. unfold overwrite. rewrite take_app_length' by (rewrite length_take; lia).
  rewrite length_take, length_drop. rewrite drop_app_ge by (rewrite length_take; lia).
  rewrite drop_drop, length_take, app_assoc. f_equal; [|f_equal; lia]. by rewrite take_take_drop.
Qed.

Lemma load_loop_ok fuel file n dst0 : (n <= length file)%nat -> (length file <= length dst0)%nat ->
  (length file - n <= fuel)%nat ->
  load_loop rd fuel file n (take n file ++ drop n dst0) = Ok (file ++ drop (length file) dst0).
Proof using Hrd.
  revert n. induction fuel as [|fuel IH]; intros n Hn Hl Hf; cbn [load_loop].
  - rewrite (proj2 (Nat.ltb_ge _ _)) by lia. rewrite (take_ge file) by lia. do 2 f_equal. f_equal. lia.
  - destruct (Nat.ltb_spec n (length file)) as [Hlt|Hge].
    2:{ rewrite (take_ge file) by lia. do 2 f_equal. f_equal. lia. }
    pose proof (Hrd n (length file - n) ltac:(lia)) as Hr. set (k := rd n (length file - n)) in *.
    assert (length (take k (drop n file)) = k) as Hk by (rewrite length_take, length_drop; lia). rewrite Hk.
    rewrite bool_decide_true by (rewrite length_app, length_take, length_drop; lia).
    rewrite overwrite_prefix by lia. apply IH; lia.
Qed.

(** [load_file] copies the file, however [read] splits it. *)
Lemma load_file_ok file dst : (length file <= length dst)%nat ->
  load_file rd file dst = Ok (Z.of_nat (length file), file ++ drop (length file) dst).
Proof using Hrd.
  intros Hl. unfold load_file. pose proof (load_loop_ok (length file) file 0 dst ltac:(lia) Hl ltac:(lia)) as H.
  rewrite take_0, drop_0 in H. cbn [app] in H. by rewrite H.
Qed.

(** The binaries: all but the last one fit their slots, the last one fits the rest. *)
Local Abbreviation SLOT := (Z.to_nat EGOS_BIN_MAX_NBYTE).
Definition bins_fit (bins : list (list byte)) (i n : nat) : Prop := forall k b, bins !! k = Some b ->
  (k + 1 < length bins -> length b <= SLOT)%nat /\ ((i + k) * SLOT + length b <= n)%nat.

Lemma load_bins_ok bins i exec : bins_fit bins i (length exec) -> exists exec',
  load_bins rd bins i exec = Ok exec' /\ length exec' = length exec /\
  (forall m, (m <= i * SLOT)%nat \/ bins = [] -> take m exec' = take m exec) /\
  forall k b, bins !! k = Some b -> take (length b) (drop ((i + k) * SLOT) exec') = b.
Proof using Hrd.
  revert i exec. induction bins as [|b bins IH]; intros i exec Hfit.
  { exists exec. split_and!; [done|done|done|]. intros k b Hk. done. }
  destruct (Hfit 0%nat b eq_refl) as [Hb0 Hb]. rewrite Nat.add_0_r in Hb. cbn [load_bins].
  rewrite load_file_ok by (rewrite length_drop; lia).
  set (exec1 := take (i * SLOT) exec ++ b ++ drop (length b) (drop (i * SLOT) exec)).
  assert (length exec1 = length exec) as Hl1
    by (unfold exec1; rewrite !length_app, length_take, !length_drop; lia).
  destruct (IH (S i) exec1) as (exec' & -> & Hl & Hpre & Hbins).
  { intros k c Hk. destruct (Hfit (S k) c Hk) as [H1 H2]. rewrite Hl1. split.
    - intros Hlt. apply H1. cbn [length]. lia.
    - replace (S i + k)%nat with (i + S k)%nat by lia. done. }
  exists exec'. split; [done|]. split; [congruence|].
  assert (take (i * SLOT + length b) exec' = take (i * SLOT) exec ++ b) as Hhead.
  { assert (take (i * SLOT + length b) exec1 = take (i * SLOT) exec ++ b) as H1.
    { unfold exec1. rewrite app_assoc. rewrite take_app_length'; [done|]. rewrite length_app, length_take. lia. }
    rewrite <- H1. apply Hpre. destruct bins as [|c bins]; [by right|left].
    specialize (Hb0 ltac:(cbn [length]; lia)). rewrite Nat.mul_succ_l. lia. }
  split.
  - intros m [Hm|?]; [|done]. apply (f_equal (take m)) in Hhead. rewrite take_take in Hhead.
    rewrite Nat.min_l in Hhead by lia. rewrite Hhead, take_app_le by (rewrite length_take; lia).
    rewrite take_take. f_equal. lia.
  - intros [|k] c Hk; [|replace (i + S k)%nat with (S i + k)%nat by lia; by apply Hbins].
    injection Hk as <-. rewrite Nat.add_0_r. rewrite take_drop_commute, Hhead.
    rewrite drop_app_length'; [done|]. rewrite length_take. lia.
Qed.
End load.

(** ** The file system *)

(** After [w] writes the files are [files], and the writes took at most five
    blocks each from the 4093 free ones. *)
Definition fs_state (w : nat) (files : Z -> list block) (fs : list block) : Prop :=
  exists F, holds Ramdisk.ramdisk 0 fs fs /\ fs_inv fs F /\ ninodes fs = 128 /\
    (forall z, 0 <= z < 128 -> file_of fs z = files z) /\ (4093 <= length F + 5 * w)%nat.
(** Why a sequence of [total] writes can stop. *)
Definition disk_full (total : nat) (e : string) : Prop := e = full_msg /\ (4093 < 5 * total)%nat.

Definition upd_file (files : Z -> list block) (ino : Z) (f : list block) : Z -> list block :=
  fun z => if decide (z = ino) then f else files z.

Lemma levels_small n : n <= 4096 -> (levels n <= 2)%nat.
Proof. intros Hn. unfold levels. zcases; lia. Qed.

Lemma wp_fs_write total w files fs ino off b (Q : Z -> list block -> Prop) :
  fs_state w files fs -> (w < total)%nat -> 0 <= ino < 128 -> 0 <= off < 4096 ->
  Z.of_nat (length (files ino)) <= 4096 -> is_block b ->
  (forall fs', fs_state (S w) (upd_file files ino (FileSpec.file_write (files ino) off b)) fs' -> Q 0 fs') ->
  wp (disk_full total) (treedisk_write Ramdisk.ramdisk 7 ram_ts ino off b) fs Q.
Proof.
  intros (F & Hd & Hinv & Hn & Hfiles & HF) Hw Hino Hoff Hlen Hb HQ.
  assert (blocks_needed fs ino off <= 5)%nat as Hneed.
  { unfold blocks_needed. cbv zeta. rewrite <- length_file_of, Hfiles by done.
    pose proof (levels_small (Z.max (Z.of_nat (length (files ino))) (off + 1)) ltac:(lia)). lia. }
  eapply wp_conseq; [apply (wp_write_spec Ramdisk.ramdisk ram_ts fs F fs ino off b Hd Hinv); [lia|lia|done]| |].
  - intros e [-> Hlt]. split; [done|lia].
  - intros r fs' (-> & d' & F' & [Hok Hview] & Hinv' & Hn' & Hfile & Hother & _ & Hfew). change (fs' = d') in Hview. subst d'.
    apply HQ. exists F'. split; [by split|]. split; [done|]. split; [congruence|]. split; [|lia].
    intros z Hz. unfold upd_file. case_decide as Hzi; [subst; by rewrite Hfile, Hfiles|].
    rewrite Hother by (lia || done). by apply Hfiles.
Qed.

Lemma wp_fs_call {A} E (m : M (list block) A) s Q :
  wp E m (m_fs s) (fun a fs => Q a {| m_inode := m_inode s; m_bin_dir := m_bin_dir s; m_fs := fs |}) ->
  wp E (fs_call m) s Q.
Proof. unfold wp, fs_call. by destruct (m (m_fs s)) as [[a fs]| | |]. Qed.

Abbreviation td := (treedisk_store Ramdisk.ramdisk 7 ram_ts).

(** Appending a block. *)
Lemma file_write_append f b : FileSpec.file_write f (Z.of_nat (length f)) b = f ++ [b].
Proof.
  unfold FileSpec.file_write. replace (Z.to_nat (Z.of_nat (length f) + 1) - length f)%nat with 1%nat by lia.
  rewrite Nat2Z.id. cbn [replicate]. rewrite insert_app_r_alt by lia. by rewrite Nat.sub_diag.
Qed.

(** The [k]-th block of a buffer. *)
Definition chunk (v : list byte) (k : nat) : block := take (Z.to_nat BLOCK_SIZE) (drop (k * Z.to_nat BLOCK_SIZE) v).
Definition chunks (v : list byte) (n : nat) : list block := chunk v <$> seq 0 n.

Lemma chunk_is_block v k : ((k + 1) * 512 <= length v)%nat -> is_block (chunk v k).
Proof.
  unfold is_block, chunk. change (Z.to_nat BLOCK_SIZE) with 512%nat. intros Hk. rewrite length_take, length_drop. lia.
Qed.

Lemma length_chunks v n : length (chunks v n) = n.
Proof. unfold chunks. by rewrite length_fmap, length_seq. Qed.

Lemma chunks_S v n : chunks v (S n) = chunks v n ++ [chunk v n].
Proof. unfold chunks. by rewrite seq_S, fmap_app. Qed.

Lemma mjoin_chunks v n : mjoin (chunks v n) = take (n * 512) v.
Proof.
  induction n as [|n IH]; [done|]. rewrite chunks_S.
  etransitivity; [apply (join_app (A := byte))|]. rewrite IH. cbn [mjoin list_join]. rewrite app_nil_r.
  unfold chunk. change (Z.to_nat BLOCK_SIZE) with 512%nat. rewrite take_take_drop. f_equal. lia.
Qed.

(** The blocks of a file of [n] bytes. *)
Definition nblk (n : nat) : nat := ((n + 511) / 512)%nat.
Lemma nblk_spec n b : (b * 512 < n <-> b < nblk n)%nat.
Proof.
  unfold nblk. pose proof (Nat.div_mod_eq (n + 511) 512). pose proof (Nat.mod_upper_bound (n + 511) 512). lia.
Qed.

(** A file whose blocks hold the bytes [file] (and then anything). *)
Definition file_holds (f : list block) (file : list byte) : Prop :=
  length f = nblk (length file) /\ exists tl, mjoin f = file ++ tl.

Lemma chunks_hold v file : (length file <= length v)%nat ->
  take (length file) v = file -> file_holds (chunks v (nblk (length file))) file.
Proof.
  intros Hl Hf. split; [apply length_chunks|]. rewrite mjoin_chunks.
  assert (length file <= nblk (length file) * 512)%nat as Hn
    by (pose proof (nblk_spec (length file) (nblk (length file))); lia).
  exists (take (nblk (length file) * 512 - length file) (drop (length file) v)).
  transitivity (take (length file) v ++ take (nblk (length file) * 512 - length file) (drop (length file) v)); [|by rewrite Hf].
  rewrite take_take_drop. f_equal. lia.
Qed.

(** ** The loops of [main] *)
Section main.
Context (rd : nat -> nat -> nat) (Hrd : forall p n, (0 < n)%nat -> (1 <= rd p n <= n)%nat).
Context (total : nat).
Abbreviation E := (disk_full total).

Record mk_inv (w : nat) (files : Z -> list block) (s : mk) : Prop := {
  mi_inode : Z.of_nat (length (m_inode s)) = SIZE_2MB;
  mi_fs : fs_state w files (m_fs s);
}.

Lemma wp_write_inode_block w files s ino b (Q : Z -> mk -> Prop) : mk_inv w files s -> (w < total)%nat ->
  0 <= ino < 128 -> (b < 4096)%nat -> Z.of_nat (length (files ino)) = Z.of_nat b ->
  (forall fs', fs_state (S w) (upd_file files ino (files ino ++ [chunk (m_inode s) b])) fs' ->
     Q 0 {| m_inode := m_inode s; m_bin_dir := m_bin_dir s; m_fs := fs' |}) ->
  wp E (write_inode_block td ino b) s Q.
Proof using Type.
  intros [Hlen Hfs] Hw Hino Hb Hf HQ. unfold SIZE_2MB in Hlen. unfold write_inode_block. apply wp_bind.
  eapply wp_ok; [reflexivity|]. cbv zeta. fold (chunk (m_inode s) b).
  assert (is_block (chunk (m_inode s) b)) as Hblk by (apply chunk_is_block; lia).
  rewrite bool_decide_true by done. apply wp_fs_call. cbn [write treedisk_store].
  eapply (wp_fs_write total w files); [done|done|done|lia|lia|done|].
  intros fs' Hfs'. apply HQ. rewrite <- Hf, file_write_append in Hfs'. done.
Qed.

(** The fixed contents. *)
Definition padded (c : list byte) : block := take (Z.to_nat BLOCK_SIZE) (c ++ zeros (Z.to_nat BLOCK_SIZE)).
Fixpoint put_contents (cs : list (list byte)) (ino : Z) (files : Z -> list block) : Z -> list block :=
  match cs with
  | [] => files
  | c :: cs => put_contents cs (ino + 1) (upd_file files ino [padded c])
  end.

Lemma length_padded c : length (padded c) = Z.to_nat BLOCK_SIZE.
Proof using Type. unfold padded. rewrite length_take, length_app, length_zeros. lia. Qed.

Lemma chunk_overwrite v c : (512 <= length v)%nat -> chunk (overwrite v 0 (padded c)) 0 = padded c.
Proof using Type.
  intros Hl. unfold chunk, overwrite. rewrite take_0, Nat.mul_0_l, drop_0. cbn [app].
  by rewrite take_app_length' by (by rewrite length_padded).
Qed.

Lemma wp_write_contents cs w files s ino (Q : unit -> mk -> Prop) : mk_inv w files s ->
  (w + length cs <= total)%nat -> 0 <= ino -> ino + Z.of_nat (length cs) <= 128 ->
  (forall z, ino <= z < ino + Z.of_nat (length cs) -> files z = []) ->
  (forall s', mk_inv (w + length cs) (put_contents cs ino files) s' -> m_bin_dir s' = m_bin_dir s -> Q tt s') ->
  wp E (write_contents td cs ino) s Q.
Proof using Type.
  revert w files s ino. induction cs as [|c cs IH]; intros w files s ino Hs Hw Hino Hlen Hempty HQ; cbn [write_contents length] in *.
  { apply wp_ret, HQ; [by rewrite Nat.add_0_r|done]. }
  pose proof Hs as [Hl Hfs]. unfold SIZE_2MB in Hl. apply wp_bind. eapply wp_ok; [reflexivity|]. cbv beta. fold (padded c).
  set (s1 := set_inode s _). assert (mk_inv w files s1) as Hs1.
  { split; [|done]. unfold s1, overwrite, SIZE_2MB. cbn [m_inode set_inode]. rewrite take_0. cbn [app].
    rewrite length_app, length_drop, length_padded. change (Z.to_nat BLOCK_SIZE) with 512%nat. lia. }
  apply wp_bind. eapply wp_write_inode_block; [exact Hs1|lia|lia|lia|by rewrite Hempty by lia|].
  intros fs' Hfs'. rewrite (Hempty ino) in Hfs' by lia. cbn [app] in Hfs'.
  change (m_inode s1) with (overwrite (m_inode s) 0 (padded c)) in Hfs'. rewrite chunk_overwrite in Hfs' by lia.
  eapply IH; [split; [apply Hs1|exact Hfs']|lia|lia|lia| |].
  - intros z Hz. unfold upd_file. rewrite decide_False by lia. apply Hempty. lia.
  - intros s' Hs' Hbd. apply HQ; [|exact Hbd]. by replace (w + S (length cs))%nat with (S w + length cs)%nat by lia.
Qed.

(** The blocks of one application. *)
Lemma wp_write_blocks fuel w files s ino b size (Q : unit -> mk -> Prop) : mk_inv w files s ->
  (b <= nblk size)%nat -> (nblk size <= 4096)%nat -> (w + (nblk size - b) <= total)%nat -> (size - b * 512 <= fuel)%nat ->
  0 <= ino < 128 -> files ino = chunks (m_inode s) b ->
  (forall fs' files', fs_state (w + (nblk size - b)) files' fs' -> files' ino = chunks (m_inode s) (nblk size) ->
     (forall z, z <> ino -> files' z = files z) ->
     Q tt {| m_inode := m_inode s; m_bin_dir := m_bin_dir s; m_fs := fs' |}) ->
  wp E (write_blocks td fuel ino b (Z.of_nat size)) s Q.
Proof using Type.
  revert w files s b. induction fuel as [|fuel IH]; intros w files s b Hs Hb Hn Hw Hf Hino Hfile HQ;
    pose proof (nblk_spec size b) as Hnb; cbn [write_blocks]; unfold BLOCK_SIZE at 1;
    destruct (Z.ltb_spec (Z.of_nat b * 512) (Z.of_nat size)) as [Hlt|Hge]; try lia.
  1, 3: apply wp_ret; destruct s as [v bd fs]; apply (HQ fs files); [|by replace (nblk size) with b by lia|done];
    replace (nblk size - b)%nat with 0%nat by lia; rewrite Nat.add_0_r; apply Hs.
  apply wp_bind. eapply wp_write_inode_block; [exact Hs|lia|done|lia|by rewrite Hfile, length_chunks|].
  intros fs' Hfs'. rewrite Hfile, <- chunks_S in Hfs'.
  eapply IH; [split; [apply Hs|exact Hfs']|lia|done|lia|lia|done| |].
  - unfold upd_file. by rewrite decide_True.
  - intros fs2 files2 Hfs2 Hi Hz. eapply (HQ fs2 files2); [|exact Hi|].
    + by replace (w + (nblk size - b))%nat with (S w + (nblk size - S b))%nat by lia.
    + intros z Hne. rewrite Hz by done. unfold upd_file. by rewrite decide_False.
Qed.

(** *** The user programs *)

(** Their entries in [bin], their blocks, and that the files hold them. *)
Fixpoint app_entries (users : list (list byte * list byte)) (ino : Z) : list entry :=
  match users with
  | [] => []
  | (d_name, _) :: users =>
    if has_elf d_name then {| e_name := app_name d_name; e_ino := ino |} :: app_entries users (ino + 1)
    else app_entries users ino
  end.
Fixpoint app_blocks (users : list (list byte * list byte)) : nat :=
  match users with
  | [] => 0
  | (d_name, file) :: users => (if has_elf d_name then nblk (length file) else 0) + app_blocks users
  end.
Fixpoint apps_stored (users : list (list byte * list byte)) (ino : Z) (files : Z -> list block) : Prop :=
  match users with
  | [] => True
  | (d_name, file) :: users =>
    if has_elf d_name then file_holds (files ino) file /\ apps_stored users (ino + 1) files
    else apps_stored users ino files
  end.

(** A directory entry of the host has at most 255 characters; the file fits in [inode]. *)
Definition user_ok (u : list byte * list byte) : Prop :=
  (length u.1 <= 255)%nat /\ Z.of_nat (length u.2) <= SIZE_2MB.

Lemma nblk_le n : Z.of_nat n <= SIZE_2MB -> (nblk n <= 4096)%nat.
Proof using Type. unfold SIZE_2MB. intros Hn. pose proof (nblk_spec n 4096). lia. Qed.

Lemma apps_stored_ext users ino files files' :
  (forall z, ino <= z < ino + Z.of_nat (length (app_entries users ino)) -> files' z = files z) ->
  apps_stored users ino files -> apps_stored users ino files'.
Proof using Type.
  revert ino. induction users as [|[d f] users IH]; intros ino; cbn [apps_stored app_entries]; [done|].
  destruct (has_elf d); [|by apply IH]. cbn [length]. intros Heq [Hf Hs]. split; [by rewrite Heq by lia|].
  apply IH; [|done]. intros z Hz. apply Heq. lia.
Qed.

(** The array [bin_dir] with the string [txt]. *)
Definition bin_text (txt : list byte) : list byte := txt ++ zeros (256 - length txt).

Lemma strcat_bin_text txt tmp : no_nul txt -> (length (txt ++ tmp) < 256)%nat ->
  strcat (bin_text txt) tmp = Ok (bin_text (txt ++ tmp)).
Proof using Type.
  intros Hn Hl. rewrite length_app in Hl. unfold bin_text. destruct (256 - length txt)%nat as [|k] eqn:Hk; [lia|].
  change (zeros (S k)) with (NUL :: zeros k). rewrite strcat_app by done.
  rewrite bool_decide_true by (rewrite length_zeros; lia). rewrite length_app.
  replace (256 - (length txt + length tmp))%nat with (S (k - length tmp)) by lia.
  change (zeros (S (k - length tmp))) with (NUL :: zeros (k - length tmp)). unfold zeros. by rewrite drop_replicate.
Qed.

Lemma wp_sprintf_tmp s0 (s : mk) (Q : list byte -> mk -> Prop) : (length s0 < 512)%nat -> Q s0 s ->
  wp E (mlift (sprintf_tmp s0)) s Q.
Proof using Type. intros Hl HQ. unfold sprintf_tmp. rewrite bool_decide_true by done. done. Qed.

(** What the loop leaves. *)
Record apps_written (users : list (list byte * list byte)) (ino : Z) (w : nat) (files : Z -> list block) (txt : list byte)
    (files' : Z -> list block) (s' : mk) : Prop := {
  aw_inv : mk_inv (w + app_blocks users) files' s';
  aw_old z : z < ino -> files' z = files z;
  aw_new : apps_stored users ino files';
  aw_dir : m_bin_dir s' = bin_text (txt ++ print_dir (app_entries users ino));
}.

Lemma wp_write_apps users w files s ino txt (Q : Z -> mk -> Prop) : mk_inv w files s ->
  m_bin_dir s = bin_text txt -> no_nul txt -> (length (txt ++ print_dir (app_entries users ino)) < 256)%nat ->
  Forall user_ok users -> Forall entry_ok (app_entries users ino) ->
  0 <= ino -> ino + Z.of_nat (length (app_entries users ino)) <= 128 ->
  (forall z, ino <= z -> files z = []) -> (w + app_blocks users <= total)%nat ->
  (forall files' s', apps_written users ino w files txt files' s' -> Q (ino + Z.of_nat (length (app_entries users ino))) s') ->
  wp E (write_apps rd td users ino) s Q.
Proof using Hrd.
  revert w files s ino txt. induction users as [|[d f] users IH];
    intros w files s ino txt Hs Hbd Htxt Hlen Hus Hes Hino Hcnt Hempty Hw HQ; cbn [write_apps app_entries app_blocks] in *.
  { apply wp_ret. change (length (@nil entry)) with 0%nat in *. rewrite Z.add_0_r in HQ. apply (HQ files).
    split; cbn; [by rewrite Nat.add_0_r|done|done|by rewrite app_nil_r]. }
  apply Forall_cons_1 in Hus as [[Hd Hf] Hus]. cbn [fst snd] in Hd, Hf. destruct (has_elf d) eqn:Helf.
  2:{ eapply IH; try done. intros files' s' [H1 H2 H3 H4]. apply (HQ files'). split; cbn [app_blocks apps_stored app_entries]; rewrite ?Helf; done. }
  apply Forall_cons_1 in Hes as [He Hes]. set (e := {| e_name := app_name d; e_ino := ino |}) in *.
  change (print_dir (e :: app_entries users (ino + 1))) with (print_entry e ++ print_dir (app_entries users (ino + 1))) in *.
  cbn [length] in Hcnt. rewrite !length_app in Hlen. pose proof Hs as [Hl Hfs]. pose proof (nblk_le _ Hf) as Hn.
  apply wp_bind, wp_sprintf_tmp; [rewrite length_app; change (length (lit "../build/release/user/")) with 22%nat; lia|].
  apply wp_bind. eapply wp_ok; [reflexivity|]. rewrite load_file_ok by (done || lia). apply wp_bind, wp_ret. cbv beta iota.
  set (v := f ++ drop (length f) (m_inode s)). apply wp_bind. eapply wp_ok; [reflexivity|].
  assert (length v = length (m_inode s)) as Hv by (unfold v; rewrite length_app, length_drop; lia).
  assert (take (length f) v = f) as Hvf by apply take_app_length.
  apply wp_bind. eapply (wp_write_blocks (length f) w files (set_inode s v)); [split; [cbn; by rewrite Hv|exact Hfs]|lia|done|lia|lia|lia|by rewrite Hempty by lia|].
  rewrite Nat.sub_0_r. cbn [m_inode set_inode m_bin_dir]. intros fs1 files1 Hfs1 Hfile Hother.
  apply wp_bind, wp_sprintf_tmp; [lia|]. apply wp_bind. eapply wp_ok; [reflexivity|]. cbn [m_bin_dir].
  rewrite Hbd, strcat_bin_text by (done || rewrite length_app; lia). apply wp_bind, wp_ret. apply wp_bind. eapply wp_ok; [reflexivity|].
  eapply (IH (w + nblk (length f))%nat files1 _ _ (txt ++ print_entry e)).
  - split; [cbn; by rewrite Hv|exact Hfs1].
  - reflexivity.
  - apply no_nul_app. split; [done|by apply print_entry_no_nul].
  - rewrite !length_app. lia.
  - done.
  - done.
  - lia.
  - lia.
  - intros z Hz. rewrite Hother by lia. apply Hempty. lia.
  - lia.
  - intros files' s' [Ha Hb Hc Hdir].
    replace (ino + 1 + Z.of_nat (length (app_entries users (ino + 1)))) with
      (ino + Z.of_nat (length (e :: app_entries users (ino + 1)))) by (cbn [length]; lia).
    apply (HQ files'). split; cbn [app_blocks apps_stored app_entries]; rewrite ?Helf.
    + by rewrite Nat.add_assoc.
    + intros z Hz. rewrite Hb by lia. apply Hother. lia.
    + split; [|exact Hc]. rewrite Hb by lia. rewrite Hfile. apply chunks_hold; [rewrite Hv; unfold SIZE_2MB in *; lia|exact Hvf].
    + rewrite Hdir, <- app_assoc. done.
Qed.
End main.

(** ** The image *)

(** The directories of [contents], and the start of [bin]. *)
Definition ent (name : string) (ino : Z) : entry := {| e_name := lit name; e_ino := ino |}.
Definition image_dirs : list (list entry) :=
  [root_dir;
   [ent "./" 1; ent "../" 0; ent "yunhao/" 2; ent "rvr/" 3; ent "yacqub/" 4];
   [ent "./" 2; ent "../" 1; ent "README" 5];
   [ent "./" 3; ent "../" 1];
   [ent "./" 4; ent "../" 1]].
Definition bin_base : list entry := [ent "./" 6; ent "../" 0].

Lemma contents_dirs : contents = (print_dir <$> image_dirs) ++ [README_TEXT].
Proof. vm_compute. reflexivity. Qed.

Lemma bin_dir_init_text : bin_dir_init = bin_text (print_dir bin_base).
Proof. vm_compute. reflexivity. Qed.

Lemma padded_short c : (length c <= 512)%nat -> padded c = c ++ zeros (Z.to_nat BLOCK_SIZE - length c).
Proof.
  intros Hl. unfold padded. rewrite take_app_ge by (change (Z.to_nat BLOCK_SIZE) with 512%nat; lia). f_equal.
  unfold zeros. rewrite take_replicate. f_equal. lia.
Qed.

(** What the files of the image are. *)
Record image_files (users : list (list byte * list byte)) (files : Z -> list block) : Prop := {
  if_dirs ino es : image_dirs !! ino = Some es -> files (Z.of_nat ino) = [dir_block es];
  if_readme : files 5 = [README_TEXT ++ zeros (Z.to_nat BLOCK_SIZE - length README_TEXT)];
  if_bin : exists b, files 6 = [b] /\ is_dir b (bin_base ++ app_entries users 7);
  if_apps : apps_stored users 7 files;
}.

(** What the directory of user programs must satisfy. *)
Record users_ok (users : list (list byte * list byte)) : Prop := {
  uo_each : Forall user_ok users;
  uo_entries : Forall entry_ok (app_entries users 7);
  uo_dir : (length (print_dir (bin_base ++ app_entries users 7)) < 256)%nat;
  uo_count : 7 + Z.of_nat (length (app_entries users 7)) <= 128;
}.

Lemma put_contents_lookup cs ino files z : put_contents cs ino files z =
  match (if decide (ino <= z) then cs !! Z.to_nat (z - ino) else None) with
  | Some c => [padded c]
  | None => files z
  end.
Proof.
  revert ino files. induction cs as [|c cs IH]; intros ino files; cbn [put_contents]; [by case_decide|].
  rewrite IH. unfold upd_file. destruct (decide (ino + 1 <= z)).
  - rewrite (decide_True (P := ino <= z)) by lia. rewrite (decide_False (P := z = ino)) by lia.
    replace (Z.to_nat (z - ino)) with (S (Z.to_nat (z - (ino + 1)))) by lia. done.
  - destruct (decide (z = ino)) as [->|Hne].
    + rewrite decide_True by lia. by rewrite Z.sub_diag.
    + by rewrite decide_False by lia.
Qed.

Lemma contents_files files : (forall z, files z = []) ->
  let files' := put_contents contents 0 files in
  (forall ino es, image_dirs !! ino = Some es -> files' (Z.of_nat ino) = [dir_block es]) /\
  files' 5 = [README_TEXT ++ zeros (Z.to_nat BLOCK_SIZE - length README_TEXT)] /\
  (forall z, 6 <= z -> files' z = []).
Proof.
  intros Hf files'. unfold files'. split_and!.
  - intros ino es Hes. rewrite put_contents_lookup, decide_True, contents_dirs by lia.
    rewrite Z.sub_0_r, Nat2Z.id, lookup_app_l by (rewrite length_fmap; by eapply lookup_lt_Some).
    rewrite list_lookup_fmap, Hes. cbn [fmap option_fmap option_map].
    assert (Forall (fun es => length (print_dir es) <= 512)%nat image_dirs) as Hall
      by (apply (bool_decide_unpack _); vm_compute; exact I).
    rewrite padded_short by (by eapply Forall_lookup_1 in Hall). done.
  - rewrite put_contents_lookup, decide_True, contents_dirs by lia. rewrite lookup_app_r by (cbn; lia).
    change (Z.to_nat (5 - 0) - length (print_dir <$> image_dirs))%nat with 0%nat. cbn [lookup list_lookup].
    rewrite padded_short; [done|]. apply (bool_decide_unpack _). vm_compute. exact I.
  - intros z Hz. rewrite put_contents_lookup, decide_True by lia. rewrite lookup_ge_None_2; [apply Hf|cbn; lia].
Qed.

Section image.
Context (rd : nat -> nat -> nat) (Hrd : forall p n, (0 < n)%nat -> (1 <= rd p n <= n)%nat).

(** The number of blocks that [mkfs] writes. *)
Definition image_writes (users : list (list byte * list byte)) : nat := 7 + app_blocks users.

Lemma bin_block users beyond : users_ok users -> length beyond = 256%nat ->
  is_dir (take (Z.to_nat BLOCK_SIZE) (bin_text (print_dir (bin_base ++ app_entries users 7)) ++ beyond))
    (bin_base ++ app_entries users 7).
Proof using Type.
  intros [_ _ Hlen _] Hb. set (txt := print_dir _) in *. assert (length (bin_text txt ++ beyond) = 512%nat) as Hl
    by (unfold bin_text; rewrite !length_app, length_zeros; lia).
  change (Z.to_nat BLOCK_SIZE) with 512%nat. rewrite take_ge by lia. split; [exact Hl|].
  unfold bin_text. destruct (256 - length txt)%nat as [|k] eqn:Hk; [lia|].
  exists (zeros k ++ beyond). rewrite <- app_assoc. done.
Qed.

Lemma wp_make_fs users beyond : users_ok users -> length beyond = 256%nat ->
  wp (disk_full (image_writes users)) (make_fs rd 1 users beyond)
    {| m_inode := zeros (Z.to_nat SIZE_2MB); m_bin_dir := bin_dir_init; m_fs := blank_ram |}
    (fun _ s => exists files, fs_state (image_writes users) files (m_fs s) /\ image_files users files).
Proof using Hrd.
  intros Hus Hbeyond. destruct fresh_ram_ok as (Hcreate & Hd & Hn & Hf & F & Hinv & HF).
  unfold make_fs, make_filesys. change (1 =? 0) with false. cbv beta iota. apply wp_bind, wp_bind, wp_fs_call.
  eapply wp_ok; [exact Hcreate|]. cbn [m_inode m_bin_dir m_fs]. apply wp_bind, wp_panic_if; [done|]. intros _.
  rewrite treedisk_init_log_rpb. apply wp_bind. eapply wp_ok; [reflexivity|]. apply wp_ret. cbv beta iota.
  change ({| below_ino := 0 |}) with ram_ts.
  set (s0 := {| m_inode := _; m_bin_dir := _; m_fs := _ |}).
  assert (mk_inv 0 (fun _ => []) s0) as Hs0.
  { split; [cbn; rewrite length_zeros; unfold SIZE_2MB; lia|]. exists F. split_and!; [done|done|done|done|lia]. }
  apply wp_bind. eapply (wp_write_contents (image_writes users)); [exact Hs0|cbn; unfold image_writes; lia|done|cbn; lia|done|].
  intros s1 Hs1 Hb1. destruct (contents_files (fun _ => []) ltac:(done)) as (Hdirs & Hreadme & Hrest).
  set (files1 := put_contents contents 0 (fun _ => [])) in *.
  apply wp_bind. eapply (wp_write_apps rd Hrd (image_writes users) users _ files1 s1 7 (print_dir bin_base)).
  - exact Hs1.
  - rewrite Hb1. apply bin_dir_init_text.
  - apply print_dir_no_nul. apply (bool_decide_unpack _). vm_compute. exact I.
  - pose proof (uo_dir _ Hus) as H. unfold print_dir in *. by rewrite bind_app in H.
  - apply Hus.
  - apply Hus.
  - lia.
  - apply Hus.
  - intros z Hz. apply Hrest. lia.
  - change (length contents) with 6%nat. unfold image_writes. lia.
  - intros files2 s2 [[Hl2 Hfs2] Hold Hnew Hdir]. apply wp_bind. unfold write_bin_dir. apply wp_bind.
    eapply wp_ok; [reflexivity|]. apply wp_fs_call. cbn [write treedisk_store]. rewrite Hdir.
    assert (print_dir bin_base ++ print_dir (app_entries users 7) = print_dir (bin_base ++ app_entries users 7)) as ->
      by (unfold print_dir; by rewrite bind_app).
    pose proof (bin_block users beyond Hus Hbeyond) as Hbin.
    eapply (wp_fs_write _ _ files2); [exact Hfs2| |unfold BIN_DIR_INODE; lia|lia| |apply Hbin|].
    + change (length contents) with 6%nat. unfold image_writes. lia.
    + unfold BIN_DIR_INODE. rewrite Hold, Hrest by lia. cbn. lia.
    + unfold BIN_DIR_INODE. rewrite Hold, (Hrest 6) by lia.
      change (FileSpec.file_write [] 0) with (fun b : block => FileSpec.file_write [] (Z.of_nat (length (@nil block))) b).
      cbv beta. rewrite file_write_append. cbn [app]. intros fs3 Hfs3. apply wp_ret.
      eexists. split; [exact Hfs3|]. split.
      * intros ino es Hes. pose proof (lookup_lt_Some _ _ _ Hes) as Hlt. cbn in Hlt.
        unfold upd_file. rewrite decide_False, Hold by lia. by apply Hdirs.
      * unfold upd_file. rewrite decide_False, Hold by lia. exact Hreadme.
      * eexists. split; [|exact Hbin]. unfold upd_file. by rewrite decide_True.
      * eapply apps_stored_ext; [|exact Hnew]. intros z Hz. unfold upd_file. by rewrite decide_False by lia.
Qed.

Lemma mkfs_ok (bins : list (list byte)) (users : list (list byte * list byte)) (beyond cpu : list byte) :
  bins_fit bins 0 (Z.to_nat SIZE_2MB) -> users_ok users -> length beyond = 256%nat ->
  Z.of_nat (length cpu) < SIZE_2MB * 2 ->
  match mkfs rd 1 bins users beyond cpu with
  | Ok img => exists exec fs F, disk_img img = exec ++ mjoin fs /\ length exec = Z.to_nat SIZE_2MB /\
      (forall k b, bins !! k = Some b -> take (length b) (drop (k * Z.to_nat EGOS_BIN_MAX_NBYTE) exec) = b) /\
      Ramdisk.ram_ok fs /\ fs_inv fs F /\ ninodes fs = 128 /\
      image_files users (file_of fs) /\
      rom_img img = (cpu ++ zeros (Z.to_nat (SIZE_2MB * 2) - length cpu)) ++ disk_img img
  | Fatal e => disk_full (image_writes users) e
  | Stuck | NoFuel => False
  end.
Proof using Hrd.
  intros Hbins Hus Hbeyond Hcpu. unfold mkfs.
  destruct (load_bins_ok rd Hrd bins 0 (zeros (Z.to_nat SIZE_2MB))) as (exec & -> & Hl & _ & Hslots); [by rewrite length_zeros|].
  pose proof (wp_make_fs users beyond Hus Hbeyond) as Hwp. unfold wp in Hwp.
  destruct (make_fs _ _ _ _ _) as [[u s]|e| |]; [|exact Hwp|exact Hwp|exact Hwp].
  destruct Hwp as (files & (F & [Hok _] & Hinv & Hn & Hfiles & _) & [Hd Hr Hb Ha]).
  rewrite load_file_ok by (done || rewrite length_zeros; lia). rewrite (proj2 (Z.ltb_lt _ _)) by done.
  assert (forall n, drop (length cpu) (zeros n) = zeros (n - length cpu)) as -> by (intros n; apply drop_replicate).
  exists exec, (m_fs s), F. split; [done|]. split; [etransitivity; [exact Hl|apply length_zeros]|]. split; [exact Hslots|].
  split; [exact Hok|]. split; [exact Hinv|]. split; [exact Hn|].
  split; [|reflexivity].
  assert (forall z, z < 128 -> 0 <= z -> file_of (m_fs s) z = files z) as Heq by (intros; by apply Hfiles).
  split.
  - intros ino es Hes. pose proof (lookup_lt_Some _ _ _ Hes) as Hlt. cbn in Hlt. rewrite Heq by lia. by apply Hd.
  - by rewrite Heq by lia.
  - destruct Hb as (b & Hb6 & Hdir). exists b. by rewrite Heq by lia.
  - pose proof (uo_count _ Hus) as Hcount. eapply apps_stored_ext; [|exact Ha]. intros z Hz. apply Heq; lia.
Qed.
(** C16: the image.  [mkfs] (with the treedisk file system) ends with a disk image
    whose first half has every binary at its place, and whose second half is a
    well-formed file system with the directories and the README of [mkfs.c], the
    directory [bin] with an entry for every user program of the build, and the
    contents of each program in the inode of its entry; the ROM image is the FPGA
    binary and the same disk.  It stops only when the disk is full, which takes
    more than 4093 blocks at five per write. *)
Theorem mkfs_correct (bins : list (list byte)) (users : list (list byte * list byte)) (beyond cpu : list byte) :
  bins_fit bins 0 (Z.to_nat SIZE_2MB) -> users_ok users -> length beyond = 256%nat ->
  Z.of_nat (length cpu) < SIZE_2MB * 2 ->
  match mkfs rd 1 bins users beyond cpu with
  | Ok img => exists exec fs F, disk_img img = exec ++ mjoin fs /\ length exec = Z.to_nat SIZE_2MB /\
      (forall k b, bins !! k = Some b -> take (length b) (drop (k * Z.to_nat EGOS_BIN_MAX_NBYTE) exec) = b) /\
      Ramdisk.ram_ok fs /\ fs_inv fs F /\ ninodes fs = 128 /\
      image_files users (file_of fs) /\
      rom_img img = (cpu ++ zeros (Z.to_nat (SIZE_2MB * 2) - length cpu)) ++ disk_img img
  | Fatal e => disk_full (image_writes users) e
  | Stuck | NoFuel => False
  end.
Proof using Hrd. apply mkfs_ok. Qed.
End image.

(** ** A build with one program *)
Definition t_rd (pos n : nat) : nat := if (n <=? 2)%nat then n else 2.
Lemma t_rd_ok p n : (0 < n)%nat -> (1 <= t_rd p n <= n)%nat.
Proof. unfold t_rd. destruct (Nat.leb_spec n 2); lia. Qed.

Definition t_bins : list (list byte) := [lit "egos"; lit "proc"; lit "term"; lit "file"; lit "shell"; lit "bmp"].
Definition t_users : list (list byte * list byte) :=
  [(lit ".", []); (lit "..", []); (lit "echo.elf", lit "an executable"); (lit "notes.txt", lit "text")].

Lemma t_users_ok : users_ok t_users.
Proof.
  split.
  - unfold t_users, user_ok, SIZE_2MB. repeat constructor; cbn; lia.
  - apply (bool_decide_unpack _). vm_compute. exact I.
  - apply (bool_decide_unpack _). vm_compute. exact I.
  - apply (bool_decide_unpack _). vm_compute. exact I.
Qed.

Lemma t_bins_fit : bins_fit t_bins 0 (Z.to_nat SIZE_2MB).
Proof.
  intros k b Hk. pose proof (lookup_lt_Some _ _ _ Hk) as Hlt. change (length t_bins) with 6%nat in *.
  assert (length b <= 5)%nat as Hb.
  { assert (Forall (fun b => length b <= 5)%nat t_bins) as Hall by (apply (bool_decide_unpack _); vm_compute; exact I).
    by eapply Forall_lookup_1 in Hall. }
  split; [intros _; unfold EGOS_BIN_MAX_NBYTE; lia|]. unfold EGOS_BIN_MAX_NBYTE, SIZE_2MB. nia.
Qed.

Lemma mkfs_correct_witness : exists img exec fs,
  mkfs t_rd 1 t_bins t_users (zeros 256) [] = Ok img /\ disk_img img = exec ++ mjoin fs /\
  file_holds (file_of fs 7) (lit "an executable").
Proof.
  pose proof (mkfs_correct t_rd t_rd_ok t_bins t_users (zeros 256) [] t_bins_fit t_users_ok eq_refl) as H.
  destruct (mkfs t_rd 1 t_bins t_users (zeros 256) []) as [img|e| |].
  - destruct H as (exec & fs & F & Hd & _ & _ & _ & _ & _ & [_ _ _ Ha] & _); [unfold SIZE_2MB; cbn; lia|].
    exists img, exec, fs. split; [reflexivity|]. split; [exact Hd|]. exact (proj1 Ha).
  - destruct H as [_ H]; [unfold SIZE_2MB; cbn; lia|]. vm_compute in H. lia.
  - destruct H. unfold SIZE_2MB. cbn. lia.
  - destruct H. unfold SIZE_2MB. cbn. lia.
Defined.
