(* ===== verification/AppWorld.v ===== *)
(** * Applications on the whole system

    The environment of the applications is the two servers: a string that is
    printed goes to the terminal server, a file that is read comes from the file
    server, which reads the file system on the card.  On the image that [mkfs]
    builds, the applications find their files. *)

From stdpp Require Import options.
From coqutil Require Import Byte.
From S2P Require Import Prelude CString InodeStore Treedisk TreediskSpec TreediskRead TreediskWrite TreediskProps Mydisk Earth Disk DiskSpec SdSim DiskProps Tty Terminal Shell Dir FileServer Print UserApps Cd Mkfs MkfsProps.

(** ** The servers as the environment *)

(** Calls of the two servers on their states. *)
Definition on_tty {S T A} (m : M S A) : M (S * T) A := fun '(a, b) =>
  match m a with Ok (x, a') => Ok (x, (a', b)) | Fatal e => Fatal e | Stuck => Stuck | NoFuel => NoFuel end.
Definition on_files {S T A} (m : M T A) : M (S * T) A := fun '(a, b) =>
  match m b with Ok (x, b') => Ok (x, (a, b')) | Fatal e => Fatal e | Stuck => Stuck | NoFuel => NoFuel end.

(** [file_read] of an application, through the file server; [junk] is what the
    request's block holds, [stale] what follows the reply in the buffer. *)
Definition app_file_read {D} (dev : mmio D) (plat : platform) (fuel : nat) (rom : Z -> byte)
    (sender : Z) (junk rest stale : list byte) (file_ino offset : Z) : M (disk_state D) (Z * block) :=
  fs ← mlift (file_system dev plat fuel rom 1);
  '(_, msg) ← handle_request fs sender (file_read_request (u32 file_ino) offset junk ++ rest);
  mret (file_read_result (msg ++ stale)).

Section env.
Context {S D C : Type} (t : tty S) `{!TtySpec t}.
Context (dev : mmio D) (plat : platform) (sl : slave C).
Context (patience fuel delay : nat) (cap : Z) (rom : Z -> byte).
Context `{!SpiSpec dev plat sl patience, !SdCard sl plat cap delay}.
Context (Hfuel : fuel_ok plat patience fuel delay cap) (Hcap : 8192 <= cap).
Context (pid : Z) (junk rest stale : list byte) (fjunk : block) (Hjunk : is_block fjunk).

Abbreviation view s := (@disk_view _ _ dev plat sl patience delay cap _ _ s).
Abbreviation write_world := (fun str len => on_tty (T := disk_state D) (app_term_write t fuel pid junk rest str len)).
Abbreviation read_world := (fun ino off => on_files (S := S) (app_file_read dev plat fuel rom pid fjunk rest stale ino off)).

(** The first block of a file on the card. *)
Definition first_block (d : list block) (ino : Z) : option block :=
  if decide (0 <= ino < ninodes d) then file_of d ino !! 0%nat else None.

Definition world_inv (w : S * disk_state D) : Prop :=
  tty_inv w.1 /\ disk_inv dev plat sl patience delay cap w.2 /\ exists F, fs_inv (view w.2) F.

#[global] Instance world_writer : TermWriter (R := Z -> option block) write_world.
Proof using TtySpec0 SpiSpec0 SdCard0.
  refine {| tw_inv := world_inv; tw_out := fun w => printed w.1; tw_rest := fun w => first_block (view w.2); tw_spec := _ |}.
  intros [a b] str tl (Ha & Hb) Hl. cbn [fst snd] in *.
  destruct (@tw_spec _ _ _ (app_writer t fuel pid junk rest) a str tl Ha Hl) as (a' & Hr & Ha' & Ho & _).
  exists (a', b). unfold on_tty. rewrite Hr. by split_and!.
Defined.

Lemma app_file_read_ok (s : disk_state D) (F : list Z) (ino : Z) (b : block) :
  disk_inv dev plat sl patience delay cap s -> fs_inv (view s) F -> first_block (view s) ino = Some b ->
  exists s', app_file_read dev plat fuel rom pid fjunk rest stale ino 0 s = Ok ((0, b), s') /\
    disk_inv dev plat sl patience delay cap s' /\ view s' = view s.
Proof using Hfuel Hcap Hjunk.
  intros Hs HF Hb. unfold first_block in Hb. case_decide as Hino; [|done]. pose proof (inv_ninodes _ _ HF).
  destruct (handle_read_ok dev plat sl patience fuel delay cap rom Hfuel Hcap s F pid ino 0 fjunk rest Hs HF
    ltac:(lia) ltac:(lia) Hjunk) as (fs & s' & msg & Hfs & Hh & Hs' & Hv & Hres).
  exists s'. split; [|done]. unfold app_file_read. rewrite Hfs. rewrite (mbind_ok _ _ s fs s) by done.
  rewrite u32_id by lia. rewrite (mbind_ok _ _ _ _ _ Hh). specialize (Hres stale).
  rewrite decide_True in Hres by lia. change (Z.to_nat 0) with 0%nat in Hres. rewrite Hb in Hres. by rewrite Hres.
Qed.

#[global] Instance world_env : AppEnv write_world read_world.
Proof using TtySpec0 SpiSpec0 SdCard0 Hfuel Hcap Hjunk.
  refine {| env_writer := world_writer; env_read := _ |}.
  intros [a b] ino blk (Ha & Hb & F & HF) Hblk. cbn [tw_rest tw_inv tw_out world_writer fst snd] in *.
  destruct (app_file_read_ok b F ino blk Hb HF Hblk) as (b' & Hr & Hb' & Hv). exists (a, b').
  unfold on_files. rewrite Hr. split; [done|]. cbn [fst snd]. split; [|split; [done|by rewrite Hv]].
  split; [done|]. split; [done|]. exists F. cbn [snd]. by rewrite Hv.
Defined.
End env.

(** ** The directories of the image *)
Definition image_tree (users : list (list byte * list byte)) (ino : Z) : option (list entry) :=
  if decide (0 <= ino < 5) then image_dirs !! Z.to_nat ino
  else if decide (ino = 6) then Some (bin_base ++ app_entries users 7) else None.

Lemma dir_find_elem es n : 0 <= dir_find es n -> exists e, e ∈ es /\ e_name e = n.
Proof.
  unfold dir_find. destruct (list_find _ es) as [[i e]|] eqn:Hf; [|lia]. intros _.
  apply list_find_Some in Hf as (Hi & Hn & _). exists e. split; [by eapply list_elem_of_lookup_2|done].
Qed.

Lemma snoc_name l w : l ++ [SLASH] = w ++ [SLASH] -> w = l.
Proof. intros H. by apply app_inj_tail in H as [-> _]. Qed.

(** Every directory number of the tree, one case each. *)
Lemma image_tree_cases users ino es : image_tree users ino = Some es ->
  (exists k, ino = Z.of_nat k /\ image_dirs !! k = Some es) \/ (ino = 6 /\ es = bin_base ++ app_entries users 7).
Proof.
  unfold image_tree. case_decide as Hi; [|case_decide; [|done]; intros [= <-]; by right].
  intros H. left. exists (Z.to_nat ino). split; [lia|done].
Qed.

(** Cases on the name that a lookup found. *)
Ltac name_cases H :=
  repeat (apply elem_of_cons in H as [->|H]); [..|by apply not_elem_of_nil in H].

Lemma image_child users k es w : image_dirs !! k = Some es -> w <> lit "." -> w <> lit ".." ->
  0 <= dir_find es (w ++ [SLASH]) ->
  is_comp w /\ exists es', image_tree users (dir_find es (w ++ [SLASH])) = Some es' /\ dir_find es' (lit "../") = Z.of_nat k.
Proof.
  intros Hk H1 H2 Hpos. destruct (dir_find_elem _ _ Hpos) as (e & He & Hn). clear Hpos.
  destruct k as [|[|[|[|[|k]]]]]; [injection Hk as <-..|done]; name_cases He; cbn [e_name ent root_dir] in Hn;
    first
    [ (* a file *) exfalso; apply (f_equal last) in Hn; rewrite last_snoc in Hn; discriminate Hn
    | (* ./ and ../ *) exfalso; first [apply H1; apply snoc_name; exact Hn|apply H2; apply snoc_name; exact Hn]
    | match type of Hn with ?n = _ => let l := eval vm_compute in (removelast n) in
        assert (w = l) as -> by (apply snoc_name; exact Hn) end;
      split; [by apply (bool_decide_unpack _)|eexists; split; reflexivity] ].
Qed.

Lemma image_tree_ok users : users_ok users -> Forall (fun e => SLASH ∉ e_name e) (app_entries users 7) ->
  tree_ok (image_tree users).
Proof.
  intros Hus Hsl. split.
  - intros ino es [(k & -> & Hk)|(-> & ->)]%image_tree_cases.
    + assert (Forall (Forall entry_ok) image_dirs) as Hall by (apply (bool_decide_unpack _); vm_compute; exact I).
      by eapply Forall_lookup_1 in Hall.
    + apply Forall_app. split; [apply (bool_decide_unpack _); vm_compute; exact I|apply Hus].
  - intros ino es [(k & -> & Hk)|(-> & ->)]%image_tree_cases.
    + assert (Forall (fun es => 15 <= length (print_dir es))%nat image_dirs) as Hall by (apply (bool_decide_unpack _); vm_compute; exact I).
      by eapply Forall_lookup_1 in Hall.
    + unfold print_dir. rewrite bind_app, length_app. change (length (bin_base ≫= print_entry)) with 15%nat. lia.
  - intros ino es [(k & -> & Hk)|(-> & ->)]%image_tree_cases; [|reflexivity].
    destruct k as [|[|[|[|[|k]]]]]; [injection Hk as <-; reflexivity..|done].
  - exists root_dir. split; reflexivity.
  - intros ino es w [(k & -> & Hk)|(-> & ->)]%image_tree_cases H1 H2 Hpos; [by apply (image_child users k)|exfalso].
    destruct (dir_find_elem _ _ Hpos) as (e & He & Hn).
    apply elem_of_app in He as [He|He].
    + name_cases He; cbn [e_name ent] in Hn; [apply H1|apply H2]; apply snoc_name; exact Hn.
    + rewrite Forall_forall in Hsl. apply (Hsl e He). rewrite Hn. apply elem_of_app. right. by apply list_elem_of_singleton.
Qed.

(** ** A session on the image *)

Lemma image_world : exists d F, Forall is_block d /\ length d = Z.to_nat 4096 /\ fs_inv d F /\ ninodes d = 128 /\
  image_files t_users (file_of d).
Proof.
  pose proof (mkfs_ok t_rd t_rd_ok t_bins t_users (zeros 256) [] t_bins_fit t_users_ok eq_refl) as H.
  destruct (mkfs t_rd 1 t_bins t_users (zeros 256) []) as [img|e| |].
  - destruct H as (exec & fs & F & _ & _ & _ & [Hl Hb] & Hinv & Hn & Hfiles & _); [unfold SIZE_2MB; cbn; lia|].
    by exists fs, F.
  - destruct H as [_ H]; [unfold SIZE_2MB; cbn; lia|]. vm_compute in H. lia.
  - destruct H. unfold SIZE_2MB. cbn. lia.
  - destruct H. unfold SIZE_2MB. cbn. lia.
Qed.

Abbreviation s_write := (fun str len => on_tty (T := disk_state ctrl) (app_term_write (t_tty QEMU) 2 5 e_junk [] str len)).
Abbreviation s_read := (fun ino off => on_files (S := uart)
  (app_file_read (sim_dev QEMU) QEMU 2 (fun _ => Byte.x00) 5 null_block [] [] ino off)).
Definition s_env : AppEnv s_write s_read :=
  @world_env _ _ _ (t_tty QEMU) (t_spec QEMU) (sim_dev QEMU) QEMU (sim_slave QEMU) 0 2 1 8192 (fun _ => Byte.x00) _ _
    (sim_fuel QEMU) ltac:(lia) 5 e_junk [] [] null_block null_block_is_block.
#[local] Existing Instance s_env.

(** The screen and the card with the image. *)
Definition s_world (d : list block) : uart * disk_state ctrl := (t_uart, card_of d).

Lemma s_world_ok d F : Forall is_block d -> length d = Z.to_nat 4096 -> fs_inv d F ->
  tw_inv (TermWriter := @env_writer _ s_write s_read s_env) (s_world d) /\ tw_rest (TermWriter := @env_writer _ s_write s_read s_env) (s_world d) = first_block d.
Proof.
  intros Hb Hl HF. destruct (card_of_inv QEMU d Hb Hl) as [Hi Hv]. split.
  - split; [exact I|]. split; [exact Hi|]. exists F. cbn [snd s_world]. by rewrite Hv.
  - cbn [tw_rest env_writer s_env world_env world_writer snd s_world]. by rewrite Hv.
Qed.

Lemma image_first_dir d k es : ninodes d = 128 -> image_files t_users (file_of d) -> image_dirs !! k = Some es ->
  first_block d (Z.of_nat k) = Some (dir_block es).
Proof.
  intros Hn Hf Hk. unfold first_block. pose proof (lookup_lt_Some _ _ _ Hk) as Hlt. change (length image_dirs) with 5%nat in Hlt.
  rewrite decide_True by (rewrite Hn; lia). by rewrite (if_dirs _ _ Hf k es Hk).
Qed.

Lemma image_dir_block k es : image_dirs !! k = Some es -> is_dir (dir_block es) es.
Proof.
  intros Hk. apply dir_block_is_dir.
  assert (Forall (fun es => length (print_dir es) < 512)%nat image_dirs) as Hall by (apply (bool_decide_unpack _); vm_compute; exact I).
  by eapply Forall_lookup_1 in Hall.
Qed.

(** [ls] in the home directory. *)
Lemma ls_correct_witness : exists d s' out,
  ls s_write s_read e_junk 2 1 [] (s_world d) = Ok (0, s') /\ u_tx s'.1 = out ++ newline /\
  words [] out = [lit "./"; lit "../"; lit "README"].
Proof.
  destruct image_world as (d & F & Hb & Hl & HF & Hn & Hfiles). destruct (s_world_ok d F Hb Hl HF) as [Hinv Hrest].
  destruct (@ls_correct _ s_write s_read s_env e_junk eq_refl 2 (dir_block [ent "./" 2; ent "../" 1; ent "README" 5])
    [ent "./" 2; ent "../" 1; ent "README" 5] [] (s_world d)) as (s' & out & Hr & (_ & Ho & _) & _ & Hw).
  - exact Hinv.
  - rewrite Hrest. exact (image_first_dir d 2 _ Hn Hfiles eq_refl).
  - exact (image_dir_block 2 _ eq_refl).
  - apply (bool_decide_unpack _). vm_compute. exact I.
  - apply (bool_decide_unpack _). vm_compute. exact I.
  - apply (bool_decide_unpack _). vm_compute. exact I.
  - exists d, s', out. split; [exact Hr|]. split; [exact Ho|exact Hw].
Defined.

(** [cat README] there. *)
Lemma cat_correct_witness : exists d s',
  cat s_write s_read e_junk 2 2 [lit "cat" ++ [NUL]; lit "README" ++ [NUL]] (s_world d) = Ok (0, s') /\
  u_tx s'.1 = README_TEXT ++ newline.
Proof.
  destruct image_world as (d & F & Hb & Hl & HF & Hn & Hfiles). destruct (s_world_ok d F Hb Hl HF) as [Hinv Hrest].
  destruct (@cat_correct _ s_write s_read s_env e_junk eq_refl 2 (dir_block [ent "./" 2; ent "../" 1; ent "README" 5])
    [ent "./" 2; ent "../" 1; ent "README" 5] (lit "cat" ++ [NUL]) (lit "README") [] README_TEXT
    (zeros (Z.to_nat BLOCK_SIZE - length README_TEXT - 1)) (s_world d)) as (s' & Hr & (_ & Ho & _)).
  - exact Hinv.
  - rewrite Hrest. exact (image_first_dir d 2 _ Hn Hfiles eq_refl).
  - exact (image_dir_block 2 _ eq_refl).
  - apply (bool_decide_unpack _). vm_compute. exact I.
  - apply (bool_decide_unpack _). vm_compute. exact I.
  - reflexivity.
  - cbn. lia.
  - apply (bool_decide_unpack _). vm_compute. exact I.
  - intros _. etransitivity; [exact (f_equal (fun f => f 5) Hrest)|]. unfold first_block.
    rewrite decide_True by (rewrite Hn; lia). by rewrite (if_readme _ _ Hfiles).
  - apply (bool_decide_unpack _). vm_compute. exact I.
  - vm_compute. split; lia.
  - exists d, s'. split; [exact Hr|exact Ho].
Defined.

(** [cd yunhao] in [/home]. *)
Lemma cd_correct_witness : exists d wd' s',
  cd s_write s_read e_junk {| wd_ino := 1; wd_path := lit "/home" ++ zeros 64 |} 2
    [lit "cd" ++ [NUL]; lit "yunhao" ++ [NUL; NUL]] (s_world d) = Ok ((0, wd'), s') /\
  wd_at (image_tree t_users) [lit "home"; lit "yunhao"] wd'.
Proof.
  destruct image_world as (d & F & Hb & Hl & HF & Hn & Hfiles). destruct (s_world_ok d F Hb Hl HF) as [Hinv Hrest].
  assert (tree_ok (image_tree t_users)) as Htree.
  { apply image_tree_ok; [apply t_users_ok|]. apply (bool_decide_unpack _). vm_compute. exact I. }
  destruct (@cd_correct _ s_write s_read s_env (image_tree t_users) Htree e_junk eq_refl [lit "home"]
    {| wd_ino := 1; wd_path := lit "/home" ++ zeros 64 |}
    [ent "./" 1; ent "../" 0; ent "yunhao/" 2; ent "rvr/" 3; ent "yacqub/" 4]
    (lit "cd" ++ [NUL]) (lit "yunhao") (lit "yunhao") NUL [] (s_world d)) as [(res & wd' & s' & Hr & H) _].
  - exact Hinv.
  - intros ino es Hes. rewrite Hrest. apply image_tree_cases in Hes as [(k & -> & Hk)|(-> & ->)].
    + exists (dir_block es). split; [by apply image_first_dir|by eapply image_dir_block].
    + destruct (if_bin _ _ Hfiles) as (b & Hb6 & Hdir). exists b. split; [|done]. unfold first_block.
      rewrite decide_True by (rewrite Hn; lia). by rewrite Hb6.
  - split_and!; [by apply (bool_decide_unpack _)|by apply (bool_decide_unpack _)|reflexivity|by exists (zeros 63)].
  - reflexivity.
  - apply (bool_decide_unpack _). vm_compute. exact I.
  - reflexivity.
  - apply (bool_decide_unpack _). vm_compute. exact I.
  - cbn. lia.
  - apply (bool_decide_unpack _). vm_compute. exact I.
  - cbn. lia.
  - rewrite decide_False in H by (vm_compute; congruence). destruct H as (-> & Hwd & _). exists d, wd', s'. split; [exact Hr|exact Hwd].
Defined.
