(* ===== verification/Boot.v ===== *)
(** * Booting

    [earth/boot.c], the rest of [mmu_init] of [earth/cpu_mmu.c] and the start of
    [grass/init.c]: the first core initialises the devices, asks for the
    translation mechanism, loads GPID_PROCESS from the disk and enters it; the
    other cores stop. *)

From stdpp Require Import options.
From coqutil Require Import Byte.
From S2P Require Import Prelude CString InodeStore Earth Timer Mmu SoftTlb MmuProps PageTable Process Kernel KernelInv KernelIpc KernelSched KernelTrace KernelFair KernelProps Disk DiskSpec DiskProps Tty Terminal Print DiskInit Dir Shell Elf ElfSpec ElfProps Devices SysProc.

(** The machine-mode registers that the initialisers write. *)
Record csrs : Type := {
  pmpaddr0 : Z;
  pmpcfg0 : Z;
  satp : Z;
  mtvec : Z;
  mip : Z;
  mie : Z;
  mstatus : Z;
}.
Definition csr_pmp (c : csrs) : csrs :=
  {| pmpaddr0 := 0x40000000; pmpcfg0 := 0xF; satp := satp c; mtvec := mtvec c; mip := mip c; mie := mie c; mstatus := mstatus c |}.
Definition csr_satp (c : csrs) (root : Z) : csrs :=
  {| pmpaddr0 := pmpaddr0 c; pmpcfg0 := pmpcfg0 c; satp := Z.lor (Z.shiftr root 12) (Z.shiftl 1 31);
     mtvec := mtvec c; mip := mip c; mie := mie c; mstatus := mstatus c |}.
Definition csr_mtvec (c : csrs) (v : Z) : csrs :=
  {| pmpaddr0 := pmpaddr0 c; pmpcfg0 := pmpcfg0 c; satp := satp c; mtvec := v; mip := mip c; mie := mie c; mstatus := mstatus c |}.
Definition csr_enable (c : csrs) : csrs :=
  {| pmpaddr0 := pmpaddr0 c; pmpcfg0 := pmpcfg0 c; satp := satp c; mtvec := mtvec c;
     mip := 0; mie := Z.lor (mie c) 0x80; mstatus := Z.lor (mstatus c) 0x88 |}.
Definition csr_mstatus (c : csrs) (v : Z) : csrs :=
  {| pmpaddr0 := pmpaddr0 c; pmpcfg0 := pmpcfg0 c; satp := satp c; mtvec := mtvec c; mip := mip c; mie := mie c; mstatus := v |}.

(** The devices and the static variables at boot. *)
Record board (U D : Type) : Type := {
  b_uart : U;
  b_disk : disk_state D;
  b_tables : pagetables;
  b_lock : Z;
  b_booted : Z;
  b_csr : csrs;
  b_hart : hart;
}.
Arguments b_uart {U D} _.
Arguments b_disk {U D} _.
Arguments b_tables {U D} _.
Arguments b_lock {U D} _.
Arguments b_booted {U D} _.
Arguments b_csr {U D} _.
Arguments b_hart {U D} _.

(** The loader runs on the board: the memory is next to the disk that it reads. *)
#[global] Instance board_machine {U D} : HasMachine (board U D).
Proof.
  refine {| get_machine b := pt_machine (b_tables b);
    set_machine b s := {| b_uart := b_uart b; b_disk := b_disk b; b_tables := with_machine (b_tables b) s;
      b_lock := b_lock b; b_booted := b_booted b; b_csr := b_csr b; b_hart := b_hart b |} |}; [done|by intros [? ? [] ? ? ? ?]].
Defined.

Section Boot.
Context {U D : Type} (udev : mmio U) (sdev : mmio D) (fuel : nat) (mtime : nat -> Z).
Context (rom : Z -> byte) (trap_entry : Z) (junk : list byte).
Implicit Types (b : board U D).

Definition with_uart b (u : U) : board U D := {| b_uart := u; b_disk := b_disk b; b_tables := b_tables b;
  b_lock := b_lock b; b_booted := b_booted b; b_csr := b_csr b; b_hart := b_hart b |}.
Definition with_disk b (d : disk_state D) : board U D := {| b_uart := b_uart b; b_disk := d; b_tables := b_tables b;
  b_lock := b_lock b; b_booted := b_booted b; b_csr := b_csr b; b_hart := b_hart b |}.
Definition with_tables b (p : pagetables) : board U D := {| b_uart := b_uart b; b_disk := b_disk b; b_tables := p;
  b_lock := b_lock b; b_booted := b_booted b; b_csr := b_csr b; b_hart := b_hart b |}.
Definition with_lock b (v : Z) : board U D := {| b_uart := b_uart b; b_disk := b_disk b; b_tables := b_tables b;
  b_lock := v; b_booted := b_booted b; b_csr := b_csr b; b_hart := b_hart b |}.
Definition with_booted b (v : Z) : board U D := {| b_uart := b_uart b; b_disk := b_disk b; b_tables := b_tables b;
  b_lock := b_lock b; b_booted := v; b_csr := b_csr b; b_hart := b_hart b |}.
Definition with_csr b (v : csrs) : board U D := {| b_uart := b_uart b; b_disk := b_disk b; b_tables := b_tables b;
  b_lock := b_lock b; b_booted := b_booted b; b_csr := v; b_hart := b_hart b |}.

(** Running code on one part of the board. *)
Definition on {S A} (get : board U D -> S) (set : board U D -> S -> board U D) (m : M S A) : M (board U D) A := fun b =>
  match m (get b) with
  | Ok (a, s) => Ok (a, set b s)
  | Fatal e => Fatal e
  | Stuck => Stuck
  | NoFuel => NoFuel
  end.
Abbreviation on_uart := (on b_uart with_uart).
Abbreviation on_disk := (on b_disk with_disk).
Abbreviation on_tables := (on b_tables with_tables).

Section Platform.
Context (plat : platform).
Abbreviation console := (tty_init udev plat fuel).
Abbreviation tw := (term_write console).
Definition say (s : list byte) (args : list arg) : M (board U D) unit := on_uart (SUCCESS tw junk s args).
(** [term_write] on the board. *)
Definition board_write (str : list byte) (n : nat) : M (board U D) unit := on_uart (tw str n).

(** [disk_init], which drives the disk and prints. *)
Definition disk_setup : M (board U D) unit :=
  on (fun b => (b_disk b, b_uart b)) (fun b p => with_uart (with_disk b p.1) p.2) (disk_init sdev plat fuel tw junk).

(** ** cpu_mmu.c: mmu_init *)

(** [for (buf[0] = 0; buf[0] != '0' && buf[0] != '1'; earth->tty_read(&buf[0]));] *)
Fixpoint choose (n : nat) (c : byte) : M U byte :=
  if bool_decide (c = Byte.x30) || bool_decide (c = Byte.x31) then mret c
  else match n with
       | O => mnofuel
       | S n => c ← tty_read console; choose n c
       end.

Definition mmu_setup (n : nat) : M (board U D) translation :=
  mmodify (fun b => with_csr b (csr_pmp (b_csr b)));;
  on_uart (CRITICAL tw junk (lit "Choose a memory translation mechanism:" ++ [NUL]) []);;
  on_uart (my_printf tw junk (lit "Enter 0: page tables" ++ newline ++ lit "Enter 1: software TLB" ++ newline ++ [NUL]) []);;
  c ← on_uart (choose n NUL);
  let tr := if bool_decide (c = Byte.x30) then PAGE_TABLE else SOFT_TLB in
  on_uart (INFO tw junk (lit "%s translation is chosen" ++ [NUL])
    [AStr (if decide (tr = PAGE_TABLE) then lit "Page table" ++ [NUL] else lit "Software" ++ [NUL])]);;
  (if decide (tr = PAGE_TABLE) then
     on_tables (pagetable_identity_map plat 0);;
     mmodify (fun b => with_csr b (csr_satp (b_csr b) (root (b_tables b))))
   else mret tt);;
  mret tr.

(** ** cpu_intr.c: intr_init *)
Definition intr_setup (core_id : Z) : M (board U D) unit :=
  on_tables (machine_call (fun s =>
    match intr_init core_id (timer s) with
    | Ok (_, t) => Ok (tt, with_timer s t)
    | Fatal e => Fatal e
    | Stuck => Stuck
    | NoFuel => NoFuel
    end));;
  mmodify (fun b => with_csr b (csr_mtvec (b_csr b) trap_entry));;
  on_uart (INFO tw junk (lit "Use direct mode and put the address of the trap_entry into mtvec" ++ [NUL]) []);;
  mmodify (fun b => with_csr b (csr_enable (b_csr b))).

(** ** init.c: sys_proc_read *)
Definition grass_sys_proc_read (block_no : Z) : M (board U D) block :=
  on_disk (disk_read sdev plat fuel rom (u32 (SYS_PROC_EXEC_START + block_no)) 1).

(** ** init.c: grass_entry *)

(** The value of [mstatus] with which [mret] enters GPID_PROCESS. *)
Definition grass_mode (tr : translation) : Z := if decide (tr = SOFT_TLB) then 3 else 0.
Definition grass_mstatus (tr : translation) (ms : Z) : Z :=
  Z.lor (Z.land ms (Z.lnot (Z.shiftl 3 11))) (Z.shiftl (grass_mode tr) 11).

Definition grass_start (tr : translation) : M (board U D) (kernel machine) :=
  say (lit "Enter the grass layer" ++ [NUL]) [];;
  on_uart (INFO tw junk (lit "Load kernel process #%d: sys_process" ++ [NUL]) [AInt GPID_PROCESS]);;
  let e := mmu_init mtime plat tr in
  elf_load e board_write junk grass_sys_proc_read GPID_PROCESS 0 None;;
  b ← mget;
  '(_, k) ← mlift (grass_entry e (boot_kernel (b_hart b) (get_machine b)));
  mput (set_machine b (mach k));;
  mmodify (fun b => with_csr b (csr_mstatus (b_csr b) (grass_mstatus tr (mstatus (b_csr b)))));;
  mret k.
End Platform.

(** ** boot.c *)

(** How [boot] ends on a core: it hangs, or it enters GPID_PROCESS with the kernel
    in this state. *)
Inductive boot_end : Type :=
| Hangs
| Enters (tr : translation) (k : kernel machine).

Definition platform_of (vendor_id : Z) : platform := if vendor_id =? 666 then ARTY else QEMU.

(** [n] bounds the characters that the user types before choosing. *)
Definition boot (n : nat) (vendor_id : Z) : M (board U D) boot_end :=
  b ← mget;
  let core_id := mhartid (b_hart b) in
  let plat := platform_of vendor_id in
  if bool_decide (plat = QEMU) && (core_id =? 0) then mmodify (fun b => with_lock b 0);; mret Hangs
  else
    mput (with_booted b (i32 (b_booted b + 1)));;
    if b_booted b =? 0 then
      on_uart (CRITICAL (term_write (tty_init udev plat fuel)) junk (lit "--- Booting on %s with core #%d ---" ++ [NUL])
        [AStr (if decide (plat = ARTY) then lit "Arty" ++ [NUL] else lit "QEMU" ++ [NUL]); AInt (i32 core_id)]);;
      disk_setup plat;;
      say plat (lit "Finished initializing the tty and disk devices" ++ [NUL]) [];;
      tr ← mmu_setup plat n;
      intr_setup plat core_id;;
      say plat (lit "Finished initializing the MMU, timer and interrupts" ++ [NUL]) [];;
      k ← grass_start plat tr;
      mret (Enters tr k)
    else
      say plat (lit "--- Core #%d starts running ---" ++ [NUL]) [AInt (i32 core_id)];;
      mret Hangs.
End Boot.
