(* ===== verification/BootProps.v ===== *)
(** * Booting: from power-on to the first process

    The boot log, the identity page tables next to the software TLB, and the state
    in which the first core enters GPID_PROCESS. *)

From stdpp Require Import options.
From coqutil Require Import Byte.
From S2P Require Import Prelude CString InodeStore Earth Timer Mmu SoftTlb MmuProps PageTable PageTableProps Process Kernel KernelInv KernelIpc KernelSched KernelTrace KernelFair KernelProps KernelWitness Disk DiskSpec SdSim DiskProps Tty Terminal Print DiskInit Dir Shell Elf ElfSpec ElfProps Devices SysProc SysProcProps Startup Boot.

(** ** The identity map leaves the software TLB alone *)

(** The part of [tlb_inv] that is about the page table, for a machine in which no
    process has a frame and [pid] is not the current one. *)
Record table_ok (pid : Z) (s : machine) : Prop := {
  tk_len : length (page_info_table s) = 2048%nat;
  tk_window i p : page_info_table s !! i = Some p -> use p <> 0 -> pi_pid p <> 0 -> in_window (vpage_no p);
  tk_inj i j p q : page_info_table s !! i = Some p -> page_info_table s !! j = Some q ->
    use p <> 0 -> use q <> 0 -> pi_pid p <> 0 -> pi_pid p = pi_pid q -> vpage_no p = vpage_no q -> i = j;
  tk_vm : curr_vm_pid s <> 0 /\ curr_vm_pid s <> pid;
  tk_free i p : page_info_table s !! i = Some p -> use p = 0 -> pi_pid p = 0;
  tk_none i p : page_info_table s !! i = Some p -> use p <> 0 -> pi_pid p = 0;
}.

(** [m] keeps a property of the machine. *)
Definition keeps {S A} (P : S -> Prop) (m : M S A) : Prop := forall s a s', m s = Ok (a, s') -> P s -> P s'.

Lemma keeps_bind {S A B} (P : S -> Prop) (m : M S A) (f : A -> M S B) : keeps P m -> (forall a, keeps P (f a)) -> keeps P (m ≫= f).
Proof.
  intros Hm Hf s b s' Hr Hs. unfold mbind, M_bind in Hr. destruct (m s) as [[a s1]| | |] eqn:Heq; [|done..].
  eapply Hf; [exact Hr|]. by eapply Hm.
Qed.
Lemma keeps_ret {S A} (P : S -> Prop) (a : A) : keeps P (mret (M := M S) a).
Proof. intros s b s' [= _ <-]. done. Qed.
Lemma keeps_modify {S} (P : S -> Prop) (f : S -> S) : (forall s, P s -> P (f s)) -> keeps P (mmodify f).
Proof. intros Hf s b s' [= _ <-]. apply Hf. Qed.
Lemma keeps_get {S} (P : S -> Prop) : keeps P (mget (S := S)).
Proof. intros s b s' [= _ <-]. done. Qed.
Lemma keeps_get_bind {S B} (P : S -> Prop) (f : S -> M S B) :
  (forall s, P s -> forall b s', f s s = Ok (b, s') -> P s') -> keeps P (mget ≫= f).
Proof. intros Hf s b s' Hr Hs. exact (Hf s Hs b s' Hr). Qed.
Lemma keeps_put_bind {S B} (P : S -> Prop) (s1 s : S) (m : M S B) : P s1 -> keeps P m ->
  forall b s', (mput s1;; m) s = Ok (b, s') -> P s'.
Proof. intros H1 Hm b s' Hr. exact (Hm s1 b s' Hr H1). Qed.
Lemma keeps_fatal {S A} (P : S -> Prop) e : keeps P (@mfatal S A e).
Proof. by intros s b s'. Qed.

Section tables.
Context (pid : Z) (Hpid : pid <> 0).
Abbreviation P := (table_ok pid).

(** An entry of process 0 can be written anywhere. *)
Lemma table_ok_entry s i e : P s -> pi_pid e = 0 -> P (with_table s (<[i := e]> (page_info_table s))).
Proof using Hpid.
  intros [H1 H2 H3 H4 H5 H6] He. split; cbn [page_info_table with_table curr_vm_pid].
  - by rewrite length_insert.
  - intros j p Hp Hu Hne. apply list_lookup_insert_Some in Hp as [(_ & <- & _)|[_ Hp]]; [done|by eapply H2].
  - intros j k p q Hp Hq Hu Hu' Hne Heq Hv.
    apply list_lookup_insert_Some in Hp as [(_ & <- & _)|[_ Hp]]; [done|].
    apply list_lookup_insert_Some in Hq as [(_ & <- & _)|[_ Hq]]; [congruence|]. by eapply H3.
  - done.
  - intros j p Hp Hu. apply list_lookup_insert_Some in Hp as [(_ & <- & _)|[_ Hp]]; [done|by eapply H5].
  - intros j p Hp Hu. apply list_lookup_insert_Some in Hp as [(_ & <- & _)|[_ Hp]]; [done|by eapply H6].
Qed.

Lemma table_ok_mem s m : P s -> P (with_mem s m).
Proof using Type. intros [H1 H2 H3 H4 H5 H6]. by split. Qed.

Lemma alloc_loop_keeps n i : keeps P (mmu_alloc_loop n i).
Proof using Hpid.
  revert i. induction n as [|n IH]; intros i; cbn [mmu_alloc_loop]; [apply keeps_fatal|].
  intros s a s' Hr Hs. unfold mbind, M_bind, mget in Hr.
  destruct (page_info_table s !! Z.to_nat i) as [p|] eqn:Hp; cbn in Hr; [|done].
  destruct (Z.eqb_spec (use p) 0) as [Hu|Hu]; cbn in Hr.
  - injection Hr as _ <-. apply table_ok_entry; [done|]. cbn. by eapply tk_free.
  - by eapply IH.
Qed.

Lemma keeps_machine {A} (m : M machine A) : keeps P m -> keeps (fun s => P (pt_machine s)) (machine_call m).
Proof using Type.
  intros Hm s a s' Hr Hs. unfold machine_call in Hr. destruct (m (pt_machine s)) as [[b m']| | |] eqn:Heq; [|done..].
  injection Hr as <- <-. by eapply Hm.
Qed.

Lemma set_pid_keeps id : keeps P (set_page_pid id 0).
Proof using Hpid.
  intros s a s' Hr Hs. unfold set_page_pid in Hr. destruct (page_info_table s !! Z.to_nat id) as [p|]; [|done].
  injection Hr as _ <-. by apply table_ok_entry.
Qed.

Lemma mem_keeps f : keeps P (mem_modify f).
Proof using Type. apply keeps_modify. intros s. apply table_ok_mem. Qed.

Lemma region_keeps addr npages flag : keeps (fun s => P (pt_machine s)) (setup_identity_region 0 addr npages flag).
Proof using Hpid.
  unfold setup_identity_region. apply keeps_bind; [apply keeps_get|]. intros s. apply keeps_bind.
  - destruct (_ =? 0); [|by apply keeps_modify].
    apply keeps_bind; [apply keeps_machine, alloc_loop_keeps|]. intros id.
    apply keeps_bind; [by apply keeps_modify|]. intros _. apply keeps_bind; [apply keeps_machine, set_pid_keeps|]. intros _.
    apply keeps_bind; [apply keeps_get|]. intros s1. apply keeps_bind; [apply keeps_machine, mem_keeps|]. intros _.
    apply keeps_machine, mem_keeps.
  - intros _. apply keeps_bind; [apply keeps_get|]. intros s1. apply keeps_machine, mem_keeps.
Qed.

Lemma ram_keeps n i : keeps (fun s => P (pt_machine s)) (ram_regions n 0 i).
Proof using Hpid.
  revert i. induction n as [|n IH]; intros i; cbn [ram_regions]; destruct (i <? RAM_END); try apply keeps_ret; [by intros s a s'|].
  apply keeps_bind; [apply region_keeps|]. intros _. apply IH.
Qed.

Lemma identity_map_keeps plat : keeps (fun s => P (pt_machine s)) (pagetable_identity_map plat 0).
Proof using Hpid.
  unfold pagetable_identity_map. apply keeps_bind; [apply keeps_machine, alloc_loop_keeps|]. intros id.
  apply keeps_bind; [by apply keeps_modify|]. intros _. apply keeps_bind; [apply keeps_machine, set_pid_keeps|]. intros _.
  apply keeps_get_bind. intros s Hs b s' Hr. destruct (bool_decide _); [|done].
  revert b s' Hr. apply keeps_put_bind; [exact Hs|]. apply keeps_bind; [apply keeps_machine, mem_keeps|]. intros _.
  apply keeps_bind; [apply ram_keeps|]. intros _.
  do 3 (apply keeps_bind; [apply region_keeps|]; intros _).
  destruct (decide (plat = ARTY)); [|apply keeps_ret].
  do 3 (apply keeps_bind; [apply region_keeps|]; intros _). apply region_keeps.
Qed.
End tables.

(** With the tables, the machine still satisfies the invariant of the TLB, and the
    process has no page. *)
Lemma table_ok_tlb pid s : pid <> 0 -> table_ok pid s -> (forall n, is_page (page_at (mem s) n)) ->
  tlb_inv s /\ forall v, tlb_aspace s pid v = None.
Proof.
  intros Hpid [H1 H2 H3 [H4 H4'] H5 H6] Hpg. split; [by split|]. intros v. unfold tlb_aspace. rewrite decide_False by done.
  assert (frame_of (page_info_table s) pid v = None) as ->; [|done]. unfold frame_of.
  destruct (list_find _ _) as [[i p]|] eqn:Hf; [|done]. apply list_find_Some in Hf as (Hp & [Ho _] & _).
  apply owned_true in Ho as [Hu Heq]. apply H6 in Hp; congruence.
Qed.

Lemma table_ok_timer pid s t : table_ok pid s -> table_ok pid (with_timer s t).
Proof. intros [H1 H2 H3 H4 H5 H6]. by split. Qed.

(** ** The log *)
Definition platform_name (plat : platform) : string := if decide (plat = ARTY) then "Arty" else "QEMU".
Definition translation_name (tr : translation) : string := if decide (tr = PAGE_TABLE) then "Page table" else "Software".

Definition booting (plat : platform) (core : Z) : list piece :=
  text "--- Booting on " ++ [Str (lit (platform_name plat)) []] ++ text " with core #" ++ [Dec core] ++ text " ---".
Definition chosen (tr : translation) : list piece := Str (lit (translation_name tr)) [] :: text " translation is chosen".
Definition loading_process : list piece := text "Load kernel process #" ++ [Dec GPID_PROCESS] ++ text ": sys_process".

(** What the first core prints: with the disk that it finds, and the segments of the
    process that it loads. *)
Definition boot_log (plat : platform) (core : Z) (disk : disk_type) (tr : translation) (phs : list elf32_program_header) : list byte :=
  msg CRITICAL_PREFIX COLOR_SUFFIX (booting plat core) ++
  disk_log plat disk ++
  msg SUCCESS_PREFIX COLOR_SUFFIX (text "Finished initializing the tty and disk devices") ++
  msg CRITICAL_PREFIX COLOR_SUFFIX (text "Choose a memory translation mechanism:") ++
  lit "Enter 0: page tables" ++ newline ++ lit "Enter 1: software TLB" ++ newline ++
  msg INFO_PREFIX newline (chosen tr) ++
  msg INFO_PREFIX newline (text "Use direct mode and put the address of the trap_entry into mtvec") ++
  msg SUCCESS_PREFIX COLOR_SUFFIX (text "Finished initializing the MMU, timer and interrupts") ++
  msg SUCCESS_PREFIX COLOR_SUFFIX (text "Enter the grass layer") ++
  msg INFO_PREFIX newline loading_process ++
  segment_lines phs.

(** ** [mstatus] *)
Lemma grass_mstatus_bits tr ms i : 0 <= i -> Z.testbit (grass_mstatus tr ms) i =
  if decide (i = 11 \/ i = 12) then bool_decide (tr = SOFT_TLB) else Z.testbit ms i.
Proof.
  intros Hi. unfold grass_mstatus. rewrite Z.lor_spec, Z.land_spec, Z.lnot_spec by done.
  assert (Z.testbit (Z.shiftl 3 11) i = bool_decide (i = 11 \/ i = 12)) as H3.
  { rewrite Z.shiftl_spec by done. destruct (decide (i < 11)).
    - rewrite Z.testbit_neg_r by lia. by rewrite bool_decide_false by lia.
    - destruct (decide (i = 11)) as [->|]; [done|]. destruct (decide (i = 12)) as [->|]; [done|].
      rewrite bool_decide_false by lia. rewrite Z.bits_above_log2; [done|lia|]. change (Z.log2 3) with 1. lia. }
  rewrite H3. unfold grass_mode. destruct tr.
  - rewrite (decide_False (P := PAGE_TABLE = SOFT_TLB)), Z.shiftl_0_l, Z.bits_0, orb_false_r by done. destruct (decide (i = 11 \/ i = 12)) as [Hc|Hc].
    + rewrite (bool_decide_true (i = 11 \/ i = 12)) by done. apply andb_false_r.
    + rewrite bool_decide_false by done. apply andb_true_r.
  - rewrite (decide_True (P := SOFT_TLB = SOFT_TLB)) by done. rewrite H3. destruct (decide (i = 11 \/ i = 12)) as [Hc|Hc].
    + rewrite !bool_decide_true by done. apply orb_true_r.
    + rewrite (bool_decide_false (i = 11 \/ i = 12)) by done. by rewrite andb_true_r, orb_false_r.
Qed.

Lemma intr_bits i : 0 <= i -> Z.testbit 0x88 i = bool_decide (i = 3 \/ i = 7).
Proof.
  intros Hi. destruct (decide (i < 8)) as [Hlt|Hge].
  - assert (i = 0 \/ i = 1 \/ i = 2 \/ i = 3 \/ i = 4 \/ i = 5 \/ i = 6 \/ i = 7) as Hc by lia.
    by destruct Hc as [->|[->|[->|[->|[->|[->|[->| ->]]]]]]].
  - rewrite bool_decide_false by lia. apply Z.bits_above_log2; [done|]. change (Z.log2 0x88) with 7. lia.
Qed.

Section boot.
Context {U D C : Type} (udev : mmio U) (sdev : mmio D) (sl : slave C) (vendor_id : Z).
Abbreviation plat := (platform_of vendor_id).
Context (fuel patience delay : nat) (cap : Z) (mtime : nat -> Z) (rom : Z -> byte) (trap_entry : Z) (junk : list byte).
Abbreviation console := (tty_init udev plat fuel).
Context `{!TtySpec console, !SpiSpec sdev plat sl patience, !SdCard sl plat cap delay}.
Context (Hfuel : fuel_ok plat patience fuel delay cap) (Hcap : 2 * (EGOS_BIN_MAX_NBYTE / BLOCK_SIZE) <= cap) (Hclock : clock_ok mtime).
Context (Hjunk : length junk = Z.to_nat TERM_BUF_SIZE).
Implicit Types (b : board U D).

Lemma wp_on {S A} E (get : board U D -> S) set (m : M S A) b Q :
  wp E m (get b) (fun a s => Q a (set b s)) -> wp E (on get set m) b Q.
Proof using Type. unfold wp, on. by destruct (m (get b)) as [[a s]| | |]. Qed.

(** A message. *)
Lemma wp_board_log E prefix suffix fmt args ps b (Q : unit -> board U D -> Prop) :
  fmt = fmt_of ps ++ [NUL] -> args = args_of ps -> Forall piece_ok ps -> no_nul prefix -> no_nul suffix ->
  (length (msg prefix suffix ps) < 512)%nat -> tty_inv (b_uart b) ->
  (forall u, tty_inv u -> typed u = typed (b_uart b) -> printed u = printed (b_uart b) ++ msg prefix suffix ps -> Q tt (with_uart b u)) ->
  wp E (on b_uart with_uart (LOG (term_write console) junk prefix suffix fmt args)) b Q.
Proof using Hjunk.
  intros -> -> Hps Hpre Hsuf Hl Hinv HQ. apply wp_on.
  pose proof (log_spec (term_write console) prefix suffix ps [] junk (b_uart b) Hpre Hsuf Hps Hjunk Hinv) as H. cbv zeta in H.
  rewrite decide_True in H by exact Hl. destruct H as (u & Hr & Hu & Hp & Ht). eapply wp_ok; [exact Hr|]. by apply HQ.
Qed.

(** The answer to the question: the first [0] or [1] that is typed. *)
Lemma choose_ok n c0 pre c rest u : tty_inv u -> typed u = pre ++ c :: rest ->
  c0 <> Byte.x30 -> c0 <> Byte.x31 -> Forall (fun x => x <> Byte.x30 /\ x <> Byte.x31) pre -> c = Byte.x30 \/ c = Byte.x31 ->
  (length pre < n)%nat ->
  exists u', choose udev fuel plat n c0 u = Ok (c, u') /\ tty_inv u' /\ typed u' = rest /\ printed u' = printed u.
Proof using Hjunk.
  intros Hu Ht H0 H1 Hpre Hc. revert n c0 u Hu Ht H0 H1. induction Hpre as [|x pre [Hx0 Hx1] _ IH]; intros n c0 u Hu Ht H0 H1 Hn;
    (destruct n as [|n]; [cbn in Hn; lia|]); cbn [choose]; rewrite !(bool_decide_false (c0 = _)) by done; cbn [orb].
  - destruct (tty_read_spec u c rest Hu Ht) as (u' & Hr & Hu' & Ht' & Hp). rewrite (mbind_ok _ _ _ _ _ Hr). exists u'.
    split; [|done]. destruct n; cbn [choose]; destruct Hc as [->| ->]; done.
  - destruct (tty_read_spec u x (pre ++ c :: rest) Hu Ht) as (u1 & Hr & Hu1 & Ht1 & Hp1). rewrite (mbind_ok _ _ _ _ _ Hr).
    destruct (IH n x u1 Hu1 Ht1 Hx0 Hx1 ltac:(cbn in Hn; lia)) as (u' & Hr' & Hu' & Ht' & Hp'). exists u'.
    split_and!; [done|done|done|congruence].
Qed.

(** ** The steps *)

(** The disk that was found has the blocks [m]: those of the card or of the flash. *)
Definition rom_block (n : Z) : block :=
  (fun i => rom (u32 (u32 (BOARD_FLASH_ROM + n * BLOCK_SIZE) + Z.of_nat i))) <$> seq 0 512.
Definition disk_ok (m : Z -> block) (d : disk_state D) : Prop :=
  dtype d = SD_CARD /\ card_holds sdev plat sl patience delay cap m (dhw d) \/ dtype d = FLASH_ROM /\ m = rom_block.

(** What the board is before GPID_PROCESS is loaded: the disk and the tables. *)
Record ready (m : Z -> block) b : Prop := {
  rd_uart : tty_inv (b_uart b);
  rd_disk : disk_ok m (b_disk b);
  rd_table pid : 0 < pid -> table_ok pid (pt_machine (b_tables b));
  rd_pages n : is_page (page_at (mem (pt_machine (b_tables b))) n);
  rd_bases : length (pid_to_pagetable_base (b_tables b)) = 256%nat;
}.
(** The parts that a step does not change, and its output. *)
Definition same_rest b b' : Prop := b_booted b' = b_booted b /\ b_hart b' = b_hart b /\ b_lock b' = b_lock b.

Lemma ready_uart m b u : ready m b -> tty_inv u -> ready m (with_uart b u).
Proof using Type. intros [H1 H2 H3 H4 H5] Hu. by split. Qed.

Abbreviation full := (fun e => e = no_memory).

(** The registers of the memory management unit after [mmu_init], and the tables. *)
Definition csr_mmu (tr : translation) (rt : Z) (c : csrs) : csrs :=
  if decide (tr = PAGE_TABLE) then csr_satp (csr_pmp c) rt else csr_pmp c.
Definition tables_ok (tr : translation) (p : pagetables) : Prop := tr = PAGE_TABLE ->
  forall va, 0 <= va < 2 ^ 32 -> sv32 (mem (pt_machine p)) (root p) va =
    if page_mapped plat (va / PAGE_SIZE) then Some va else None.
(** The same with the frames they are in. *)
Definition tables_in (tr : translation) (p : pagetables) : Prop := tr = PAGE_TABLE -> exists s0 rid lf,
  pt_ok s0 rid lf (page_mapped plat) (page_info_table (pt_machine p)) (mem (pt_machine p)) /\
  root p = PAGE_ID_TO_ADDR (Z.of_nat rid).

(** Code that keeps the frames of the system keeps the tables. *)
Lemma tables_in_ok tr p s pid : table_ok pid (pt_machine p) -> tables_in tr p ->
  (forall i q, system_frame (pt_machine p) i q -> page_at (mem s) (frame i) = page_at (mem (pt_machine p)) (frame i)) ->
  tables_ok tr (with_machine p s).
Proof using Type.
  intros Htk Htb Hsys Htr va Hva. destruct (Htb Htr) as (s0 & rid & lf & Hok & Hrt). cbn [pt_machine with_machine root]. rewrite Hrt.
  assert (forall f, taken (page_info_table (pt_machine p)) f -> page_at (mem s) (frame f) = page_at (mem (pt_machine p)) (frame f)) as Hf.
  { intros f (q & Hq & Hu). apply (Hsys f q). split_and!; [done|done|by eapply tk_none]. }
  apply (pt_sv32_frames _ _ _ _ _ _ _ va Hok); [apply Hf, Hok| |done]. intros v f Hlf. apply Hf. by apply (pt_lf _ _ _ _ _ _ Hok v f).
Qed.

Lemma wp_mmu_setup m n b pre ch rest (Q : translation -> board U D -> Prop) : ready m b ->
  typed (b_uart b) = pre ++ ch :: rest -> Forall (fun x => x <> Byte.x30 /\ x <> Byte.x31) pre ->
  ch = Byte.x30 \/ ch = Byte.x31 -> (length pre < n)%nat ->
  let tr := if bool_decide (ch = Byte.x30) then PAGE_TABLE else SOFT_TLB in
  (forall b', ready m b' -> same_rest b b' -> b_csr b' = csr_mmu tr (root (b_tables b')) (b_csr b) -> tables_in tr (b_tables b') ->
     typed (b_uart b') = rest ->
     printed (b_uart b') = printed (b_uart b) ++ msg CRITICAL_PREFIX COLOR_SUFFIX (text "Choose a memory translation mechanism:") ++
       lit "Enter 0: page tables" ++ newline ++ lit "Enter 1: software TLB" ++ newline ++ msg INFO_PREFIX newline (chosen tr) ->
     Q tr b') ->
  wp full (mmu_setup udev fuel junk plat n) b Q.
Proof using Hjunk.
  intros Hb Ht Hpre Hch Hn tr HQ. unfold mmu_setup. apply wp_bind. eapply wp_ok; [reflexivity|]. apply wp_bind.
  eapply (wp_board_log _ _ _ _ _ (text "Choose a memory translation mechanism:")); [by rewrite fmt_of_text|done|by apply (bool_decide_unpack _)..| |apply Hb|].
  { apply (bool_decide_unpack _). vm_compute. exact I. }
  intros u1 Hu1 Ht1 Hp1. cbn [b_uart with_csr] in Ht1, Hp1. apply wp_bind.
  eapply (wp_board_log _ [] [] _ _ (Char <$> (lit "Enter 0: page tables" ++ newline ++ lit "Enter 1: software TLB" ++ newline)));
    [done|done|by apply (bool_decide_unpack _)..| |done|].
  { apply (bool_decide_unpack _). vm_compute. exact I. }
  cbn [b_uart with_uart]. intros u2 Hu2 Ht2 Hp2. apply wp_bind, wp_on. cbn [b_uart with_uart].
  destruct (choose_ok n NUL pre ch rest u2 Hu2 ltac:(congruence) ltac:(done) ltac:(done) Hpre Hch Hn) as (u3 & Hr & Hu3 & Ht3 & Hp3).
  eapply wp_ok; [exact Hr|]. cbv zeta. fold tr. apply wp_bind.
  eapply (wp_board_log _ _ _ _ _ (chosen tr)).
  { destruct tr; done. } { destruct tr; done. } { by destruct tr; apply (bool_decide_unpack _). }
  { by apply (bool_decide_unpack _). } { by apply (bool_decide_unpack _). }
  { destruct tr; apply (bool_decide_unpack _); vm_compute; exact I. } { done. }
  cbn [b_uart with_uart]. intros u4 Hu4 Ht4 Hp4. set (b4 := with_uart _ u4).
  assert (ready m b4) as Hb4 by (by destruct Hb; split).
  assert (printed u4 = printed (b_uart b) ++ msg CRITICAL_PREFIX COLOR_SUFFIX (text "Choose a memory translation mechanism:") ++
    lit "Enter 0: page tables" ++ newline ++ lit "Enter 1: software TLB" ++ newline ++ msg INFO_PREFIX newline (chosen tr)) as Hlog.
  { rewrite Hp4, Hp3, Hp2, Hp1, <- !app_assoc. f_equal. }
  apply wp_bind. destruct (decide (tr = PAGE_TABLE)) as [Htr|Htr].
  - apply wp_bind, wp_on. destruct Hb4 as [_ Hd Htk4 Hpg Hba]. pose proof (tk_len _ _ (Htk4 1 ltac:(done))) as Hlen. eapply wp_mono.
    + pose proof (wp_pagetable_identity_map plat 0 (b_tables b4) Hlen Hpg ltac:(unfold MMU_MAX_NPROCESS; lia) Hba) as Hwp.
      assert (wp full (pagetable_identity_map plat 0) (b_tables b4) (fun _ s' =>
        (forall n, is_page (page_at (mem (pt_machine s')) n)) /\ length (pid_to_pagetable_base s') = 256%nat /\
        (forall pid, 0 < pid -> table_ok pid (pt_machine s')) /\ tables_in tr s')) as Hwp'; [|exact Hwp'].
      unfold wp in *. destruct (pagetable_identity_map plat 0 (b_tables b4)) as [[[] s']| | |] eqn:Hrun; [|done..].
      destruct Hwp as (rid & lf & Hok & Hrt & Hbase). split_and!; [apply Hok|by rewrite Hbase, length_insert| |].
      * intros pid Hp. eapply (identity_map_keeps pid); [lia|exact Hrun|by apply Htk4].
      * intros _. by exists (pt_machine (b_tables b4)), rid, lf.
    + intros [] s' (Hpg' & Hba' & Htk & Htb). eapply wp_ok; [reflexivity|]. apply wp_ret.
      apply HQ; [by split|done|by rewrite Htr|done|change (typed u4 = rest); congruence|exact Hlog].
  - apply wp_ret, wp_ret, HQ; [done|done|by unfold csr_mmu; rewrite decide_False|by intros ?%Htr|change (typed u4 = rest); congruence|exact Hlog].
Qed.

Lemma wp_intr_setup m core b (Q : unit -> board U D -> Prop) : ready m b -> 0 <= core <= NCORES ->
  (forall b', ready m b' -> same_rest b b' -> b_csr b' = csr_enable (csr_mtvec (b_csr b) trap_entry) ->
     (forall tr, tables_in tr (b_tables b) -> tables_in tr (b_tables b')) -> root (b_tables b') = root (b_tables b) -> typed (b_uart b') = typed (b_uart b) ->
     printed (b_uart b') = printed (b_uart b) ++ msg INFO_PREFIX newline (text "Use direct mode and put the address of the trap_entry into mtvec") ->
     mtimecmp_of (timer (pt_machine (b_tables b'))) core = 0x0FFFFFFFFFFFFFFF ->
     Q tt b') ->
  wp full (intr_setup udev fuel trap_entry junk plat core) b Q.
Proof using Hjunk.
  intros [Hu Hd Htk Hpg Hba] Hc HQ.
  destruct (mtimecmp_set_regs (timer (pt_machine (b_tables b))) 0x0FFFFFFFFFFFFFFF core core) as (t & Ht & _ & Hcmp); [unfold NCORES in Hc; lia..|].
  rewrite decide_True in Hcmp by done. injection Ht as Ht. unfold intr_setup. apply wp_bind, wp_on. eapply wp_ok; [reflexivity|]. apply wp_bind. eapply wp_ok; [reflexivity|]. apply wp_bind.
  eapply (wp_board_log _ _ _ _ _ (text "Use direct mode and put the address of the trap_entry into mtvec"));
    [by rewrite fmt_of_text|done|by apply (bool_decide_unpack _)..| |done|].
  { apply (bool_decide_unpack _). vm_compute. exact I. }
  intros u Hu1 Ht1 Hp1. eapply wp_ok; [reflexivity|]. subst t. apply HQ; [|done..|exact Hcmp].
  split; [done|done| |exact Hpg|done]. intros pid Hp. by apply (table_ok_timer _ (pt_machine (b_tables b))), Htk.
Qed.

(** What GPID_PROCESS gets. *)
Record entered (file : Z -> block) (phs : list elf32_program_header) (tr : translation) (k : kernel machine) : Prop := {
  en_mode : user_mode (mmu_init mtime plat tr) k 0 first_process (EarthSpec0 := soft_tlb_spec mtime plat tr Hclock);
  en_vm : curr_vm_pid (mach k) = GPID_PROCESS;
  en_pc : csr_mepc (hw k) = APPS_ENTRY;
  en_arg : saved_area (hw k) !! 0%nat = Some APPS_ARG;
  en_image : exists a y t t', args_page 0 None a /\
    forall v, tlb_aspace (mach k) GPID_PROCESS v = load_image file phs a y t t' v;
  en_table : tbl_inv (alloc_pid k) (proc_set k) /\ alloc_pid k = 1;
  en_inv : tlb_inv (mach k);
  en_empty q v : GPID_TERMINAL <= q -> tlb_aspace (mach k) q v = None;
}.

(** *** Reading the executable *)
Lemma disk_ok_block m d n : disk_ok m d -> is_block (m n).
Proof using Type.
  intros [[_ (n0 & c & _ & Hc & _ & <-)]|[_ ->]]; [by eapply sd_blocks|]. unfold is_block, rom_block. by rewrite length_fmap, length_seq.
Qed.

Lemma disk_ok_read m d n : disk_ok m d -> 0 <= n < cap ->
  exists d', disk_read sdev plat fuel rom n 1 d = Ok (m n, d') /\ disk_ok m d'.
Proof using Hfuel.
  intros [[Ht Hm]|[Ht ->]] Hn.
  - destruct (disk_read_card sdev plat sl patience fuel delay cap Hfuel rom d m n 1 Ht Hm) as (d' & Hr & Ht' & Hm'); [clear - Hn; lia..|].
    exists d'. split; [|by left]. rewrite Hr. change (seqZ n 1) with [0 + n]. rewrite Z.add_0_l. cbn. by rewrite app_nil_r.
  - exists d. split; [|by right]. unfold disk_read. erewrite mbind_ok by reflexivity. rewrite decide_True by done. done.
Qed.

(** The place of the executable on the disk. *)
Definition exec_file (m : Z -> block) (n : Z) : block := m (SYS_PROC_EXEC_START + n).
(** While the executable is loaded, only the disk, the memory and the output, which
    is [o] so far, change. *)
Definition loads_on (m : Z -> block) b (o : list byte) b' : Prop := exists d u s, disk_ok m d /\ tty_inv u /\
  typed u = typed (b_uart b) /\ printed u = o /\ b' = set_machine (with_uart (with_disk b d) u) s.

Lemma grass_read_ok m b o n x : slot_dom n -> loads_on m b o x -> exists x', grass_sys_proc_read sdev fuel rom plat n x = Ok (exec_file m n, x') /\
  loads_on m b o x' /\ get_machine x' = get_machine x.
Proof using Hfuel Hcap.
  unfold slot_dom. change slot_blocks with 256. intros Hn (d & u & s & Hd & Hu & Ht & Hp & ->). change (2 * (EGOS_BIN_MAX_NBYTE / BLOCK_SIZE)) with 512 in Hcap. clear Hjunk Hclock.
  unfold grass_sys_proc_read, exec_file. change SYS_PROC_EXEC_START with 256. rewrite u32_id by lia.
  destruct (disk_ok_read m d (256 + n) Hd ltac:(lia)) as (d' & Hr & Hd').
  exists (set_machine (with_uart (with_disk b d') u) s). split_and!; [|by exists d', u, s|done].
  unfold on. cbn [b_disk set_machine board_machine with_disk with_uart]. by rewrite Hr.
Qed.

Lemma grass_reader_ok m b o keeps : disk_ok m (b_disk b) ->
  reader_ok GPID_PROCESS keeps (loads_on m b o) (grass_sys_proc_read sdev fuel rom plat) (exec_file m) slot_dom.
Proof using Hfuel Hcap.
  intros Hd. split; [intros n; exact (disk_ok_block _ _ _ Hd)|]. intros n x Hn Hx Hi Hc.
  destruct (grass_read_ok m b o n x Hn Hx) as (x' & Hr & Hx' & Hm). exists x'. rewrite Hm. by split_and!.
Qed.

Lemma grass_writes m b : writes (board_write udev fuel plat) (loads_on m b).
Proof using TtySpec0.
  intros o x str tl (d & u & s & Hd & Hu & Ht & <- & ->) _.
  destruct (term_write_ok console str tl u Hu) as (u' & Hr & Hu' & Ht' & Hp).
  exists (set_machine (with_uart (with_disk b d) u') s). split_and!; [|by exists d, u', s; split_and!; [..|congruence| |]|done].
  unfold board_write, on. cbn [b_uart set_machine board_machine with_disk with_uart]. by rewrite Hr.
Qed.

(** The address space that is switched to. *)
Lemma switched_timer s pid : timer (switched s pid) = timer s.
Proof using Type. unfold switched. by case_decide. Qed.
Lemma grass_entry_mach tr h s k : grass_entry (mmu_init mtime plat tr) (boot_kernel h s) = Ok (tt, k) ->
  mach k = switched s GPID_PROCESS.
Proof using Type.
  unfold grass_entry. erewrite mbind_ok by reflexivity. erewrite mbind_ok by reflexivity.
  assert (forall k0, earth_call (Earth.mmu_switch (mmu_init mtime plat tr) GPID_PROCESS) k0 = Ok (tt, with_mach k0 (switched (mach k0) GPID_PROCESS))) as Hsw.
  { intros k0. unfold earth_call. cbn [Earth.mmu_switch mmu_init]. unfold page_table_switch. case_decide; by rewrite soft_tlb_switch_eq. }
  rewrite (mbind_ok _ _ _ _ _ (Hsw _)). by intros [= <-].
Qed.

Lemma wp_grass_start m tr phs b (Q : kernel machine -> board U D -> Prop) : ready m b -> tables_in tr (b_tables b) ->
  0 <= mhartid (b_hart b) <= NCORES -> length (saved_area (b_hart b)) = 32%nat ->
  headers (exec_file m 0) = Some phs -> Forall seg_ok phs -> Forall in_slot phs -> ForallOrdPairs seg_disjoint phs ->
  (forall b' k, entered (exec_file m) phs tr k -> tty_inv (b_uart b') -> disk_ok m (b_disk b') -> same_rest b b' ->
     b_csr b' = csr_mstatus (b_csr b) (grass_mstatus tr (mstatus (b_csr b))) ->
     pt_machine (b_tables b') = mach k -> root (b_tables b') = root (b_tables b) -> tables_ok tr (b_tables b') ->
     timer (mach k) = timer (pt_machine (b_tables b)) -> typed (b_uart b') = typed (b_uart b) ->
     printed (b_uart b') = printed (b_uart b) ++ msg SUCCESS_PREFIX COLOR_SUFFIX (text "Enter the grass layer") ++
       msg INFO_PREFIX newline loading_process ++ segment_lines phs -> Q k b') ->
  wp full (grass_start udev sdev fuel mtime rom junk plat tr) b Q.
Proof using Hjunk Hfuel Hcap.
  intros Hb Htb Hh Ha Hhd Hsegs Hslot Hdis HQ. unfold grass_start, say. apply wp_bind.
  eapply (wp_board_log _ _ _ _ _ (text "Enter the grass layer")); [by rewrite fmt_of_text|done|by apply (bool_decide_unpack _)..| |apply Hb|].
  { apply (bool_decide_unpack _). vm_compute. exact I. }
  intros u1 Hu1 Ht1 Hp1. apply wp_bind.
  eapply (wp_board_log _ _ _ _ _ loading_process); [done|done|by apply (bool_decide_unpack _)..| |done|].
  { apply (bool_decide_unpack _). vm_compute. exact I. }
  cbn [b_uart with_uart]. intros u2 Hu2 Ht2 Hp2. set (b2 := with_uart _ u2). cbv zeta.
  assert (ready m b2) as Hb2 by (by repeat apply ready_uart).
  set (e := mmu_init mtime plat tr). set (s := pt_machine (b_tables b2)).
  assert (forall pid, 0 < pid -> tlb_inv s /\ forall v, tlb_aspace s pid v = None) as Htlb.
  { intros pid Hp. apply table_ok_tlb; [lia|by apply (rd_table _ _ Hb2)|apply (rd_pages _ _ Hb2)]. }
  assert (loadable (loads_on m b2) GPID_PROCESS (fun q => GPID_PROCESS < q) (board_write udev fuel plat) junk
    (grass_sys_proc_read sdev fuel rom plat) slot_dom (exec_file m) phs 0 None (printed u2) b2) as Hload.
  { split; [done|by apply (Htlb 1)|apply (tk_vm _ _ (rd_table _ _ Hb2 GPID_PROCESS ltac:(done)))|by apply (Htlb GPID_PROCESS)|
      | | |done|done|by apply in_slot_blocks|done|done|done].
    - exists (b_disk b2), u2, s. split_and!; [apply Hb2|done|done|done|]. by rewrite <- (set_get_machine b2) at 1.
    - intros o. apply grass_reader_ok, Hb2.
    - intros _. split; [apply grass_writes|done]. }
  apply wp_bind. eapply wp_conseq.
  { eapply (wp_elf_load_still (loads_on m b2)) with (still := True); [|exact Hload|].
    - intros o x s' (d & u & s1 & H1 & H2 & H3 & H4 & ->). by exists d, u, s'.
    - intros _ n x y x' Hr. unfold grass_sys_proc_read, on in Hr. destruct (disk_read _ _ _ _ _ _ _) as [[? ?]| | |]; [|done..]. by injection Hr as _ <-. }
  { by intros x [-> _]. }
  intros [] b3 ([(d & u3 & s1 & Hd & Hu3 & Ht3 & Hp3 & ->) Hs1 _ Himg Hoth] & Hstill & Htimer).
  cbn [get_machine set_machine board_machine pt_machine b_tables with_machine] in *.
  destruct (@grass_entry_boots machine e (soft_tlb_spec mtime plat tr Hclock) (b_hart b2) s1 Hs1 Hh Ha)
    as (k & Hk & Hum & Hvm & Hpc & Harg & Has & Hal).
  apply wp_bind. eapply wp_ok; [reflexivity|]. apply wp_bind. eapply wp_ok.
  { unfold mlift. cbn [get_machine board_machine b_tables pt_machine with_machine b_hart with_disk with_uart]. by rewrite Hk. }
  cbv beta iota. apply wp_bind. eapply wp_ok; [reflexivity|]. apply wp_bind. eapply wp_ok; [reflexivity|]. apply wp_ret.
  apply HQ; [|exact Hu3|done|done|done|done|done| | |exact (eq_trans Ht3 (eq_trans Ht2 Ht1))|].
  - split; [exact Hum|exact Hvm|exact Hpc|exact Harg|..].
    + destruct Himg as (a & y & t & t' & Hargs & Himg). exists a, y, t, t'. split; [done|]. intros v. rewrite <- Himg. apply Has.
    + destruct (um_inv _ _ _ _ Hum) as (Htbl & _ & Hearth). by split.
    + apply (um_inv _ _ _ _ Hum).
    + intros q v Hq. transitivity (tlb_aspace s1 q v); [apply Has|]. unfold GPID_TERMINAL in Hq.
      rewrite Hoth by (unfold GPID_PROCESS; lia). apply (Htlb q). lia.
  - apply (tables_in_ok tr (b_tables b) (mach k) 1); [by apply (rd_table _ _ Hb)|done|]. intros i q Hq.
    destruct (Hstill i q I Hq) as [Hq1 Hm]. rewrite (grass_entry_mach tr _ _ _ Hk).
    rewrite (switched_frame s1 GPID_PROCESS i q) by (done || apply Hq). exact Hm.
  - rewrite (grass_entry_mach tr _ _ _ Hk), switched_timer. by apply Htimer.
  - cbn [b_uart with_csr set_machine board_machine with_disk b2 with_uart]. by rewrite Hp3, Hp2, Hp1, <- !app_assoc.
Qed.

(** ** The board as the machine with its devices *)
Abbreviation board_write := (board_write udev fuel plat).
Definition board_devices (m : Z -> block) : Devices (X := board U D) board_write.
Proof using TtySpec0 SpiSpec0 SdCard0 rom.
  refine {| dev_inv b := tty_inv (b_uart b) /\ disk_ok m (b_disk b); dev_out b := printed (b_uart b) |}; [done|done|].
  intros b str tl [Hu Hd] _. destruct (term_write_ok console str tl (b_uart b) Hu) as (u & Hr & Hu' & Ht & Hp).
  exists (with_uart b u). unfold Boot.board_write, on. by rewrite Hr.
Defined.

(** The kernel that was entered, on the board. *)
Definition on_board (k : kernel machine) b : kernel (board U D) := {| proc_set := proc_set k; core_to_proc_idx := core_to_proc_idx k;
  core_in_kernel := core_in_kernel k; alloc_pid := alloc_pid k; hw := hw k; mach := b |}.

Lemma entered_idle m file phs tr k b : entered file phs tr k -> pt_machine (b_tables b) = mach k -> tty_inv (b_uart b) -> disk_ok m (b_disk b) ->
  idle_from board_write (Devices0 := board_devices m) (on_board k b) GPID_TERMINAL.
Proof using Type.
  intros [_ Hvm _ _ _ [Htbl Hal] Hinv Hem] Hm Hu Hd. split; cbn [on_board proc_set alloc_pid mach get_machine board_machine]; rewrite ?Hm, ?Hal; try done.
  by rewrite <- Hal.
Qed.

(** ** The whole of [boot] on the first core *)

(** A board at power-on: a card with the blocks [m] has power, or no card answers and
    [m] is the flash; no process has a page, and [boot] has not run. *)
Record powered_on (disk : disk_type) (m : Z -> block) b : Prop := {
  po_uart : tty_inv (b_uart b);
  po_disk : exists c, bus sdev plat sl patience (dhw (b_disk b)) c /\
    (disk = SD_CARD /\ card_powered m c \/ disk = FLASH_ROM /\ (forall c x, (exch sl c x).1 = Byte.xff) /\ m = rom_block);
  po_table pid : 0 < pid -> table_ok pid (pt_machine (b_tables b));
  po_pages n : is_page (page_at (mem (pt_machine (b_tables b))) n);
  po_bases : length (pid_to_pagetable_base (b_tables b)) = 256%nat;
  po_hart : 0 <= mhartid (b_hart b) <= NCORES /\ length (saved_area (b_hart b)) = 32%nat;
  po_booted : b_booted b = 0;
}.

(** The state at the end. *)
Record booted (disk : disk_type) (m : Z -> block) (phs : list elf32_program_header) (tr : translation)
    (rest : list byte) b (k : kernel machine) b' : Prop := {
  bt_process : entered (exec_file m) phs tr k;
  bt_machine : pt_machine (b_tables b') = mach k;
  bt_uart : tty_inv (b_uart b');
  bt_disk : disk_ok m (b_disk b');
  bt_idle : idle_from board_write (Devices0 := board_devices m) (on_board k b') GPID_TERMINAL;
  bt_count : b_booted b' = 1;
  bt_lock : b_lock b' = b_lock b;
  bt_typed : typed (b_uart b') = rest;
  bt_log : printed (b_uart b') = printed (b_uart b) ++ boot_log plat (mhartid (b_hart b)) disk tr phs;
  bt_timer : mtimecmp_of (timer (mach k)) (mhartid (b_hart b)) = 0x0FFFFFFFFFFFFFFF;
  bt_mstatus i : 0 <= i -> Z.testbit (mstatus (b_csr b')) i =
    if decide (i = 11 \/ i = 12) then bool_decide (tr = SOFT_TLB)
    else bool_decide (i = 3 \/ i = 7) || Z.testbit (mstatus (b_csr b)) i;
  bt_trap : mtvec (b_csr b') = trap_entry /\ mip (b_csr b') = 0 /\ mie (b_csr b') = Z.lor (mie (b_csr b)) 0x80;
  bt_pmp : pmpaddr0 (b_csr b') = 0x40000000 /\ pmpcfg0 (b_csr b') = 0xF;
  bt_tables : tables_ok tr (b_tables b') /\
    satp (b_csr b') = if decide (tr = PAGE_TABLE) then Z.lor (Z.shiftr (root (b_tables b')) 12) (2 ^ 31) else satp (b_csr b);
}.

Lemma disk_found disk m (d : disk_state D) u c : bus sdev plat sl patience (dhw d) c -> tty_inv u ->
  disk = SD_CARD /\ card_powered m c \/ disk = FLASH_ROM /\ (forall c x, (exch sl c x).1 = Byte.xff) /\ m = rom_block ->
  exists d' u', disk_init sdev plat fuel (term_write console) junk (d, u) = Ok (tt, (d', u')) /\ disk_ok m d' /\
    tty_inv u' /\ printed u' = printed u ++ disk_log plat disk /\ typed u' = typed u.
Proof using Hfuel Hjunk.
  intros Hbus Hu [[-> Hc]|(-> & Hff & ->)].
  - destruct (disk_init_card (TermWriter0 := kernel_writer console) sdev plat sl patience fuel delay cap Hfuel (term_write console) junk Hjunk d u c m Hbus Hc Hu) as (d' & u' & Hd & Ht & Hh & Hs).
    exists d', u'. split_and!; [done|by left|apply Hs..].
  - destruct (disk_init_flash (TermWriter0 := kernel_writer console) sdev plat sl patience fuel delay cap Hfuel (term_write console) junk Hjunk d u c Hbus Hff Hu) as (d' & u' & Hd & Ht & Hs).
    exists d', u'. split_and!; [done|by right|apply Hs..].
Qed.

Lemma wp_boot n b disk m phs pre ch rest : powered_on disk m b -> plat = ARTY \/ mhartid (b_hart b) <> 0 ->
  typed (b_uart b) = pre ++ ch :: rest -> Forall (fun x => x <> Byte.x30 /\ x <> Byte.x31) pre ->
  ch = Byte.x30 \/ ch = Byte.x31 -> (length pre < n)%nat ->
  headers (exec_file m 0) = Some phs -> Forall seg_ok phs -> Forall in_slot phs -> ForallOrdPairs seg_disjoint phs ->
  let tr := if bool_decide (ch = Byte.x30) then PAGE_TABLE else SOFT_TLB in
  wp full (boot udev sdev fuel mtime rom trap_entry junk n vendor_id) b
    (fun r b' => exists k, r = Enters tr k /\ booted disk m phs tr rest b k b').
Proof using Hfuel Hjunk Hcap.
  intros [Hu (c & Hbus & Hcard) Htk Hpg Hba [Hh Hsa] Hbt] Hfirst Ht Hpre Hch Hn Hhd Hsegs Hslot Hdis tr.
  unfold boot. apply wp_bind. eapply wp_ok; [reflexivity|]. cbv zeta. set (core := mhartid (b_hart b)) in *.
  assert (0 <= core < 2 ^ 31) as Hcore by (unfold NCORES in Hh; lia).
  assert (bool_decide (plat = QEMU) && (core =? 0) = false) as ->.
  { apply andb_false_iff. destruct Hfirst as [-> | Hne]; [by left|right]. by apply Z.eqb_neq. }
  apply wp_bind. eapply wp_ok; [reflexivity|].
  rewrite Hbt. change (0 =? 0) with true. cbv beta iota. set (b0 := with_booted b _). apply wp_bind.
  rewrite i32_id by lia. eapply (wp_board_log _ _ _ _ _ (booting plat core)); [by destruct (platform_of vendor_id)|by destruct (platform_of vendor_id)| |by apply (bool_decide_unpack _)..| |done|].
  { unfold booting. rewrite !Forall_app. split_and!; [by apply (bool_decide_unpack _)|..].
    - apply Forall_singleton. cbn. by destruct (platform_of vendor_id); apply (bool_decide_unpack _).
    - by apply (bool_decide_unpack _).
    - apply Forall_singleton. cbn. lia.
    - by apply (bool_decide_unpack _). }
  { unfold msg, booting, render. rewrite !bind_app, !bind_cons, !length_app. cbn [piece_out].
    change (length ([] ≫= piece_out)) with 0%nat.
    pose proof (itoa_length core 10 ltac:(lia)).
    change (length (text "--- Booting on " ≫= piece_out)) with 15%nat. change (length (text " with core #" ≫= piece_out)) with 12%nat.
    change (length (text " ---" ≫= piece_out)) with 4%nat. change (length CRITICAL_PREFIX) with 18%nat. change (length COLOR_SUFFIX) with 8%nat.
    assert (length (lit (platform_name plat)) = 4%nat) as -> by (by destruct (platform_of vendor_id)). lia. }
  intros u1 Hu1 Ht1 Hp1. apply wp_bind, wp_on. cbn [b_disk with_uart b0 with_booted b_uart] in *.
  destruct (disk_found disk m (b_disk b) u1 c Hbus Hu1 Hcard) as (d & ud & Hd & Hdok & Hud & Hpd & Htd).
  eapply wp_ok; [exact Hd|]. apply wp_bind. unfold say.
  eapply (wp_board_log _ _ _ _ _ (text "Finished initializing the tty and disk devices")); [by rewrite fmt_of_text|done|by apply (bool_decide_unpack _)..| |done|].
  { apply (bool_decide_unpack _). vm_compute. exact I. }
  cbn [b_uart with_disk with_uart fst snd]. intros u2 Hu2 Ht2 Hp2. apply wp_bind.
  eapply (wp_mmu_setup m n _ pre ch rest); [by split|cbn; congruence|done|done|done|].
  fold tr. intros b3 Hb3 (Hc3 & Hh3 & Hl3) Hm3 Htb3 Ht3 Hp3. cbn [b_uart with_uart] in Hp3. apply wp_bind, (wp_intr_setup m); [done|done|].
  intros b4 Hb4 (Hc4 & Hh4 & Hl4) Hm4 Htb4 Hrt4 Ht4 Hp4 Htm4. apply wp_bind.
  eapply (wp_board_log _ _ _ _ _ (text "Finished initializing the MMU, timer and interrupts")); [by rewrite fmt_of_text|done|by apply (bool_decide_unpack _)..| |apply Hb4|].
  { apply (bool_decide_unpack _). vm_compute. exact I. }
  intros u5 Hu5 Ht5 Hp5. apply wp_bind.
  eapply (wp_grass_start m tr phs); [by apply ready_uart|by apply Htb4|cbn; rewrite Hh4, Hh3; exact Hh|cbn; rewrite Hh4, Hh3; exact Hsa|done..|].
  intros b6 k Hk Hu6 Hd6 (Hc6 & _ & Hl6) Hm6 Hmach6 Hrt6 Htb6 Htm6 Ht6 Hp6. cbn [b_uart with_uart b_booted b_csr b_tables] in *. apply wp_ret. exists k. split; [done|]. split.
  - done.
  - done.
  - done.
  - done.
  - by eapply entered_idle.
  - rewrite Hc6, Hc4, Hc3. done.
  - rewrite Hl6. cbn. rewrite Hl4, Hl3. done.
  - congruence.
  - rewrite Hp6, Hp5, Hp4, Hp3, Hp2, Hpd, Hp1. unfold boot_log. rewrite <- !app_assoc. done.
  - by rewrite Htm6.
  - intros i Hi. rewrite Hm6. cbn [mstatus csr_mstatus]. rewrite grass_mstatus_bits by done. destruct (decide (i = 11 \/ i = 12)); [done|].
    rewrite Hm4. cbn [mstatus csr_enable csr_mtvec]. rewrite Z.lor_spec, orb_comm. f_equal; [by apply intr_bits|].
    rewrite Hm3. by destruct tr.
  - rewrite Hm6, Hm4, Hm3. by destruct tr.
  - rewrite Hm6, Hm4, Hm3. by destruct tr.
  - split; [done|]. rewrite Hrt6, Hrt4, Hm6, Hm4, Hm3. by destruct tr.
Qed.

(** The cores that do not boot: core 0 of QEMU releases the lock and touches nothing
    else; every core after the first prints a line and keeps the lock. *)
Lemma boot_core_zero n b : plat = QEMU -> mhartid (b_hart b) = 0 ->
  boot udev sdev fuel mtime rom trap_entry junk n vendor_id b = Ok (Hangs, with_lock b 0).
Proof using Type. intros Hp H0. unfold boot. erewrite mbind_ok by reflexivity. cbv zeta. by rewrite Hp, H0. Qed.

Lemma boot_second n b (core := mhartid (b_hart b)) : plat = ARTY \/ core <> 0 -> 0 <= core < 2 ^ 31 -> 0 < b_booted b -> tty_inv (b_uart b) ->
  exists b', boot udev sdev fuel mtime rom trap_entry junk n vendor_id b = Ok (Hangs, b') /\
    b_lock b' = b_lock b /\ b_tables b' = b_tables b /\ b_disk b' = b_disk b /\
    printed (b_uart b') = printed (b_uart b) ++
      msg SUCCESS_PREFIX COLOR_SUFFIX (text "--- Core #" ++ [Dec core] ++ text " starts running ---").
Proof using Hjunk.
  intros Hfirst Hcore Hb Hu.
  destruct (wp_returns (boot udev sdev fuel mtime rom trap_entry junk n vendor_id) b
    (fun r b' => r = Hangs /\ b_lock b' = b_lock b /\ b_tables b' = b_tables b /\ b_disk b' = b_disk b /\
       printed (b_uart b') = printed (b_uart b) ++
         msg SUCCESS_PREFIX COLOR_SUFFIX (text "--- Core #" ++ [Dec core] ++ text " starts running ---")))
    as (r & b' & Hr & -> & Hrest); [|by exists b'].
  unfold boot. apply wp_bind. eapply wp_ok; [reflexivity|]. cbv zeta. fold core.
  assert (bool_decide (plat = QEMU) && (core =? 0) = false) as ->.
  { apply andb_false_iff. destruct Hfirst as [-> | Hne]; [by left|right]. by apply Z.eqb_neq. }
  apply wp_bind. eapply wp_ok; [reflexivity|].
  rewrite (proj2 (Z.eqb_neq (b_booted b) 0)) by lia. apply wp_bind. rewrite i32_id by lia. unfold say.
  eapply (wp_board_log _ _ _ _ _ (text "--- Core #" ++ [Dec core] ++ text " starts running ---"));
    [done|done| |by apply (bool_decide_unpack _)..| |done|].
  - rewrite !Forall_app. split_and!; [by apply (bool_decide_unpack _)| |by apply (bool_decide_unpack _)].
    apply Forall_singleton. cbn. lia.
  - unfold msg, render. rewrite !bind_app, !bind_cons, !length_app. cbn [piece_out].
    pose proof (itoa_length core 10 ltac:(lia)). change (length ([] ≫= piece_out)) with 0%nat.
    change (length (text "--- Core #" ≫= piece_out)) with 10%nat. change (length (text " starts running ---" ≫= piece_out)) with 19%nat.
    change (length SUCCESS_PREFIX) with 17%nat. change (length COLOR_SUFFIX) with 8%nat. lia.
  - intros u Hu' _ Hp. apply wp_ret. by split_and!.
Qed.

(** C12: the first core boots.  At power-on, with an SD card that has power, or with
    none and the flash in its place, and a user who types [0] or [1] after any other
    characters, [boot] initialises the terminal,
    the disk, the translation mechanism that was chosen, the timer and the
    interrupts, reads the executable of GPID_PROCESS from its place on this disk
    with the driver, and enters it: the process has the image of the
    executable with no argument, the kernel is in user mode with this
    process as the only one, [mepc] is the entry point and [a0] the arguments, and
    the start-up of the servers can begin;
    the disk holds what it held, the TLB's invariant holds, the messages of the boot,
    those of the disk driver and of the loader among them, are on the terminal in order;
    the comparator of the timer is set to a far time, [0x0FFFFFFFFFFFFFFF]; traps go to [trap_entry] with interrupts enabled,
    and the mode bits of [mstatus] are machine mode for the software TLB and user
    mode for page tables; for page tables [satp] points at tables, which loading and
    entering the process have not overwritten, by which the
    hardware translates the addresses of RAM and of the devices to themselves.
    The only other end is that the frames run out. *)
Theorem boot_correct n b disk m phs pre ch rest : powered_on disk m b -> plat = ARTY \/ mhartid (b_hart b) <> 0 ->
  typed (b_uart b) = pre ++ ch :: rest -> Forall (fun x => x <> Byte.x30 /\ x <> Byte.x31) pre ->
  ch = Byte.x30 \/ ch = Byte.x31 -> (length pre < n)%nat ->
  headers (exec_file m 0) = Some phs -> Forall seg_ok phs -> Forall in_slot phs -> ForallOrdPairs seg_disjoint phs ->
  match boot udev sdev fuel mtime rom trap_entry junk n vendor_id b with
  | Ok (Enters tr k, b') => tr = (if bool_decide (ch = Byte.x30) then PAGE_TABLE else SOFT_TLB) /\
      booted disk m phs tr rest b k b'
  | Fatal e => e = no_memory
  | Ok (Hangs, _) | Stuck | NoFuel => False
  end.
Proof using Hfuel Hjunk Hcap.
  intros Hb Hf Ht Hpre Hch Hn Hhd Hsegs Hslot Hdis.
  pose proof (wp_boot n b disk m phs pre ch rest Hb Hf Ht Hpre Hch Hn Hhd Hsegs Hslot Hdis) as H. cbv zeta in H.
  unfold wp in H. destruct (boot _ _ _ _ _ _ _ _ _) as [[r b']| | |]; [|exact H..].
  destruct H as (k & -> & H). by split.
Qed.
End boot.

(** ** A board: QEMU, core 1, and the user types [x1] *)
Definition s_uart : uart := {| u_rx := lit "x1"; u_tx := [] |}.
Definition s_csrs : csrs := {| pmpaddr0 := 0; pmpcfg0 := 0; satp := 0; mtvec := 0; mip := 0; mie := 0; mstatus := 0 |}.
(** A card with the executable at its place. *)
Definition s_blocks (n : Z) : block := t_file (n - SYS_PROC_EXEC_START).
Definition s_card : sim := {| s_mem := s_blocks; s_stage := Powered; s_in := []; s_out := []; s_data := None |}.
Definition s_disk : disk_state ctrl := {| dtype := SD_CARD; dhw := {| on_bus := s_card; mosi := 0; rx := None |} |}.
Definition s_board : board uart ctrl := {| b_uart := s_uart; b_disk := s_disk; b_tables := boot_tables;
  b_lock := 1; b_booted := 0; b_csr := s_csrs; b_hart := w_hart |}.
Definition s_rom (_ : Z) : byte := Byte.xff.
Definition s_junk : list byte := zeros 512.

Definition s_tty_spec : TtySpec (tty_init (sim_uart QEMU) QEMU 2) := uart_tty_spec (sim_uart QEMU) QEMU 0 2 (Nat.lt_0_succ 1).

Lemma s_powered_on : @powered_on _ _ _ (sim_uart QEMU) (sim_dev QEMU) (sim_slave QEMU) 0 2 0 1 8192 s_rom
  s_tty_spec (sim_spi QEMU) (sim_card QEMU) SD_CARD s_blocks s_board.
Proof.
  assert (forall i p, page_info_table (pt_machine (b_tables s_board)) !! i = Some p -> p = zero_info) as Hz.
  { intros i p Hp. by apply lookup_replicate in Hp as [-> _]. }
  split.
  - done.
  - exists s_card. split; [by split|]. left. split; [done|]. split_and!; [done..|]. intros n. apply t_file_block.
  - intros pid Hp. split.
    + apply length_replicate.
    + by intros i p ->%Hz.
    + by intros i j p q ->%Hz.
    + cbn. lia.
    + by intros i p ->%Hz.
    + by intros i p ->%Hz.
  - intros n. apply length_zeros.
  - apply length_replicate.
  - unfold NCORES. cbn. split; [lia|done].
  - done.
Qed.

Lemma s_in_slot : Forall in_slot t_phs.
Proof. apply Forall_forall. intros ph Hph _. unfold t_phs in Hph. rewrite !elem_of_cons, elem_of_nil in Hph. destruct Hph as [->|[->|[]]]; by vm_compute. Qed.

Lemma boot_correct_witness :
  match boot (sim_uart QEMU) (sim_dev QEMU) 2 (tick 0) s_rom 0x80000000 s_junk 5 0 s_board with
  | Ok (Enters tr k, b') => tr = SOFT_TLB /\ b_booted b' = 1 /\ csr_mepc (hw k) = APPS_ENTRY /\
      u_tx (b_uart b') = boot_log QEMU 1 SD_CARD SOFT_TLB t_phs
  | _ => False
  end.
Proof.
  assert (Hcore : platform_of 0 = ARTY \/ mhartid (b_hart s_board) <> 0) by (right; discriminate).
  assert (Hpre : Forall (fun x => x <> Byte.x30 /\ x <> Byte.x31) (lit "x")) by (by apply (bool_decide_unpack _)).
  assert (Hlen : (length (lit "x") < 5)%nat) by (cbn; lia).
  assert (Hcap : 2 * (EGOS_BIN_MAX_NBYTE / BLOCK_SIZE) <= 8192) by (by vm_compute).
  assert (Hhd : headers (exec_file s_blocks 0) = Some t_phs) by (vm_compute; reflexivity).
  assert (Hok : match boot (sim_uart QEMU) (sim_dev QEMU) 2 (tick 0) s_rom 0x80000000 s_junk 5 0 s_board with
    | Ok _ => True | _ => False end) by (vm_compute; exact I).
  pose proof (@boot_correct _ _ _ (sim_uart QEMU) (sim_dev QEMU) (sim_slave QEMU) 0 2 0 1 8192 (tick 0) s_rom 0x80000000 s_junk
    s_tty_spec (sim_spi QEMU) (sim_card QEMU) (sim_fuel QEMU) Hcap (tick_ok 0 (Z.le_refl 0)) (length_zeros 512) 5 s_board
    SD_CARD s_blocks t_phs (lit "x") Byte.x31 [] s_powered_on Hcore eq_refl Hpre (or_intror eq_refl) Hlen
    Hhd t_seg_ok s_in_slot t_seg_disjoint) as H.
  destruct (boot _ _ _ _ _ _ _ _ _) as [[[|tr k] b']| | |]; [contradiction H| |contradiction Hok..].
  destruct H as [-> Hb]. split_and!; [reflexivity|apply Hb|apply Hb|apply Hb].
Defined.
