(* ===== verification/Multicore.v ===== *)
(** * Booting on several cores

    The entry point in [earth/boot.s], on every core of the machine, and [boot] of
    [earth/boot.c] behind its lock.  All cores start at [boot_loader] and compete for
    [boot_lock] with an atomic swap; the one that gets it runs [boot].  A step
    relation on the cores and the board they share. *)

From stdpp Require Import options.
From coqutil Require Import Byte.
From S2P Require Import Prelude CString InodeStore Earth Timer Mmu SoftTlb MmuProps PageTable PageTableProps Process Kernel KernelInv KernelIpc KernelSched KernelTrace KernelFair KernelProps KernelWitness Disk DiskSpec SdSim DiskProps Tty Terminal Print DiskInit Dir Shell Elf ElfSpec ElfProps Devices SysProc SysProcProps Startup Boot BootProps.

(** Where a core is: in the loop of [boot_loader], in [boot], in [hang], stopped by
    [FATAL], or past [mret] in GPID_PROCESS with the kernel in this state. *)
Inductive core_pc : Type :=
| Spinning
| Booting
| Hanging
| Stopped (e : string)
| Running (tr : translation) (k : kernel machine).

(** A core with its own registers. *)
Record core : Type := {
  pc : core_pc;
  c_csr : csrs;
  c_hart : hart;
}.
Definition set_pc (c : core) (p : core_pc) : core := {| pc := p; c_csr := c_csr c; c_hart := c_hart c |}.

(** The cores and what they share. *)
Record smp (U D : Type) : Type := {
  cores : list core;
  shared : board U D;
}.
Arguments cores {U D} _.
Arguments shared {U D} _.

Section Cores.
Context {U D : Type} (udev : mmio U) (sdev : mmio D) (fuel : nat) (mtime : nat -> Z).
Context (rom : Z -> byte) (trap_entry : Z) (junk : list byte) (n : nat) (vendor_id : Z).
Implicit Types (b : board U D) (s : smp U D).

(** The board as core [c] sees it: the registers are its own. *)
Definition on_core (c : core) b : board U D := {| b_uart := b_uart b; b_disk := b_disk b; b_tables := b_tables b;
  b_lock := b_lock b; b_booted := b_booted b; b_csr := c_csr c; b_hart := c_hart c |}.

(** [amoswap.w.aq t1, t1, (t0); bnez t1, boot_loader] *)
Definition boot_loader (c : core) b : core * board U D :=
  (if b_lock b =? 0 then set_pc c Booting else c, with_lock b 1).

(** [call boot; hang: call hang].  A core that [FATAL] stops keeps the lock; what
    else it leaves behind, no core sees. *)
Definition boot_ends (r : boot_end) : core_pc := match r with Hangs => Hanging | Enters tr k => Running tr k end.
Definition call_boot (c : core) b : outcome (core * board U D) :=
  match boot udev sdev fuel mtime rom trap_entry junk n vendor_id (on_core c b) with
  | Ok (r, b') => Ok ({| pc := boot_ends r; c_csr := b_csr b'; c_hart := match r with Enters _ k => hw k | Hangs => c_hart c end |}, b')
  | Fatal e => Ok (set_pc c (Stopped e), b)
  | Stuck => Stuck
  | NoFuel => NoFuel
  end.

(** What core [i] does next.  Only the core with the lock runs code that touches more
    than the lock, so that its call of [boot] is one step. *)
Inductive step : smp U D -> smp U D -> Prop :=
| step_spin i c s : cores s !! i = Some c -> pc c = Spinning ->
    step s {| cores := <[i := (boot_loader c (shared s)).1]> (cores s); shared := (boot_loader c (shared s)).2 |}
| step_boot i c c' b' s : cores s !! i = Some c -> pc c = Booting ->
    call_boot c (shared s) = Ok (c', b') -> step s {| cores := <[i := c']> (cores s); shared := b' |}
| step_hang i c s : cores s !! i = Some c -> pc c = Hanging -> step s s.
Inductive steps : smp U D -> smp U D -> Prop :=
| steps_refl s : steps s s
| steps_step s s' s'' : steps s s' -> step s' s'' -> steps s s''.
End Cores.

(** ** At most one core boots *)

(** The cores that took the lock and did not give it back. *)
Definition has_lock (p : core_pc) : Prop := match p with Booting | Stopped _ | Running _ _ => True | Spinning | Hanging => False end.

(** ** The steps that are left: two for a core in the loop, one in [boot] *)
Definition pc_work (p : core_pc) : nat := match p with Spinning => 2 | Booting => 1 | _ => 0 end.
Definition work (l : list core) : nat := sum_list_with (fun c => pc_work (pc c)) l.

Lemma work_insert l i c c' : l !! i = Some c -> (work (<[i := c']> l) + pc_work (pc c) = work l + pc_work (pc c'))%nat.
Proof.
  unfold work. revert i. induction l as [|d l IH]; intros [|i] Hi; [done|done| |].
  - injection Hi as ->. cbn. lia.
  - specialize (IH i Hi). change (<[S i := c']> (d :: l)) with (d :: <[i := c']> l). cbn [sum_list_with]. lia.
Qed.

(** A core that [boot] is over on. *)
Definition boot_over (c : core) : Prop := (exists tr k, pc c = Running tr k) \/ pc c = Stopped no_memory.

Lemma other_platform p : p <> ARTY -> p = QEMU.
Proof. by destruct p. Qed.

#[global] Instance has_lock_dec p : Decision (has_lock p).
Proof. destruct p; apply _. Defined.

Section multicore.
Context {U D C : Type} (udev : mmio U) (sdev : mmio D) (sl : slave C) (vendor_id : Z).
Abbreviation plat := (platform_of vendor_id).
Context (fuel patience delay : nat) (cap : Z) (mtime : nat -> Z) (rom : Z -> byte) (trap_entry : Z) (junk : list byte) (n : nat).
Context `{!TtySpec (tty_init udev plat fuel), !SpiSpec sdev plat sl patience, !SdCard sl plat cap delay}.
Context (Hfuel : fuel_ok plat patience fuel delay cap) (Hcap : 2 * (EGOS_BIN_MAX_NBYTE / BLOCK_SIZE) <= cap) (Hclock : clock_ok mtime).
Context (Hjunk : length junk = Z.to_nat TERM_BUF_SIZE).
Context (disk : disk_type) (m : Z -> block) (phs : list elf32_program_header) (pre : list byte) (ch : byte) (rest : list byte).
(** The disk and what the user types, as for one core. *)
Context (Hhd : headers (exec_file m 0) = Some phs) (Hsegs : Forall seg_ok phs) (Hslot : Forall in_slot phs) (Hdis : ForallOrdPairs seg_disjoint phs).
Context (Hpre : Forall (fun x => x <> Byte.x30 /\ x <> Byte.x31) pre) (Hch : ch = Byte.x30 \/ ch = Byte.x31) (Hn : (length pre < n)%nat).
Abbreviation step := (step udev sdev fuel mtime rom trap_entry junk n vendor_id).
Abbreviation steps := (steps udev sdev fuel mtime rom trap_entry junk n vendor_id).
Abbreviation entered := (entered vendor_id mtime Hclock).
Abbreviation powered_on := (powered_on udev sdev sl vendor_id fuel patience delay cap rom disk m).
Implicit Types (b : board U D) (s : smp U D).

(** The core disabled on QEMU. *)
Definition disabled (i : nat) : Prop := plat = QEMU /\ i = 0%nat.
#[local] Instance disabled_dec i : Decision (disabled i).
Proof using Type. apply _. Defined.

(** The registers of core [i] before it boots: [mhartid] is its number. *)
Definition core_ok (i : nat) (c : core) : Prop := mhartid (c_hart c) = Z.of_nat i /\ length (saved_area (c_hart c)) = 32%nat.

(** Power-on: every core starts at [boot_loader]. *)
Record reset s : Prop := {
  rs_cores i c : cores s !! i = Some c -> pc c = Spinning /\ core_ok i c;
  rs_number : Z.of_nat (length (cores s)) <= NCORES + 1;
  rs_lock : b_lock (shared s) = 0;
  rs_board : powered_on (shared s);
  rs_typed : typed (b_uart (shared s)) = pre ++ ch :: rest;
}.

(** A core that is past [boot]. *)
Definition core_done s (i : nat) (c : core) : Prop :=
  match pc c with
  | Spinning | Booting => core_ok i c
  | Hanging => disabled i
  | Stopped e => ~ disabled i /\ e = no_memory
  | Running tr k => ~ disabled i /\ entered (exec_file m) phs tr k /\ pt_machine (b_tables (shared s)) = mach k /\
      b_booted (shared s) = 1
  end.

Record smp_inv s : Prop := {
  si_number : Z.of_nat (length (cores s)) <= NCORES + 1;
  si_done i c : cores s !! i = Some c -> core_done s i c;
  si_unique i j c d : cores s !! i = Some c -> cores s !! j = Some d -> has_lock (pc c) -> has_lock (pc d) -> i = j;
  si_held i c : cores s !! i = Some c -> has_lock (pc c) -> b_lock (shared s) = 1;
  si_free : (forall i c, cores s !! i = Some c -> ~ has_lock (pc c)) -> b_lock (shared s) = 0;
  si_board : (forall i c, cores s !! i = Some c -> has_lock (pc c) -> pc c = Booting) ->
    powered_on (shared s) /\ typed (b_uart (shared s)) = pre ++ ch :: rest;
}.

Lemma enabled_first i : ~ disabled i -> plat = ARTY \/ Z.of_nat i <> 0.
Proof using Type.
  intros Hd. destruct (decide (plat = ARTY)) as [|Hq]; [by left|right]. intros H0. apply Hd. split; [by apply other_platform|].
  by apply Nat2Z.inj.
Qed.
Lemma on_core_powered i c b : powered_on b -> core_ok i c -> Z.of_nat i <= NCORES -> powered_on (on_core c b).
Proof using Type.
  intros [H1 H2 H3 H4 H5 H6 H7] [Hc Ha] Hi. split; try done. split; [|done]. change (b_hart (on_core c b)) with (c_hart c). rewrite Hc. split; [apply Nat2Z.is_nonneg|done].
Qed.
Lemma lock_powered b v : powered_on b -> powered_on (with_lock b v).
Proof using Type. intros [H1 H2 H3 H4 H5 H6 H7]. by split. Qed.

Lemma reset_inv s : reset s -> smp_inv s.
Proof using Type.
  intros [Hc Hnum Hl Hb Ht]. split; [done|..|done|done].
  - intros i c Hi. destruct (Hc i c Hi) as [Hpc Hok]. unfold core_done. by rewrite Hpc.
  - intros i j c d Hi Hj Hl1. destruct (Hc i c Hi) as [Hpc _]. by rewrite Hpc in Hl1.
  - intros i c Hi Hl1. destruct (Hc i c Hi) as [Hpc _]. by rewrite Hpc in Hl1.
Qed.

(** Calling [boot]: the disabled core gives the lock back, the others enter
    GPID_PROCESS. *)
Lemma call_boot_spec i c b : powered_on b -> core_ok i c -> typed (b_uart b) = pre ++ ch :: rest -> Z.of_nat i <= NCORES ->
  exists c' b', call_boot udev sdev fuel mtime rom trap_entry junk n vendor_id c b = Ok (c', b') /\
  if decide (disabled i) then pc c' = Hanging /\ b' = with_lock (on_core c b) 0
  else b_lock b' = b_lock b /\
    ((pc c' = Stopped no_memory) \/ exists tr k, pc c' = Running tr k /\ entered (exec_file m) phs tr k /\
       pt_machine (b_tables b') = mach k /\ b_booted b' = 1).
Proof using Hfuel Hcap Hjunk Hhd Hsegs Hslot Hdis Hpre Hch Hn.
  intros Hb Hc Ht Hi. unfold call_boot. destruct (decide (disabled i)) as [[Hq ->]|Hd].
  - rewrite boot_core_zero by (done || apply Hc). by eexists _, _.
  - assert (plat = ARTY \/ mhartid (b_hart (on_core c b)) <> 0) as Hfirst.
    { change (b_hart (on_core c b)) with (c_hart c). destruct Hc as [-> _]. by apply enabled_first. }
    pose proof (wp_boot udev sdev sl vendor_id fuel patience delay cap mtime rom trap_entry junk Hfuel Hcap Hclock Hjunk n
      (on_core c b) disk m phs pre ch rest (on_core_powered i c b Hb Hc Hi) Hfirst Ht Hpre Hch Hn Hhd Hsegs Hslot Hdis) as H.
    cbv zeta in H. unfold wp in H.
    destruct (boot _ _ _ _ _ _ _ _ _) as [[r b1]|e| |]; [|rewrite H|done..]; (eexists _, _; split; [reflexivity|]).
    + destruct H as (k & -> & H). split; [apply H|]. right. eexists _, k. split_and!; [done|apply H..].
    + split; [done|by left].
Qed.

(** The step of core [i] changes the parts of the invariant that are about it. *)
Lemma smp_inv_insert s i c b : smp_inv s -> (exists c0, cores s !! i = Some c0 /\ forall j d, cores s !! j = Some d -> has_lock (pc d) -> j = i) ->
  core_done {| cores := <[i := c]> (cores s); shared := b |} i c -> (has_lock (pc c) -> b_lock b = 1) -> (~ has_lock (pc c) -> b_lock b = 0) ->
  ((has_lock (pc c) -> pc c = Booting) -> powered_on b /\ typed (b_uart b) = pre ++ ch :: rest) ->
  smp_inv {| cores := <[i := c]> (cores s); shared := b |}.
Proof using Type.
  intros [Hnum Hdone Huniq Hheld _ _] (c0 & Hi & Honly) Hc Hl Hf Hb. pose proof (lookup_lt_Some _ _ _ Hi) as Hlt.
  assert (forall j d, <[i := c]> (cores s) !! j = Some d -> j = i /\ d = c \/ j <> i /\ cores s !! j = Some d /\ ~ has_lock (pc d)) as Hcases.
  { intros j d [(-> & <- & _)|[Hne Hj]]%list_lookup_insert_Some; [by left|right]. split_and!; [done|done|].
    intros Hd. apply Hne. symmetry. by eapply Honly. }
  split; cbn [cores shared].
  - by rewrite length_insert.
  - intros j d [[-> ->]|(Hne & Hj & Hd)]%Hcases; [done|]. specialize (Hdone j d Hj). unfold core_done in *. by destruct (pc d).
  - intros j j' d d' [[-> ->]|(_ & _ & Hd)]%Hcases [[-> ->]|(_ & _ & Hd')]%Hcases Hp Hp'; done.
  - intros j d [[-> ->]|(_ & _ & Hd)]%Hcases Hp; [by apply Hl|done].
  - intros Hall. apply Hf. apply (Hall i). by apply list_lookup_insert_eq.
  - intros Hall. apply Hb. intros Hp. apply (Hall i c); [by apply list_lookup_insert_eq|done].
Qed.

Lemma lock_inv s : smp_inv s -> b_lock (shared s) <> 0 -> smp_inv {| cores := cores s; shared := with_lock (shared s) 1 |}.
Proof using Type.
  intros [Hnum Hdone Huniq Hheld Hfree Hb] Hl. split; cbn [cores shared]; [done| |done|done|by intros H%Hfree|].
  - intros i c Hi. specialize (Hdone i c Hi). unfold core_done in *. by destruct (pc c).
  - intros Hall. destruct (Hb Hall) as [Hp Ht]. split; [by apply lock_powered|done].
Qed.

Lemma step_inv s s' : smp_inv s -> step s s' -> smp_inv s'.
Proof using Hfuel Hcap Hjunk Hhd Hsegs Hslot Hdis Hpre Hch Hn.
  intros Hinv Hstep. pose proof Hinv as [Hnum Hdone Huniq Hheld _ Hb]. destruct Hstep as [i c s Hi Hpc|i c c' b' s Hi Hpc Hboot|i c s Hi Hpc]; [..|done].
  - unfold boot_loader. destruct (Z.eqb_spec (b_lock (shared s)) 0) as [Hl|Hl]; cbn [fst snd].
    + assert (forall j d, cores s !! j = Some d -> has_lock (pc d) -> False) as Hfree.
      { intros j d Hj Hd. pose proof (Hheld j d Hj Hd). congruence. }
      destruct Hb as [Hp Ht]; [intros j d Hj Hd; by destruct (Hfree j d Hj Hd)|].
      apply smp_inv_insert; [done| |by specialize (Hdone i c Hi); unfold core_done in *; rewrite Hpc in Hdone|done|by intros []|].
      * exists c. split; [done|]. intros j d Hj Hd. by destruct (Hfree j d Hj Hd).
      * intros _. split; [by apply lock_powered|done].
    + rewrite list_insert_id by done. by apply lock_inv.
  - assert (forall j d, cores s !! j = Some d -> has_lock (pc d) -> j = i) as Honly.
    { intros j d Hj Hd. apply (Huniq j i d c); [done..|by rewrite Hpc]. }
    destruct Hb as [Hp Ht]. { intros j d Hj Hd. pose proof (Honly j d Hj Hd) as ->. congruence. }
    pose proof (Hdone i c Hi) as Hok. unfold core_done in Hok. rewrite Hpc in Hok.
    assert (b_lock (shared s) = 1) as Hl by (apply (Hheld i c Hi); by rewrite Hpc).
    assert (Z.of_nat i <= NCORES) as Hle by (apply lookup_lt_Some in Hi; lia).
    destruct (call_boot_spec i c (shared s) Hp Hok Ht Hle) as (c1 & b1 & Hr & Hspec). rewrite Hboot in Hr. injection Hr as <- <-.
    apply smp_inv_insert; [done|by exists c|unfold core_done|..]; destruct (decide (disabled i)) as [Hd|Hd].
    + by destruct Hspec as [-> _].
    + by destruct Hspec as [_ [-> |(tr & k & -> & Hk)]].
    + by destruct Hspec as [-> _].
    + destruct Hspec as [Hl' _]. congruence.
    + by destruct Hspec as [_ ->].
    + destruct Hspec as [_ [-> |(tr & k & -> & Hk)]]; by intros [].
    + destruct Hspec as [_ ->]. intros _. split; [by eapply lock_powered, on_core_powered|done].
    + destruct Hspec as [_ [-> |(tr & k & -> & Hk)]]; intros Hx; by specialize (Hx I).
Qed.

Lemma steps_inv s s' : smp_inv s -> steps s s' -> smp_inv s'.
Proof using Hfuel Hcap Hjunk Hhd Hsegs Hslot Hdis Hpre Hch Hn. intros Hs. induction 1 as [s|s s1 s2 _ IH Hstep]; [done|]. eapply step_inv; [by apply IH|done]. Qed.

Lemma steps_trans s1 s2 s3 : steps s1 s2 -> steps s2 s3 -> steps s1 s3.
Proof using Type. intros H12. induction 1 as [|s s' s'' _ IH Hstep]; [done|]. eapply steps_step; [by apply IH|done]. Qed.

(** C11: one core boots the system.  However the cores of a machine interleave after
    reset, at most one of them is past the lock of [boot_loader] without having given
    it back: the only one in [boot], stopped by it, or running the kernel.  A core that
    runs has entered GPID_PROCESS with the image of its executable and the
    kernel it runs is on the memory of the machine; a core hangs only if it
    is the one that is disabled on QEMU, and that one does not run; a core
    is stopped only because the frames ran out. *)
Theorem one_core_boots s s' : reset s -> steps s s' ->
  (forall i j c d, cores s' !! i = Some c -> cores s' !! j = Some d -> has_lock (pc c) -> has_lock (pc d) -> i = j) /\
  forall i c, cores s' !! i = Some c ->
    match pc c with
    | Spinning | Booting => True
    | Hanging => disabled i
    | Stopped e => ~ disabled i /\ e = no_memory
    | Running tr k => ~ disabled i /\ entered (exec_file m) phs tr k /\ pt_machine (b_tables (shared s')) = mach k /\ b_booted (shared s') = 1
    end.
Proof using Hfuel Hcap Hjunk Hhd Hsegs Hslot Hdis Hpre Hch Hn.
  intros Hr Hs. destruct (steps_inv s s' (reset_inv s Hr) Hs) as [_ Hdone Huniq _ _ _]. split; [done|].
  intros i c Hi. specialize (Hdone i c Hi). unfold core_done in Hdone. by destruct (pc c).
Qed.

(** While [boot] is over on no core and one is enabled, there is a step that does some of
    the work. *)
Lemma smp_progress s : smp_inv s -> (exists i, (i < length (cores s))%nat /\ ~ disabled i) ->
  (exists i c, cores s !! i = Some c /\ boot_over c) \/
  exists s', step s s' /\ (work (cores s') < work (cores s))%nat /\ length (cores s') = length (cores s).
Proof using Hfuel Hcap Hjunk Hhd Hsegs Hslot Hdis Hpre Hch Hn.
  intros [Hnum Hdone Huniq Hheld Hfree Hb] (i & (c & Hi)%lookup_lt_is_Some_2 & He).
  destruct (decide (Exists (fun d => has_lock (pc d)) (cores s))) as [(d & (j & Hj)%list_elem_of_lookup & Hd)%Exists_exists|Hnone].
  - specialize (Hdone j d Hj) as Hdj. unfold core_done in Hdj. destruct (pc d) as [| | |e|tr k] eqn:Hpc; [done| |done|..].
    + assert (forall i c, cores s !! i = Some c -> has_lock (pc c) -> pc c = Booting) as Hall.
      { intros i' c' Hi' Hc'. assert (i' = j) as -> by (apply (Huniq i' j c' d); [done..|by rewrite Hpc]). congruence. }
      destruct (Hb Hall) as [Hp Ht]. assert (Z.of_nat j <= NCORES) as Hle by (apply lookup_lt_Some in Hj; lia).
      destruct (call_boot_spec j d (shared s) Hp Hdj Ht Hle) as (c' & b' & Hr & Hspec). right. eexists. split; [by eapply step_boot|]. cbn [cores].
      rewrite length_insert. split; [|done]. pose proof (work_insert (cores s) j d c' Hj) as Hw. rewrite Hpc in Hw. cbn in Hw.
      destruct (decide (disabled j)) as [Hdis'|Hdis'].
      * destruct Hspec as [Hpc' _]. rewrite Hpc' in Hw. cbn in Hw. lia.
      * destruct Hspec as [_ [Hpc'|(tr & k & Hpc' & _)]]; rewrite Hpc' in Hw; cbn in Hw; lia.
    + left. exists j, d. split; [done|]. right. by destruct Hdj as [_ <-].
    + left. exists j, d. split; [done|]. left. by eexists _, _.
  - assert (forall i c, cores s !! i = Some c -> ~ has_lock (pc c)) as Hno.
    { intros i' c' Hi' Hl. apply Hnone, Exists_exists. exists c'. split; [by eapply list_elem_of_lookup_2|done]. }
    specialize (Hdone i c Hi). specialize (Hno i c Hi) as Hnc. unfold core_done in Hdone.
    destruct (pc c) as [| | |e|tr k] eqn:Hpc; [|by destruct Hnc|by destruct He|by destruct Hnc|by destruct Hnc].
    right. eexists. split; [by eapply step_spin|]. unfold boot_loader. rewrite Hfree by done. cbn [cores fst Z.eqb].
    rewrite length_insert. split; [|done]. pose proof (work_insert (cores s) i c (set_pc c Booting) Hi) as Hw. rewrite Hpc in Hw. cbn in Hw. lia.
Qed.

Lemma smp_boots s0 s : smp_inv s0 -> steps s0 s -> (exists i, (i < length (cores s))%nat /\ ~ disabled i) ->
  exists s', steps s s' /\ exists i c, cores s' !! i = Some c /\ boot_over c.
Proof using Hfuel Hcap Hjunk Hhd Hsegs Hslot Hdis Hpre Hch Hn.
  intros H0 Hs. remember (work (cores s)) as w eqn:Hw. revert s Hs Hw. induction (lt_wf w) as [w _ IH]. intros s Hs -> Hi.
  destruct (smp_progress s (steps_inv s0 s H0 Hs) Hi) as [Hover|(s1 & Hstep & Hlt & Hlen)]; [exists s; split; [constructor|done]|].
  destruct (IH _ Hlt s1 (steps_step _ _ _ _ _ _ _ _ _ _ _ _ Hs Hstep) eq_refl) as (s' & Hs' & Hover); [by rewrite Hlen|].
  exists s'. split; [|done]. apply (steps_trans _ s1); [eapply steps_step; [constructor|done]|done].
Qed.

Lemma steps_length s s' : steps s s' -> length (cores s') = length (cores s).
Proof using Type.
  induction 1 as [|s s1 s2 _ IH Hstep]; [done|]. rewrite <- IH. destruct Hstep; cbn [cores]; by rewrite ?length_insert.
Qed.

(** C15: booting cannot get stuck.  Whatever the cores have done since reset, if one of
    them is not the disabled one then there is a run in which a core enters
    GPID_PROCESS or is stopped for want of memory: no core waits for a lock that
    nobody gives back, and [boot] ends.  (Each core has at most two
    steps that are not a failed attempt at the lock.) *)
Theorem boot_stays_possible s s' : reset s -> (exists i, (i < length (cores s))%nat /\ ~ disabled i) -> steps s s' ->
  exists s'', steps s' s'' /\ exists i c, cores s'' !! i = Some c /\ boot_over c.
Proof using Hfuel Hcap Hclock Hjunk Hhd Hsegs Hslot Hdis Hpre Hch Hn.
  intros Hr Hi Hs. apply (smp_boots s); [by apply reset_inv|done|]. by rewrite (steps_length _ _ Hs).
Qed.
End multicore.

(** ** Two cores of QEMU: core 0 is disabled and core 1 boots *)
Definition s_hart0 : hart := {| mhartid := 0; csr_mepc := csr_mepc w_hart; mcause := mcause w_hart; saved_area := saved_area w_hart |}.
Definition s_core0 : core := {| pc := Spinning; c_csr := s_csrs; c_hart := s_hart0 |}.
Definition s_core : core := {| pc := Spinning; c_csr := s_csrs; c_hart := w_hart |}.
Definition s_smp : smp uart ctrl := {| cores := [s_core0; s_core]; shared := with_lock s_board 0 |}.
Abbreviation s_steps := (steps (sim_uart QEMU) (sim_dev QEMU) 2 (tick 0) s_rom 0x80000000 s_junk 5 0).

Lemma s_reset : @reset _ _ _ (sim_uart QEMU) (sim_dev QEMU) (sim_slave QEMU) 0 2 0 1 8192 s_rom
  s_tty_spec (sim_spi QEMU) (sim_card QEMU) SD_CARD s_blocks (lit "x") Byte.x31 [] s_smp.
Proof.
  split; [| |done| |done].
  - intros i c Hi. destruct i as [|[|i]]; [by injection Hi as <-..|done].
  - unfold NCORES. cbn. lia.
  - by apply lock_powered, s_powered_on.
Qed.

(** Core 0 takes the lock, gives it back and hangs; core 1 takes it and boots. *)
Abbreviation s_call_boot := (call_boot (sim_uart QEMU) (sim_dev QEMU) 2 (tick 0) s_rom 0x80000000 s_junk 5 0).
Definition s_hung : core := {| pc := Hanging; c_csr := s_csrs; c_hart := s_hart0 |}.
Definition s_shared : board uart ctrl := on_core s_core0 s_board.
Definition s_taken (l : list core) (b : board uart ctrl) : smp uart ctrl := {| cores := l; shared := with_lock b 1 |}.
Definition s_given : smp uart ctrl := {| cores := [s_hung; s_core]; shared := with_lock s_shared 0 |}.

Lemma s_run_given : s_steps s_smp s_given.
Proof.
  apply (steps_step _ _ _ _ _ _ _ _ _ _ (s_taken [set_pc s_core0 Booting; s_core] s_board)).
  - eapply steps_step; [constructor|]. exact (step_spin (sim_uart QEMU) (sim_dev QEMU) 2 (tick 0) s_rom 0x80000000 s_junk 5 0 0 s_core0 s_smp eq_refl eq_refl).
  - exact (step_boot (sim_uart QEMU) (sim_dev QEMU) 2 (tick 0) s_rom 0x80000000 s_junk 5 0 0 (set_pc s_core0 Booting) s_hung (with_lock s_shared 0) (s_taken [set_pc s_core0 Booting; s_core] s_board)
      eq_refl eq_refl eq_refl).
Qed.

Definition s_booting : smp uart ctrl := s_taken [s_hung; set_pc s_core Booting] s_shared.
Abbreviation s_booted := (s_call_boot (set_pc s_core Booting) (shared s_booting)).
Definition runs (o : outcome (core * board uart ctrl)) : bool :=
  match o with Ok (c, _) => match pc c with Running _ _ => true | _ => false end | _ => false end.
Lemma runs_true o : runs o = true -> exists c b tr k, o = Ok (c, b) /\ pc c = Running tr k.
Proof.
  destruct o as [[c b]| | |]; cbn; [|discriminate..]. destruct (pc c) as [| | | |tr k] eqn:Hpc; [discriminate..|]. intros _. by exists c, b, tr, k.
Qed.
Lemma s_booted_runs : runs s_booted = true.
Proof. vm_compute. reflexivity. Qed.

Lemma s_run_boot : exists c b tr k, pc c = Running tr k /\ s_steps s_smp {| cores := [s_hung; c]; shared := b |}.
Proof.
  destruct (runs_true s_booted s_booted_runs) as (c & b & tr & k & Heq & Hpc). exists c, b, tr, k. split; [exact Hpc|].
  apply (steps_step _ _ _ _ _ _ _ _ _ _ s_booting).
  - eapply steps_step; [exact s_run_given|]. exact (step_spin (sim_uart QEMU) (sim_dev QEMU) 2 (tick 0) s_rom 0x80000000 s_junk 5 0 1 s_core s_given eq_refl eq_refl).
  - exact (step_boot (sim_uart QEMU) (sim_dev QEMU) 2 (tick 0) s_rom 0x80000000 s_junk 5 0 1 (set_pc s_core Booting) c b s_booting eq_refl eq_refl Heq).
Qed.

Lemma one_core_boots_witness : exists c b tr k, s_steps s_smp {| cores := [s_hung; c]; shared := b |} /\
  pc c = Running tr k /\ csr_mepc (hw k) = APPS_ENTRY /\ pt_machine (b_tables b) = mach k.
Proof.
  destruct s_run_boot as (c & b & tr & k & Hpc & Hs).
  exists c, b, tr, k. split; [exact Hs|]. split; [exact Hpc|].
  assert (Hpre : Forall (fun x => x <> Byte.x30 /\ x <> Byte.x31) (lit "x")) by (by apply (bool_decide_unpack _)).
  assert (Hlen : (length (lit "x") < 5)%nat) by (cbn; lia).
  assert (Hcap : 2 * (EGOS_BIN_MAX_NBYTE / BLOCK_SIZE) <= 8192) by (by vm_compute).
  assert (Hhd : headers (exec_file s_blocks 0) = Some t_phs) by (vm_compute; reflexivity).
  pose proof (@one_core_boots _ _ _ (sim_uart QEMU) (sim_dev QEMU) (sim_slave QEMU) 0 2 0 1 8192 (tick 0) s_rom 0x80000000 s_junk 5
    s_tty_spec (sim_spi QEMU) (sim_card QEMU) (sim_fuel QEMU) Hcap (tick_ok 0 (Z.le_refl 0)) (length_zeros 512)
    SD_CARD s_blocks t_phs (lit "x") Byte.x31 [] Hhd t_seg_ok s_in_slot t_seg_disjoint Hpre (or_intror eq_refl) Hlen s_smp _ s_reset Hs) as [_ H].
  specialize (H 1%nat c eq_refl). rewrite Hpc in H. destruct H as (_ & Hk & Hm & _). split; [apply Hk|exact Hm].
Defined.

Lemma boot_stays_possible_witness : s_steps s_smp s_given /\
  exists s'', s_steps s_given s'' /\ exists i c, cores s'' !! i = Some c /\ boot_over c.
Proof.
  split; [exact s_run_given|].
  assert (Hpre : Forall (fun x => x <> Byte.x30 /\ x <> Byte.x31) (lit "x")) by (by apply (bool_decide_unpack _)).
  assert (Hlen : (length (lit "x") < 5)%nat) by (cbn; lia).
  assert (Hcap : 2 * (EGOS_BIN_MAX_NBYTE / BLOCK_SIZE) <= 8192) by (by vm_compute).
  assert (Hhd : headers (exec_file s_blocks 0) = Some t_phs) by (vm_compute; reflexivity).
  assert (Hen : exists i, (i < length (cores s_smp))%nat /\ ~ disabled 0 i) by (exists 1%nat; split; [cbn; lia|by intros [_ H]]).
  exact (@boot_stays_possible _ _ _ (sim_uart QEMU) (sim_dev QEMU) (sim_slave QEMU) 0 2 0 1 8192 (tick 0) s_rom 0x80000000 s_junk 5
    s_tty_spec (sim_spi QEMU) (sim_card QEMU) (sim_fuel QEMU) Hcap (tick_ok 0 (Z.le_refl 0)) (length_zeros 512)
    SD_CARD s_blocks t_phs (lit "x") Byte.x31 [] Hhd t_seg_ok s_in_slot t_seg_disjoint Hpre (or_intror eq_refl) Hlen s_smp s_given s_reset Hen s_run_given).
Defined.
