(* ===== verification/BootImage.v ===== *)
(** * From the build to the first process

    [tools/mkfs.c], [earth/boot.c], [earth/dev_disk.c], [grass/init.c] and
    [library/elf/elf.c] together: a machine whose disk is the image that [mkfs]
    makes of the binaries of a build enters the process server of this build, which
    starts the other servers of it. *)

From stdpp Require Import options.
From coqutil Require Import Byte.
From S2P Require Import Prelude CString InodeStore Earth Timer Mmu SoftTlb MmuProps PageTable PageTableProps Process Kernel KernelInv KernelIpc KernelSched KernelTrace KernelFair KernelProps KernelWitness Disk DiskSpec SdSim DiskProps Tty Terminal Print DiskInit Dir Shell Elf ElfSpec ElfProps Devices SysProc SysProcProps Startup Mkfs MkfsProps Boot BootProps.

(** Block [n] of a sequence of bytes, and the blocks of an executable. *)
Definition nth_block (bs : list byte) (n : Z) : block := take 512 (drop (Z.to_nat (512 * n)) bs).
Definition elf_blocks (elf : list byte) (n : Z) : block :=
  let d := nth_block elf n in d ++ zeros (512 - length d).

Lemma elf_blocks_nth elf n N : 0 <= n -> 512 * (n + 1) <= Z.of_nat (length elf + N) ->
  elf_blocks elf n = nth_block (elf ++ zeros N) n.
Proof.
  intros Hn HN. unfold elf_blocks, nth_block, zeros. set (o := Z.to_nat (512 * n)). rewrite drop_app, drop_replicate, take_app.
  rewrite length_take, length_drop, take_replicate. do 2 f_equal. unfold o. lia.
Qed.

(** The bytes of a file whose blocks are those of [bs]. *)
Lemma file_byte_nth file bs o : 0 <= o -> file (o / 512) = nth_block bs (o / 512) -> file_byte file o = nth (Z.to_nat o) bs Byte.x00.
Proof.
  intros Ho Hf. unfold file_byte, BLOCK_SIZE. rewrite Hf. pose proof (Z.div_mod o 512 ltac:(lia)). pose proof (Z.mod_pos_bound o 512 ltac:(lia)).
  pose proof (Z.div_pos o 512 Ho ltac:(lia)). unfold nth_block. rewrite !nth_lookup, lookup_take_lt, lookup_drop by lia. do 2 f_equal. lia.
Qed.

(** ** An executable that the loader can load *)
Record elf_ok (elf : list byte) (phs : list elf32_program_header) : Prop := {
  eo_length : 512 <= Z.of_nat (length elf) <= EGOS_BIN_MAX_NBYTE;
  eo_headers : headers (take 512 elf) = Some phs;
  eo_segs : Forall seg_ok phs;
  eo_data : Forall (fun ph => RAM_START <= p_vaddr ph ->
    p_offset ph + p_filesz ph <= Z.of_nat (length elf)) phs;
  eo_disjoint : ForallOrdPairs seg_disjoint phs;
}.

(** At the place [k] in the image, from the block [256 * k] on. *)
Definition slot_file (m : Z -> block) (base n : Z) : block := m (base + n).

Section placed.
Context (m : Z -> block) (img elf : list byte) (phs : list elf32_program_header) (Helf : elf_ok elf phs) (k : nat) (Hk : (k <= 14)%nat).
Context (Hm : forall n, 0 <= n < 2 * SIZE_2MB / BLOCK_SIZE -> m n = nth_block img n) (Himg : SIZE_2MB <= Z.of_nat (length img)).
Context (Hat : take (length elf) (drop (k * Z.to_nat EGOS_BIN_MAX_NBYTE) img) = elf).
Abbreviation file := (slot_file m (slot_blocks * Z.of_nat k)).

Lemma placed_block n : 0 <= n <= slot_blocks -> file n = nth_block (drop (k * Z.to_nat EGOS_BIN_MAX_NBYTE) img) n.
Proof using Hm Hk.
  clear Himg. unfold slot_file. change slot_blocks with 256. intros Hn.
  rewrite Hm by (change (2 * SIZE_2MB / BLOCK_SIZE) with 8192; lia).
  unfold nth_block. rewrite drop_drop. do 2 f_equal. unfold EGOS_BIN_MAX_NBYTE. lia.
Qed.

Lemma placed_headers : headers (file 0) = Some phs.
Proof using Hm Hk Hat Helf.
  rewrite placed_block by done. destruct Helf as [Hlen Hhd _ _ _]. rewrite <- Hhd. f_equal. unfold nth_block.
  rewrite drop_0, <- Hat, take_take. f_equal. clear Himg Hk. lia.
Qed.

Lemma placed_in_slot : Forall in_slot phs.
Proof using Helf.
  clear Hm Hat Himg Hk. destruct Helf as [Hlen _ _ Hdata _]. eapply Forall_impl; [exact Hdata|]. intros ph H Hram. specialize (H Hram). lia.
Qed.

Lemma placed_byte o : 0 <= o < Z.of_nat (length elf) -> file_byte file o = file_byte (elf_blocks elf) o.
Proof using Hm Hk Hat Helf.
  intros Ho. destruct Helf as [Hlen _ _ _ _]. change EGOS_BIN_MAX_NBYTE with (512 * 256) in Hlen. clear Himg.
  assert (0 <= o / 512 <= 255) as Hq by (split; [apply Z.div_pos; lia|apply Z.lt_succ_r, Z.div_lt_upper_bound; lia]).
  rewrite (file_byte_nth file (drop (k * Z.to_nat EGOS_BIN_MAX_NBYTE) img)) by (lia || (apply placed_block; change slot_blocks with 256; lia)).
  rewrite (file_byte_nth (elf_blocks elf) (elf ++ zeros 512)); [|lia|].
  2: { apply elf_blocks_nth; [lia|]. pose proof (Z.div_mod o 512 ltac:(lia)). pose proof (Z.mod_pos_bound o 512 ltac:(lia)). lia. }
  rewrite !nth_lookup. f_equal. rewrite lookup_app_l by lia. rewrite <- Hat at 1. by rewrite lookup_take_lt by lia.
Qed.

Lemma placed_page v : exec_page file phs v = exec_page (elf_blocks elf) phs v.
Proof using Hm Hk Hat Helf.
  clear Himg. pose proof placed_byte as Hbyte. destruct Helf as [_ _ Hsegs Hdata _]. apply exec_page_ext. rewrite Forall_forall in *.
  intros ph Hph Hram i Hi. specialize (Hdata ph Hph Hram). destruct (Hsegs ph Hph) as [[Hoff _] _ _ _ _ _]. apply Hbyte. lia.
Qed.
End placed.

Lemma load_image_ext file file' phs a y t t' v : (forall v, exec_page file phs v = exec_page file' phs v) ->
  load_image file phs a y t t' v = load_image file' phs a y t t' v.
Proof. intros Hx. unfold load_image. by rewrite Hx. Qed.

Section image.
Context {U D C : Type} (udev : mmio U) (sdev : mmio D) (sl : slave C) (vendor_id : Z).
Abbreviation plat := (platform_of vendor_id).
Context (fuel patience delay : nat) (cap : Z) (mtime : nat -> Z) (rom : Z -> byte) (trap_entry : Z) (junk : list byte).
Context `{!TtySpec (tty_init udev plat fuel), !SpiSpec sdev plat sl patience, !SdCard sl plat cap delay}.
Context (Hfuel : fuel_ok plat patience fuel delay cap) (Hcap : 5 * slot_blocks <= cap) (Hclock : clock_ok mtime).
Context (m : Z -> block).
Abbreviation entered := (entered vendor_id mtime Hclock).
Abbreviation powered_on := (powered_on udev sdev sl vendor_id fuel patience delay cap rom).
Abbreviation disk_ok := (disk_ok sdev sl vendor_id patience delay cap rom).
Abbreviation devices := (board_devices udev sdev sl vendor_id fuel patience delay cap rom m).
Abbreviation tw := (board_write (D := D) udev fuel plat).

Lemma entered_ext file file' phs tr k : (forall v, exec_page file phs v = exec_page file' phs v) ->
  entered file phs tr k -> entered file' phs tr k.
Proof using Type.
  intros Hx [H1 H2 H3 H4 (a & y & t & t' & Ha & Hi) H6 H7 H8]. split; try done. exists a, y, t, t'. split; [done|].
  intros v. rewrite Hi. by apply load_image_ext.
Qed.

Lemma spawned_ext {X} `{!HasMachine X} (k k' : kernel X) pid file file' phs : (forall v, exec_page file phs v = exec_page file' phs v) ->
  spawned k k' pid 0 None file phs -> spawned k k' pid 0 None file' phs.
Proof using Type.
  intros Hx [H1 (a & y & t & t' & Ha & Hi)]. split; [done|]. exists a, y, t, t'. split; [done|]. intros v. rewrite Hi. by apply load_image_ext.
Qed.

(** [earth->disk_read(n, 1, dst)] of the process server. *)
Definition board_read (n : Z) : M (board U D) block := on b_disk with_disk (disk_read sdev plat fuel rom n 1).

Lemma board_read_ok n (b : board U D) : disk_ok m (b_disk b) -> 0 <= n < cap ->
  exists d, board_read n b = Ok (m n, with_disk b d) /\ disk_ok m d.
Proof using Hfuel.
  intros Hd Hn. destruct (disk_ok_read sdev sl vendor_id fuel patience delay cap rom Hfuel m (b_disk b) n Hd Hn) as (d & Hr & Hd').
  exists d. split; [|done]. unfold board_read, on. by rewrite Hr.
Qed.

(** The process server reads an executable at its place. *)
Lemma board_reader_ok base pid keeps o : (forall n, is_block (m n)) -> 0 <= base -> base + slot_blocks <= cap -> base + slot_blocks <= 2 ^ 32 ->
  reader_ok pid keeps (fun b => dev_inv (Devices := devices) b /\ dev_out (Devices := devices) b = o) (sys_proc_read board_read base) (slot_file m base) slot_dom.
Proof using Hfuel.
  intros Hbl Hb Hc Hc'. split; [intros n; apply Hbl|]. intros n b [Hn0 Hn] [[Hu Hd] Ho] Hi Hv. unfold sys_proc_read.
  rewrite u32_id by lia. destruct (board_read_ok (base + n) b Hd ltac:(lia)) as (d & Hr & Hd').
  exists (with_disk b d). by split_and!.
Qed.

(** ** A build *)
Context (rd : nat -> nat -> nat) (Hrd : forall p n, (0 < n)%nat -> (1 <= rd p n <= n)%nat).
(** The four servers of the system, and their program headers. *)
Context (elf : nat -> list byte) (phs : nat -> list elf32_program_header).

(** The image that [mkfs] makes of the binaries, on the disk. *)
Record build (bins : list (list byte)) (users : list (list byte * list byte)) (beyond cpu : list byte) (img : image) : Prop := {
  bu_bins : bins_fit bins 0 (Z.to_nat SIZE_2MB);
  bu_users : users_ok users;
  bu_beyond : length beyond = 256%nat;
  bu_cpu : Z.of_nat (length cpu) < SIZE_2MB * 2;
  bu_mkfs : mkfs rd 1 bins users beyond cpu = Ok img;
  bu_servers k : (1 <= k <= 4)%nat -> bins !! k = Some (elf k) /\ elf_ok (elf k) (phs k);
  bu_disk i : 0 <= i < 2 * SIZE_2MB / BLOCK_SIZE -> m i = nth_block (disk_img img) i;
  bu_blocks i : is_block (m i);
}.

(** The server whose place starts at the block [base]. *)
Definition slot_of (base : Z) : nat := Z.to_nat (base / slot_blocks).
Abbreviation places := (slot_file m).
Abbreviation phs_at := (fun base => phs (slot_of base)).
Definition server_at (base : Z) : Z -> block := elf_blocks (elf (slot_of base)).

Section built.
Context bins users beyond cpu img (Hbuild : build bins users beyond cpu img).

Lemma server_place k : (1 <= k <= 4)%nat -> SIZE_2MB <= Z.of_nat (length (disk_img img)) /\
  take (length (elf k)) (drop (k * Z.to_nat EGOS_BIN_MAX_NBYTE) (disk_img img)) = elf k.
Proof using Hbuild Hrd.
  clear Hcap. intros Hk. destruct Hbuild as [Hbins Hus Hbeyond Hcpu Hmk Hserv _ _]. destruct (Hserv k Hk) as [Helf Hok].
  pose proof (mkfs_ok rd Hrd bins users beyond cpu Hbins Hus Hbeyond Hcpu) as H. rewrite Hmk in H.
  destruct H as (exec & fs & F & Himg & Hexec & Hslots & _). split; [rewrite Himg, length_app, Hexec; unfold SIZE_2MB; lia|].
  pose proof (Hslots _ _ Helf) as Hat. destruct Hok as [[_ Hlen] _ _ _ _]. rewrite Himg, drop_app_le, take_app_le; [done|..];
    rewrite ?length_drop, Hexec; unfold EGOS_BIN_MAX_NBYTE, SIZE_2MB in *; lia.
Qed.

Lemma server_page k v : (1 <= k <= 4)%nat -> exec_page (places (slot_blocks * Z.of_nat k)) (phs k) v = exec_page (elf_blocks (elf k)) (phs k) v.
Proof using Hbuild Hrd.
  clear Hcap. intros Hk. destruct (server_place k Hk) as [Hl Hat]. destruct (bu_servers _ _ _ _ _ Hbuild k Hk) as [_ Hok].
  apply (placed_page m (disk_img img) (elf k) (phs k) Hok k ltac:(lia) (bu_disk _ _ _ _ _ Hbuild) Hat).
Qed.

Lemma server_headers k : (1 <= k <= 4)%nat -> headers (places (slot_blocks * Z.of_nat k) 0) = Some (phs k).
Proof using Hbuild Hrd.
  clear Hcap. intros Hk. destruct (server_place k Hk) as [Hl Hat]. destruct (bu_servers _ _ _ _ _ Hbuild k Hk) as [_ Hok].
  apply (placed_headers m (disk_img img) (elf k) (phs k) Hok k ltac:(lia) (bu_disk _ _ _ _ _ Hbuild) Hat).
Qed.

Lemma built_server quiet k : (2 <= k <= 4)%nat ->
  server_image tw (Devices0 := devices) board_read quiet places phs_at (slot_blocks * Z.of_nat k).
Proof using Hbuild Hrd Hfuel Hcap.
  intros Hk. assert (slot_of (slot_blocks * Z.of_nat k) = k) as Hs.
  { unfold slot_of. rewrite Z.mul_comm, Z.div_mul by done. apply Nat2Z.id. }
  destruct (bu_servers _ _ _ _ _ Hbuild k ltac:(lia)) as [_ Hok]. split; rewrite ?Hs.
  - intros pid o _. apply board_reader_ok; [apply Hbuild|..]; change slot_blocks with 256 in *; lia.
  - apply server_headers. lia.
  - apply Hok.
  - by apply (placed_in_slot (elf k)).
  - apply Hok.
Qed.

Lemma started_server (k k' : kernel (board U D)) pid i : (1 <= i <= 4)%nat ->
  spawned k k' pid 0 None (places (slot_blocks * Z.of_nat i)) (phs_at (slot_blocks * Z.of_nat i)) ->
  spawned k k' pid 0 None (server_at (slot_blocks * Z.of_nat i)) (phs_at (slot_blocks * Z.of_nat i)).
Proof using Hbuild Hrd.
  intros Hi. assert (slot_of (slot_blocks * Z.of_nat i) = i) as Hs.
  { unfold slot_of. rewrite Z.mul_comm, Z.div_mul by done. apply Nat2Z.id. }
  unfold server_at. rewrite Hs. apply spawned_ext. intros v. by apply server_page.
Qed.
End built.

(** The process server when it is entered. *)
Definition first_state (k : kernel machine) (b : board U D) : psrv (board U D) :=
  {| app_ino := 0; app_pid := 0; shell_waiting := None; kern := on_board k b |}.

Context (Hjunk : length junk = Z.to_nat TERM_BUF_SIZE).

(** C10: the system that [mkfs] builds comes up.  Let [mkfs] make an image from the
    binaries of a build, of which the second to fifth are executables the loader can
    load, and let the SD card of a machine, or the flash of one without a card, hold
    this image.  Then the first core prints the boot messages, with the lines of the disk
    driver and of the loader, and enters the process
    server of this build: the address space of GPID_PROCESS has exactly the pages of
    the segments of its executable and the pages of the arguments, system calls and
    the stack.  The process server goes on, on the memory and the devices as [boot]
    left them, to read the other three from the disk and spawns the terminal server,
    the file server and the shell of the build, each with its well-known process id and
    exactly its image, in this order and with the log that names them.  The only
    other end is that the process table or the memory is full. *)
Theorem system_comes_up bins users beyond cpu img recv n b disk pre ch rest :
  build bins users beyond cpu img -> recv_ok tw (Devices0 := devices) recv ->
  powered_on disk m b -> plat = ARTY \/ mhartid (b_hart b) <> 0 ->
  typed (b_uart b) = pre ++ ch :: rest -> Forall (fun x => x <> Byte.x30 /\ x <> Byte.x31) pre ->
  ch = Byte.x30 \/ ch = Byte.x31 -> (length pre < n)%nat ->
  match boot udev sdev fuel mtime rom trap_entry junk n vendor_id b with
  | Ok (Enters tr k, b') => entered (elf_blocks (elf 1)) (phs 1) tr k /\ get_machine b' = mach k /\
      printed (b_uart b') = printed (b_uart b) ++ boot_log plat (mhartid (b_hart b)) disk tr (phs 1) /\
      match start_servers (mmu_init mtime plat tr) tw junk board_read recv (first_state k b') with
      | Ok (_, s') => servers_started tw (Devices0 := devices) recv server_at phs_at (first_state k b') s'
      | Fatal e => start_fatal e
      | Stuck | NoFuel => False
      end
  | Fatal e => e = no_memory
  | Ok (Hangs, _) | Stuck | NoFuel => False
  end.
Proof using Hfuel Hcap Hjunk Hrd.
  intros Hbuild Hrecv Hb Hfirst Ht Hpre Hch Hn.
  destruct (bu_servers _ _ _ _ _ Hbuild 1%nat ltac:(lia)) as [_ Hok].
  assert (2 * (EGOS_BIN_MAX_NBYTE / BLOCK_SIZE) <= cap) as Hcap' by (change (EGOS_BIN_MAX_NBYTE / BLOCK_SIZE) with 256; change slot_blocks with 256 in Hcap; lia).
  pose proof (wp_boot udev sdev sl vendor_id fuel patience delay cap mtime rom trap_entry junk Hfuel Hcap' Hclock Hjunk n b disk m (phs 1) pre ch rest
    Hb Hfirst Ht Hpre Hch Hn (server_headers _ _ _ _ _ Hbuild 1 ltac:(lia)) (eo_segs _ _ Hok) (placed_in_slot (elf 1) (phs 1) Hok) (eo_disjoint _ _ Hok)) as H.
  cbv zeta in H. unfold wp in H. destruct (boot _ _ _ _ _ _ _ _ _) as [[r b']| | |]; [|exact H..].
  destruct H as (k & -> & H). split; [|split; [apply H|split; [apply H|]]].
  { eapply entered_ext; [|apply H]. intros v. by apply (server_page _ _ _ _ _ Hbuild 1 v ltac:(lia)). }
  assert (idle_from tw (Devices0 := devices) (on_board k b') GPID_TERMINAL) as Hidle by apply H.
  pose proof (wp_start_servers tw (Devices0 := devices) junk mtime plat (if bool_decide (ch = Byte.x30) then PAGE_TABLE else SOFT_TLB) board_read recv
    (fun q => GPID_PROCESS < q) places phs_at (fun _ H => H) Hjunk (first_state k b') Hidle Hrecv
    (built_server _ _ _ _ _ Hbuild _ 2 ltac:(lia)) (built_server _ _ _ _ _ Hbuild _ 3 ltac:(lia)) (built_server _ _ _ _ _ Hbuild _ 4 ltac:(lia))) as Hst.
  unfold wp in Hst. destruct (start_servers _ _ _ _ _ _) as [[[] s']| | |]; [|exact Hst..].
  destruct Hst as (m1 & s1 & s2 & m2 & s3 & s4 & H1 & H2 & H3 & H4 & H5 & H6 & H7 & H8 & H9). exists m1, s1, s2, m2, s3, s4.
  split_and!; [apply (started_server _ _ _ _ _ Hbuild _ _ _ 2 ltac:(lia)), H1|done|done|apply (started_server _ _ _ _ _ Hbuild _ _ _ 3 ltac:(lia)), H4|done|done|
    apply (started_server _ _ _ _ _ Hbuild _ _ _ 4 ltac:(lia)), H7|done|done].
Qed.
End image.

(** ** A build in which every server is the executable of [t_phs] *)
Definition i_elf : list byte := t_header ++ zeros 3584 ++ replicate 700 Byte.x13.
Definition i_bins : list (list byte) := [lit "egos"; i_elf; i_elf; i_elf; i_elf].

Lemma i_elf_ok : elf_ok i_elf t_phs.
Proof.
  split; [| |apply t_seg_ok| |apply t_seg_disjoint].
  - change (length i_elf) with 4796%nat. unfold EGOS_BIN_MAX_NBYTE. lia.
  - vm_compute. reflexivity.
  - change (length i_elf) with 4796%nat. apply Forall_forall. intros ph Hph _. unfold t_phs in Hph. rewrite !elem_of_cons, elem_of_nil in Hph.
    destruct Hph as [->|[->|[]]]; by vm_compute.
Qed.

Lemma i_bins_fit : bins_fit i_bins 0 (Z.to_nat SIZE_2MB).
Proof.
  intros k b Hk. pose proof (lookup_lt_Some _ _ _ Hk) as Hlt. change (length i_bins) with 5%nat in *.
  assert (length b <= 4796)%nat as Hb.
  { assert (Forall (fun b => length b <= 4796)%nat i_bins) as Hall by (apply (bool_decide_unpack _); vm_compute; exact I).
    by eapply Forall_lookup_1 in Hall. }
  split; [intros _; unfold EGOS_BIN_MAX_NBYTE; lia|]. unfold EGOS_BIN_MAX_NBYTE, SIZE_2MB. nia.
Qed.

(** A board whose card holds an image. *)
Definition i_blocks (img : image) (n : Z) : block := elf_blocks (disk_img img) n.
Definition i_card (img : image) : sim := {| s_mem := i_blocks img; s_stage := Powered; s_in := []; s_out := []; s_data := None |}.
Definition i_board (img : image) : board uart ctrl :=
  with_disk s_board {| dtype := SD_CARD; dhw := {| on_bus := i_card img; mosi := 0; rx := None |} |}.

Lemma elf_blocks_block bs n : is_block (elf_blocks bs n).
Proof. unfold is_block, elf_blocks, nth_block. rewrite length_app, length_zeros, length_take. change (Z.to_nat BLOCK_SIZE) with 512%nat. lia. Qed.

Lemma i_powered_on img : @powered_on _ _ _ (sim_uart QEMU) (sim_dev QEMU) (sim_slave QEMU) 0 2 0 1 8192 s_rom
  s_tty_spec (sim_spi QEMU) (sim_card QEMU) SD_CARD (i_blocks img) (i_board img).
Proof.
  destruct s_powered_on as [H1 _ H3 H4 H5 H6 H7]. split; try done.
  exists (i_card img). split; [by split|]. left. split; [done|]. split_and!; [done..|]. intros n. apply elf_blocks_block.
Qed.

Lemma i_image img : mkfs t_rd 1 i_bins t_users (zeros 256) [] = Ok img -> length (disk_img img) = Z.to_nat (2 * SIZE_2MB).
Proof.
  intros Hmk. pose proof (mkfs_ok t_rd t_rd_ok i_bins t_users (zeros 256) [] i_bins_fit t_users_ok eq_refl) as H. rewrite Hmk in H.
  destruct H as (exec & fs & F & -> & Hexec & _ & [Hfs Hbl] & _); [done|].
  assert (length (mjoin (M := list) fs) = 512 * length fs)%nat as Hj.
  { clear -Hbl. induction Hbl as [|x fs Hx _ IH]; [done|]. change (mjoin (x :: fs)) with (x ++ mjoin fs). rewrite length_app, IH, Hx, length_cons. change (Z.to_nat BLOCK_SIZE) with 512%nat. lia. }
  rewrite length_app, Hexec, Hj. change (length (A := list byte) fs) with (length (A := block) fs). rewrite Hfs. change (FILE_SYS_DISK_SIZE / BLOCK_SIZE) with 4096. unfold SIZE_2MB. lia.
Qed.

(** The build, on the card. *)
Lemma i_build img : mkfs t_rd 1 i_bins t_users (zeros 256) [] = Ok img ->
  build (i_blocks img) t_rd (fun _ => i_elf) (fun _ => t_phs) i_bins t_users (zeros 256) [] img.
Proof.
  intros Hmk. pose proof (i_image img Hmk) as Hl.
  split; [apply i_bins_fit|apply t_users_ok|done|done|done| | |].
  - intros k Hk. split; [|apply i_elf_ok]. clear -Hk. destruct k as [|[|[|[|[|k]]]]]; [exfalso; lia|reflexivity..|exfalso; lia].
  - change (2 * SIZE_2MB / BLOCK_SIZE) with 8192. intros i Hi. unfold i_blocks. rewrite (elf_blocks_nth _ _ 0); [by rewrite app_nil_r|lia|].
    rewrite Hl. unfold SIZE_2MB. lia.
  - intros i. apply elf_blocks_block.
Qed.

(** Receiving, where the other processes only switch the address space. *)
Definition i_recv (server : Z) : M (psrv (board uart ctrl)) (list byte) :=
  mach_call (on_machine (mmu_switch u_earth GPID_PROCESS));; mret (hello server ++ NUL :: zeros 900).
Definition i_devices (img : image) : Devices (board_write (D := ctrl) (sim_uart QEMU) 2 QEMU) :=
  @board_devices _ _ _ (sim_uart QEMU) (sim_dev QEMU) (sim_slave QEMU) 0 2 0 1 8192 s_rom s_tty_spec (sim_spi QEMU) (sim_card QEMU) (i_blocks img).

Lemma i_recv_ok img : recv_ok (board_write (sim_uart QEMU) 2 QEMU) (Devices0 := i_devices img) i_recv.
Proof.
  intros server pid s Ht Hm Hd Hp He.
  pose proof (@switch_spec _ u_earth (soft_tlb_spec (tick 0) QEMU SOFT_TLB (tick_ok 0 (Z.le_refl 0))) (get_machine (mach (kern s))) GPID_PROCESS Hm ltac:(done)) as Hsw.
  destruct (wp_returns _ _ _ Hsw) as ([] & m & Hr & Hi & Hv & Ha).
  exists (zeros 900), (with_kern s (with_mach (kern s) (set_machine (mach (kern s)) m))). split.
  - unfold i_recv. erewrite mbind_ok; [reflexivity|]. unfold mach_call, kern_call, earth_call, on_machine. by rewrite Hr.
  - split; try done. intros q v Hq. transitivity (tlb_aspace (get_machine (mach (kern s))) q v); [apply Ha|by apply He].
Qed.

Lemma system_comes_up_witness : exists img, mkfs t_rd 1 i_bins t_users (zeros 256) [] = Ok img /\
  match boot (sim_uart QEMU) (sim_dev QEMU) 2 (tick 0) s_rom 0x80000000 s_junk 5 0 (i_board img) with
  | Ok (Enters tr k, b') => csr_mepc (hw k) = APPS_ENTRY /\
      match start_servers (mmu_init (tick 0) QEMU tr) (board_write (sim_uart QEMU) 2 QEMU) s_junk (board_read (sim_dev QEMU) 0 2 s_rom) i_recv (first_state k b') with
      | Ok (_, s') => alloc_pid (kern s') + 1 = GPID_USER_START
      | Fatal e => start_fatal e
      | Stuck | NoFuel => False
      end
  | Fatal e => e = no_memory
  | Ok (Hangs, _) | Stuck | NoFuel => False
  end.
Proof.
  assert (Hcpu : Z.of_nat (length (A := byte) []) < SIZE_2MB * 2) by done.
  pose proof (mkfs_ok t_rd t_rd_ok i_bins t_users (zeros 256) [] i_bins_fit t_users_ok eq_refl Hcpu) as Hmk.
  destruct (mkfs t_rd 1 i_bins t_users (zeros 256) []) as [img|e| |] eqn:Heq; [|destruct Hmk as [_ Hmk]; vm_compute in Hmk; lia|destruct Hmk..].
  exists img. split; [reflexivity|].
  assert (Hcore : platform_of 0 = ARTY \/ mhartid (b_hart (i_board img)) <> 0) by (right; discriminate).
  assert (Hpre : Forall (fun x => x <> Byte.x30 /\ x <> Byte.x31) (lit "x")) by (by apply (bool_decide_unpack _)).
  assert (Hlen : (length (lit "x") < 5)%nat) by (cbn; lia).
  assert (Hcap : 5 * slot_blocks <= 8192) by (by vm_compute).
  pose proof (@system_comes_up _ _ _ (sim_uart QEMU) (sim_dev QEMU) (sim_slave QEMU) 0 2 0 1 8192 (tick 0) s_rom 0x80000000 s_junk
    s_tty_spec (sim_spi QEMU) (sim_card QEMU) (sim_fuel QEMU) Hcap (tick_ok 0 (Z.le_refl 0)) (i_blocks img) t_rd t_rd_ok
    (fun _ => i_elf) (fun _ => t_phs) (length_zeros 512) i_bins t_users (zeros 256) [] img i_recv 5 (i_board img) SD_CARD (lit "x") Byte.x31 []
    (i_build img Heq) (i_recv_ok img) (i_powered_on img) Hcore eq_refl Hpre (or_intror eq_refl) Hlen) as H.
  destruct (boot _ _ _ _ _ _ _ _ _) as [[[|tr k] b']| | |]; [contradiction H| |exact H..].
  destruct H as (Hk & _ & _ & H). split; [apply Hk|].
  change (platform_of 0) with QEMU in H.
  destruct (start_servers _ _ _ _ _ _) as [[[] s']| | |]; [|exact H..].
  by destruct H as (m1 & s1 & s2 & m2 & s3 & s4 & _ & _ & _ & _ & _ & _ & _ & _ & H).
Defined.
